(* ===== verification/_CoqProject ===== *)
-Q . S2P
Prelude.v
PyFloat.v
PyStr.v
PyVal.v
PyJson.v
Models.v
Sha256.v
Retry.v
Circuit.v
Effects.v
Telemetry.v
Lifecycle.v
Faults.v
PyDecimal.v
FloatRepr.v
Interfaces.v
Pricing.v
Runner.v
Summary.v
Pool.v
JsonParse.v
JsonCodec.v
JsonLines.v
JsonAscii.v
Redaction.v
OpenAIValidate.v
Config.v
Results.v
Payloads.v
UploadAPI.v
LocalFiles.v
Scheduler.v
Lease.v
Evaluators.v
OpenAICompat.v
Adapters.v
AgentsSDK.v
Execute.v
Worker.v
Replay.v
Promptfoo.v
Generate.v
SREFixtures.v
SRE.v
Tracing.v
