(* ===== verification/Prelude.v ===== *)
(** * AgentStorm: verification library (root file)

    AgentStorm load-tests LLM agents.  The worker (src/worker) reads a run
    configuration and a dataset, runs its shard of the cases against a provider
    with a bounded pool of asyncio workers, judges every output with the
    assertions of the case, and uploads the results.  The replay integration
    (src/integrations/promptfoo) reads the durable results of a finished run
    back and lets Promptfoo evaluate them again.  This library is a shallow
    embedding of both: every function is a Rocq function of the same name (with
    a leading underscore where the source has one) that runs, and the theorems
    are about those functions.

    ** How the parts interact

    [__main__.execute] loads configuration and dataset ([config.py]), builds the
    adapter ([adapters/]), registers the run or claims a shard at the Result API
    ([results.py]) and hands the shard to [WorkloadRunner.execute]
    ([runner.py]).  Each case asks the shared circuit breaker ([circuit.py]) for
    admission, makes attempts through the fault middleware ([faults.py]), the
    distributed limiter ([scheduler.py]) and the adapter, retries by policy
    ([retry.py]), is priced ([pricing.py]) and judged ([evaluators.py]), under
    spans of a telemetry client ([telemetry.py]).  The summary decides the
    thresholds and the exit code.

    ** Files

    Python itself:
    - [Prelude]: the result monad, tactics, hint databases, lists, step
      relations with their invariants and [eventually];
    - [PyFloat], [PyStr], [PyVal], [PyDecimal], [PyJson], [JsonParse],
      [Sha256]: binary64 floats, strings as UTF-8 bytes, JSON values,
      exceptions, [decimal] arithmetic, [json.dumps], [json.loads], SHA-256;
    - [FloatRepr], [JsonCodec], [JsonLines], [JsonAscii]: the text of a float
      reads back as the float, and so does the text of every JSON value, in the
      compact, the indented and the ASCII form, one document or one per line.

    The worker (src/worker/src/agentstorm_worker):
    - [Models]: [models.py], the dataclasses of [config.py], [execution_errors.py],
      the data of [adapters/base.py];
    - [Config], [OpenAIValidate]: [config.py] and the validators it shares with
      the chat adapter;
    - [Retry], [Circuit], [Faults], [Pricing], [Evaluators], [Scheduler]: the
      modules of these names;
    - [Effects]: asyncio task code as a state and exception monad over an
      arbitrary environment, with its program logics ([total], [post]);
    - [Telemetry], [Tracing], [Lifecycle]: the sanitiser, the telemetry clients,
      the tool spans of [runner.py]; [Redaction]: what the sanitiser removes;
    - [Interfaces]: the type classes [Evaluators] and [Limiter] the runner is
      proved against ([AgentAdapter] is in [Effects]); [Evaluators], [Scheduler],
      [Adapters], [OpenAICompat], [AgentsSDK] and [SRE] give the instances;
    - [Runner], [Pool], [Summary]: [runner.py], one case, the worker pool as a
      transition system, the summary; [Execute]: [WorkloadRunner.execute] as a
      program that plays a schedule of that transition system, running each case
      with the adapter, the registry and the limiter of the run;
    - [Results], [Worker]: [results.py] and [__main__.py]; [Payloads]: what the
      Result API reads from the worker's requests; [UploadAPI]: the upload as the
      API's own structs ([internal/results/types.go]); [LocalFiles]: the result
      files of [runner.write_results]; [Lease]: a permit and its renewal task as
      two interleaved tasks;
    - [OpenAICompat], [Adapters], [AgentsSDK]: [adapters/];
    - [SREFixtures], [SRE]: [benchmarks/sre.py] with its fixture file.

    The replay (src/integrations/promptfoo): [Replay] is [client.py],
    [Promptfoo] is [provider.py] and the configuration of [generate.py],
    [Generate] its file output and [main].

    ** What the theorems show

    - A case: between one and [max_attempts] numbered attempts inside the
      backoff budget, a verdict that follows from the attempts and assertions,
      totals that are sums over the attempts, an end in every environment
      ([Runner]); backoff bounds ([Retry]).
    - A shard: no item lost or taken twice, never more than the configured
      concurrency, every schedule finite, the shards a partition of the work;
      an undisturbed shard reaches its end on every schedule and a stopped one
      drains; end to end one sound result per case and iteration ([Pool]); the
      summary independent of the completion order, its percentile and
      thresholds ([Summary]).
    - The breaker refines an abstract three-state machine; its invariant holds
      in every interleaving ([Circuit]).
    - Chat calls: retries of 429 answers only, a bound on the requests of a run,
      the charge for unknown usage ([OpenAICompat]); an accepted target builds
      an adapter with the configured limits ([Adapters]).
    - Accepted configurations and datasets are within the bounds the rest relies
      on ([Config]).
    - What is sent and written can be read: a registration decodes to its
      payload, and its fault rules parse back to the rules ([Payloads]); the
      server's reading of an upload is every field of the summary and the
      results ([UploadAPI]); the local files determine every result and the summary
      ([LocalFiles]); the generated configuration replaces its file as a whole
      and reads back ([Generate]).
    - Costs are exact and rounded once ([Pricing]); injected faults never reach
      the provider ([Faults]); assertions mean what they say, and
      which end as exceptions ([Evaluators]); a permit is released exactly once
      on every way out of the attempt, unless the cleanup is cancelled, and never
      when the stop event is seen right after the grant ([Scheduler]), and a lost permit
      never yields a response, however its renewals interleave ([Lease]).
    - Secrets: what is under a credential-like key has no influence on exported
      content and everything else stays ([Redaction]), exported text is bounded
      ([Telemetry]), uploads and generated configurations do not depend on the
      model output ([Results], [Promptfoo]).
    - Exit codes, tied to the loaded shard, its results, the leases and the stop
      event, and the scope of failures ([Worker]); spans end once
      ([Lifecycle], [Tracing]).
    - Replay: pagination is complete and ends, a generated test replays exactly
      its durable result; how the generator reads a dataset the worker accepts,
      and which lines it refuses ([Replay], [Promptfoo]).
    - The SRE benchmark: its adapter passes its own assertion, the assertion
      accepts exactly the correct traces, the token allowance covers every
      scripted request ([SRE]).

    ** Effects, fuel and bounds

    Task code is a function of a [World]; clock readings, the stop event,
    cancellations and what other cases do to the breaker come from an arbitrary
    sequence of observations, so a theorem holds for every schedule.  Concurrency
    between cases is the step relation of [Pool] and of [Circuit]; [Execute] takes
    the order of its steps, and what each case observes, as a schedule, and a
    schedule that stops before the tasks do has the outcome [Diverge].  Loops that
    are not structural take fuel, and running out is the outcome [Diverge] (or
    [OutOfFuel] in [Replay]): the attempt loop, the chat loop and the 429 loop
    start with their configured limits and are proved never to run out; the
    limiter's polling ends because the clock passes the deadline; pagination
    ends for servers with finitely many cursors, and only for those, so there
    the fuel is an argument.  The JSON parser and UTF-8 decoding use the length
    of the text.  Integers are Python's unbounded integers; hash values are kept
    at 32 and 64 bits.

    ** Parameters

    Code outside src/ is an argument of the definitions that use it: the HTTP
    transports, the regular-expression engine, the JSON Schema validator, the
    user's Python assertions and plugins, the tracing and Agents SDKs, two checks
    of [urllib.parse] on unusual network locations, HTTP dates, and the text of
    [repr] on containers and quoted strings.

    ** Not modelled

    What is printed; signal handlers, which set the stop flag of the
    environment; the interleaving of the queue lease's renewal with the shard,
    which is interference of the environment; the inside of the Agents SDK; lone
    surrogates in strings, so encoding a text as UTF-8 never fails where a file
    or a request body is written; decimal digits outside ASCII and the limit of
    4300 digits in [int] and [float] of a text; dictionary keys that are not
    strings, which JSON does not have; the benchmark drivers in src/hack (command lines
    around kubectl and HTTP mocks); the Go controller and Result API server, which
    the worker sees through HTTP only (the structs of an upload excepted).

    Plan: the queue lease of [__main__.py] as concurrent steps beside the shard,
    as [Lease] does for a permit, and the Result API's queue and permit protocol
    as an abstract partner of the worker's client. *)

From Stdlib Require Export Ascii ZArith Lia Bool Permutation Sorted.
From Stdlib Require Wf_nat.
From stdpp Require Export base option list strings gmap pretty.

#[global] Open Scope Z_scope.

(** ** Results of fallible Python code

    [Ok] is a normal return, [Err] the exception that leaves the function. *)
Inductive result (E A : Type) : Type :=
| Ok (a : A)
| Err (e : E).
Arguments Ok {E A} a.
Arguments Err {E A} e.

Section ResultMonad.
Context {E : Type}.

#[global] Instance result_ret : MRet (result E) := fun A a => Ok a.

#[global] Instance result_bind : MBind (result E) :=
  fun A B f m => match m with Ok a => f a | Err e => Err e end.

#[global] Instance result_fmap : FMap (result E) :=
  fun A B f m => match m with Ok a => Ok (f a) | Err e => Err e end.
End ResultMonad.

Definition is_ok {E A} (r : result E A) : bool :=
  match r with Ok _ => true | Err _ => false end.

(** [if not cond: raise e] *)
Definition guard {E} (cond : bool) (e : E) : result E unit :=
  if cond then Ok tt else Err e.

(** A comprehension over a fallible body: the first exception wins. *)
Fixpoint mapM_result {E A B} (f : A -> result E B) (l : list A) : result E (list B) :=
  match l with
  | [] => Ok []
  | x :: l' =>
      match f x with
      | Err e => Err e
      | Ok y => match mapM_result f l' with Err e => Err e | Ok ys => Ok (y :: ys) end
      end
  end.

(** [sum(f(x) for x in l)] *)
Definition sumZ {A} (f : A -> Z) (l : list A) : Z := foldr (fun x acc => f x + acc) 0 l.

(** Python's [x or 0] on an optional integer. *)
Definition or0 (x : option Z) : Z := default 0 x.

Definition is_some {A} (x : option A) : bool :=
  match x with Some _ => true | None => false end.

(** ** Tactics *)

(** Turns boolean tests of the code into propositions. *)
Ltac bool_simpl :=
  repeat match goal with
  | H : (_ && _)%bool = true |- _ => apply andb_true_iff in H; destruct H
  | H : (_ || _)%bool = false |- _ => apply orb_false_iff in H; destruct H
  | H : negb _ = true |- _ => apply negb_true_iff in H
  | H : negb _ = false |- _ => apply negb_false_iff in H
  | H : (_ <? _) = true |- _ => apply Z.ltb_lt in H
  | H : (_ <? _) = false |- _ => apply Z.ltb_ge in H
  | H : (_ <=? _) = true |- _ => apply Z.leb_le in H
  | H : (_ <=? _) = false |- _ => apply Z.leb_gt in H
  | H : (_ =? _) = true |- _ => apply Z.eqb_eq in H
  | H : (_ =? _) = false |- _ => apply Z.eqb_neq in H
  | H : String.eqb _ _ = true |- _ => apply String.eqb_eq in H
  | H : String.eqb _ _ = false |- _ => apply String.eqb_neq in H
  end.

(** Case analysis on every test the goal or a hypothesis is stuck on. *)
Ltac peel := repeat (case_match; simplify_eq/=).

(** ** Lists and options *)

Section Lists.
Context {A B : Type}.
Implicit Types l : list A.

Lemma sumZ_app (f : A -> Z) l1 l2 : sumZ f (l1 ++ l2) = sumZ f l1 + sumZ f l2.
Proof. induction l1 as [|x l1 IH]; simpl; [done|]. fold (sumZ f) in *. unfold sumZ in *. lia. Qed.

Lemma sumZ_nonneg (f : A -> Z) l : (forall x, x ∈ l -> 0 <= f x) -> 0 <= sumZ f l.
Proof.
  induction l as [|x l IH]; intros Hf; unfold sumZ in *; simpl; [lia|].
  specialize (IH (fun y Hy => Hf y (list_elem_of_further _ _ _ Hy))).
  specialize (Hf x (list_elem_of_here _ _)). lia.
Qed.

Lemma sumZ_perm (f : A -> Z) l1 l2 : l1 ≡ₚ l2 -> sumZ f l1 = sumZ f l2.
Proof. induction 1; unfold sumZ in *; simpl; lia. Qed.

Lemma mapM_result_Ok {E} (f : A -> result E B) l ys :
  mapM_result f l = Ok ys <-> Forall2 (fun x y => f x = Ok y) l ys.
Proof.
  revert ys. induction l as [|x l IH]; intros ys; simpl.
  - split; [intros [= <-]; constructor | inversion 1; done].
  - split.
    + intros H. peel. constructor; [done|]. by apply IH.
    + inversion 1 as [|? y ? ys' Hf Hr]; subst. rewrite Hf. apply IH in Hr. by rewrite Hr.
Qed.

Lemma mapM_result_length {E} (f : A -> result E B) l ys :
  mapM_result f l = Ok ys -> length ys = length l.
Proof. intros H%mapM_result_Ok. symmetry. by eapply Forall2_length. Qed.
End Lists.

(** ** Reflexive transitive closures of step relations *)

Section Star.
Context {S : Type} (step : S -> S -> Prop).

Inductive star : S -> S -> Prop :=
| star_refl s : star s s
| star_next s1 s2 s3 : step s1 s2 -> star s2 s3 -> star s1 s3.

Lemma star_one s1 s2 : step s1 s2 -> star s1 s2.
Proof. intros. eapply star_next; [done|constructor]. Qed.

Lemma star_app s1 s2 s3 : star s1 s2 -> star s2 s3 -> star s1 s3.
Proof. induction 1; [done|]. intros. eapply star_next; eauto. Qed.

(** An inductive invariant holds in every reachable state. *)
Lemma star_invariant (I : S -> Prop) :
  (forall s s', I s -> step s s' -> I s') -> forall s s', star s s' -> I s -> I s'.
Proof. intros Hstep s s'. induction 1; eauto. Qed.
End Star.

(** ** Liveness

    [eventually P s]: whatever steps are chosen from [s], a state in [P] is
    reached, and until then there is always a step to take. *)
Section Eventually.
Context {S : Type} (step : S -> S -> Prop) (P : S -> Prop).

Inductive eventually (s : S) : Prop :=
| ev_now : P s -> eventually s
| ev_next : (exists s', step s s') -> (forall s', step s s' -> eventually s') -> eventually s.

(** Progress under an invariant and a measure that steps lower. *)
Lemma eventually_measure (I : S -> Prop) (m : S -> nat) :
  (forall s, I s -> P s \/ (exists s', step s s') /\ forall s', step s s' -> I s' /\ (m s' < m s)%nat) ->
  forall s, I s -> eventually s.
Proof.
  intros Hprog s. induction s as [s IH] using (Wf_nat.induction_ltof1 _ m). intros Hs.
  destruct (Hprog s Hs) as [HP|[Hnext Hstep]]; [by apply ev_now|].
  apply ev_next; [done|]. intros s' Hst. destruct (Hstep s' Hst). by apply IH.
Qed.
End Eventually.

Lemma eventually_mono {S} (step : S -> S -> Prop) (P Q : S -> Prop) s :
  (forall s, P s -> Q s) -> eventually step P s -> eventually step Q s.
Proof.
  intros HPQ. induction 1 as [s Hs|s Hex _ IH]; [by apply ev_now, HPQ|by apply ev_next].
Qed.

(** ** Integer division helpers *)

Lemma Z_div_ge_mul a b c : 0 < c -> b * c <= a -> b <= a / c.
Proof. intros. apply Z.div_le_lower_bound; lia. Qed.

Lemma Z_div_lt_mul a b c : 0 < c -> a < b * c -> a / c < b.
Proof. intros. apply Z.div_lt_upper_bound; lia. Qed.

(** ** Hint databases *)

Create HintDb pyfloat.
Create HintDb effects.
Create HintDb agentstorm.

#[export] Hint Resolve Z.le_refl Z.lt_le_incl : agentstorm.
Create Rewrite HintDb agentstorm.
#[export] Hint Rewrite @length_app @length_map @sumZ_app : agentstorm.
