(* ===== verification/PyFloat.v ===== *)
(** * Python floats (IEEE 754 binary64), executable

    A finite binary64 number is an integer multiple of [2^-1074], so [Fin k]
    stands for [k * 2^-1074].  Comparison of floats is then comparison of
    integers, and every operation is the exact rational operation followed by
    one rounding to 53 significant bits, ties to even.  Numbers below [2^53]
    units are all representable: the subnormal range needs no case of its own.
    [-0.0] is identified with [0.0]; no test of the modelled code tells them
    apart. *)
From S2P Require Import Prelude.

Module PyFloat.

Inductive float : Type :=
| Fin (k : Z)
| PInf
| NInf
| NaN.

#[global] Instance float_eq_dec : EqDecision float.
Proof. solve_decision. Defined.

(** One unit in units of [2^-1074]. *)
Definition one_k : Z := 2 ^ 1074.

(** First magnitude that overflows: [2^1024]. *)
Definition huge_k : Z := 2 ^ 2098.

(** Nearest integer to [n / d], ties to even ([d > 0]). *)
Definition rhe (n d : Z) : Z :=
  let q := n / d in
  let r := n mod d in
  if 2 * r <? d then q
  else if d <? 2 * r then q + 1
  else if Z.even q then q else q + 1.

(** Number of low bits that do not fit in 53 bits. *)
Definition shift_of (q : Z) : Z := Z.max 0 (Z.log2 q - 52).

(** Nearest 53-bit integer to the non-negative ratio [a / d]. *)
Definition rnd_pos (a d : Z) : Z :=
  let s := shift_of (a / d) in rhe a (d * 2 ^ s) * 2 ^ s.

Definition rnd (n d : Z) : Z :=
  if 0 <=? n then rnd_pos n d else - rnd_pos (- n) d.

(** The float nearest to [n / d] units. *)
Definition of_units (n d : Z) : float :=
  let k := rnd n d in
  if Z.abs k <? huge_k then Fin k else if 0 <? n then PInf else NInf.

(** The float nearest to the rational [n / d]; Python's [n / d] on integers. *)
Definition of_ratio (n d : Z) : float := of_units (n * one_k) d.

(** [float(z)]; the overflowing integers are infinite here, Python raises. *)
Definition of_Z (z : Z) : float := of_ratio z 1.

Definition fadd (x y : float) : float :=
  match x, y with
  | Fin a, Fin b => of_units (a + b) 1
  | NaN, _ | _, NaN => NaN
  | PInf, NInf | NInf, PInf => NaN
  | PInf, _ | _, PInf => PInf
  | NInf, _ | _, NInf => NInf
  end.

Definition fneg (x : float) : float :=
  match x with Fin a => Fin (- a) | PInf => NInf | NInf => PInf | NaN => NaN end.

Definition fsub (x y : float) : float := fadd x (fneg y).

Definition inf_of_sign (z : Z) : float :=
  if 0 <? z then PInf else if z <? 0 then NInf else NaN.

Definition fmul (x y : float) : float :=
  match x, y with
  | Fin a, Fin b => of_units (a * b) one_k
  | NaN, _ | _, NaN => NaN
  | PInf, PInf | NInf, NInf => PInf
  | PInf, NInf | NInf, PInf => NInf
  | PInf, Fin a | Fin a, PInf => inf_of_sign a
  | NInf, Fin a | Fin a, NInf => inf_of_sign (- a)
  end.

(** [x / y]; [None] is ZeroDivisionError. *)
Definition fdiv (x y : float) : option float :=
  match x, y with
  | _, Fin 0 => None
  | Fin a, Fin b => Some (of_units (a * one_k * Z.sgn b) (Z.abs b))
  | NaN, _ | _, NaN => Some NaN
  | Fin _, (PInf | NInf) => Some (Fin 0)
  | PInf, Fin b => Some (inf_of_sign b)
  | NInf, Fin b => Some (inf_of_sign (- b))
  | _, _ => Some NaN
  end.

(** [x < y] and [x <= y]; every comparison with NaN is false. *)
Definition flt (x y : float) : bool :=
  match x, y with
  | NaN, _ | _, NaN => false
  | Fin a, Fin b => a <? b
  | NInf, NInf => false
  | NInf, _ => true
  | Fin _, PInf => true
  | _, _ => false
  end.

Definition fle (x y : float) : bool :=
  match x, y with
  | NaN, _ | _, NaN => false
  | Fin a, Fin b => a <=? b
  | NInf, _ => true
  | _, PInf => true
  | _, _ => false
  end.

Definition feq (x y : float) : bool := fle x y && fle y x.

(** Python's [max(x, y)] and [min(x, y)]: the first argument wins ties and
    unordered comparisons. *)
Definition fmax (x y : float) : float := if flt x y then y else x.
Definition fmin (x y : float) : float := if flt y x then y else x.

Definition is_finite (x : float) : bool :=
  match x with Fin _ => true | _ => false end.

(** [round(x)] and [math.ceil(x)]; [None] is the exception on inf and nan. *)
Definition fround (x : float) : option Z :=
  match x with Fin k => Some (rhe k one_k) | _ => None end.

Definition fceil (x : float) : option Z :=
  match x with Fin k => Some (- ((- k) / one_k)) | _ => None end.

(** [x.is_integer()] *)
Definition is_integer (x : float) : bool :=
  match x with Fin k => k mod one_k =? 0 | _ => false end.

(** [int(x)]: truncation toward zero. *)
Definition ftrunc (x : float) : option Z :=
  match x with Fin k => Some (Z.quot k one_k) | _ => None end.

(** Integers with at most 53 significant bits. *)
Definition repr53 (k : Z) : Prop :=
  exists m e, 0 <= e /\ Z.abs m < 2 ^ 53 /\ k = m * 2 ^ e.

(** ** Rounding to an integer *)

Lemma one_k_pos : 0 < one_k.
Proof. by unfold one_k; apply Z.pow_pos_nonneg. Qed.

Lemma huge_k_pos : 0 < huge_k.
Proof. by unfold huge_k; apply Z.pow_pos_nonneg. Qed.

#[local] Opaque one_k huge_k.

Lemma rhe_bounds n d : 0 < d -> 2 * d * rhe n d - d <= 2 * n <= 2 * d * rhe n d + d.
Proof.
  intros Hd. unfold rhe. pose proof (Z.div_mod n d). pose proof (Z.mod_pos_bound n d Hd).
  destruct (2 * (n mod d) <? d) eqn:E1; bool_simpl; [nia|].
  destruct (d <? 2 * (n mod d)) eqn:E2; bool_simpl; [nia|].
  destruct (Z.even _); nia.
Qed.

Lemma rhe_exact q d : 0 < d -> rhe (q * d) d = q.
Proof.
  intros Hd. unfold rhe. rewrite Z.div_mul, Z.mod_mul by lia.
  destruct (2 * 0 <? d) eqn:E; bool_simpl; lia.
Qed.

(** The rounded value sits between floor and ceiling. *)
Lemma rhe_floor n d : 0 < d -> n / d <= rhe n d <= n / d + 1.
Proof. intros Hd. unfold rhe. repeat case_match; lia. Qed.

Lemma rhe_same_floor n1 d1 n2 d2 :
  0 < d1 -> 0 < d2 -> n1 * d2 <= n2 * d1 -> n1 / d1 = n2 / d2 -> rhe n1 d1 <= rhe n2 d2.
Proof.
  intros H1 H2 Hle Hq. unfold rhe. rewrite Hq.
  pose proof (Z.div_mod n1 d1). pose proof (Z.div_mod n2 d2).
  rewrite Hq in *. set (q := n2 / d2) in *.
  set (r1 := n1 mod d1) in *. set (r2 := n2 mod d2) in *.
  assert (r1 * d2 <= r2 * d1) by nia.
  destruct (2 * r1 <? d1) eqn:A1; bool_simpl; [repeat case_match; lia|].
  destruct (d1 <? 2 * r1) eqn:A2; bool_simpl.
  - assert (d2 < 2 * r2) by nia.
    destruct (2 * r2 <? d2) eqn:B1; bool_simpl; [lia|].
    destruct (d2 <? 2 * r2) eqn:B2; bool_simpl; lia.
  - assert (d2 <= 2 * r2) by nia.
    destruct (2 * r2 <? d2) eqn:B1; bool_simpl; [lia|].
    destruct (d2 <? 2 * r2) eqn:B2; destruct (Z.even q); lia.
Qed.

Lemma div_mono_ratio n1 d1 n2 d2 :
  0 < d1 -> 0 < d2 -> n1 * d2 <= n2 * d1 -> n1 / d1 <= n2 / d2.
Proof.
  intros. apply Z_div_ge_mul; [done|].
  pose proof (Z.mul_div_le n1 d1). nia.
Qed.

Lemma rhe_mono n1 d1 n2 d2 :
  0 < d1 -> 0 < d2 -> n1 * d2 <= n2 * d1 -> rhe n1 d1 <= rhe n2 d2.
Proof.
  intros H1 H2 Hle. pose proof (div_mono_ratio _ _ _ _ H1 H2 Hle) as Hq.
  destruct (Z.eq_dec (n1 / d1) (n2 / d2)) as [E|E]; [by apply rhe_same_floor|].
  pose proof (rhe_floor n1 d1 H1). pose proof (rhe_floor n2 d2 H2). lia.
Qed.

Lemma rhe_nonneg n d : 0 < d -> 0 <= n -> 0 <= rhe n d.
Proof. intros. pose proof (rhe_floor n d). pose proof (Z.div_pos n d). lia. Qed.

(** ** Rounding to 53 bits *)

Lemma shift_of_nonneg q : 0 <= shift_of q.
Proof. unfold shift_of; lia. Qed.

Lemma pow2_pos s : 0 <= s -> 0 < 2 ^ s.
Proof. intros; apply Z.pow_pos_nonneg; lia. Qed.

Lemma shift_of_mono q1 q2 : q1 <= q2 -> shift_of q1 <= shift_of q2.
Proof. intros. unfold shift_of. pose proof (Z.log2_le_mono q1 q2). lia. Qed.

(** The significand before rounding has at most 53 bits, and 53 of them
    as soon as something is shifted out. *)
Lemma shifted_bounds a d :
  0 < d -> 0 <= a ->
  a / (d * 2 ^ shift_of (a / d)) < 2 ^ 53 /\
  (0 < shift_of (a / d) -> 2 ^ 52 <= a / (d * 2 ^ shift_of (a / d))).
Proof.
  intros Hd Ha. set (q := a / d). set (s := shift_of q).
  assert (0 <= s) by apply shift_of_nonneg.
  pose proof (pow2_pos s ltac:(done)).
  rewrite <- Z.div_div by lia. fold q.
  assert (0 <= q) by (apply Z.div_pos; lia).
  destruct (Z.eq_dec q 0) as [E|E].
  { rewrite E. rewrite Z.div_0_l by lia. split; [by apply pow2_pos|].
    unfold s, shift_of. rewrite E. simpl. lia. }
  pose proof (Z.log2_spec q ltac:(lia)) as [Hlo Hhi].
  split.
  - apply Z_div_lt_mul; [lia|]. rewrite <- Z.pow_add_r by lia.
    eapply Z.lt_le_trans; [exact Hhi|]. apply Z.pow_le_mono_r; [lia|].
    unfold s, shift_of. lia.
  - intros Hs. apply Z_div_ge_mul; [lia|]. rewrite <- Z.pow_add_r by lia.
    replace (52 + s) with (Z.log2 q) by (unfold s, shift_of in *; lia). done.
Qed.

Lemma rnd_pos_upper a d :
  0 < d -> 0 <= a -> rnd_pos a d <= 2 ^ (53 + shift_of (a / d)).
Proof.
  intros Hd Ha. unfold rnd_pos. set (s := shift_of (a / d)).
  assert (0 <= s) by apply shift_of_nonneg. pose proof (pow2_pos s ltac:(done)).
  rewrite Z.pow_add_r by lia.
  pose proof (rhe_floor a (d * 2 ^ s) ltac:(nia)).
  pose proof (shifted_bounds a d Hd Ha) as [Hb _]. fold s in Hb.
  apply Z.mul_le_mono_nonneg_r; lia.
Qed.

Lemma rnd_pos_lower a d :
  0 < d -> 0 <= a -> 0 < shift_of (a / d) -> 2 ^ (52 + shift_of (a / d)) <= rnd_pos a d.
Proof.
  intros Hd Ha Hs. unfold rnd_pos. set (s := shift_of (a / d)) in *.
  pose proof (pow2_pos s ltac:(lia)).
  rewrite Z.pow_add_r by lia.
  pose proof (rhe_floor a (d * 2 ^ s) ltac:(nia)).
  pose proof (shifted_bounds a d Hd Ha) as [_ Hb]. fold s in Hb.
  apply Z.mul_le_mono_nonneg_r; [lia|]. specialize (Hb Hs). lia.
Qed.

Lemma rnd_pos_nonneg a d : 0 < d -> 0 <= a -> 0 <= rnd_pos a d.
Proof.
  intros. unfold rnd_pos. pose proof (pow2_pos _ (shift_of_nonneg (a / d))).
  apply Z.mul_nonneg_nonneg; [apply rhe_nonneg|]; nia.
Qed.

Lemma rnd_pos_mono a1 d1 a2 d2 :
  0 < d1 -> 0 < d2 -> 0 <= a1 -> 0 <= a2 -> a1 * d2 <= a2 * d1 ->
  rnd_pos a1 d1 <= rnd_pos a2 d2.
Proof.
  intros H1 H2 Ha1 Ha2 Hle.
  pose proof (div_mono_ratio _ _ _ _ H1 H2 Hle) as Hq.
  pose proof (shift_of_mono _ _ Hq) as Hs.
  pose proof (shift_of_nonneg (a1 / d1)) as Hs1.
  destruct (Z.eq_dec (shift_of (a1 / d1)) (shift_of (a2 / d2))) as [E|E].
  - unfold rnd_pos. rewrite E in *. set (s := shift_of (a2 / d2)) in *.
    pose proof (pow2_pos s ltac:(lia)).
    apply Z.mul_le_mono_nonneg_r; [lia|]. apply rhe_mono; nia.
  - etrans; [apply rnd_pos_upper; done|].
    etrans; [|apply rnd_pos_lower; [done..|lia]].
    apply Z.pow_le_mono_r; lia.
Qed.

Lemma rnd_mono n1 d1 n2 d2 :
  0 < d1 -> 0 < d2 -> n1 * d2 <= n2 * d1 -> rnd n1 d1 <= rnd n2 d2.
Proof.
  intros H1 H2 Hle. unfold rnd.
  destruct (0 <=? n1) eqn:E1; destruct (0 <=? n2) eqn:E2; bool_simpl.
  - by apply rnd_pos_mono.
  - nia.
  - pose proof (rnd_pos_nonneg (- n1) d1). pose proof (rnd_pos_nonneg n2 d2). lia.
  - apply -> Z.opp_le_mono. apply rnd_pos_mono; lia.
Qed.

Lemma repr53_opp k : repr53 k -> repr53 (- k).
Proof. intros (m & e & He & Hm & ->). exists (- m), e. lia. Qed.

Lemma repr53_small k : Z.abs k < 2 ^ 53 -> repr53 k.
Proof. intros. exists k, 0. lia. Qed.

Lemma repr53_scale k s : 0 <= s -> repr53 k -> repr53 (k * 2 ^ s).
Proof.
  intros Hs (m & e & He & Hm & ->). exists m, (e + s).
  rewrite Z.pow_add_r by lia. lia.
Qed.

(** A representable value loses nothing to the shift. *)
Lemma repr53_shift k : 0 <= k -> repr53 k -> exists k', k = k' * 2 ^ shift_of k.
Proof.
  intros Hk (m & e & He & Hm & ->). unfold shift_of.
  destruct (Z.max_spec 0 (Z.log2 (m * 2 ^ e) - 52)) as [[Hs ->]|[_ ->]].
  2: { exists (m * 2 ^ e). lia. }
  pose proof (pow2_pos e He). destruct (Z.eq_dec m 0) as [->|]; [simpl in Hs; lia|].
  assert (0 < m) by nia. rewrite Z.log2_mul_pow2 in * by lia.
  assert (Z.log2 m < 53) by (apply Z.log2_lt_pow2; lia).
  pose proof (Z.log2_nonneg m).
  exists (m * 2 ^ (e - (e + Z.log2 m - 52))).
  rewrite <- Z.mul_assoc, <- Z.pow_add_r by lia. do 2 f_equal. lia.
Qed.

Lemma rnd_exact k d : 0 < d -> repr53 k -> rnd (k * d) d = k.
Proof.
  intros Hd.
  assert (forall k, 0 <= k -> repr53 k -> rnd_pos (k * d) d = k) as Hpos.
  { intros j Hj Hr. unfold rnd_pos. rewrite Z.div_mul by lia.
    destruct (repr53_shift j Hj Hr) as [j' Hj'].
    pose proof (pow2_pos _ (shift_of_nonneg j)).
    replace (j * d) with (j' * (d * 2 ^ shift_of j)) by (rewrite Hj' at 2; ring).
    rewrite rhe_exact by nia. done. }
  intros Hr. unfold rnd. destruct (0 <=? k * d) eqn:E; bool_simpl.
  - apply Hpos; [nia|done].
  - rewrite <- Z.mul_opp_l, Hpos; [lia|nia|by apply repr53_opp].
Qed.

(** Rounded values are representable, so rounding again changes nothing. *)
Lemma rnd_pos_repr53 a d : 0 < d -> 0 <= a -> repr53 (rnd_pos a d).
Proof.
  intros Hd Ha. unfold rnd_pos. set (s := shift_of (a / d)).
  assert (0 <= s) by apply shift_of_nonneg. pose proof (pow2_pos s ltac:(done)).
  apply repr53_scale; [done|].
  pose proof (rhe_floor a (d * 2 ^ s) ltac:(nia)).
  pose proof (rhe_nonneg a (d * 2 ^ s) ltac:(nia) Ha).
  pose proof (shifted_bounds a d Hd Ha) as [Hb _]. fold s in Hb.
  destruct (Z.eq_dec (rhe a (d * 2 ^ s)) (2 ^ 53)) as [->|].
  - exists 1, 53. lia.
  - apply repr53_small. lia.
Qed.

Lemma rnd_repr53 n d : 0 < d -> repr53 (rnd n d).
Proof.
  intros. unfold rnd. destruct (0 <=? n) eqn:E; bool_simpl.
  - by apply rnd_pos_repr53.
  - apply repr53_opp, rnd_pos_repr53; lia.
Qed.

(** The floats the operations produce. *)
Definition wf_float (x : float) : Prop :=
  match x with Fin k => repr53 k /\ Z.abs k < huge_k | _ => True end.

Lemma of_units_wf n d : 0 < d -> wf_float (of_units n d).
Proof.
  intros. unfold of_units. destruct (_ <? _) eqn:E; bool_simpl.
  - split; [by apply rnd_repr53|done].
  - by destruct (0 <? n).
Qed.

(** ** Order *)

Lemma flt_irrefl x : flt x x = false.
Proof. destruct x; simpl; try done. apply Z.ltb_irrefl. Qed.

Lemma fle_trans x y z : fle x y = true -> fle y z = true -> fle x z = true.
Proof. destruct x, y, z; simpl; intros; try done; bool_simpl; apply Z.leb_le; lia. Qed.

Lemma flt_fle x y : flt x y = true -> fle x y = true.
Proof. destruct x, y; simpl; intros; try done; bool_simpl; apply Z.leb_le; lia. Qed.

Lemma flt_not_fle x y : flt x y = true -> fle y x = false.
Proof. destruct x, y; simpl; intros; try done; bool_simpl; apply Z.leb_gt; lia. Qed.

Lemma fle_refl x : x <> NaN -> fle x x = true.
Proof. destruct x; simpl; try done. intros _. apply Z.leb_refl. Qed.

Lemma flt_total x y : x <> NaN -> y <> NaN -> flt x y = false -> fle y x = true.
Proof. destruct x, y; simpl; intros; try done; bool_simpl; apply Z.leb_le; lia. Qed.

Lemma fmin_fle_l x y : x <> NaN -> fle (fmin x y) x = true.
Proof.
  intros Hx. unfold fmin. destruct (flt y x) eqn:E; [by apply flt_fle|by apply fle_refl].
Qed.

Lemma fmax_ge_l x y : x <> NaN -> fle x (fmax x y) = true.
Proof.
  intros Hx. unfold fmax. destruct (flt x y) eqn:E; [by apply flt_fle|by apply fle_refl].
Qed.

(** Rounding preserves the order of the exact values. *)
Lemma of_units_fin n d k : of_units n d = Fin k -> k = rnd n d.
Proof. unfold of_units. repeat case_match; congruence. Qed.

Lemma of_units_not_nan n d : of_units n d <> NaN.
Proof. unfold of_units. repeat case_match; done. Qed.

Lemma rnd_0 d : 0 < d -> rnd 0 d = 0.
Proof. intros. apply (rnd_exact 0 d); [done|by apply repr53_small]. Qed.

Lemma rnd_sign_pos n d : 0 < d -> 0 <= n -> 0 <= rnd n d.
Proof. intros. rewrite <- (rnd_0 d) by done. apply rnd_mono; lia. Qed.

Lemma rnd_sign_neg n d : 0 < d -> n <= 0 -> rnd n d <= 0.
Proof. intros. rewrite <- (rnd_0 d) by done. apply rnd_mono; lia. Qed.

Lemma of_units_mono n1 d1 n2 d2 :
  0 < d1 -> 0 < d2 -> n1 * d2 <= n2 * d1 -> fle (of_units n1 d1) (of_units n2 d2) = true.
Proof.
  intros H1 H2 Hle. pose proof (rnd_mono _ _ _ _ H1 H2 Hle) as Hm.
  pose proof huge_k_pos.
  unfold of_units.
  destruct (Z.abs (rnd n1 d1) <? huge_k) eqn:A1; destruct (Z.abs (rnd n2 d2) <? huge_k) eqn:A2;
    bool_simpl; simpl.
  - by apply Z.leb_le.
  - destruct (0 <? n2) eqn:B; [done|]. bool_simpl.
    pose proof (rnd_sign_neg n2 d2). lia.
  - destruct (0 <? n1) eqn:B; [|done]. bool_simpl.
    pose proof (rnd_sign_pos n1 d1). lia.
  - destruct (0 <? n1) eqn:B1; destruct (0 <? n2) eqn:B2; bool_simpl; try done. nia.
Qed.

(** Exactly representable values are their own float. *)
Lemma of_units_exact k d : 0 < d -> repr53 k -> Z.abs k < huge_k -> of_units (k * d) d = Fin k.
Proof.
  intros Hd Hr Hk. unfold of_units. rewrite rnd_exact by done.
  apply Z.ltb_lt in Hk. by rewrite Hk.
Qed.

#[local] Transparent one_k huge_k.

Lemma repr53_one_k z : Z.abs z < 2 ^ 53 -> repr53 (z * one_k).
Proof. intros. apply repr53_scale; [lia|]. by apply repr53_small. Qed.

Lemma small_not_huge z : Z.abs z < 2 ^ 53 -> Z.abs (z * one_k) < huge_k.
Proof.
  intros Hz. assert (2 ^ 53 * one_k <= huge_k) by (unfold one_k, huge_k; rewrite <- Z.pow_add_r by lia;
    apply Z.pow_le_mono_r; lia).
  pose proof one_k_pos. nia.
Qed.

Lemma three_not_huge : 3 * 2 ^ 53 * one_k < huge_k.
Proof. vm_compute. reflexivity. Qed.

#[local] Opaque one_k huge_k.

(** Integers below [2^53] convert exactly. *)
Lemma of_Z_exact z : Z.abs z < 2 ^ 53 -> of_Z z = Fin (z * one_k).
Proof.
  intros Hz. unfold of_Z, of_ratio.
  rewrite <- (of_units_exact (z * one_k) 1), Z.mul_1_r; [done|lia|by apply repr53_one_k|by apply small_not_huge].
Qed.

(** Addition and multiplication are monotone on the finite numbers. *)
Lemma fadd_mono a b c :
  a <= b -> fle (fadd (Fin a) (Fin c)) (fadd (Fin b) (Fin c)) = true.
Proof. intros. simpl. apply of_units_mono; lia. Qed.

Lemma fmul_mono a b c :
  0 <= c -> a <= b -> fle (fmul (Fin a) (Fin c)) (fmul (Fin b) (Fin c)) = true.
Proof.
  intros. simpl. pose proof one_k_pos. apply of_units_mono; [done..|].
  assert (a * c <= b * c) by nia. nia.
Qed.

Lemma fle_PInf x : x <> NaN -> fle x PInf = true.
Proof. by destruct x. Qed.

Lemma fle_NInf x : x <> NaN -> fle NInf x = true.
Proof. by destruct x. Qed.

Lemma fadd_mono_r c x y :
  fle x y = true -> fle (fadd (Fin c) x) (fadd (Fin c) y) = true.
Proof.
  destruct x, y; simpl; intros H; try done; bool_simpl.
  - apply of_units_mono; lia.
  - apply fle_PInf, of_units_not_nan.
  - destruct (of_units (c + k) 1) eqn:E; try done. by apply of_units_not_nan in E.
Qed.

Lemma fmul_mono_r a b c :
  0 <= c -> a <= b -> fle (fmul (Fin c) (Fin a)) (fmul (Fin c) (Fin b)) = true.
Proof.
  intros. simpl. pose proof one_k_pos. apply of_units_mono; [done..|].
  assert (c * a <= c * b) by nia. nia.
Qed.

(** [round] and [ceil] are monotone. *)
Lemma fround_mono x y a b :
  fle x y = true -> fround x = Some a -> fround y = Some b -> a <= b.
Proof.
  destruct x, y; simpl; intros H; simplify_eq; intros [= <-] [= <-]. bool_simpl.
  pose proof one_k_pos. apply rhe_mono; [done..|]. nia.
Qed.

Lemma fceil_spec k c : fceil (Fin k) = Some c -> (c - 1) * one_k < k <= c * one_k.
Proof.
  simpl. intros [= <-]. pose proof one_k_pos.
  pose proof (Z.div_mod (- k) one_k). pose proof (Z.mod_pos_bound (- k) one_k). nia.
Qed.

(** A non-negative value below a representable bound rounds below it. *)
Lemma of_units_between n d B :
  0 < d -> 0 <= n <= B * d -> repr53 B -> B < huge_k ->
  exists k, of_units n d = Fin k /\ 0 <= k <= B.
Proof.
  intros Hd Hn HB Hh. exists (rnd n d).
  pose proof (rnd_sign_pos n d Hd ltac:(lia)).
  pose proof (rnd_mono n d (B * d) d Hd Hd ltac:(nia)) as Hle. rewrite rnd_exact in Hle by done.
  unfold of_units. destruct (Z.abs (rnd n d) <? huge_k) eqn:E; bool_simpl; [done|lia].
Qed.

(** A quotient of integers with [0 <= a <= b] is a float between 0 and 1. *)
Lemma of_ratio_unit a b :
  0 <= a <= b -> 0 < b -> exists k, of_ratio a b = Fin k /\ 0 <= k <= one_k.
Proof.
  intros Ha Hb. pose proof one_k_pos. pose proof (small_not_huge 1 ltac:(lia)).
  apply of_units_between; [done|nia| |lia].
  rewrite <- (Z.mul_1_l one_k). by apply repr53_one_k.
Qed.

#[global] Opaque one_k huge_k.
#[global] Arguments of_units : simpl never.
#[global] Arguments of_ratio : simpl never.
#[global] Arguments of_Z : simpl never.
#[global] Arguments rnd : simpl never.
#[global] Arguments rhe : simpl never.

End PyFloat.

#[export] Hint Resolve PyFloat.one_k_pos PyFloat.huge_k_pos PyFloat.of_units_not_nan : pyfloat.
