(* ===== verification/PyStr.v ===== *)
(** * Python strings

    A Python [str] is modelled by the bytes of its UTF-8 encoding, so
    [String.length s] is [len(s.encode("utf-8"))] and [pylen s] is [len(s)].
    (The lone surrogates a [str] may hold have no UTF-8 encoding and are left
    out.)  The file holds what the worker uses of [str]: strip, lower, split,
    affix tests, the numeric constructors [int(s)] and [float(s)], the fixed
    regular expressions, and [bytes.decode(errors="ignore")]. *)
From S2P Require Import Prelude PyFloat.
Import PyFloat.

Module PyStr.

Definition byte_of (c : ascii) : Z := Z.of_nat (nat_of_ascii c).

(** ** Characters *)

(** Number of bytes of the character a lead byte announces. *)
Definition char_width (c : ascii) : nat :=
  let b := byte_of c in
  if b <? 192 then 1 else if b <? 224 then 2 else if b <? 240 then 3 else 4.

Fixpoint take_str (n : nat) (s : string) : string :=
  match n, s with
  | S n', String c s' => String c (take_str n' s')
  | _, _ => ""
  end.

Fixpoint drop_str (n : nat) (s : string) : string :=
  match n, s with
  | S n', String c s' => drop_str n' s'
  | _, _ => s
  end.

(** The characters of a string, each as its UTF-8 bytes. *)
Fixpoint chars_fuel (fuel : nat) (s : string) : list string :=
  match fuel, s with
  | S fuel', String c _ =>
      let w := char_width c in take_str w s :: chars_fuel fuel' (drop_str w s)
  | _, _ => []
  end.

Definition chars (s : string) : list string := chars_fuel (String.length s) s.

(** [len(s)] *)
Definition pylen (s : string) : Z := Z.of_nat (length (chars s)).

(** [len(s.encode("utf-8"))] *)
Definition bytelen (s : string) : Z := Z.of_nat (String.length s).

Definition concat_str (l : list string) : string := foldr String.append "" l.

(** [sep.join(l)] *)
Fixpoint join (sep : string) (l : list string) : string :=
  match l with
  | [] => ""
  | [x] => x
  | x :: l' => x +:+ sep +:+ join sep l'
  end.

Fixpoint bytes_str (l : list nat) : string :=
  match l with [] => "" | b :: l' => String (ascii_of_nat b) (bytes_str l') end.

(** [ch.isspace()], the characters [str.strip] removes. *)
Definition ascii_space (c : ascii) : bool :=
  let b := byte_of c in ((9 <=? b) && (b <=? 13)) || ((28 <=? b) && (b <=? 32)).

Definition unicode_spaces : list string :=
  bytes_str <$>
  [ [194; 133]; [194; 160]; [225; 154; 128];
    [226; 128; 128]; [226; 128; 129]; [226; 128; 130]; [226; 128; 131]; [226; 128; 132];
    [226; 128; 133]; [226; 128; 134]; [226; 128; 135]; [226; 128; 136]; [226; 128; 137];
    [226; 128; 138]; [226; 128; 168]; [226; 128; 169]; [226; 128; 175]; [226; 129; 159];
    [227; 128; 128] ]%nat.

Definition char_isspace (ch : string) : bool :=
  match ch with
  | String c "" => ascii_space c
  | _ => existsb (String.eqb ch) unicode_spaces
  end.

Fixpoint drop_while {A} (p : A -> bool) (l : list A) : list A :=
  match l with
  | [] => []
  | x :: l' => if p x then drop_while p l' else l
  end.

(** [s.strip()] *)
Definition strip (s : string) : string :=
  concat_str (rev (drop_while char_isspace (rev (drop_while char_isspace (chars s))))).

(** [any(ch.isspace() for ch in s)] *)
Definition any_space (s : string) : bool := existsb char_isspace (chars s).

(** [not s.strip()] *)
Definition blank (s : string) : bool := String.eqb (strip s) "".

(** [s.lower()] up to non-ASCII letters whose lower case stays non-ASCII:
    the Kelvin sign and the dotted capital I are the two whose lower case
    holds an ASCII letter. *)
Definition lower_char (ch : string) : string :=
  match ch with
  | String c "" =>
      let b := byte_of c in
      if (65 <=? b) && (b <=? 90) then String (ascii_of_nat (Z.to_nat (b + 32))) "" else ch
  | _ =>
      if String.eqb ch (bytes_str [226; 132; 170]%nat) then "k"
      else if String.eqb ch (bytes_str [196; 176]%nat) then "i" +:+ bytes_str [204; 135]%nat
      else ch
  end.

Definition lower (s : string) : string := concat_str (lower_char <$> chars s).

(** ** Affixes and searching *)

Definition startswith (p s : string) : bool := String.prefix p s.

Fixpoint rev_str (s acc : string) : string :=
  match s with "" => acc | String c s' => rev_str s' (String c acc) end.

Definition endswith (p s : string) : bool := String.prefix (rev_str p "") (rev_str s "").

(** [p in s] *)
Fixpoint contains (p s : string) : bool :=
  String.prefix p s || match s with "" => false | String _ s' => contains p s' end.

Fixpoint count_char (c : ascii) (s : string) : Z :=
  match s with
  | "" => 0
  | String c' s' => (if Ascii.eqb c c' then 1 else 0) + count_char c s'
  end.

Fixpoint all_chars (p : ascii -> bool) (s : string) : bool :=
  match s with "" => true | String c s' => p c && all_chars p s' end.

(** [s.rstrip(c)] for one ASCII character. *)
Fixpoint lstrip_ascii (c : ascii) (s : string) : string :=
  match s with
  | String c' s' => if Ascii.eqb c c' then lstrip_ascii c s' else s
  | "" => ""
  end.

Definition rstrip_ascii (c : ascii) (s : string) : string :=
  rev_str (lstrip_ascii c (rev_str s "")) "".

(** [s.partition(c)]: the text before the first [c] and, when there is one,
    the text after it. *)
Fixpoint split_first (c : ascii) (s : string) : string * option string :=
  match s with
  | "" => ("", None)
  | String c' s' =>
      if Ascii.eqb c c' then ("", Some s')
      else let '(a, b) := split_first c s' in (String c' a, b)
  end.

(** ** Character classes of the fixed regular expressions *)

Definition is_digit (c : ascii) : bool := let b := byte_of c in (48 <=? b) && (b <=? 57).
Definition is_lower (c : ascii) : bool := let b := byte_of c in (97 <=? b) && (b <=? 122).
Definition is_upper (c : ascii) : bool := let b := byte_of c in (65 <=? b) && (b <=? 90).
Definition is_alpha (c : ascii) : bool := is_lower c || is_upper c.
Definition is_alnum (c : ascii) : bool := is_alpha c || is_digit c.
Definition is_ident_start (c : ascii) : bool := is_alpha c || Ascii.eqb c "_".
Definition is_ident_char (c : ascii) : bool := is_alnum c || Ascii.eqb c "_".
Definition is_token_char (c : ascii) : bool :=
  is_alnum c || Ascii.eqb c "_" || Ascii.eqb c "." || Ascii.eqb c "-".
Definition is_hex_lower (c : ascii) : bool :=
  is_digit c || (let b := byte_of c in (97 <=? b) && (b <=? 102)).

(** ** Numbers *)

(** [str(z)] *)
Definition str_of_Z (z : Z) : string := pretty z.

Definition digit_val (c : ascii) : Z := byte_of c - 48.

(** Digits with single underscores between them, as [int()] and [float()]
    accept them; [prev] says whether the last character was a digit. *)
Fixpoint digits_us (prev : bool) (acc : Z) (n : Z) (s : string) : option (Z * Z) :=
  match s with
  | "" => if prev then Some (acc, n) else None
  | String c s' =>
      if is_digit c then digits_us true (acc * 10 + digit_val c) (n + 1) s'
      else if Ascii.eqb c "_" then if prev then digits_us false acc n s' else None
      else None
  end.

(** A digit string: its value and the number of its digits. *)
Definition digit_part (s : string) : option (Z * Z) := digits_us false 0 0 s.

Definition split_sign (s : string) : bool * string :=
  match s with
  | String c s' => if Ascii.eqb c "-" then (true, s') else if Ascii.eqb c "+" then (false, s') else (false, s)
  | "" => (false, "")
  end.

(** [int(s)]; [None] is ValueError. *)
Definition int_of_str (s : string) : option Z :=
  let '(neg, body) := split_sign (strip s) in
  '(v, _) ← digit_part body; Some (if neg : bool then - v else v).

Definition pow10 (n : Z) : Z := 10 ^ n.

(** The value of [m * 10^e] as a float. *)
Definition float_of_decimal (m e : Z) : float :=
  if 0 <=? e then of_ratio (m * pow10 e) 1 else of_ratio m (pow10 (- e)).

(** Mantissa: digits, a point, digits; one of the two parts may be missing. *)
Definition mantissa (s : string) : option (Z * Z) :=
  let '(ip, fp) := split_first "." s in
  match fp with
  | None => '(v, _) ← digit_part ip; Some (v, 0)
  | Some f =>
      match ip, f with
      | "", "" => None
      | "", _ => '(v, n) ← digit_part f; Some (v, - n)
      | _, "" => '(v, _) ← digit_part ip; Some (v, 0)
      | _, _ =>
          '(v, _) ← digit_part ip; '(w, n) ← digit_part f;
          Some (v * pow10 n + w, - n)
      end
  end.

(** [float(s)]; [None] is ValueError. *)
Definition float_of_str (s : string) : option float :=
  let '(neg, body) := split_sign (lower (strip s)) in
  let sign (x : float) := if neg : bool then fneg x else x in
  if String.eqb body "inf" || String.eqb body "infinity" then Some (sign PInf)
  else if String.eqb body "nan" then Some NaN
  else
    let '(ms, es) := split_first "e" body in
    '(m, k) ← mantissa ms;
    match es with
    | None => Some (sign (float_of_decimal m k))
    | Some es' =>
        let '(eneg, ebody) := split_sign es' in
        '(e, _) ← digit_part ebody;
        Some (sign (float_of_decimal m (k + (if eneg : bool then - e else e))))
    end.

(** [s.zfill(n)] on digits. *)
Definition zfill (n : nat) (s : string) : string :=
  let missing := (n - String.length s)%nat in
  concat_str (replicate missing "0") +:+ s.

(** [format(v / 10^n, "f")] of the integer [v] scaled by [n] digits. *)
Definition fixed_str (v : Z) (n : nat) : string :=
  let a := Z.abs v in
  let ip := a / pow10 (Z.of_nat n) in
  let fp := a mod pow10 (Z.of_nat n) in
  (if v <? 0 then "-" else "") +:+ str_of_Z ip +:+
  (match n with O => "" | _ => "." +:+ zfill n (str_of_Z fp) end).

(** [f"{x:.nf}"] on a finite float: correctly rounded, ties to even. *)
Definition format_fixed (n : nat) (x : float) : string :=
  match x with
  | Fin k => fixed_str (rhe (k * pow10 (Z.of_nat n)) one_k) n
  | PInf => "inf"
  | NInf => "-inf"
  | NaN => "nan"
  end.

(** ** UTF-8 decoding that ignores errors *)

Definition is_cont (c : ascii) : bool := let b := byte_of c in (128 <=? b) && (b <? 192).

(** A lead byte that can start a character, with the admissible second byte
    (overlong forms, surrogates and values above U+10FFFF are invalid). *)
Definition valid_second (lead second : ascii) : bool :=
  let a := byte_of lead in
  let b := byte_of second in
  if a =? 224 then (160 <=? b) && (b <=? 191)
  else if a =? 237 then (128 <=? b) && (b <=? 159)
  else if a =? 240 then (144 <=? b) && (b <=? 191)
  else if a =? 244 then (128 <=? b) && (b <=? 143)
  else is_cont second.

Definition valid_lead (c : ascii) : bool :=
  let b := byte_of c in (b <? 128) || ((194 <=? b) && (b <=? 244)).

(** The first character of the bytes, if they start with a complete one. *)
Definition first_char (s : string) : option string :=
  match s with
  | "" => None
  | String c s' =>
      if negb (valid_lead c) then None
      else match char_width c, s' with
           | 1%nat, _ => Some (String c "")
           | 2%nat, String d _ => if valid_second c d then Some (String c (String d "")) else None
           | 3%nat, String d (String e _) =>
               if valid_second c d && is_cont e then Some (String c (String d (String e ""))) else None
           | 4%nat, String d (String e (String f _)) =>
               if valid_second c d && is_cont e && is_cont f
               then Some (String c (String d (String e (String f "")))) else None
           | _, _ => None
           end
  end.

(** [b.decode("utf-8", errors="ignore")], as the bytes of the result: whole
    characters are kept, any other byte is dropped. *)
Fixpoint decode_ignore_fuel (fuel : nat) (s : string) : string :=
  match fuel with
  | O => ""
  | S fuel' =>
      match s with
      | "" => ""
      | String c s' =>
          match first_char s with
          | Some ch => ch +:+ decode_ignore_fuel fuel' (drop_str (String.length ch) s)
          | None => decode_ignore_fuel fuel' s'
          end
      end
  end.

Definition decode_ignore (s : string) : string := decode_ignore_fuel (String.length s) s.

(** A string is valid UTF-8 when it is a concatenation of whole characters. *)
Inductive valid_utf8 : string -> Prop :=
| valid_nil : valid_utf8 ""
| valid_cons ch s : first_char (ch +:+ s) = Some ch -> valid_utf8 s -> valid_utf8 (ch +:+ s).

(** ** Lemmas *)

Lemma app_str_assoc (a b c : string) : (a +:+ b) +:+ c = a +:+ (b +:+ c).
Proof. induction a as [|x a IH]; [done|]. unfold String.app in *. simpl. by rewrite IH. Qed.

Lemma app_str_nil (a : string) : a +:+ "" = a.
Proof. induction a as [|x a IH]; [done|]. unfold String.app in *. simpl. by rewrite IH. Qed.

Lemma length_app_str (a b : string) : String.length (a +:+ b) = (String.length a + String.length b)%nat.
Proof. induction a as [|x a IH]; [done|]. unfold String.app in *. simpl. by rewrite IH. Qed.

Lemma drop_app_str (a b : string) : drop_str (String.length a) (a +:+ b) = b.
Proof. induction a as [|x a IH]; [by destruct b|]. unfold String.app in *. done. Qed.

Lemma take_app_le (a b : string) n :
  (String.length a <= n)%nat -> take_str n (a +:+ b) = a +:+ take_str (n - String.length a) b.
Proof.
  revert n. induction a as [|x a IH]; intros n Hn; simpl.
  - by rewrite Nat.sub_0_r.
  - destruct n as [|n]; [simpl in Hn; lia|]. unfold String.app in *. simpl in *. f_equal. apply IH. lia.
Qed.

Lemma take_app_gt (a b : string) n :
  (n <= String.length a)%nat -> take_str n (a +:+ b) = take_str n a.
Proof.
  revert n. induction a as [|x a IH]; intros n Hn; simpl in *.
  - by destruct n; [destruct b|lia].
  - destruct n as [|n]; [done|]. unfold String.app in *. simpl. f_equal. apply IH. lia.
Qed.

Lemma first_char_nonempty ch s : first_char s = Some ch -> (1 <= String.length ch <= 4)%nat.
Proof.
  destruct s; simpl; intros H; repeat case_match; try discriminate H; injection H as <-; simpl; lia.
Qed.

(** The first character is determined by its own bytes. *)
Lemma first_char_app ch s t : first_char (ch +:+ s) = Some ch -> first_char (ch +:+ t) = Some ch.
Proof.
  intros H. pose proof (first_char_nonempty _ _ H) as Hl. revert H.
  destruct ch as [|c1 [|c2 [|c3 [|c4 [|c5 ch]]]]]; simpl in Hl; try lia; unfold String.app; simpl;
    repeat (case_match; simplify_eq/=); done.
Qed.

Lemma first_char_width ch s :
  first_char (ch +:+ s) = Some ch -> exists c r, ch = String c r /\ char_width c = String.length ch.
Proof.
  intros H. pose proof (first_char_nonempty _ _ H) as Hl. revert H.
  destruct ch as [|c1 [|c2 [|c3 [|c4 [|c5 ch]]]]]; simpl in Hl; try lia; unfold String.app; simpl;
    repeat (case_match; simplify_eq/=); intros; eexists _, _; (split; [done|]); simpl; congruence.
Qed.

(** Enough fuel is enough. *)
Lemma drop_str_length n s : (String.length (drop_str n s) <= String.length s - n)%nat.
Proof. revert s. induction n as [|n IH]; intros [|c s]; simpl; try lia. apply IH. Qed.

Lemma decode_fuel f1 f2 s :
  (String.length s <= f1)%nat -> (String.length s <= f2)%nat ->
  decode_ignore_fuel f1 s = decode_ignore_fuel f2 s.
Proof.
  revert f2 s. induction f1 as [|f1 IH]; intros [|f2] [|c s] H1 H2; cbn [String.length] in *; try lia; try done.
  cbn [decode_ignore_fuel]. destruct (first_char (String c s)) as [ch|] eqn:E.
  - pose proof (first_char_nonempty _ _ E).
    pose proof (drop_str_length (String.length ch) (String c s)) as Hd. cbn [String.length] in Hd.
    f_equal. apply IH; lia.
  - apply IH; lia.
Qed.

Lemma decode_fuel_step f s ch :
  first_char s = Some ch ->
  decode_ignore_fuel (S f) s = ch +:+ decode_ignore_fuel f (drop_str (String.length ch) s).
Proof. destruct s; [done|]. intros H. cbn [decode_ignore_fuel]. by rewrite H. Qed.

Lemma decode_app ch s :
  first_char (ch +:+ s) = Some ch -> decode_ignore (ch +:+ s) = ch +:+ decode_ignore s.
Proof.
  intros H. pose proof (first_char_nonempty _ _ H) as Hl.
  unfold decode_ignore. rewrite length_app_str.
  destruct (String.length ch + String.length s)%nat as [|f] eqn:E; [lia|].
  rewrite (decode_fuel_step _ _ _ H), drop_app_str. f_equal. apply decode_fuel; lia.
Qed.

(** The bytes of a character cut short are all dropped. *)
Definition cont_tail (ch : string) : Prop :=
  exists c r, ch = String c r /\ all_chars is_cont r = true /\ char_width c = String.length ch.

Lemma cont_not_lead c : is_cont c = true -> valid_lead c = false.
Proof. unfold is_cont, valid_lead. intros. bool_simpl. apply orb_false_iff. split.
  - apply Z.ltb_ge. lia.
  - apply andb_false_iff. left. apply Z.leb_gt. lia.
Qed.

Lemma valid_second_cont c d : valid_second c d = true -> is_cont d = true.
Proof.
  unfold valid_second, is_cont. intros H. apply andb_true_iff.
  repeat case_match; bool_simpl; (split; [apply Z.leb_le|apply Z.ltb_lt]; lia) || done.
Qed.

Lemma first_char_cont ch s : first_char (ch +:+ s) = Some ch -> cont_tail ch.
Proof.
  intros H. destruct (first_char_width _ _ H) as (c & r & -> & Hw). exists c, r. split_and!; [done| |done].
  revert H Hw. destruct r as [|c2 [|c3 [|c4 [|c5 r]]]]; unfold String.app; simpl; intros H Hw;
    rewrite Hw in H; repeat (case_match; simplify_eq/=); bool_simpl; try done;
    repeat match goal with H : valid_second _ _ = true |- _ => apply valid_second_cont in H end;
    repeat match goal with H : is_cont _ = true |- _ => rewrite H end; done.
Qed.

Lemma decode_conts r : all_chars is_cont r = true -> decode_ignore r = "".
Proof.
  unfold decode_ignore. generalize (le_n (String.length r)).
  generalize (String.length r) at 2 3 as f. induction r as [|c r IH]; intros f Hf Hr; [by destruct f|].
  destruct f as [|f]; [simpl in Hf; lia|]. simpl in Hr. bool_simpl.
  cbn [decode_ignore_fuel]. unfold first_char. rewrite cont_not_lead by done. simpl.
  apply IH; [simpl in Hf; lia|done].
Qed.

Lemma all_chars_take p n s : all_chars p s = true -> all_chars p (take_str n s) = true.
Proof.
  revert s. induction n as [|n IH]; intros [|c s]; simpl; try done. intros. bool_simpl.
  apply andb_true_iff. split; [done|by apply IH].
Qed.

Lemma length_take_str n s : String.length (take_str n s) = Nat.min n (String.length s).
Proof. revert s. induction n as [|n IH]; intros [|c s]; simpl; try lia. rewrite IH. lia. Qed.

(** Too few bytes for the width the lead byte announces. *)
Lemma first_char_short c r :
  (String.length (String c r) < char_width c)%nat -> first_char (String c r) = None.
Proof.
  simpl. intros Hl. unfold first_char. destruct (negb (valid_lead c)); [done|].
  destruct (char_width c) as [|[|[|[|[|w]]]]]; try lia;
    destruct r as [|d [|e [|f r]]]; simpl in *; try lia; done.
Qed.

Lemma decode_cut ch n :
  cont_tail ch -> (n < String.length ch)%nat -> decode_ignore (take_str n ch) = "".
Proof.
  intros (c & r & -> & Hr & Hw) Hn. destruct n as [|n]; [done|].
  cbn [take_str]. unfold decode_ignore. cbn [String.length decode_ignore_fuel].
  rewrite first_char_short.
  - apply (decode_conts (take_str n r)). by apply all_chars_take.
  - cbn [String.length] in *. rewrite length_take_str. lia.
Qed.

(** [encoded[:n].decode("utf-8", errors="ignore")] of a valid string is the
    longest prefix made of whole characters that fits in [n] bytes. *)
Lemma decode_take_valid s n :
  valid_utf8 s ->
  exists t, s = decode_ignore (take_str n s) +:+ t /\ valid_utf8 (decode_ignore (take_str n s)) /\
    (String.length (decode_ignore (take_str n s)) <= n)%nat /\
    (forall ch t', t = ch +:+ t' -> first_char t = Some ch ->
       (n < String.length (decode_ignore (take_str n s)) + String.length ch)%nat).
Proof.
  intros Hv. revert n. induction Hv as [|ch s Hf Hv IH]; intros n.
  - exists "". assert (take_str n "" = "") as -> by by destruct n.
    split_and!; [done|constructor|unfold decode_ignore; simpl; lia|done].
  - destruct (Nat.le_gt_cases (String.length ch) n) as [Hle|Hgt].
    + rewrite take_app_le by done. rewrite decode_app by (by eapply first_char_app).
      destruct (IH (n - String.length ch)%nat) as (t & Ht & Hvt & Hlen & Hmax).
      exists t. rewrite length_app_str. split_and!.
      * by rewrite app_str_assoc, <- Ht.
      * constructor; [by eapply first_char_app|done].
      * lia.
      * intros c t' E1 E2. specialize (Hmax c t' E1 E2). lia.
    + rewrite take_app_gt by lia. rewrite decode_cut by (done || by eapply first_char_cont).
      exists (ch +:+ s). split_and!; [done|constructor|simpl; lia|].
      intros c t' E1 E2. rewrite Hf in E2. simplify_eq. simpl. lia.
Qed.

Lemma join_singleton sep x : join sep [x] = x.
Proof. done. Qed.

Lemma contains_refl s : contains s s = true.
Proof.
  destruct s as [|c s]; [done|]. simpl. destruct (ascii_dec c c); [|done].
  assert (String.prefix s s = true) as ->; [|done].
  induction s as [|d s IH]; [done|]. simpl. by destruct (ascii_dec d d).
Qed.

End PyStr.

Abbreviation str_of_Z := PyStr.str_of_Z.
