(* ===== verification/PyVal.v ===== *)
(** * Python values read from JSON, and Python exceptions

    [val] is what [json.loads] returns and what dictionaries of the worker
    hold: [VDict] keeps insertion order and at most one entry per key.  [VObj]
    is any other object (a tool may return one). *)
From S2P Require Import Prelude PyFloat PyStr.
Import PyFloat PyStr.

Module PyVal.

#[local] Unset Elimination Schemes.

Inductive val : Type :=
| VNone
| VBool (b : bool)
| VInt (z : Z)
| VFloat (f : float)
| VStr (s : string)
| VList (l : list val)
| VDict (d : list (string * val))
| VObj (type_name : string).

#[local] Set Elimination Schemes.

(** Exceptions of the language and the standard library. *)
Inductive pyexn : Type :=
| ValueError (msg : string)
| TypeError (msg : string)
| AttributeError (msg : string)
| KeyError (key : string)
| IndexError
| OverflowError
| AssertionError
| RuntimeError (msg : string)
| InvalidOperation
| ReError
| UnicodeError
| ImportError (msg : string).

Abbreviation pyres := (result pyexn).

(** Induction that reaches the values inside lists and dictionaries. *)
Section ValInd.
Variable P : val -> Prop.
Hypothesis HNone : P VNone.
Hypothesis HBool : forall b, P (VBool b).
Hypothesis HInt : forall z, P (VInt z).
Hypothesis HFloat : forall f, P (VFloat f).
Hypothesis HStr : forall s, P (VStr s).
Hypothesis HList : forall l, Forall P l -> P (VList l).
Hypothesis HDict : forall d, Forall (fun kv => P kv.2) d -> P (VDict d).
Hypothesis HObj : forall n, P (VObj n).

Fixpoint val_nested_ind (v : val) : P v :=
  match v with
  | VNone => HNone
  | VBool b => HBool b
  | VInt z => HInt z
  | VFloat f => HFloat f
  | VStr s => HStr s
  | VList l =>
      HList l ((fix go l : Forall P l :=
        match l with [] => Forall_nil_2 _ | x :: l' => Forall_cons_2 _ _ _ (val_nested_ind x) (go l') end) l)
  | VDict d =>
      HDict d ((fix go d : Forall (fun kv => P kv.2) d :=
        match d with [] => Forall_nil_2 _ | kv :: d' => Forall_cons_2 _ _ _ (val_nested_ind kv.2) (go d') end) d)
  | VObj n => HObj n
  end.
End ValInd.

(** ** Dictionaries *)

Abbreviation dict := (list (string * val)).

Fixpoint dict_get (d : dict) (k : string) : option val :=
  match d with
  | [] => None
  | (k', v) :: d' => if String.eqb k k' then Some v else dict_get d' k
  end.

(** [k in d] *)
Definition dict_has (d : dict) (k : string) : bool := is_some (dict_get d k).

(** [d[k] = v]: replaces in place or appends. *)
Fixpoint dict_set (d : dict) (k : string) (v : val) : dict :=
  match d with
  | [] => [(k, v)]
  | (k', v') :: d' => if String.eqb k k' then (k, v) :: d' else (k', v') :: dict_set d' k v
  end.

(** [d.update(e)] *)
Definition dict_update (d e : dict) : dict := foldl (fun acc kv => dict_set acc kv.1 kv.2) d e.

(** [d.get(k)] and [d.get(k, dflt)] *)
Definition get_none (d : dict) (k : string) : val := default VNone (dict_get d k).
Definition get_or (d : dict) (k : string) (dflt : val) : val := default dflt (dict_get d k).

(** ** Python object protocol *)

(** [bool(v)] *)
Definition truthy (v : val) : bool :=
  match v with
  | VNone => false
  | VBool b => b
  | VInt z => negb (z =? 0)
  | VFloat f => negb (feq f (Fin 0))
  | VStr s => negb (String.eqb s "")
  | VList l => match l with [] => false | _ => true end
  | VDict d => match d with [] => false | _ => true end
  | VObj _ => true
  end.

(** [v or w] *)
Definition py_or (v w : val) : val := if truthy v then v else w.

Definition is_none (v : val) : bool := match v with VNone => true | _ => false end.

(** [v.get(...)] is an AttributeError unless [v] is a dictionary. *)
Definition as_dict (v : val) : pyres dict :=
  match v with VDict d => Ok d | _ => Err (AttributeError "get") end.

(** [v in {s1, ..., sn}] for a set of strings: lists and dictionaries are
    unhashable. *)
Definition in_str_set (v : val) (l : list string) : pyres bool :=
  match v with
  | VStr s => Ok (existsb (String.eqb s) l)
  | VList _ => Err (TypeError "unhashable type: 'list'")
  | VDict _ => Err (TypeError "unhashable type: 'dict'")
  | _ => Ok false
  end.

(** [v == s] for a string constant. *)
Definition eq_str (v : val) (s : string) : bool :=
  match v with VStr s' => String.eqb s s' | _ => false end.

(** [isinstance(v, int) and not isinstance(v, bool)] *)
Definition strict_int (v : val) : option Z := match v with VInt z => Some z | _ => None end.

(** [float(z)] of an integer: OverflowError beyond the float range. *)
Definition float_of_int (z : Z) : pyres float :=
  let f := of_Z z in if is_finite f then Ok f else Err OverflowError.

(** [float(v)] *)
Definition py_float (v : val) : pyres float :=
  match v with
  | VBool b => Ok (of_Z (if b then 1 else 0))
  | VInt z => float_of_int z
  | VFloat f => Ok f
  | VStr s => match float_of_str s with Some f => Ok f | None => Err (ValueError "could not convert string to float") end
  | _ => Err (TypeError "float() argument must be a string or a real number")
  end.

(** [int(v)] *)
Definition py_int (v : val) : pyres Z :=
  match v with
  | VBool b => Ok (if b then 1 else 0)
  | VInt z => Ok z
  | VFloat (Fin k) => Ok (Z.quot k one_k)
  | VFloat NaN => Err (ValueError "cannot convert float NaN to integer")
  | VFloat _ => Err OverflowError
  | VStr s => match int_of_str s with Some z => Ok z | None => Err (ValueError "invalid literal for int()") end
  | _ => Err (TypeError "int() argument must be a string or a real number")
  end.

(** ** Lemmas *)

Lemma dict_get_set_eq d k v : dict_get (dict_set d k v) k = Some v.
Proof.
  induction d as [|[k' v'] d IH]; simpl.
  - by rewrite String.eqb_refl.
  - destruct (String.eqb k k') eqn:E; simpl; rewrite ?String.eqb_refl, ?E; done.
Qed.

Lemma dict_get_set_ne d k k' v : k <> k' -> dict_get (dict_set d k v) k' = dict_get d k'.
Proof.
  intros Hne. induction d as [|[k2 v2] d IH]; simpl.
  - destruct (String.eqb k' k) eqn:E; [|done]. bool_simpl. congruence.
  - destruct (String.eqb k k2) eqn:E; simpl.
    + bool_simpl. subst k2. destruct (String.eqb k' k) eqn:E2; [|done]. bool_simpl. congruence.
    + by rewrite IH.
Qed.

(** Keys stay unique. *)
Definition wf_dict (d : dict) : Prop := NoDup d.*1.

Lemma dict_set_keys d k v :
  (dict_set d k v).*1 = if dict_has d k then d.*1 else d.*1 ++ [k].
Proof.
  unfold dict_has. induction d as [|[k' v'] d IH]; csimpl; [done|].
  destruct (String.eqb k k') eqn:E; csimpl.
  - bool_simpl. by subst.
  - rewrite IH. by destruct (is_some (dict_get d k)).
Qed.

Lemma dict_get_None d k : dict_get d k = None <-> k ∉ d.*1.
Proof.
  induction d as [|[k' v'] d IH]; simpl; [set_solver|].
  destruct (String.eqb k k') eqn:E; bool_simpl; set_solver.
Qed.

Lemma dict_set_wf d k v : wf_dict d -> wf_dict (dict_set d k v).
Proof.
  unfold wf_dict. intros Hd. rewrite dict_set_keys. unfold dict_has.
  destruct (dict_get d k) eqn:E; simpl; [done|].
  apply dict_get_None in E. apply NoDup_app. split_and!; [done|set_solver|apply NoDup_singleton].
Qed.

Lemma dict_get_elem d k v : dict_get d k = Some v -> (k, v) ∈ d.
Proof.
  induction d as [|[k' v'] d IH]; simpl; [done|].
  destruct (String.eqb k k') eqn:E; bool_simpl.
  - intros [= ->]. subst. set_solver.
  - intros. apply list_elem_of_further. eauto.
Qed.

#[export] Hint Resolve dict_set_wf : agentstorm.

End PyVal.
