(* ===== verification/PyJson.v ===== *)
(** * [repr(float)], [str(v)] and [json.dumps]

    The serialisations the worker uses: the shortest decimal that reads back
    as the same float, and [json.dumps(..., ensure_ascii=False)] with the
    compact or the default separators, with or without sorted keys. *)
From S2P Require Import Prelude PyFloat PyStr PyVal.
Import PyFloat PyStr PyVal.

Module PyJson.

(** ** Floats *)

(** [x >= 10^e] for [x = k * 2^-1074]. *)
Definition ge_pow10 (k e : Z) : bool :=
  if 0 <=? e then one_k * 10 ^ e <=? k else one_k <=? k * 10 ^ (- e).

(** The decimal exponent of a positive float. *)
Definition dec_exp (k : Z) : Z :=
  let e := (Z.log2 k - 1074) * 30103 / 100000 in
  if ge_pow10 k (e + 1) then e + 1 else if ge_pow10 k e then e else e - 1.

(** Nearest decimal with [p] significant digits: digits and exponent. *)
Definition dec_round (k p e : Z) : Z * Z :=
  let s := p - 1 - e in
  let d := if 0 <=? s then rhe (k * 10 ^ s) one_k else rhe k (one_k * 10 ^ (- s)) in
  if d =? 10 ^ p then (10 ^ (p - 1), e + 1) else (d, e).

Fixpoint shortest (fuel : nat) (k p e : Z) : Z * Z * Z :=
  let '(d, e') := dec_round k p e in
  match fuel with
  | O => (d, p, e')
  | S fuel' =>
      if bool_decide (float_of_decimal d (e' - p + 1) = Fin k) then (d, p, e')
      else shortest fuel' k (p + 1) e
  end.

Definition repr_positive (k : Z) : string :=
  let '(d, p, e) := shortest 17 k 1 (dec_exp k) in
  let ds := str_of_Z d in
  if (-4 <=? e) && (e <? 16) then
    if e <? 0 then "0." +:+ concat_str (replicate (Z.to_nat (- e - 1)) "0") +:+ ds
    else if p <=? e + 1 then ds +:+ concat_str (replicate (Z.to_nat (e + 1 - p)) "0") +:+ ".0"
    else take_str (Z.to_nat (e + 1)) ds +:+ "." +:+ drop_str (Z.to_nat (e + 1)) ds
  else
    take_str 1 ds +:+ (if 1 <? p then "." +:+ drop_str 1 ds else "") +:+ "e" +:+
    (if e <? 0 then "-" else "+") +:+ zfill 2 (str_of_Z (Z.abs e)).

Definition float_repr (x : float) : string :=
  match x with
  | Fin k => if k =? 0 then "0.0" else if k <? 0 then "-" +:+ repr_positive (- k) else repr_positive k
  | PInf => "inf"
  | NInf => "-inf"
  | NaN => "nan"
  end.

(** ** Strings *)

Definition quote : ascii := ascii_of_nat 34.
Definition backslash : ascii := ascii_of_nat 92.

Definition hex1 (n : Z) : string :=
  match String.get (Z.to_nat n) "0123456789abcdef" with Some c => String c "" | None => "" end.

Definition escape_char (c : ascii) : string :=
  let b := byte_of c in
  if Ascii.eqb c quote then String backslash (String quote "")
  else if Ascii.eqb c backslash then String backslash (String backslash "")
  else if b =? 10 then String backslash "n"
  else if b =? 13 then String backslash "r"
  else if b =? 9 then String backslash "t"
  else if b =? 8 then String backslash "b"
  else if b =? 12 then String backslash "f"
  else if b <? 32 then String backslash ("u00" +:+ hex1 (b / 16) +:+ hex1 (b mod 16))
  else String c "".

Fixpoint escape (s : string) : string :=
  match s with "" => "" | String c s' => escape_char c +:+ escape s' end.

Definition dump_str (s : string) : string := String quote (escape s +:+ String quote "").

(** ** Values *)

Record dump_opts := mkDump { item_sep : string; key_sep : string; sort_keys : bool; allow_nan : bool }.

Definition compact : dump_opts := mkDump "," ":" false true.
Definition spaced : dump_opts := mkDump ", " ": " false true.

(** Insertion by key, as [sorted] orders dictionary items. *)
Fixpoint insert_key {A} (kv : string * A) (l : list (string * A)) : list (string * A) :=
  match l with
  | [] => [kv]
  | kv' :: l' => if String.leb kv.1 kv'.1 then kv :: l else kv' :: insert_key kv l'
  end.

Definition sort_items {A} (l : list (string * A)) : list (string * A) := foldr insert_key [] l.

Fixpoint sequence {A} (l : list (pyres A)) : pyres (list A) :=
  match l with
  | [] => Ok []
  | r :: l' =>
      match r with Err e => Err e | Ok a =>
        match sequence l' with Err e => Err e | Ok l'' => Ok (a :: l'') end end
  end.

Definition bad_float : pyexn := ValueError "Out of range float values are not JSON compliant".

Definition dump_float (o : dump_opts) (f : float) : pyres string :=
  match f with
  | Fin _ => Ok (float_repr f)
  | PInf => if allow_nan o then Ok "Infinity" else Err bad_float
  | NInf => if allow_nan o then Ok "-Infinity" else Err bad_float
  | NaN => if allow_nan o then Ok "NaN" else Err bad_float
  end.

Fixpoint dumps (o : dump_opts) (v : val) : pyres string :=
  match v with
  | VNone => Ok "null"
  | VBool b => Ok (if b then "true" else "false")
  | VInt z => Ok (str_of_Z z)
  | VFloat f => dump_float o f
  | VStr s => Ok (dump_str s)
  | VList l =>
      items ← sequence ((fix go l := match l with [] => [] | x :: l' => dumps o x :: go l' end) l);
      Ok ("[" +:+ join (item_sep o) items +:+ "]")
  | VDict d =>
      items ← sequence ((fix go d :=
        match d with
        | [] => []
        | (k, x) :: d' => (match dumps o x with Ok s => Ok (k, s) | Err e => Err e end) :: go d'
        end) d);
      let items := if sort_keys o then sort_items items else items in
      Ok ("{" +:+ join (item_sep o) ((fun kv => dump_str kv.1 +:+ key_sep o +:+ kv.2) <$> items) +:+ "}")
  | VObj n => Err (TypeError ("Object of type " +:+ n +:+ " is not JSON serializable"))
  end.

(** [json.dumps(v, ensure_ascii=False, indent=2)]: one item per line, two blanks
    per level; empty containers stay on one line. *)
Fixpoint blanks_of (n : nat) : string := match n with O => "" | S n' => String " " (blanks_of n') end.
Definition new_line (level : nat) : string := String (ascii_of_nat 10) (blanks_of (2 * level)).

Definition wrap (level : nat) (l r : string) (items : list string) : string :=
  match items with
  | [] => l +:+ r
  | _ => l +:+ new_line (S level) +:+ join ("," +:+ new_line (S level)) items +:+ new_line level +:+ r
  end.

Fixpoint dumps_indent (level : nat) (v : val) : pyres string :=
  match v with
  | VList l =>
      items ← sequence ((fix go l := match l with [] => [] | x :: l' => dumps_indent (S level) x :: go l' end) l);
      Ok (wrap level "[" "]" items)
  | VDict d =>
      items ← sequence ((fix go d :=
        match d with
        | [] => []
        | (k, x) :: d' => (match dumps_indent (S level) x with Ok s => Ok (k, s) | Err e => Err e end) :: go d'
        end) d);
      Ok (wrap level "{" "}" ((fun kv => dump_str kv.1 +:+ ": " +:+ kv.2) <$> items))
  | _ => dumps spaced v
  end.

(** [str(v)] of a JSON value; the text of a list, a dictionary or an object is left to the
    parameter [container_repr]. *)
Definition py_str (container_repr : val -> string) (v : val) : string :=
  match v with
  | VNone => "None"
  | VBool b => if b then "True" else "False"
  | VInt z => str_of_Z z
  | VFloat f => float_repr f
  | VStr s => s
  | VList _ | VDict _ | VObj _ => container_repr v
  end.

Example repr_tenth : float_repr (of_ratio 1 10) = "0.1".
Proof. vm_compute. reflexivity. Qed.

Example repr_small : float_repr (of_ratio 3 200000) = "1.5e-05".
Proof. vm_compute. reflexivity. Qed.

Example repr_third : float_repr (of_ratio 1 3) = "0.3333333333333333".
Proof. vm_compute. reflexivity. Qed.

Example repr_int : float_repr (of_Z 1850) = "1850.0".
Proof. vm_compute. reflexivity. Qed.

End PyJson.
