(* ===== verification/Models.v ===== *)
(** * Data model of the worker

    The dataclasses of [models.py] and [config.py], the execution error of
    [execution_errors.py] with the classification of adapter exceptions, and
    the public data of [adapters/base.py].  Field names are the source's with
    a short prefix per record. *)
From S2P Require Import Prelude PyFloat PyStr PyVal.
Import PyFloat PyStr PyVal.

(** ** models.py *)

Record AssertionSpec := mkAssertionSpec {
  as_type : string;
  as_value : option string;
  as_pattern : option string;
  as_schema : val;
  as_path : list string;
  as_max_ms : option float;
  as_entrypoint : option string;
  as_config : dict
}.

(** [AssertionSpec(type=t)] with every other field at its default. *)
Definition assertion_of_type (t : string) : AssertionSpec :=
  mkAssertionSpec t None None VNone [] None None [].

Record AssertionOutcome := mkOutcome {
  ao_index : Z;
  ao_type : string;
  ao_passed : bool;
  ao_reason_code : string;
  ao_message : option string
}.

Record TestCase := mkTestCase {
  tc_case_id : string;
  tc_prompt : string;
  tc_expected_contains : option string;
  tc_assertions : list AssertionSpec;
  tc_metadata : dict
}.

Definition contains_spec (v : string) : AssertionSpec :=
  mkAssertionSpec "contains" (Some v) None VNone [] None None [].

Definition effective_assertions (c : TestCase) : list AssertionSpec :=
  match tc_expected_contains c with
  | Some v => [contains_spec v]
  | None => []
  end ++ tc_assertions c.

Record AdapterResponse := mkResponse {
  ar_output : string;
  ar_input_tokens : option Z;
  ar_output_tokens : option Z;
  ar_model_call_count : option Z;
  ar_tool_call_count : option Z;
  ar_metadata : dict
}.

Record AttemptResult := mkAttempt {
  at_number : Z;
  at_latency_ms : float;
  at_outcome : string;
  at_failure_category : string;
  at_error_code : string;
  at_injected_rule : string;
  at_injected_fault : string;
  at_ambiguous : bool;
  at_retry_decision : string;
  at_backoff_ms : Z;
  at_input_tokens : option Z;
  at_output_tokens : option Z;
  at_usage_complete : bool;
  at_model_call_count : option Z;
  at_tool_call_count : Z;
  at_circuit_events : list string;
  at_provider_error_code : string;
  at_rate_limit_events : Z;
  at_finish_reason : string
}.

Record CaseResult := mkCaseResult {
  cr_case_id : string;
  cr_iteration : Z;
  cr_success : bool;
  cr_latency_ms : float;
  cr_failure_kind : string;
  cr_failure_category : string;
  cr_error_code : string;
  cr_attempts : list AttemptResult;
  cr_usage_complete : bool;
  cr_output : string;
  cr_error : option string;
  cr_input_tokens : option Z;
  cr_output_tokens : option Z;
  cr_model_call_count : option Z;
  cr_tool_call_count : Z;
  cr_tool_path : list string;
  cr_assertions : list AssertionOutcome;
  cr_input_cost_usd : option string;
  cr_output_cost_usd : option string;
  cr_cost_usd : option string;
  cr_provider_error_code : string;
  cr_in_call_retry_count : Z
}.

Record RunSummary := mkSummary {
  rs_run_id : string;
  rs_shard_index : Z;
  rs_shard_count : Z;
  rs_duration_ms : float;
  rs_total : Z;
  rs_succeeded : Z;
  rs_failed : Z;
  rs_success_rate : float;
  rs_error_rate : float;
  rs_p95_latency_ms : float;
  rs_input_tokens : Z;
  rs_output_tokens : Z;
  rs_thresholds_passed : bool;
  rs_threshold_failures : list string;
  rs_model_call_count : option Z;
  rs_tool_call_count : Z;
  rs_model_calls_per_successful_agent : option float;
  rs_tool_calls_per_successful_agent : option float;
  rs_input_cost_usd : option string;
  rs_output_cost_usd : option string;
  rs_cost_usd : option string;
  rs_usage_complete : bool
}.

(** ** config.py: the configuration dataclasses *)

Record PricingConfig := mkPricing {
  pc_input_usd_per_million_tokens : string;
  pc_output_usd_per_million_tokens : string
}.

Record TargetConfig := mkTarget {
  tg_provider : string;
  tg_model : string;
  tg_base_url : string;
  tg_adapter_entrypoint : string;
  tg_pricing : option PricingConfig;
  tg_max_output_tokens : option Z;
  tg_request_fields : dict;
  tg_http_retry_attempts : option Z;
  tg_http_retry_max_wait_seconds : option Z
}.

Record WorkloadConfig := mkWorkload {
  wl_concurrency : Z;
  wl_iterations : Z;
  wl_timeout_seconds : Z
}.

Record EvaluationConfig := mkEvaluation {
  ev_min_success_rate : option float;
  ev_max_error_rate : option float;
  ev_max_p95_latency_ms : option Z
}.

Record TelemetryRedactionConfig := mkRedaction {
  td_patterns : list string;
  td_metadata_keys : list string
}.

Record TelemetryConfig := mkTelemetryConfig {
  tm_content_mode : string;
  tm_redaction : TelemetryRedactionConfig
}.

Record FaultRuleConfig := mkRule {
  fr_name : string;
  fr_fault : string;
  fr_probability : float;
  fr_case_ids : list string;
  fr_iterations : list Z;
  fr_attempts : list Z;
  fr_delay_ms : option Z;
  fr_status_code : option Z;
  fr_tool_name : string
}.

Record FaultScenarioConfig := mkScenario {
  fs_source_name : string;
  fs_source_key : string;
  fs_digest : string;
  fs_rules : list FaultRuleConfig
}.

Record RetryConfig := mkRetry {
  rt_max_attempts : Z;
  rt_initial_backoff_ms : Z;
  rt_max_backoff_ms : Z;
  rt_max_cumulative_backoff_ms : Z;
  rt_jitter_ratio : float;
  rt_allow_ambiguous_retries : bool
}.

Record CircuitBreakerConfig := mkBreaker {
  cb_failure_threshold : Z;
  cb_open_duration_ms : Z
}.

Record ReliabilityConfig := mkReliability {
  rl_seed : option Z;
  rl_retry : RetryConfig;
  rl_circuit_breaker : option CircuitBreakerConfig;
  rl_scenario : option FaultScenarioConfig
}.

Record SourceConfig := mkSource { src_namespace : string; src_name : string }.

Record DatasetConfig := mkDataset { ds_name : string; ds_key : string }.

Record RunConfig := mkRunConfig {
  rc_run_id : string;
  rc_source : SourceConfig;
  rc_dataset : DatasetConfig;
  rc_target : TargetConfig;
  rc_workload : WorkloadConfig;
  rc_evaluation : EvaluationConfig;
  rc_telemetry : TelemetryConfig;
  rc_reliability : option ReliabilityConfig
}.

(** ** adapters/base.py *)

Record ToolLifecycleEvent := mkToolEvent {
  te_invocation_id : string;
  te_name : string;
  te_tool_type : string;
  te_call_id : option string;
  te_agent_name : option string;
  te_arguments : val;
  te_result : val
}.

Record HandoffLifecycleEvent := mkHandoff {
  ho_source_agent : string;
  ho_target_agent : string
}.

(** ** execution_errors.py *)

Record ExecutionError := mkExecutionError {
  ee_category : string;
  ee_code : string;
  ee_failure_kind : string;
  ee_ambiguous : bool;
  ee_safe_to_retry : bool;
  ee_response : option AdapterResponse;
  ee_injected_rule : string;
  ee_injected_fault : string;
  ee_usage_complete : bool;
  ee_circuit_events : list string
}.

(** [str(error)] *)
Definition error_str (e : ExecutionError) : string := ee_category e +:+ "/" +:+ ee_code e.

(** The constructor with the keyword arguments the source leaves out. *)
Definition exec_error (category code failure_kind : string) (ambiguous safe : bool) : ExecutionError :=
  mkExecutionError category code failure_kind ambiguous safe None "" "" false [].

(** Exceptions of the OpenAI Agents SDK and of the OpenAI client, by the
    classes the source distinguishes. *)
Inductive agents_exn :=
| ToolTimeoutError | InputGuardrailTripwireTriggered | OutputGuardrailTripwireTriggered
| MaxTurnsExceeded | ModelBehaviorError | UserError | OtherAgentsException.

Inductive openai_exn :=
| RateLimitError | APITimeoutError | APIConnectionError | APIStatusError (status_code : Z).

(** What can be raised while a case runs. *)
Inductive exn : Type :=
| EExec (e : ExecutionError)
| ETimeout
| ECancelled
| EPy (e : pyexn)
| EAgents (e : agents_exn)
| EOpenAI (e : openai_exn)
| EAdapterPlugin (msg : string)
| EResultSink (msg : string)
| ESchedulerBusy (retry_after_ms : Z)
| EOther (type_name : string).

Section Classify.
(** Whether the optional packages are installed. *)
Context (agents_installed openai_installed : bool).

Definition _classify_agents_exception (exc : exn) : option ExecutionError :=
  if agents_installed then
    match exc with
    | EAgents ToolTimeoutError => Some (exec_error "tool" "tool_timeout" "tool" true false)
    | EAgents InputGuardrailTripwireTriggered =>
        Some (exec_error "evaluation" "input_guardrail_tripwire" "assertion" false false)
    | EAgents OutputGuardrailTripwireTriggered =>
        Some (exec_error "evaluation" "output_guardrail_tripwire" "assertion" false false)
    | EAgents MaxTurnsExceeded =>
        Some (exec_error "evaluation" "max_turns_exceeded" "assertion" false false)
    | EAgents ModelBehaviorError => Some (exec_error "provider" "model_behavior" "provider" true false)
    | EAgents UserError => Some (exec_error "harness" "sdk_user_error" "harness" false false)
    | EAgents OtherAgentsException => Some (exec_error "provider" "agents_error" "provider" true false)
    | _ => None
    end
  else None.

Definition _classify_openai_exception (exc : exn) : option ExecutionError :=
  if openai_installed then
    match exc with
    | EOpenAI RateLimitError => Some (exec_error "provider" "rate_limited" "provider" false true)
    | EOpenAI APITimeoutError => Some (exec_error "provider" "timeout" "timeout" true false)
    | EOpenAI APIConnectionError => Some (exec_error "provider" "connection_error" "provider" true false)
    | EOpenAI (APIStatusError status_code) =>
        if status_code =? 429 then Some (exec_error "provider" "rate_limited" "provider" false true)
        else if 500 <=? status_code then Some (exec_error "provider" "http_5xx" "provider" true false)
        else Some (exec_error "provider" "http_4xx" "provider" false false)
    | _ => None
    end
  else None.

Definition classify_adapter_exception (exc : exn) : ExecutionError :=
  match exc with
  | EExec e => e
  | ETimeout => exec_error "provider" "timeout" "timeout" true false
  | _ =>
      match _classify_agents_exception exc with
      | Some mapped => mapped
      | None =>
          match _classify_openai_exception exc with
          | Some mapped => mapped
          | None => exec_error "provider" "unknown_error" "provider" true false
          end
      end
  end.
End Classify.

(** [type(exc).__name__] *)
Definition agents_exn_name (e : agents_exn) : string :=
  match e with
  | ToolTimeoutError => "ToolTimeoutError"
  | InputGuardrailTripwireTriggered => "InputGuardrailTripwireTriggered"
  | OutputGuardrailTripwireTriggered => "OutputGuardrailTripwireTriggered"
  | MaxTurnsExceeded => "MaxTurnsExceeded"
  | ModelBehaviorError => "ModelBehaviorError"
  | UserError => "UserError"
  | OtherAgentsException => "AgentsException"
  end.

Definition openai_exn_name (e : openai_exn) : string :=
  match e with
  | RateLimitError => "RateLimitError"
  | APITimeoutError => "APITimeoutError"
  | APIConnectionError => "APIConnectionError"
  | APIStatusError _ => "APIStatusError"
  end.

Definition pyexn_name (e : pyexn) : string :=
  match e with
  | ValueError _ => "ValueError"
  | TypeError _ => "TypeError"
  | AttributeError _ => "AttributeError"
  | KeyError _ => "KeyError"
  | IndexError => "IndexError"
  | OverflowError => "OverflowError"
  | AssertionError => "AssertionError"
  | RuntimeError _ => "RuntimeError"
  | InvalidOperation => "InvalidOperation"
  | ReError => "error"
  | UnicodeError => "UnicodeError"
  | ImportError _ => "ImportError"
  end.

Definition exn_name (exc : exn) : string :=
  match exc with
  | EExec _ => "ExecutionError"
  | ETimeout => "TimeoutError"
  | ECancelled => "CancelledError"
  | EPy e => pyexn_name e
  | EAgents e => agents_exn_name e
  | EOpenAI e => openai_exn_name e
  | EAdapterPlugin _ => "AdapterPluginError"
  | EResultSink _ => "ResultSinkError"
  | ESchedulerBusy _ => "SchedulerBusy"
  | EOther n => n
  end.

(** ** Well-formed execution errors

    The taxonomy every error of the worker stays in: the four categories,
    and an error that is both ambiguous and safe to retry does not exist. *)
Definition known_categories : list string := ["provider"; "tool"; "evaluation"; "harness"].

Definition wf_error (e : ExecutionError) : Prop :=
  ee_category e ∈ known_categories /\ ee_code e <> "" /\
  ~ (ee_ambiguous e = true /\ ee_safe_to_retry e = true) /\
  (ee_safe_to_retry e = true -> ee_category e = "provider" /\ ee_code e = "rate_limited").

Lemma exec_error_wf cat code kind amb :
  cat ∈ known_categories -> code <> "" -> wf_error (exec_error cat code kind amb false).
Proof. intros. unfold wf_error. simpl. repeat split; try done. naive_solver. Qed.

Lemma rate_limited_wf : wf_error (exec_error "provider" "rate_limited" "provider" false true).
Proof. unfold wf_error. simpl. repeat split; try done; [|naive_solver]. by left. Qed.

#[export] Hint Resolve exec_error_wf rate_limited_wf : agentstorm.
