(* ===== verification/Sha256.v ===== *)
(** * SHA-256 ([hashlib.sha256], FIPS 180-4), executable

    Fault selection, retry jitter and permit identities hash NUL-separated
    text; the hash is computed here so that those functions run. *)
From S2P Require Import Prelude PyStr.
Import PyStr.

Module Sha256.

Definition w32 (x : Z) : Z := x mod 2 ^ 32.
Definition add32 (x y : Z) : Z := w32 (x + y).
Definition rotr (n x : Z) : Z := Z.lor (Z.shiftr x n) (w32 (Z.shiftl x (32 - n))).
Definition not32 (x : Z) : Z := 2 ^ 32 - 1 - x.

Definition Ch (x y z : Z) : Z := Z.lxor (Z.land x y) (Z.land (not32 x) z).
Definition Maj (x y z : Z) : Z := Z.lxor (Z.lxor (Z.land x y) (Z.land x z)) (Z.land y z).
Definition Sigma0 (x : Z) : Z := Z.lxor (Z.lxor (rotr 2 x) (rotr 13 x)) (rotr 22 x).
Definition Sigma1 (x : Z) : Z := Z.lxor (Z.lxor (rotr 6 x) (rotr 11 x)) (rotr 25 x).
Definition sigma0 (x : Z) : Z := Z.lxor (Z.lxor (rotr 7 x) (rotr 18 x)) (Z.shiftr x 3).
Definition sigma1 (x : Z) : Z := Z.lxor (Z.lxor (rotr 17 x) (rotr 19 x)) (Z.shiftr x 10).

(** FIPS 180-4 defines its constants from the first primes: the round
    constants are the first 32 bits of the fractional parts of their cube
    roots, the initial state those of the square roots of the first eight. *)
Definition is_prime (n : Z) : bool :=
  forallb (fun d => negb (n mod Z.of_nat d =? 0)) (seq 2 (Z.to_nat n - 2)).

Definition primes : list Z :=
  Eval vm_compute in List.filter is_prime (Z.of_nat <$> seq 2 310).

(** The greatest [r] below [2 ^ bits] with [r ^ 3 <= n], one bit at a time. *)
Fixpoint cube_root (bits : nat) (n r : Z) : Z :=
  match bits with
  | O => r
  | S i =>
      let r' := r + 2 ^ Z.of_nat i in
      cube_root i n (if r' * r' * r' <=? n then r' else r)
  end.

Definition K : list Z :=
  Eval vm_compute in (fun p => w32 (cube_root 36 (p * 2 ^ 96) 0)) <$> primes.

Record hash := mkHash { h0 : Z; h1 : Z; h2 : Z; h3 : Z; h4 : Z; h5 : Z; h6 : Z; h7 : Z }.

Definition H_init : hash :=
  Eval vm_compute in
    let root i := w32 (Z.sqrt (nth i primes 0 * 2 ^ 64)) in
    mkHash (root 0%nat) (root 1%nat) (root 2%nat) (root 3%nat)
           (root 4%nat) (root 5%nat) (root 6%nat) (root 7%nat).

Fixpoint str_bytes (s : string) : list Z :=
  match s with "" => [] | String c s' => byte_of c :: str_bytes s' end.

(** The [n] big-endian bytes of [x]. *)
Fixpoint be_bytes (n : nat) (x : Z) : list Z :=
  match n with
  | O => []
  | S n' => (x / 256 ^ Z.of_nat n') mod 256 :: be_bytes n' x
  end.

Definition pad (msg : list Z) : list Z :=
  let l := Z.of_nat (length msg) in
  let zeros := (55 - l) mod 64 in
  msg ++ 128 :: replicate (Z.to_nat zeros) 0 ++ be_bytes 8 (8 * l).

Fixpoint be_words (l : list Z) : list Z :=
  match l with
  | a :: b :: c :: d :: l' => (((a * 256 + b) * 256 + c) * 256 + d) :: be_words l'
  | _ => []
  end.

(** Message schedule, newest word first. *)
Fixpoint schedule (n : nat) (w : list Z) : list Z :=
  match n with
  | O => w
  | S n' =>
      let wt := add32 (add32 (sigma1 (nth 1 w 0)) (nth 6 w 0))
                      (add32 (sigma0 (nth 14 w 0)) (nth 15 w 0)) in
      schedule n' (wt :: w)
  end.

Definition round (h : hash) (kw : Z * Z) : hash :=
  let '(k, w) := kw in
  let t1 := add32 (add32 (h7 h) (Sigma1 (h4 h)))
                  (add32 (Ch (h4 h) (h5 h) (h6 h)) (add32 k w)) in
  let t2 := add32 (Sigma0 (h0 h)) (Maj (h0 h) (h1 h) (h2 h)) in
  mkHash (add32 t1 t2) (h0 h) (h1 h) (h2 h) (add32 (h3 h) t1) (h4 h) (h5 h) (h6 h).

Definition compress (h : hash) (block : list Z) : hash :=
  let ws := rev (schedule 48 (rev block)) in
  let r := foldl round h (zip K ws) in
  mkHash (add32 (h0 h) (h0 r)) (add32 (h1 h) (h1 r)) (add32 (h2 h) (h2 r)) (add32 (h3 h) (h3 r))
         (add32 (h4 h) (h4 r)) (add32 (h5 h) (h5 r)) (add32 (h6 h) (h6 r)) (add32 (h7 h) (h7 r)).

Fixpoint blocks (fuel : nat) (ws : list Z) (h : hash) : hash :=
  match fuel, ws with
  | S fuel', _ :: _ => blocks fuel' (drop 16 ws) (compress h (take 16 ws))
  | _, _ => h
  end.

Definition sha256 (s : string) : hash :=
  let ws := be_words (pad (str_bytes s)) in blocks (length ws) ws H_init.

Definition hash_words (h : hash) : list Z := [h0 h; h1 h; h2 h; h3 h; h4 h; h5 h; h6 h; h7 h].

Definition digest (s : string) : list Z := hash_words (sha256 s) ≫= be_bytes 4.

(** [int.from_bytes(hashlib.sha256(s).digest()[:8], "big")] *)
Definition digest_u64 (s : string) : Z :=
  let h := sha256 s in h0 h * 2 ^ 32 + h1 h.

Definition hex_digit (n : Z) : string :=
  match String.get (Z.to_nat n) "0123456789abcdef" with Some c => String c "" | None => "" end.

Definition hex_byte (b : Z) : string := hex_digit (b / 16) +:+ hex_digit (b mod 16).

(** [hashlib.sha256(s).hexdigest()] *)
Definition hexdigest (s : string) : string := concat_str (hex_byte <$> digest s).

(** ** Facts *)

Example sixty_four_constants : length K = 64%nat /\ nth 63 primes 0 = 311.
Proof. split; reflexivity. Qed.

Example sha256_abc :
  hexdigest "abc" = "ba7816bf8f01cfea414140de5dae2223b00361a396177a9cb410ff61f20015ad".
Proof. vm_compute. reflexivity. Qed.

Example sha256_two_blocks :
  hexdigest "abcdbcdecdefdefgefghfghighijhijkijkljklmklmnlmnomnopnopq"
  = "248d6a61d20638b8e5c026930c3e6039a33ce45964ff2167f6ecedd419db06c1".
Proof. vm_compute. reflexivity. Qed.

Definition u32 (x : Z) : Prop := 0 <= x < 2 ^ 32.

Lemma w32_u32 x : u32 (w32 x).
Proof. apply Z.mod_pos_bound. lia. Qed.

Lemma compress_u32 h b : Forall u32 (hash_words (compress h b)).
Proof. repeat constructor; apply w32_u32. Qed.

Lemma blocks_u32 fuel ws h :
  Forall u32 (hash_words h) -> Forall u32 (hash_words (blocks fuel ws h)).
Proof.
  revert ws h. induction fuel as [|fuel IH]; intros ws h Hh; simpl; [done|].
  destruct ws; [done|]. apply IH, compress_u32.
Qed.

Lemma sha256_u32 s : Forall u32 (hash_words (sha256 s)).
Proof. apply blocks_u32. repeat (constructor; [unfold u32; simpl; lia|]). constructor. Qed.

(** The 64-bit prefix of a digest is a 64-bit integer. *)
Lemma digest_u64_range s : 0 <= digest_u64 s < 2 ^ 64.
Proof.
  unfold digest_u64. pose proof (sha256_u32 s) as H. unfold hash_words in H.
  do 2 (apply Forall_cons in H; destruct H as [? H]). unfold u32 in *. simpl in *. lia.
Qed.

Lemma hex_byte_length b : 0 <= b < 256 -> String.length (hex_byte b) = 2%nat.
Proof.
  intros Hb. assert (b ∈ (Z.of_nat <$> seq 0 256)) as Hin.
  { apply list_elem_of_fmap. exists (Z.to_nat b). split; [lia|]. apply elem_of_seq. lia. }
  assert (forallb (fun b => (String.length (hex_byte b) =? 2)%nat) (Z.of_nat <$> seq 0 256) = true)
    as Hall by (vm_compute; reflexivity).
  rewrite forallb_forall in Hall. apply list_elem_of_In, Hall in Hin. by apply Nat.eqb_eq.
Qed.

End Sha256.
