(* ===== verification/Retry.v ===== *)
(** * Retry decisions and backoff ([retry.py])

    [retry_backoff_ms] and [retry_eligibility], with the float arithmetic and
    the hash of the source.  The backoff is bounded by the configured maximum,
    and the jitter keeps it between the values of the extreme draws. *)
From S2P Require Import Prelude PyFloat PyStr PyVal Models Sha256.
Import PyFloat PyStr PyVal Sha256.

(** ["\x00".join(parts)] *)
Definition nul : string := String zero "".
Definition nul_join (parts : list string) : string := join nul parts.

(** [int.from_bytes(sha256(material).digest()[:8], "big") / 2**64] *)
Definition draw_of_u64 (u : Z) : float := of_ratio u (2 ^ 64).
Definition hash_draw (material : string) : float := draw_of_u64 (digest_u64 material).

Module Retry.

(** [round(capped * factor)] clamped to [0, max_backoff_ms], for one draw. *)
Definition jittered (config : RetryConfig) (capped : Z) (draw : float) : pyres Z :=
  let j := rt_jitter_ratio config in
  let factor := fadd (fsub (of_Z 1) j) (fmul (fmul (of_Z 2) j) draw) in
  fcapped ← float_of_int capped;
  match fround (fmul fcapped factor) with
  | Some r => Ok (Z.min (rt_max_backoff_ms config) (Z.max 0 r))
  | None => Err OverflowError
  end.

Definition capped_backoff (config : RetryConfig) (failed_attempt : Z) : Z :=
  Z.min (rt_initial_backoff_ms config * 2 ^ (failed_attempt - 1)) (rt_max_backoff_ms config).

Definition retry_backoff_ms (config : RetryConfig) (seed : option Z) (case_id : string)
    (iteration failed_attempt : Z) : pyres Z :=
  let capped := capped_backoff config failed_attempt in
  if feq (rt_jitter_ratio config) (Fin 0) then Ok capped
  else
    let material :=
      nul_join [str_of_Z (or0 seed); case_id; str_of_Z iteration; str_of_Z failed_attempt; "retry-jitter"] in
    jittered config capped (hash_draw material).

Definition retry_eligibility (error : ExecutionError) (config : RetryConfig) : string :=
  if negb (String.eqb (ee_category error) "provider") || String.eqb (ee_code error) "circuit_open"
  then "not_retryable"
  else if ee_safe_to_retry error then "retry_safe"
  else if ee_ambiguous error
       then if rt_allow_ambiguous_retries config then "retry_ambiguous" else "ambiguous_blocked"
  else "not_retryable".

(** What the configuration parser accepts ([config._retry]). *)
Definition valid_retry (c : RetryConfig) : Prop :=
  1 <= rt_max_attempts c <= 10 /\
  1 <= rt_initial_backoff_ms c <= rt_max_backoff_ms c /\
  1 <= rt_max_cumulative_backoff_ms c /\
  exists k, rt_jitter_ratio c = Fin k /\ 0 <= k <= one_k /\ repr53 k.

(** ** Draws *)

Lemma draw_of_u64_unit u : 0 <= u < 2 ^ 64 -> exists k, draw_of_u64 u = Fin k /\ 0 <= k <= one_k.
Proof. intros. unfold draw_of_u64. apply of_ratio_unit; lia. Qed.

Lemma hash_draw_unit m : exists k, hash_draw m = Fin k /\ 0 <= k <= one_k.
Proof. apply draw_of_u64_unit, digest_u64_range. Qed.

(** ** Backoff *)

Lemma jittered_range config capped draw b :
  0 <= rt_max_backoff_ms config -> jittered config capped draw = Ok b ->
  0 <= b <= rt_max_backoff_ms config.
Proof.
  unfold jittered. destruct (float_of_int capped); simpl; [|done].
  destruct (fround _); intros Hm [= <-]. lia.
Qed.

Lemma retry_backoff_range config seed cid it n b :
  0 <= rt_initial_backoff_ms config -> 0 <= rt_max_backoff_ms config ->
  retry_backoff_ms config seed cid it n = Ok b -> 0 <= b <= rt_max_backoff_ms config.
Proof.
  intros Hi Hm. unfold retry_backoff_ms, capped_backoff. destruct (feq _ _); [|by apply jittered_range].
  intros [= <-]. pose proof (Z.pow_nonneg 2 (n - 1)). nia.
Qed.

Lemma fsub_one_fin k : 0 <= k <= one_k -> exists a, fsub (of_Z 1) (Fin k) = Fin a /\ 0 <= a <= one_k.
Proof.
  intros Hk. rewrite (of_Z_exact 1) by lia. unfold fsub, fneg, fadd.
  pose proof (small_not_huge 1 ltac:(lia)).
  apply of_units_between; [lia|lia| |lia].
  rewrite <- (Z.mul_1_l one_k). by apply repr53_one_k.
Qed.

(** Doubling is exact. *)
Lemma fmul_two_fin k : 0 <= k <= one_k -> repr53 k -> fmul (of_Z 2) (Fin k) = Fin (2 * k).
Proof.
  intros Hk Hr. rewrite (of_Z_exact 2) by lia. unfold fmul.
  pose proof one_k_pos. pose proof (small_not_huge 2 ltac:(lia)).
  replace (2 * one_k * k) with (2 * k * one_k) by ring.
  apply of_units_exact; [done| |lia].
  replace (2 * k) with (k * 2 ^ 1) by lia. by apply repr53_scale.
Qed.

(** The jitter factor is monotone in the draw. *)
Lemma factor_mono k d1 d2 :
  0 <= k <= one_k -> repr53 k -> 0 <= d1 <= d2 -> d2 <= one_k ->
  exists f1 f2,
    fadd (fsub (of_Z 1) (Fin k)) (fmul (fmul (of_Z 2) (Fin k)) (Fin d1)) = f1 /\
    fadd (fsub (of_Z 1) (Fin k)) (fmul (fmul (of_Z 2) (Fin k)) (Fin d2)) = f2 /\
    fle f1 f2 = true.
Proof.
  intros Hk Hr Hd Hd2. destruct (fsub_one_fin k Hk) as (a & -> & Ha).
  rewrite fmul_two_fin by done.
  eexists _, _. split; [done|]. split; [done|].
  apply fadd_mono_r, fmul_mono_r; lia.
Qed.

Lemma fround_inf c : fround (fmul (Fin c) PInf) = None.
Proof. simpl. unfold inf_of_sign. by destruct (0 <? c), (c <? 0). Qed.

Lemma fround_ninf c : fround (fmul (Fin c) NInf) = None.
Proof. simpl. unfold inf_of_sign. by destruct (0 <? - c), (- c <? 0). Qed.

(** The clamped rounding is monotone in the factor. *)
Lemma clamp_mono config c x y a b :
  0 <= c -> fle x y = true ->
  match fround (fmul (Fin c) x) with
  | Some r => Ok (Z.min (rt_max_backoff_ms config) (Z.max 0 r)) | None => Err OverflowError end = Ok a ->
  match fround (fmul (Fin c) y) with
  | Some r => Ok (Z.min (rt_max_backoff_ms config) (Z.max 0 r)) | None => Err OverflowError end = Ok b ->
  a <= b.
Proof.
  intros Hc Hle Ha Hb.
  destruct (fround (fmul (Fin c) x)) as [ra|] eqn:Ea; simplify_eq.
  destruct (fround (fmul (Fin c) y)) as [rb|] eqn:Eb; simplify_eq.
  enough (ra <= rb) by lia.
  destruct x as [x| | |], y as [y| | |]; try done; simpl in Hle; bool_simpl.
  - eapply fround_mono; [|exact Ea|exact Eb]. by apply fmul_mono_r.
  - by rewrite fround_inf in Eb.
  - by rewrite fround_inf in Ea.
  - by rewrite fround_ninf in Ea.
  - by rewrite fround_ninf in Ea.
  - by rewrite fround_ninf in Ea.
Qed.

Lemma jittered_mono config capped k d1 d2 a b :
  rt_jitter_ratio config = Fin k -> 0 <= k <= one_k -> repr53 k -> 0 <= capped ->
  0 <= d1 <= d2 -> d2 <= one_k ->
  jittered config capped (Fin d1) = Ok a -> jittered config capped (Fin d2) = Ok b -> a <= b.
Proof.
  intros Hj Hk Hr Hc Hd Hd2. unfold jittered. rewrite Hj.
  destruct (factor_mono k d1 d2 Hk Hr Hd Hd2) as (f1 & f2 & -> & -> & Hle).
  unfold float_of_int. destruct (of_Z capped) as [c| | |] eqn:Ec; simpl; try done.
  assert (0 <= c).
  { unfold of_Z, of_ratio in Ec. apply of_units_fin in Ec as ->. apply rnd_sign_pos; [lia|].
    pose proof one_k_pos. nia. }
  by apply clamp_mono.
Qed.

(** With a cap below [2^53] milliseconds no conversion overflows. *)
Lemma jittered_total config capped k d :
  rt_jitter_ratio config = Fin k -> 0 <= k <= one_k -> repr53 k ->
  0 <= capped < 2 ^ 53 -> 0 <= d <= one_k -> exists b, jittered config capped (Fin d) = Ok b.
Proof.
  intros Hj Hk Hr Hc Hd. unfold jittered, float_of_int. rewrite Hj.
  pose proof one_k_pos as Hone.
  destruct (fsub_one_fin k Hk) as (a & -> & Ha). rewrite fmul_two_fin by done.
  rewrite of_Z_exact by lia. simpl.
  pose proof (small_not_huge 2 ltac:(lia)). pose proof (small_not_huge 3 ltac:(lia)).
  pose proof (small_not_huge (2 ^ 53 - 1) ltac:(lia)).
  destruct (of_units_between (2 * k * d) one_k (2 * one_k)) as (x & -> & Hx);
    [done|nia|by apply repr53_one_k|lia|].
  simpl. destruct (of_units_between (a + x) 1 (3 * one_k)) as (y & -> & Hy);
    [done|lia|by apply repr53_one_k|lia|].
  assert (0 <= capped * y <= 2 ^ 53 * (3 * one_k)) as Hcy.
  { split; [apply Z.mul_nonneg_nonneg; lia|apply Z.mul_le_mono_nonneg; lia]. }
  simpl. destruct (of_units_between (capped * one_k * y) one_k (3 * 2 ^ 53 * one_k)) as (z & -> & Hz).
  { done. }
  { replace (capped * one_k * y) with (capped * y * one_k) by ring. nia. }
  - replace (3 * 2 ^ 53 * one_k) with (3 * one_k * 2 ^ 53) by ring.
    apply repr53_scale; [lia|by apply repr53_one_k].
  - apply three_not_huge.
  - simpl. eauto.
Qed.

Lemma capped_range config n :
  valid_retry config -> 1 <= n -> 0 <= capped_backoff config n <= rt_max_backoff_ms config.
Proof.
  intros (_ & Hb & _) Hn. unfold capped_backoff. pose proof (Z.pow_pos_nonneg 2 (n - 1)). nia.
Qed.

(** ** Properties *)

(** C24.  For a validated retry configuration the backoff is always computed,
    stays within [0, max_backoff_ms], and the jitter keeps it between the
    delays of the two extreme draws 0.0 and 1.0; without jitter it is the
    capped exponential itself. *)
Theorem retry_backoff_window config seed case_id iteration failed_attempt :
  valid_retry config -> rt_max_backoff_ms config < 2 ^ 53 -> 1 <= failed_attempt ->
  exists b, retry_backoff_ms config seed case_id iteration failed_attempt = Ok b /\
    0 <= b <= rt_max_backoff_ms config /\
    let capped := capped_backoff config failed_attempt in
    (feq (rt_jitter_ratio config) (Fin 0) = true -> b = capped) /\
    (feq (rt_jitter_ratio config) (Fin 0) = false ->
     exists lo hi, jittered config capped (Fin 0) = Ok lo /\
                   jittered config capped (of_Z 1) = Ok hi /\ lo <= b <= hi).
Proof.
  intros Hv Hmax Hn. pose proof (capped_range _ _ Hv Hn) as Hc.
  destruct Hv as (_ & Hb & _ & k & Hj & Hk & Hr). pose proof one_k_pos.
  unfold retry_backoff_ms. destruct (feq _ _) eqn:E.
  { eexists. split_and!; [done|lia|lia|done|done]. }
  destruct (hash_draw_unit (nul_join [str_of_Z (or0 seed); case_id; str_of_Z iteration;
    str_of_Z failed_attempt; "retry-jitter"])) as (d & -> & Hd).
  set (capped := capped_backoff config failed_attempt) in *.
  assert (of_Z 1 = Fin one_k) as -> by (rewrite of_Z_exact by lia; f_equal; lia).
  destruct (jittered_total config capped k d) as [b Hbk]; [done..|lia|done|].
  destruct (jittered_total config capped k 0) as [lo Hlo]; [done..|lia|lia|].
  destruct (jittered_total config capped k one_k) as [hi Hhi]; [done..|lia|lia|].
  exists b. pose proof (jittered_range config capped (Fin d) b ltac:(lia) Hbk).
  pose proof (jittered_mono config capped k 0 d lo b Hj Hk Hr ltac:(lia) ltac:(lia) ltac:(lia) Hlo Hbk).
  pose proof (jittered_mono config capped k d one_k b hi Hj Hk Hr ltac:(lia) ltac:(lia) ltac:(lia) Hbk Hhi).
  split_and!; [done|lia|lia|done|]. intros _. exists lo, hi. split_and!; [done|done|lia|lia].
Qed.

Definition sample_retry : RetryConfig := mkRetry 3 100 2000 5000 (of_ratio 2 10) false.

Lemma sample_retry_valid : valid_retry sample_retry.
Proof.
  unfold valid_retry. simpl. repeat split; try lia.
  destruct (of_ratio_unit 2 10) as (k & Hk & Hr); [lia..|]. exists k. split_and!; [done|lia|lia|].
  unfold of_ratio in Hk. apply of_units_fin in Hk as ->. apply rnd_repr53. lia.
Qed.

(** With seed 42 the first retry of ["case-1"] waits 81 ms. *)
Lemma retry_backoff_window_witness :
  retry_backoff_ms sample_retry (Some 42) "case-1" 0 1 = Ok 81 /\
  exists b, retry_backoff_ms sample_retry (Some 42) "case-1" 0 1 = Ok b /\ 0 <= b <= 2000.
Proof.
  split; [vm_compute; reflexivity|].
  destruct (retry_backoff_window sample_retry (Some 42) "case-1" 0 1) as (b & Hb & Hr & _);
    [exact sample_retry_valid|reflexivity|lia|].
  exists b. split; [exact Hb|exact Hr].
Defined.

(** A retry is only ever granted to a provider error that is not a
    circuit rejection, and it is granted exactly when the error is safe to
    retry or ambiguous with ambiguous retries allowed. *)
Theorem retry_eligibility_spec error config :
  startswith "retry_" (retry_eligibility error config) = true <->
  ee_category error = "provider" /\ ee_code error <> "circuit_open" /\
  (ee_safe_to_retry error = true \/
   ee_ambiguous error = true /\ rt_allow_ambiguous_retries config = true).
Proof.
  unfold retry_eligibility.
  destruct (String.eqb_spec (ee_category error) "provider") as [Hc|Hc]; simpl; [|naive_solver].
  destruct (String.eqb_spec (ee_code error) "circuit_open") as [Ho|Ho]; simpl; [naive_solver|].
  destruct (ee_safe_to_retry error), (ee_ambiguous error), (rt_allow_ambiguous_retries config);
    simpl; naive_solver.
Qed.

End Retry.
