(* ===== verification/Circuit.v ===== *)
(** * Worker-local circuit breaker ([circuit.py])

    The breaker's fields are a record, [acquire] and [record_terminal] are
    total functions of the clock reading they take.  Concurrent cases are
    interleavings of those two operations: [cstep] is the step relation over
    the breaker and the permits that are still out. *)
From S2P Require Import Prelude PyFloat PyStr PyVal Models.
Import PyFloat PyStr PyVal.

Module Circuit.

Record CircuitPermit := mkPermit { cp_probe : bool; cp_events : list string }.

#[global] Instance permit_eq_dec : EqDecision CircuitPermit.
Proof. solve_decision. Defined.

(** The three values of [_state]. *)
Inductive cstate := Closed | Open | HalfOpen.

#[global] Instance cstate_eq_dec : EqDecision cstate.
Proof. solve_decision. Defined.

Record CircuitBreaker := mkCircuit {
  c_config : option CircuitBreakerConfig;
  c_state : cstate;
  c_consecutive_failures : Z;
  c_open_until : float;
  c_probe_in_flight : bool
}.

Definition circuit_init (config : option CircuitBreakerConfig) : CircuitBreaker :=
  mkCircuit config Closed 0 (Fin 0) false.

Definition plain_permit : CircuitPermit := mkPermit false [].
Definition probe_permit : CircuitPermit := mkPermit true ["half_open"].

Definition circuit_open_error : ExecutionError :=
  mkExecutionError "provider" "circuit_open" "provider" false false None "" "" true ["reject"].

Definition acquire (c : CircuitBreaker) (now : float)
    : CircuitBreaker * result ExecutionError CircuitPermit :=
  match c_config c with
  | None => (c, Ok plain_permit)
  | Some _ =>
      match c_state c with
      | Closed => (c, Ok plain_permit)
      | st =>
          if bool_decide (st = Open) && fle (c_open_until c) now && negb (c_probe_in_flight c)
          then (mkCircuit (c_config c) HalfOpen (c_consecutive_failures c) (c_open_until c) true,
                Ok probe_permit)
          else (c, Err circuit_open_error)
      end
  end.

(** [now + self._config.open_duration_ms / 1000] *)
Definition reopen_at (config : CircuitBreakerConfig) (now : float) : float :=
  fadd now (of_ratio (cb_open_duration_ms config) 1000).

Definition record_terminal (c : CircuitBreaker) (permit : CircuitPermit)
    (provider_succeeded : bool) (failure_category : string) (now : float)
    : CircuitBreaker * list string :=
  match c_config c with
  | None => (c, [])
  | Some config =>
      if cp_probe permit then
        if provider_succeeded then
          (mkCircuit (Some config) Closed 0 (c_open_until c) false, ["close"])
        else if String.eqb failure_category "provider" then
          (mkCircuit (Some config) Open (c_consecutive_failures c) (reopen_at config now) false, ["open"])
        else
          (mkCircuit (Some config) Open (c_consecutive_failures c) now false, [])
      else if provider_succeeded then
        match c_state c with
        | Closed => (mkCircuit (Some config) Closed 0 (c_open_until c) (c_probe_in_flight c), [])
        | _ => (mkCircuit (Some config) Closed 0 (c_open_until c) false, ["close"])
        end
      else if negb (String.eqb failure_category "provider") then (c, [])
      else
        match c_state c with
        | Closed =>
            let n := c_consecutive_failures c + 1 in
            if cb_failure_threshold config <=? n then
              (mkCircuit (Some config) Open n (reopen_at config now) (c_probe_in_flight c), ["open"])
            else (mkCircuit (Some config) Closed n (c_open_until c) (c_probe_in_flight c), [])
        | Open =>
            (mkCircuit (Some config) Open (c_consecutive_failures c)
               (fmax (c_open_until c) (reopen_at config now)) (c_probe_in_flight c), [])
        | HalfOpen => (c, [])
        end
  end.

(** ** Interleavings

    A step of the worker as the breaker sees it: some case asks for a permit,
    or a case that holds one ends.  [s_out] lists the permits still out;
    [s_forced] counts the times a case without a probe closed a half-open
    breaker. *)
Record cworld := mkWorld {
  s_circuit : CircuitBreaker;
  s_out : list CircuitPermit;
  s_forced : Z
}.

(** A success of a non-probe case that finds the breaker half open. *)
Definition forces_close (c : CircuitBreaker) (p : CircuitPermit) (ok : bool) : bool :=
  ok && negb (cp_probe p) && bool_decide (c_state c = HalfOpen).

Inductive cstep : cworld -> cworld -> Prop :=
| cstep_grant c out n now c' p :
    acquire c now = (c', Ok p) ->
    cstep (mkWorld c out n) (mkWorld c' (p :: out) n)
| cstep_reject c out n now c' e :
    acquire c now = (c', Err e) ->
    cstep (mkWorld c out n) (mkWorld c' out n)
| cstep_record c out1 p out2 n ok category now c' events :
    record_terminal c p ok category now = (c', events) ->
    cstep (mkWorld c (out1 ++ p :: out2) n)
          (mkWorld c' (out1 ++ out2) (n + if forces_close c p ok then 1 else 0)).

Definition cinit (config : CircuitBreakerConfig) : cworld :=
  mkWorld (circuit_init (Some config)) [] 0.

Definition probes (out : list CircuitPermit) : Z :=
  Z.of_nat (length (List.filter cp_probe out)).

(** ** Abstract specification

    The breaker a reader of the documentation expects: it counts consecutive
    provider failures, is open until a time, or has one probe running. *)
Inductive abreaker :=
| AClosed (failures : Z)
| AOpen (until : float)
| AProbing.

Inductive aevent := AccOk | AccProbe | AccReject.

Definition abs (c : CircuitBreaker) : abreaker :=
  match c_state c with
  | Closed => AClosed (c_consecutive_failures c)
  | Open => AOpen (c_open_until c)
  | HalfOpen => AProbing
  end.

Definition a_acquire (a : abreaker) (now : float) : abreaker * aevent :=
  match a with
  | AClosed n => (AClosed n, AccOk)
  | AOpen t => if fle t now then (AProbing, AccProbe) else (AOpen t, AccReject)
  | AProbing => (AProbing, AccReject)
  end.

(** How a case that held a permit ended, as the breaker distinguishes it. *)
Inductive outcome := Success | ProviderFailure | OtherFailure.

Definition a_record (config : CircuitBreakerConfig) (a : abreaker) (probe : bool)
    (o : outcome) (now : float) : abreaker :=
  match o, probe with
  | Success, _ => AClosed 0
  | ProviderFailure, true => AOpen (reopen_at config now)
  | OtherFailure, true => AOpen now
  | OtherFailure, false => a
  | ProviderFailure, false =>
      match a with
      | AClosed n =>
          if cb_failure_threshold config <=? n + 1 then AOpen (reopen_at config now) else AClosed (n + 1)
      | AOpen t => AOpen (fmax t (reopen_at config now))
      | AProbing => AProbing
      end
  end.

Definition outcome_of (ok : bool) (category : string) : outcome :=
  if ok then Success else if String.eqb category "provider" then ProviderFailure else OtherFailure.

Definition event_of (r : result ExecutionError CircuitPermit) : aevent :=
  match r with
  | Ok p => if cp_probe p then AccProbe else AccOk
  | Err _ => AccReject
  end.

(** ** Invariant *)

(** The probe flag is set exactly while half open; the failure counter never
    passes the threshold and is below it while closed. *)
Definition inv (config : CircuitBreakerConfig) (c : CircuitBreaker) : Prop :=
  c_config c = Some config /\
  c_probe_in_flight c = bool_decide (c_state c = HalfOpen) /\
  0 <= c_consecutive_failures c <= cb_failure_threshold config /\
  (c_state c = Closed -> c_consecutive_failures c < cb_failure_threshold config).

Lemma inv_init config : 1 <= cb_failure_threshold config -> inv config (circuit_init (Some config)).
Proof. intros. unfold inv. simpl. repeat split; lia. Qed.

Lemma acquire_inv config c now c' r :
  inv config c -> acquire c now = (c', r) -> inv config c'.
Proof.
  intros (Hc & Hp & Hn & Hs) Ha. unfold acquire in Ha. rewrite Hc in Ha.
  destruct (c_state c) eqn:Est; try case_match; simplify_eq; unfold inv; simpl;
    rewrite ?Hc, ?Est; repeat split; try done; try lia; naive_solver.
Qed.

Lemma record_inv config c p ok cat now c' ev :
  1 <= cb_failure_threshold config -> inv config c ->
  record_terminal c p ok cat now = (c', ev) -> inv config c'.
Proof.
  intros Ht (Hc & Hp & Hn & Hs) Hr. unfold record_terminal in Hr. rewrite Hc in Hr.
  destruct (c_state c) eqn:Est; repeat case_match; simplify_eq; unfold inv; simpl;
    rewrite ?Hc, ?Est, ?Hp; bool_simpl; repeat split; try done; try lia; try naive_solver lia.
Qed.

(** The outcome record matters to the breaker only through the abstract
    outcome and the probe bit. *)
Lemma record_abs config c p ok cat now c' ev :
  c_config c = Some config -> record_terminal c p ok cat now = (c', ev) ->
  abs c' = a_record config (abs c) (cp_probe p) (outcome_of ok cat) now.
Proof.
  intros Hc Hr. unfold record_terminal in Hr. rewrite Hc in Hr.
  unfold abs, outcome_of, a_record.
  destruct (c_state c) eqn:Est; repeat case_match; simplify_eq/=; rewrite ?Est; simplify_eq/=;
    try done; congruence.
Qed.

Lemma acquire_abs config c now c' r :
  inv config c -> acquire c now = (c', r) -> a_acquire (abs c) now = (abs c', event_of r).
Proof.
  intros (Hc & Hp & _) Ha. unfold acquire in Ha. rewrite Hc in Ha. unfold abs, a_acquire.
  destruct (c_state c) eqn:Est; simplify_eq/=; rewrite ?Est; [done| |done].
  rewrite Hp in Ha. simpl in Ha. destruct (fle (c_open_until c) now); simplify_eq/=; by rewrite ?Est.
Qed.

Lemma acquire_probe c now c' p :
  acquire c now = (c', Ok p) -> cp_probe p = true ->
  p = probe_permit /\ c_state c = Open /\ c_state c' = HalfOpen /\ fle (c_open_until c) now = true.
Proof.
  unfold acquire. intros Ha Hp. repeat case_match; simplify_eq/=; bool_simpl; naive_solver.
Qed.

Lemma acquire_plain c now c' p :
  acquire c now = (c', Ok p) -> cp_probe p = false -> c' = c.
Proof. unfold acquire. intros Ha Hp. repeat case_match; by simplify_eq/=. Qed.

Lemma acquire_err c now c' e :
  acquire c now = (c', Err e) -> c' = c /\ e = circuit_open_error /\ c_state c <> Closed.
Proof. unfold acquire. intros Ha. repeat case_match; simplify_eq/=; split_and!; congruence. Qed.

(** ** Probes under interleaving *)

Lemma probes_cons p out : probes (p :: out) = (if cp_probe p then 1 else 0) + probes out.
Proof. unfold probes. simpl. destruct (cp_probe p); simpl; lia. Qed.

Lemma probes_app out1 out2 : probes (out1 ++ out2) = probes out1 + probes out2.
Proof. unfold probes. rewrite List.filter_app, length_app. lia. Qed.

Lemma probes_nonneg out : 0 <= probes out.
Proof. unfold probes. lia. Qed.

Definition half (c : CircuitBreaker) : Z := if bool_decide (c_state c = HalfOpen) then 1 else 0.

(** Outstanding probes are paid for by the half-open state or by a forced close. *)
Definition winv (config : CircuitBreakerConfig) (w : cworld) : Prop :=
  inv config (s_circuit w) /\ 0 <= s_forced w /\ probes (s_out w) <= half (s_circuit w) + s_forced w.

Lemma record_half c p ok cat now c' ev config :
  c_config c = Some config -> record_terminal c p ok cat now = (c', ev) ->
  half c <= half c' + (if cp_probe p then 1 else 0) + (if forces_close c p ok then 1 else 0).
Proof.
  intros Hc Hr. unfold record_terminal in Hr. rewrite Hc in Hr. unfold half, forces_close.
  destruct (c_state c) eqn:Est; repeat case_match; simplify_eq/=; rewrite ?Est; simpl; try lia;
    rewrite Est in *; done.
Qed.

Lemma cstep_winv config w w' :
  1 <= cb_failure_threshold config -> winv config w -> cstep w w' -> winv config w'.
Proof.
  intros Ht (Hi & Hf & Hp) Hs. destruct Hs as [c out n now c' p Ha|c out n now c' e Ha|
    c out1 p out2 n ok cat now c' ev Hr]; simpl in *; unfold winv; simpl.
  - split_and!; [by eapply acquire_inv|done|]. rewrite probes_cons.
    destruct (cp_probe p) eqn:Epr.
    + destruct (acquire_probe _ _ _ _ Ha Epr) as (_ & Ho & Hh & _).
      unfold half in *. rewrite Ho in Hp. rewrite Hh. simpl in *. lia.
    + apply acquire_plain in Ha as ->; [lia|done].
  - apply acquire_err in Ha as (-> & _). done.
  - split_and!; [by eapply record_inv|by case_match; lia|].
    destruct Hi as (Hc & _). pose proof (record_half _ _ _ _ _ _ _ _ Hc Hr) as Hh.
    rewrite probes_app in *. rewrite probes_cons in Hp. lia.
Qed.

Lemma reachable_winv config w :
  1 <= cb_failure_threshold config -> star cstep (cinit config) w -> winv config w.
Proof.
  intros Ht Hs. refine (star_invariant cstep (winv config) _ _ _ Hs _).
  - intros. by eapply cstep_winv.
  - unfold winv, cinit. simpl. split_and!; [by apply inv_init|lia|done].
Qed.

(** ** Sequences of terminal outcomes *)

(** Feeds outcomes of ordinary (non-probe) cases to the breaker. *)
Definition record_all (c : CircuitBreaker) (l : list (bool * string * float)) : CircuitBreaker :=
  foldl (fun c o => (record_terminal c plain_permit o.1.1 o.1.2 o.2).1) c l.

(** Provider failures since the last success; other failures do not count. *)
Fixpoint trailing (n : Z) (l : list outcome) : Z :=
  match l with
  | [] => n
  | Success :: l' => trailing 0 l'
  | ProviderFailure :: l' => trailing (n + 1) l'
  | OtherFailure :: l' => trailing n l'
  end.

(** Some prefix of the outcomes ends in [k] consecutive provider failures. *)
Fixpoint reaches (k n : Z) (l : list outcome) : bool :=
  match l with
  | [] => false
  | Success :: l' => reaches k 0 l'
  | ProviderFailure :: l' => (k <=? n + 1) || reaches k (n + 1) l'
  | OtherFailure :: l' => reaches k n l'
  end.

Definition outcomes (l : list (bool * string * float)) : list outcome :=
  (fun o => outcome_of o.1.1 o.1.2) <$> l.

Lemma record_all_abs config c l :
  c_config c = Some config -> abs c = AClosed (c_consecutive_failures c) ->
  reaches (cb_failure_threshold config) (c_consecutive_failures c) (outcomes l) = false ->
  abs (record_all c l) = AClosed (trailing (c_consecutive_failures c) (outcomes l)).
Proof.
  revert c. induction l as [|[[ok cat] now] l IH]; intros c Hc Ha Hr; [done|].
  unfold outcomes in *. simpl in *. unfold record_terminal. rewrite Hc.
  assert (c_state c = Closed) as Est by (unfold abs in Ha; by destruct (c_state c)).
  rewrite Est. simpl. unfold outcome_of in *. destruct ok; simpl in *; [by apply IH|].
  destruct (String.eqb cat "provider") eqn:E; simpl in *.
  - bool_simpl. destruct (_ <=? _) eqn:E2; bool_simpl; [lia|]. simpl. by apply IH.
  - by apply IH.
Qed.

(** ** Properties *)

(** C22.  Every reachable breaker keeps the invariant: the probe flag is set
    exactly in the half-open state, the failure counter stays within the
    threshold and below it while closed; and the probes that are out never
    exceed one plus the number of half-open periods that a late success of an
    ordinary case cut short. *)
Theorem circuit_invariant config w :
  1 <= cb_failure_threshold config -> star cstep (cinit config) w ->
  inv config (s_circuit w) /\ probes (s_out w) <= 1 + s_forced w.
Proof.
  intros Ht Hs. destruct (reachable_winv _ _ Ht Hs) as (Hi & Hf & Hp). split; [done|].
  unfold half in Hp. case_bool_decide; lia.
Qed.

Definition breaker1 : CircuitBreakerConfig := mkBreaker 1 1000.

(** One grant and one provider failure: the breaker is open. *)
Definition w_open : cworld :=
  mkWorld (mkCircuit (Some breaker1) Open 1 (reopen_at breaker1 (Fin 0)) false) [] 0.

Lemma reach_open : star cstep (cinit breaker1) w_open.
Proof.
  eapply star_next; [apply (cstep_grant _ _ _ (Fin 0)); reflexivity|].
  apply star_one. apply (cstep_record _ [] plain_permit [] 0 false "provider" (Fin 0) _ ["open"]).
  reflexivity.
Qed.

Lemma circuit_invariant_witness :
  1 <= cb_failure_threshold breaker1 /\ inv breaker1 (s_circuit w_open) /\ probes (s_out w_open) <= 1.
Proof.
  split; [simpl; lia|]. apply (circuit_invariant breaker1 w_open); [simpl; lia|exact reach_open].
Defined.

(** C3.  The breaker implements the documented automaton: on every state that
    satisfies the invariant, [acquire] admits, probes or rejects as the abstract breaker does,
    and [record_terminal] moves to the abstract successor for the outcome of
    the case. *)
Theorem circuit_refines config c :
  inv config c ->
  (forall now c' r, acquire c now = (c', r) ->
     a_acquire (abs c) now = (abs c', event_of r)) /\
  (forall p ok cat now c' ev, record_terminal c p ok cat now = (c', ev) ->
     abs c' = a_record config (abs c) (cp_probe p) (outcome_of ok cat) now).
Proof.
  intros Hi. split; intros *.
  - by eapply acquire_abs.
  - destruct Hi as (Hc & _). by eapply record_abs.
Qed.

Lemma circuit_refines_witness :
  inv breaker1 (circuit_init (Some breaker1)) /\
  abs (record_terminal (circuit_init (Some breaker1)) plain_permit false "provider" (Fin 0)).1
  = a_record breaker1 (AClosed 0) false ProviderFailure (Fin 0).
Proof.
  assert (inv breaker1 (circuit_init (Some breaker1))) as Hi by (apply inv_init; simpl; lia).
  split; [exact Hi|].
  destruct (circuit_refines breaker1 (circuit_init (Some breaker1)) Hi) as [_ Hr].
  eapply (Hr plain_permit false "provider" (Fin 0)). reflexivity.
Defined.

(** C23.  A closed breaker does not open before the outcomes recorded since
    then reach the threshold of consecutive provider failures: as long as they
    do not, it stays closed and counts the provider failures since the last
    success, whatever evaluation, tool or harness failures lie between. *)
Theorem circuit_counts_consecutive config c l :
  inv config c -> c_state c = Closed ->
  reaches (cb_failure_threshold config) (c_consecutive_failures c) (outcomes l) = false ->
  c_state (record_all c l) = Closed /\
  c_consecutive_failures (record_all c l) = trailing (c_consecutive_failures c) (outcomes l).
Proof.
  intros (Hc & _) Est Hr.
  assert (abs c = AClosed (c_consecutive_failures c)) as Ha by (unfold abs; by rewrite Est).
  pose proof (record_all_abs config c l Hc Ha Hr) as H. unfold abs in H.
  destruct (c_state (record_all c l)); by simplify_eq.
Qed.

Definition breaker2 : CircuitBreakerConfig := mkBreaker 2 1000.

Lemma circuit_counts_consecutive_witness :
  let l := [(false, "provider", Fin 0); (false, "evaluation", Fin 1); (true, "", Fin 2);
            (false, "provider", Fin 3)] in
  c_state (record_all (circuit_init (Some breaker2)) l) = Closed /\
  c_consecutive_failures (record_all (circuit_init (Some breaker2)) l) = 1.
Proof.
  apply (circuit_counts_consecutive breaker2 (circuit_init (Some breaker2))
    [(false, "provider", Fin 0); (false, "evaluation", Fin 1); (true, "", Fin 2);
     (false, "provider", Fin 3)]).
  - apply inv_init. simpl. lia.
  - reflexivity.
  - reflexivity.
Defined.

(** While a probe runs every further request is rejected locally and
    leaves the breaker unchanged; while the breaker is open, a request is
    admitted as the probe exactly when the open period is over. *)
Theorem circuit_gate config c now :
  inv config c ->
  (c_state c = HalfOpen -> acquire c now = (c, Err circuit_open_error)) /\
  (c_state c = Open ->
     if fle (c_open_until c) now
     then (acquire c now).2 = Ok probe_permit /\ c_state (acquire c now).1 = HalfOpen
     else acquire c now = (c, Err circuit_open_error)).
Proof.
  intros (Hc & Hp & _). unfold acquire. rewrite Hc.
  split; intros Est; rewrite Est in *; simpl; [done|].
  rewrite Hp. simpl. by destruct (fle _ _).
Qed.

Lemma circuit_gate_witness :
  inv breaker1 (s_circuit w_open) /\
  (acquire (s_circuit w_open) (Fin 0)).2 = Err circuit_open_error /\
  (acquire (s_circuit w_open) (of_Z 2)).2 = Ok probe_permit.
Proof.
  assert (inv breaker1 (s_circuit w_open)) as Hi.
  { unfold inv. simpl. repeat split; try done; lia. }
  split; [exact Hi|]. split.
  - destruct (circuit_gate breaker1 (s_circuit w_open) (Fin 0) Hi) as [_ Ho].
    specialize (Ho eq_refl). vm_compute in Ho. vm_compute. reflexivity.
  - destruct (circuit_gate breaker1 (s_circuit w_open) (of_Z 2) Hi) as [_ Ho].
    specialize (Ho eq_refl). vm_compute in Ho. vm_compute. exact (proj1 Ho).
Defined.

(** Three ordinary permits, a provider failure, a probe two seconds later,
    and a success of the second ordinary case while the probe still runs. *)
Definition w_forced : cworld :=
  mkWorld (mkCircuit (Some breaker1) Closed 0 (reopen_at breaker1 (Fin 0)) false)
          [probe_permit; plain_permit] 1.

Lemma reach_forced : star cstep (cinit breaker1) w_forced.
Proof.
  do 3 (eapply star_next; [apply (cstep_grant _ _ _ (Fin 0)); reflexivity|]).
  eapply star_next.
  { apply (cstep_record _ [] plain_permit _ 0 false "provider" (Fin 0)
      (mkCircuit (Some breaker1) Open 1 (reopen_at breaker1 (Fin 0)) false) ["open"]). reflexivity. }
  eapply star_next.
  { apply (cstep_grant _ _ _ (of_Z 2) (mkCircuit (Some breaker1) HalfOpen 1 (reopen_at breaker1 (Fin 0)) true)
      probe_permit). vm_compute. reflexivity. }
  apply star_one.
  simpl. apply (cstep_record
    (mkCircuit (Some breaker1) HalfOpen 1 (reopen_at breaker1 (Fin 0)) true)
    [probe_permit] plain_permit [plain_permit] 0 true "" (of_Z 2)
    (mkCircuit (Some breaker1) Closed 0 (reopen_at breaker1 (Fin 0)) false) ["close"]).
  reflexivity.
Qed.

(** A late success of an ordinary case closes a half-open breaker while its
    probe is still running; once the breaker has opened again a second probe
    is admitted beside the first. *)
Theorem two_probes_reachable :
  exists w, star cstep (cinit breaker1) w /\ s_out w = [probe_permit; probe_permit].
Proof.
  eexists. split; [eapply star_app; [exact reach_forced|]|].
  - eapply star_next.
    { apply (cstep_record _ [probe_permit] plain_permit [] 1 false "provider" (of_Z 2)
        (mkCircuit (Some breaker1) Open 1 (reopen_at breaker1 (of_Z 2)) false) ["open"]). reflexivity. }
    apply star_one.
    apply (cstep_grant _ _ _ (of_Z 4) (mkCircuit (Some breaker1) HalfOpen 1 (reopen_at breaker1 (of_Z 2)) true)
      probe_permit). vm_compute. reflexivity.
  - reflexivity.
Qed.

(** A probe that outlives such a forced close opens the closed breaker even
    when its own failure is not a provider failure. *)
Theorem stale_probe_opens_closed_breaker :
  exists w, star cstep (cinit breaker1) w /\ c_state (s_circuit w) = Closed /\
    probe_permit ∈ s_out w /\
    c_state (record_terminal (s_circuit w) probe_permit false "evaluation" (of_Z 3)).1 = Open.
Proof.
  exists w_forced. split_and!; [exact reach_forced|done|left|done].
Qed.

End Circuit.
