(* ===== verification/Effects.v ===== *)
(** * Effects of one case: an asyncio task as a state and exception monad

    A case runs as one asyncio task.  Everything the task can observe but not
    decide (clock readings, the stop event, a cancellation, what concurrent
    cases did to the shared circuit breaker) comes from an arbitrary sequence
    of observations, [Env]: every clock read, [is_set] test and [await]
    consumes the next one.  Theorems quantify over the environment, so they
    hold for every schedule.

    [M A] is the type of task code: it ends with a value, with an exception,
    or not at all ([Diverge], the fuel of a loop ran out). *)
From S2P Require Import Prelude PyFloat PyStr PyVal Models Circuit.
Import PyFloat PyStr PyVal Circuit.

(** What the task sees at one of its observation points. *)
Record snapshot := mkSnapshot {
  sn_time : float;                                    (* time.perf_counter() *)
  sn_stop : bool;                                     (* stop_event.is_set() *)
  sn_cancel : bool;                                   (* task.cancel() was requested *)
  sn_interfere : CircuitBreaker -> CircuitBreaker;    (* other cases' breaker calls *)
  sn_permit_lost : bool                               (* a renewal of the held permit failed *)
}.

Class Env := observe : nat -> snapshot.

(** What a case does that others can see: calls on the telemetry client, with
    the identity of the span, and requests to the Result API. *)
Inductive tevent :=
| TStart (id : nat) (name : string) (attrs : dict)
| TAttr (id : nat) (name : string) (v : val)
| TError (id : nat) (error_type : string)
| TEnd (id : nat)
| THttp (method url : string)    (* a request to the Result API *)
| TShutdown.                     (* telemetry.shutdown() *)

Record World := mkTask {
  w_pos : nat;                     (* observations consumed *)
  w_deadline : option float;       (* deadline of the enclosing wait_for *)
  w_expired : bool;                (* that deadline cancelled the task *)
  w_circuit : CircuitBreaker;      (* WorkloadRunner._circuit *)
  w_trace : list tevent;           (* telemetry calls, newest first *)
  w_next_span : nat;
  w_tools : list (string * nat);   (* _CaseLifecycle._tools: invocation id, span *)
  w_tool_path : list string;       (* _CaseLifecycle.tool_path *)
  w_injected : bool;               (* _ToolFaultLifecycle._injected *)
  w_calls : option (list val);     (* the context variable _TOOL_CALLS *)
  w_lease_task : bool              (* execute's lease_task is not None *)
}.

Inductive outcome (A : Type) :=
| Ret (a : A)
| Raise (e : exn)
| Diverge.
Arguments Ret {A} a.
Arguments Raise {A} e.
Arguments Diverge {A}.

Definition M (A : Type) : Type := World -> outcome A * World.

#[global] Instance M_ret : MRet M := fun A a w => (Ret a, w).

#[global] Instance M_bind : MBind M := fun A B k m w =>
  match m w with
  | (Ret a, w') => k a w'
  | (Raise e, w') => (Raise e, w')
  | (Diverge, w') => (Diverge, w')
  end.

Definition raise {A} (e : exn) : M A := fun w => (Raise e, w).
Definition diverge {A} : M A := fun w => (Diverge, w).
Definition get_state {A} (f : World -> A) : M A := fun w => (Ret (f w), w).
Definition modify (f : World -> World) : M unit := fun w => (Ret tt, f w).

(** Pure code that may raise. *)
Definition lift {A} (r : pyres A) : M A :=
  match r with Ok a => mret a | Err e => raise (EPy e) end.

(** [try: m except: h(exc)], with the handler deciding which exceptions it
    takes ([None]: not this one). *)
Definition try_with {A} (m : M A) (h : exn -> option (M A)) : M A := fun w =>
  match m w with
  | (Raise e, w') => match h e with Some k => k w' | None => (Raise e, w') end
  | r => r
  end.

(** [except Exception]: everything but the cancellation. *)
Definition is_exception (e : exn) : bool :=
  match e with ECancelled => false | _ => true end.

(** [try: m finally: f] *)
Definition finally {A} (m : M A) (f : M unit) : M A := fun w =>
  match m w with
  | (Diverge, w') => (Diverge, w')
  | (o, w') =>
      match f w' with
      | (Ret _, w'') => (o, w'')
      | (Raise e, w'') => (Raise e, w'')
      | (Diverge, w'') => (Diverge, w'')
      end
  end.

(** ** Field updates *)

Definition set_pos f w := mkTask (f (w_pos w)) (w_deadline w) (w_expired w) (w_circuit w) (w_trace w)
  (w_next_span w) (w_tools w) (w_tool_path w) (w_injected w) (w_calls w) (w_lease_task w).
Definition set_deadline d w := mkTask (w_pos w) d (w_expired w) (w_circuit w) (w_trace w)
  (w_next_span w) (w_tools w) (w_tool_path w) (w_injected w) (w_calls w) (w_lease_task w).
Definition set_expired b w := mkTask (w_pos w) (w_deadline w) b (w_circuit w) (w_trace w)
  (w_next_span w) (w_tools w) (w_tool_path w) (w_injected w) (w_calls w) (w_lease_task w).
Definition set_circuit c w := mkTask (w_pos w) (w_deadline w) (w_expired w) c (w_trace w)
  (w_next_span w) (w_tools w) (w_tool_path w) (w_injected w) (w_calls w) (w_lease_task w).
Definition log_event e w := mkTask (w_pos w) (w_deadline w) (w_expired w) (w_circuit w) (e :: w_trace w)
  (w_next_span w) (w_tools w) (w_tool_path w) (w_injected w) (w_calls w) (w_lease_task w).
Definition bump_span w := mkTask (w_pos w) (w_deadline w) (w_expired w) (w_circuit w) (w_trace w)
  (S (w_next_span w)) (w_tools w) (w_tool_path w) (w_injected w) (w_calls w) (w_lease_task w).
Definition set_tools t w := mkTask (w_pos w) (w_deadline w) (w_expired w) (w_circuit w) (w_trace w)
  (w_next_span w) t (w_tool_path w) (w_injected w) (w_calls w) (w_lease_task w).
Definition set_tool_path p w := mkTask (w_pos w) (w_deadline w) (w_expired w) (w_circuit w) (w_trace w)
  (w_next_span w) (w_tools w) p (w_injected w) (w_calls w) (w_lease_task w).
Definition set_injected b w := mkTask (w_pos w) (w_deadline w) (w_expired w) (w_circuit w) (w_trace w)
  (w_next_span w) (w_tools w) (w_tool_path w) b (w_calls w) (w_lease_task w).
Definition set_calls c w := mkTask (w_pos w) (w_deadline w) (w_expired w) (w_circuit w) (w_trace w)
  (w_next_span w) (w_tools w) (w_tool_path w) (w_injected w) c (w_lease_task w).
Definition set_lease_task b w := mkTask (w_pos w) (w_deadline w) (w_expired w) (w_circuit w) (w_trace w)
  (w_next_span w) (w_tools w) (w_tool_path w) (w_injected w) (w_calls w) b.

(** ** Observations *)

Section Observations.
Context {env : Env}.

(** [time.perf_counter()] *)
Definition perf_counter : M float := fun w =>
  (Ret (sn_time (observe (w_pos w))), set_pos S w).

(** [stop_event.is_set()] *)
Definition stop_is_set : M bool := fun w =>
  (Ret (sn_stop (observe (w_pos w))), set_pos S w).

Definition past_deadline (s : snapshot) (d : option float) : bool :=
  match d with Some t => fle t (sn_time s) | None => false end.

(** One [await] that the task resumes from: other cases may have used the
    breaker, the task may have been cancelled, and an enclosing [wait_for]
    whose deadline has passed cancels the task here. *)
Definition await_point : M unit := fun w =>
  let s := observe (w_pos w) in
  let w1 := set_circuit (sn_interfere s (w_circuit w)) (set_pos S w) in
  if sn_cancel s then (Raise ECancelled, w1)
  else if past_deadline s (w_deadline w) then (Raise ECancelled, set_expired true w1)
  else (Ret tt, w1).

(** [await asyncio.sleep(d)]: how long it really took is up to the
    environment. *)
Definition sleep (d : float) : M unit := await_point.

(** [await asyncio.wait_for(p, timeout)].  A timeout that is not positive
    raises before [p] runs. *)
Definition wait_for {A} (p : M A) (timeout : float) : M A := fun w =>
  if negb (flt (Fin 0) timeout) then (Raise ETimeout, w)
  else
    let now := sn_time (observe (w_pos w)) in
    let outer := w_deadline w in
    let w0 := set_expired false (set_deadline (Some (fadd now timeout)) (set_pos S w)) in
    match p w0 with
    | (Raise ECancelled, w') =>
        let w1 := set_expired false (set_deadline outer w') in
        if w_expired w' then (Raise ETimeout, w1) else (Raise ECancelled, w1)
    | (o, w') => (o, set_expired false (set_deadline outer w'))
    end.

(** [await asyncio.wait_for(stop_event.wait(), timeout)]: returns when the
    event is set in time, raises TimeoutError otherwise; a timeout that is not
    positive never waits. *)
Definition wait_stop (timeout : float) : M unit := fun w =>
  let s := observe (w_pos w) in
  let w1 := set_circuit (sn_interfere s (w_circuit w)) (set_pos S w) in
  if sn_cancel s then (Raise ECancelled, w1)
  else if flt (Fin 0) timeout && sn_stop s then (Ret tt, w1) else (Raise ETimeout, w1).
End Observations.

(** ** Telemetry *)

Section Telemetry.
(** The attribute policy of the client (identity, or the sanitizer). *)
Context (policy : val -> val).

Definition policy_attrs (attrs : dict) : dict := (fun kv => (kv.1, policy kv.2)) <$> attrs.

(** [client.start_span] and [client.start_detached_span]: a fresh span. *)
Definition start_span (name : string) (attrs : dict) : M nat := fun w =>
  (Ret (w_next_span w), bump_span (log_event (TStart (w_next_span w) name (policy_attrs attrs)) w)).

Definition span_set_attribute (id : nat) (name : string) (v : val) : M unit :=
  modify (log_event (TAttr id name (policy v))).
Definition span_set_error (id : nat) (error_type : string) : M unit :=
  modify (log_event (TError id error_type)).
Definition span_end (id : nat) : M unit := modify (log_event (TEnd id)).

(** [with client.start_span(name, attrs) as span: body] *)
Definition with_span {A} (name : string) (attrs : dict) (body : nat -> M A) : M A :=
  id ← start_span name attrs; finally (body id) (span_end id).
End Telemetry.

(** ** Interfaces *)

(** [adapters.base.AgentLifecycle] *)
Record AgentLifecycle := mkLifecycle {
  tool_started : ToolLifecycleEvent -> M unit;
  tool_finished : ToolLifecycleEvent -> string -> M unit;
  handed_off : HandoffLifecycleEvent -> M unit
}.

(** Code that always ends, by a value or an exception. *)
Definition total {A} (m : M A) : Prop := forall w, (m w).1 <> Diverge.

Definition lifecycle_total (lc : AgentLifecycle) : Prop :=
  (forall e, total (tool_started lc e)) /\ (forall e t, total (tool_finished lc e t)) /\
  (forall e, total (handed_off lc e)).

(** [adapters.base.AgentAdapter]: what the runner needs of an adapter is that
    every run of a case ends when the lifecycle callbacks do. *)
Class AgentAdapter := {
  adapter_run : TestCase -> option AgentLifecycle -> M AdapterResponse;
  adapter_total : forall case lc,
    (forall l, lc = Some l -> lifecycle_total l) -> total (adapter_run case lc)
}.

(** ** Reasoning *)

Section Inversion.
Context {A B : Type}.

Lemma bind_Ret_inv (m : M A) (k : A -> M B) w b w' :
  (m ≫= k) w = (Ret b, w') -> exists a w1, m w = (Ret a, w1) /\ k a w1 = (Ret b, w').
Proof. unfold mbind, M_bind. destruct (m w) as [[a|e|] w1]; naive_solver. Qed.

Lemma bind_Raise_inv (m : M A) (k : A -> M B) w e w' :
  (m ≫= k) w = (Raise e, w') ->
  m w = (Raise e, w') \/ exists a w1, m w = (Ret a, w1) /\ k a w1 = (Raise e, w').
Proof. unfold mbind, M_bind. destruct (m w) as [[a|e'|] w1]; naive_solver. Qed.

Lemma bind_Ret (m : M A) (k : A -> M B) w a w1 :
  m w = (Ret a, w1) -> (m ≫= k) w = k a w1.
Proof. unfold mbind, M_bind. by intros ->. Qed.

Lemma finally_Ret_inv (m : M A) f w a w' :
  finally m f w = (Ret a, w') -> exists w1 u, m w = (Ret a, w1) /\ f w1 = (Ret u, w').
Proof.
  unfold finally. destruct (m w) as [[x|e|] w1] eqn:E; [| |done].
  - destruct (f w1) as [[u|?|] w2] eqn:E2; try done. intros [= -> ->]. eauto.
  - destruct (f w1) as [[u|?|] w2] eqn:E2; done.
Qed.

Lemma total_ret (a : A) : total (mret a : M A).
Proof. done. Qed.

Lemma total_raise e : total (raise e : M A).
Proof. done. Qed.

Lemma total_lift (r : pyres A) : total (lift r).
Proof. by destruct r. Qed.

Lemma total_bind (m : M A) (k : A -> M B) : total m -> (forall a, total (k a)) -> total (m ≫= k).
Proof.
  intros Hm Hk w. unfold mbind, M_bind. specialize (Hm w).
  destruct (m w) as [[a|e|] w1]; try done. apply Hk.
Qed.

Lemma total_try (m : M A) h :
  total m -> (forall e k, h e = Some k -> total k) -> total (try_with m h).
Proof.
  intros Hm Hh w. unfold try_with. specialize (Hm w). destruct (m w) as [[a|e|] w1]; try done.
  destruct (h e) eqn:E; [by eapply Hh|done].
Qed.

Lemma total_finally (m : M A) f : total m -> total f -> total (finally m f).
Proof.
  intros Hm Hf w. unfold finally. specialize (Hm w). destruct (m w) as [[a|e|] w1]; try done.
  - specialize (Hf w1). by destruct (f w1) as [[?|?|] ?].
  - specialize (Hf w1). by destruct (f w1) as [[?|?|] ?].
Qed.

Lemma total_get (f : World -> A) : total (get_state f).
Proof. done. Qed.
End Inversion.

Lemma total_modify f : total (modify f).
Proof. done. Qed.

Lemma total_if {A} (b : bool) (m1 m2 : M A) : total m1 -> total m2 -> total (if b then m1 else m2).
Proof. by destruct b. Qed.

Section TotalObs.
Context {env : Env}.

Lemma total_perf_counter : total perf_counter.
Proof. done. Qed.

Lemma total_stop_is_set : total stop_is_set.
Proof. done. Qed.

Lemma total_await : total await_point.
Proof. intros w. unfold await_point. by repeat case_match. Qed.

Lemma total_wait_stop t : total (wait_stop t).
Proof. intros w. unfold wait_stop. by repeat case_match. Qed.

Lemma total_wait_for {A} (p : M A) t : total p -> total (wait_for p t).
Proof.
  intros Hp w. unfold wait_for. destruct (negb _); [done|].
  match goal with |- context [p ?w0] => specialize (Hp w0); destruct (p w0) as [[a|e|] w1] end;
    [done| |done].
  destruct e; simpl; try done. by destruct (w_expired w1).
Qed.
End TotalObs.

Section TotalSpan.
Context (policy : val -> val).

Lemma total_start_span n a : total (start_span policy n a).
Proof. done. Qed.

Lemma total_with_span {A} n a (body : nat -> M A) :
  (forall id, total (body id)) -> total (with_span policy n a body).
Proof.
  intros Hb. apply total_bind; [done|]. intros id. by apply total_finally.
Qed.
End TotalSpan.

#[export] Hint Resolve total_ret total_raise total_lift total_bind total_try total_finally total_get
  total_modify total_perf_counter total_stop_is_set total_await total_wait_stop total_wait_for
  total_start_span total_with_span total_if : effects.

(** ** Postconditions

    [post m Q]: every value [m] returns satisfies [Q], in every environment
    and from every state. *)
Definition post {A} (m : M A) (Q : A -> Prop) : Prop := forall w a w', m w = (Ret a, w') -> Q a.

Section Post.
Context {A B : Type}.

Lemma post_mono (m : M A) (P Q : A -> Prop) : post m P -> (forall a, P a -> Q a) -> post m Q.
Proof. unfold post. naive_solver. Qed.

Lemma post_true (m : M A) : post m (fun _ => True).
Proof. done. Qed.

Lemma post_ret (a : A) (Q : A -> Prop) : Q a -> post (mret a) Q.
Proof. intros H w a' w' [= <- <-]. done. Qed.

Lemma post_raise e (Q : A -> Prop) : post (raise e) Q.
Proof. by intros w a w'. Qed.

Lemma post_lift (r : pyres A) (Q : A -> Prop) : (forall a, r = Ok a -> Q a) -> post (lift r) Q.
Proof. intros H w a w'. destruct r; [|done]. intros [= <- <-]. by apply H. Qed.

Lemma post_bind (m : M A) (k : A -> M B) (P : A -> Prop) (Q : B -> Prop) :
  post m P -> (forall a, P a -> post (k a) Q) -> post (m ≫= k) Q.
Proof. intros Hm Hk w b w' H. apply bind_Ret_inv in H as (a & w1 & H1 & H2). eapply Hk; eauto. Qed.

(** A step whose value does not matter. *)
Lemma post_seq (m : M A) (k : A -> M B) (Q : B -> Prop) :
  (forall a, post (k a) Q) -> post (m ≫= k) Q.
Proof. intros Hk. eapply post_bind; [apply post_true|auto]. Qed.

Lemma post_finally (m : M A) f (Q : A -> Prop) : post m Q -> post (finally m f) Q.
Proof. intros Hm w a w' H. apply finally_Ret_inv in H as (w1 & u & H1 & _). by eapply Hm. Qed.

Lemma post_try (m : M A) h (Q : A -> Prop) :
  post m Q -> (forall e k, h e = Some k -> post k Q) -> post (try_with m h) Q.
Proof.
  intros Hm Hh w a w'. unfold try_with. destruct (m w) as [[x|e|] w1] eqn:E; [..|done].
  - intros [= <- <-]. by eapply Hm.
  - destruct (h e) as [k|] eqn:E2; [|done]. intros. by eapply Hh.
Qed.

(** Code that ends, using what its first part establishes. *)
Lemma total_bind_post (m : M A) (k : A -> M B) (P : A -> Prop) :
  total m -> post m P -> (forall a, P a -> total (k a)) -> total (m ≫= k).
Proof.
  intros Hm Hp Hk w. unfold mbind, M_bind. specialize (Hm w).
  destruct (m w) as [[a|e|] w1] eqn:E; try done. eapply Hk, Hp, E.
Qed.
End Post.

Lemma post_with_span {A} policy n a (body : nat -> M A) (Q : A -> Prop) :
  (forall id, post (body id) Q) -> post (with_span policy n a body) Q.
Proof. intros Hb. apply post_seq. intros id. by apply post_finally. Qed.

#[export] Hint Resolve post_true post_ret post_raise post_finally post_with_span : effects.

(** Splits a successful run of a sequence of steps into its steps. *)
Ltac step_ret H :=
  match type of H with
  | (mbind _ _) _ = (Ret _, _) =>
      let a := fresh "a" in let w1 := fresh "w" in let H1 := fresh "Hm" in
      apply bind_Ret_inv in H as (a & w1 & H1 & H)
  end.
