(* ===== verification/Telemetry.v ===== *)
(** * Telemetry policy ([telemetry.py])

    The content sanitizer (pattern redaction, size cap, sensitive keys) and
    the choice of the client policy.  The regular-expression engine is the
    parameter [re_sub pattern value], the result of
    [re.compile(pattern).sub("[REDACTED]", value)]. *)
From S2P Require Import Prelude PyFloat PyStr PyVal PyJson Models.
Import PyFloat PyStr PyVal PyJson.

Module Telemetry.

Definition _SENSITIVE_KEY_SUFFIXES : list string :=
  [ "apikey"; "auth"; "authorization"; "cookie"; "credential"; "credentials"; "passphrase";
    "password"; "privatekey"; "secret"; "sessionid"; "token" ].

Definition _MAX_CONTENT_BYTES : nat := 2048.

(** [re.sub(r"[^a-z0-9]", "", s)] *)
Fixpoint keep_alnum (s : string) : string :=
  match s with
  | "" => ""
  | String c s' => if is_lower c || is_digit c then String c (keep_alnum s') else keep_alnum s'
  end.

Definition _sensitive_key (value : string) : bool :=
  existsb (fun suffix => endswith suffix (keep_alnum (lower value))) _SENSITIVE_KEY_SUFFIXES.

Section Sanitizer.
Context (re_sub : string -> string -> string).

(** [ContentSanitizer._patterns] *)
Record ContentSanitizer := mkSanitizer { cs_patterns : list string }.

Definition redact (cs : ContentSanitizer) (value : string) : string :=
  foldl (fun v p => re_sub p v) value (cs_patterns cs).

(** [ContentSanitizer.string] *)
Definition sanitize_string (cs : ContentSanitizer) (value : string) : string :=
  let v := redact cs value in
  if (String.length v <=? _MAX_CONTENT_BYTES)%nat then v
  else decode_ignore (take_str _MAX_CONTENT_BYTES v).

(** [ContentSanitizer.attribute] *)
Definition sanitize_attribute (cs : ContentSanitizer) (value : val) : val :=
  match value with VStr s => VStr (sanitize_string cs s) | v => v end.

(** [ContentSanitizer._clean]; [None] is the marker [_UNSUPPORTED].  The keys of
    a [VDict] are strings (the metadata of a case comes from JSON), so the test
    for other keys has no counterpart. *)
Fixpoint clean (cs : ContentSanitizer) (value : val) : option val :=
  match value with
  | VNone | VBool _ | VInt _ | VFloat _ => Some value
  | VStr s => Some (VStr (sanitize_string cs s))
  | VDict d =>
      Some (VDict ((fix go (d : dict) : dict :=
        match d with
        | [] => []
        | (key, item) :: d' =>
            if _sensitive_key key then go d'
            else match clean cs item with
                 | Some sanitized => (key, sanitized) :: go d'
                 | None => go d'
                 end
        end) d))
  | VList l =>
      Some (VList ((fix go (l : list val) : list val :=
        match l with
        | [] => []
        | item :: l' =>
            match clean cs item with Some sanitized => sanitized :: go l' | None => go l' end
        end) l))
  | VObj _ => None
  end.

Definition content_opts : dump_opts := mkDump "," ":" false false.

(** [ContentSanitizer.content] *)
Definition sanitize_content (cs : ContentSanitizer) (value : val) : option string :=
  match value with
  | VStr s => Some (sanitize_string cs s)
  | _ =>
      match clean cs value with
      | None => None
      | Some cleaned =>
          match dumps content_opts cleaned with
          | Ok rendered => Some (sanitize_string cs rendered)
          | Err _ => None
          end
      end
  end.

(** The sanitizer a configuration asks for ([telemetry_with_policy] and the
    runner's [_content_sanitizer]). *)
Definition sanitizer_of (config : TelemetryConfig) : option ContentSanitizer :=
  if String.eqb (tm_content_mode config) "redacted"
  then Some (mkSanitizer (td_patterns (tm_redaction config)))
  else None.

Definition policy_of (config : TelemetryConfig) : val -> val :=
  match sanitizer_of config with
  | Some cs => sanitize_attribute cs
  | None => fun v => v
  end.

(** ** Properties *)

(** Exported content is bounded and never splits a character: the
    sanitized text is a prefix of the redacted text, valid UTF-8, at most 2048
    bytes long, and no longer prefix of whole characters fits. *)
Theorem sanitize_string_bounded cs value :
  valid_utf8 (redact cs value) ->
  exists rest, redact cs value = sanitize_string cs value +:+ rest /\
    valid_utf8 (sanitize_string cs value) /\
    (String.length (sanitize_string cs value) <= 2048)%nat /\
    (forall ch t, rest = ch +:+ t -> first_char rest = Some ch ->
       (2048 < String.length (sanitize_string cs value) + String.length ch)%nat).
Proof.
  intros Hv. unfold sanitize_string. destruct (_ <=? _)%nat eqn:E.
  - apply Nat.leb_le in E. unfold _MAX_CONTENT_BYTES in E. exists "". split_and!; [|done|lia|].
    + by rewrite app_str_nil.
    + by intros ch t _ [=].
  - exact (decode_take_valid _ _MAX_CONTENT_BYTES Hv).
Qed.

End Sanitizer.

(** A redactor that leaves its input alone. *)
Definition no_redaction (pattern value : string) : string := value.

Lemma sanitize_string_bounded_witness :
  valid_utf8 "hello" /\
  exists rest, "hello" = sanitize_string no_redaction (mkSanitizer []) "hello" +:+ rest.
Proof.
  assert (valid_utf8 "hello") as Hv.
  { change "hello" with ("h" +:+ ("e" +:+ ("l" +:+ ("l" +:+ ("o" +:+ ""))))).
    repeat (constructor; [reflexivity|]). constructor. }
  split; [exact Hv|].
  destruct (sanitize_string_bounded no_redaction (mkSanitizer []) "hello" Hv) as (rest & Hr & _).
  exists rest. exact Hr.
Defined.

End Telemetry.
