(* ===== verification/Lifecycle.v ===== *)
(** * Tool spans of one attempt ([runner._CaseLifecycle])

    The lifecycle object turns tool and handoff callbacks of an adapter into
    detached telemetry spans and records the tool path.  Its dictionary of
    open spans and its path live in the task state. *)
From S2P Require Import Prelude PyFloat PyStr PyVal PyJson Models Circuit Effects Telemetry.
Import PyFloat PyStr PyVal Telemetry.

Module Lifecycle.

(** [self._tools.pop(key, None)] *)
Fixpoint tools_get (t : list (string * nat)) (k : string) : option nat :=
  match t with
  | [] => None
  | (k', id) :: t' => if String.eqb k k' then Some id else tools_get t' k
  end.

Fixpoint tools_del (t : list (string * nat)) (k : string) : list (string * nat) :=
  match t with
  | [] => []
  | (k', id) :: t' => if String.eqb k k' then t' else (k', id) :: tools_del t' k
  end.

Definition tools_pop (k : string) : M (option nat) := fun w =>
  (Ret (tools_get (w_tools w) k), set_tools (tools_del (w_tools w) k) w).

Section CaseLifecycle.
Context (re_sub : string -> string -> string) (tele : TelemetryConfig).

Abbreviation policy := (policy_of re_sub tele).

(** The optional attribute of sanitized content. *)
Definition content_attr (name : string) (v : val) : dict :=
  match sanitizer_of tele with
  | Some cs =>
      if is_none v then []
      else match sanitize_content re_sub cs v with Some s => [(name, VStr s)] | None => [] end
  | None => []
  end.

Definition opt_attr (name : string) (v : option string) : dict :=
  match v with Some s => [(name, VStr s)] | None => [] end.

Definition tool_attributes (event : ToolLifecycleEvent) : dict :=
  [("gen_ai.operation.name", VStr "execute_tool"); ("gen_ai.tool.name", VStr (te_name event));
   ("gen_ai.tool.type", VStr (te_tool_type event))]
  ++ opt_attr "gen_ai.tool.call.id" (te_call_id event)
  ++ opt_attr "gen_ai.agent.name" (te_agent_name event)
  ++ content_attr "agentstorm.content.tool.arguments" (te_arguments event).

Definition case_tool_started (event : ToolLifecycleEvent) : M unit :=
  modify (fun w => set_tool_path (w_tool_path w ++ [te_name event]) w);;
  previous ← tools_pop (te_invocation_id event);
  match previous with
  | Some span => span_set_error span "duplicate_tool_start";; span_end span
  | None => mret tt
  end;;
  span ← start_span policy "gen_ai.execute_tool" (tool_attributes event);
  modify (fun w => set_tools (w_tools w ++ [(te_invocation_id event, span)]) w).

Definition finish_span (event : ToolLifecycleEvent) (error_type : string) (span : nat) : M unit :=
  (if String.eqb error_type "" then mret tt else span_set_error span error_type);;
  match content_attr "agentstorm.content.tool.result" (te_result event) with
  | (name, v) :: _ => span_set_attribute policy span name v
  | [] => mret tt
  end;;
  span_end span.

Definition case_tool_finished (event : ToolLifecycleEvent) (error_type : string) : M unit :=
  popped ← tools_pop (te_invocation_id event);
  match popped with
  | Some span => finish_span event error_type span
  | None =>
      case_tool_started event;;
      again ← tools_pop (te_invocation_id event);
      match again with
      | Some span => finish_span event error_type span
      | None => raise (EPy (KeyError (te_invocation_id event)))
      end
  end.

Definition case_handed_off (event : HandoffLifecycleEvent) : M unit :=
  span ← start_span policy "agentstorm.handoff"
    [("agentstorm.handoff.source_agent", VStr (ho_source_agent event));
     ("agentstorm.handoff.target_agent", VStr (ho_target_agent event))];
  span_end span.

Definition close_span (error_type : string) (entry : string * nat) : M unit :=
  span_set_error entry.2 error_type;; span_end entry.2.

Fixpoint close_all (error_type : string) (t : list (string * nat)) : M unit :=
  match t with
  | [] => mret tt
  | entry :: t' => close_span error_type entry;; close_all error_type t'
  end.

Definition case_close (error_type : string) : M unit :=
  t ← get_state w_tools; close_all error_type t;; modify (set_tools []).

(** A fresh [_CaseLifecycle]. *)
Definition new_lifecycle : M AgentLifecycle :=
  modify (fun w => set_tools [] (set_tool_path [] w));;
  mret (mkLifecycle case_tool_started case_tool_finished case_handed_off).

(** Any sequence of callbacks an adapter may make. *)
Inductive lop :=
| LStart (e : ToolLifecycleEvent)
| LFinish (e : ToolLifecycleEvent) (error_type : string)
| LHandoff (e : HandoffLifecycleEvent).

Definition do_lop (o : lop) : M unit :=
  match o with
  | LStart e => case_tool_started e
  | LFinish e t => case_tool_finished e t
  | LHandoff e => case_handed_off e
  end.

Fixpoint do_lops (l : list lop) : M unit :=
  match l with [] => mret tt | o :: l' => do_lop o;; do_lops l' end.

(** ** Spans started since [n0] are open or ended once *)

Definition is_end (id : nat) (e : tevent) : bool :=
  match e with TEnd id' => (id =? id')%nat | _ => false end.

Definition ends (tr : list tevent) (id : nat) : nat := length (List.filter (is_end id) tr).

Definition open_in (t : list (string * nat)) (id : nat) : nat := length (List.filter (fun e => (id =? e.2)%nat) t).

Definition span_inv (n0 : nat) (w : World) : Prop :=
  (n0 <= w_next_span w)%nat /\
  (forall id, (n0 <= id < w_next_span w)%nat -> (ends (w_trace w) id + open_in (w_tools w) id = 1)%nat) /\
  (forall id, (w_next_span w <= id)%nat -> (ends (w_trace w) id + open_in (w_tools w) id = 0)%nat) /\
  (forall e, e ∈ w_tools w -> (n0 <= e.2)%nat).

Lemma tools_get_del t k id x :
  tools_get t k = Some id -> open_in t x = ((if (x =? id)%nat then 1 else 0) + open_in (tools_del t k) x)%nat.
Proof.
  unfold open_in. induction t as [|[k' i] t IH]; simpl; [done|].
  destruct (String.eqb k k') eqn:E; [intros [= ->]; by destruct (x =? id)%nat|].
  intros H. simpl. destruct (x =? i)%nat; simpl; rewrite IH by done; lia.
Qed.

Lemma tools_get_elem t k id : tools_get t k = Some id -> exists k', (k', id) ∈ t.
Proof.
  induction t as [|[k' i] t IH]; simpl; [done|]. case_match; [intros [= ->]; eexists; left|].
  intros [k2 H2]%IH. exists k2. by right.
Qed.

Lemma tools_del_subset t k e : e ∈ tools_del t k -> e ∈ t.
Proof.
  induction t as [|[k' i] t IH]; simpl; [done|]. case_match; [by right|].
  intros [->|]%elem_of_cons; [left|right; auto].
Qed.

Lemma tools_get_None_del t k : tools_get t k = None -> tools_del t k = t.
Proof. induction t as [|[k' i] t IH]; simpl; [done|]. case_match; [done|]. intros. by rewrite IH. Qed.

Lemma tools_get_app_None t k id : tools_get t k = None -> tools_get (t ++ [(k, id)]) k = Some id.
Proof.
  induction t as [|[k' i] t IH]; simpl; [by rewrite String.eqb_refl|]. case_match; [done|]. done.
Qed.

Lemma open_in_app t1 t2 x : open_in (t1 ++ t2) x = (open_in t1 x + open_in t2 x)%nat.
Proof. unfold open_in. by rewrite List.filter_app, length_app. Qed.

(** Logging anything but an end keeps the counts. *)
Lemma span_inv_log n0 w e :
  (forall id, is_end id e = false) -> span_inv n0 w -> span_inv n0 (log_event e w).
Proof.
  intros He (H1 & H2 & H3 & H4). unfold span_inv, ends in *. simpl.
  split_and!; [done| | |done]; intros id Hid; rewrite He; auto.
Qed.

(** Popping an open span and ending it. *)
Lemma span_inv_end n0 w k id :
  tools_get (w_tools w) k = Some id -> span_inv n0 w ->
  span_inv n0 (log_event (TEnd id) (set_tools (tools_del (w_tools w) k) w)).
Proof.
  intros Hg (H1 & H2 & H3 & H4). unfold span_inv, ends in *. simpl.
  pose proof (fun x => tools_get_del _ _ _ x Hg) as Hd.
  split_and!; [done| | |].
  - intros x Hx. specialize (H2 x Hx). rewrite Hd in H2. destruct (x =? id)%nat; simpl; lia.
  - intros x Hx. specialize (H3 x Hx). rewrite Hd in H3. destruct (x =? id)%nat; simpl; lia.
  - intros e He. apply H4. by eapply tools_del_subset.
Qed.

(** Opening a fresh span. *)
Lemma span_inv_start n0 w name attrs k :
  span_inv n0 w ->
  span_inv n0 (set_tools (w_tools w ++ [(k, w_next_span w)])
                 (bump_span (log_event (TStart (w_next_span w) name attrs) w))).
Proof.
  intros (H1 & H2 & H3 & H4). unfold span_inv, ends in *. simpl.
  split_and!; [lia| | |].
  - intros x Hx. rewrite open_in_app. unfold open_in at 2. simpl.
    destruct (Nat.eqb_spec x (w_next_span w)) as [->|Hne]; simpl.
    + specialize (H3 (w_next_span w) ltac:(lia)). lia.
    + specialize (H2 x ltac:(lia)). lia.
  - intros x Hx. rewrite open_in_app. unfold open_in at 2. simpl.
    destruct (Nat.eqb_spec x (w_next_span w)) as [->|Hne]; simpl; [lia|].
    specialize (H3 x ltac:(lia)). lia.
  - intros e [He|He]%elem_of_app; [by apply H4|]. apply list_elem_of_singleton in He as ->. simpl. lia.
Qed.

Lemma span_inv_path n0 w p : span_inv n0 w -> span_inv n0 (set_tool_path p w).
Proof. done. Qed.

Lemma started_inv n0 e w w' :
  case_tool_started e w = (Ret tt, w') -> span_inv n0 w ->
  span_inv n0 w' /\ w_tool_path w' = w_tool_path w ++ [te_name e] /\
  tools_get (w_tools w') (te_invocation_id e) <> None.
Proof.
  unfold case_tool_started, mbind, M_bind, modify, tools_pop, start_span. simpl.
  intros H Hi. destruct (tools_get (w_tools w) (te_invocation_id e)) as [id|] eqn:Eg; simpl in H;
    injection H as <-; simpl.
  - split_and!; [|done|].
    + refine (span_inv_start n0 (log_event (TEnd id) (set_tools (tools_del (w_tools w) (te_invocation_id e))
        (log_event (TError id "duplicate_tool_start") (set_tool_path (w_tool_path w ++ [te_name e]) w))))
        _ _ _ _).
      apply (span_inv_end n0 (log_event (TError id "duplicate_tool_start")
        (set_tool_path (w_tool_path w ++ [te_name e]) w))); [done|by apply span_inv_log].
    + intros Hn. clear Hi. revert Hn. generalize (tools_del (w_tools w) (te_invocation_id e)) as t.
      induction t as [|[k' i] t IH]; simpl; [by rewrite String.eqb_refl|]. by case_match.
  - split_and!; [|done|].
    + rewrite (tools_get_None_del _ _ Eg).
      refine (span_inv_start n0 (set_tools (w_tools w) (set_tool_path (w_tool_path w ++ [te_name e]) w)) _ _ _ _).
      done.
    + rewrite (tools_get_None_del _ _ Eg), tools_get_app_None by done. done.
Qed.

Lemma finished_inv n0 e t w w' :
  case_tool_finished e t w = (Ret tt, w') -> span_inv n0 w -> span_inv n0 w'.
Proof.
  assert (forall id w1 w2 k, tools_get (w_tools w1) k = Some id ->
    finish_span e t id (set_tools (tools_del (w_tools w1) k) w1) = (Ret tt, w2) ->
    span_inv n0 w1 -> span_inv n0 w2) as Hfin.
  { intros id w1 w2 k Hg Hf Hi. unfold finish_span, mbind, M_bind in Hf.
    destruct (String.eqb t ""); simpl in Hf;
      destruct (content_attr _ _) as [|[n v] ?]; simpl in Hf; injection Hf as <-;
      (apply (span_inv_end n0 (log_event _ (log_event _ w1)) k id Hg) ||
       apply (span_inv_end n0 (log_event _ w1) k id Hg) || apply (span_inv_end n0 w1 k id Hg));
      repeat (apply span_inv_log; [done|]); done. }
  unfold case_tool_finished. intros H Hi.
  apply bind_Ret_inv in H as (popped & w1 & H1 & H). unfold tools_pop in H1. injection H1 as <- <-.
  destruct (tools_get (w_tools w) (te_invocation_id e)) as [id|] eqn:Eg; [by eapply Hfin|].
  rewrite (tools_get_None_del _ _ Eg) in H.
  apply bind_Ret_inv in H as ([] & w2 & H2 & H).
  apply (started_inv n0) in H2 as (Hi2 & _ & Hsome); [|done].
  apply bind_Ret_inv in H as (again & w3 & H3 & H). unfold tools_pop in H3. injection H3 as <- <-.
  destruct (tools_get (w_tools w2) (te_invocation_id e)) as [id|] eqn:Eg2; [|done].
  by eapply Hfin.
Qed.

Lemma handed_off_inv n0 e w w' : case_handed_off e w = (Ret tt, w') -> span_inv n0 w -> span_inv n0 w'.
Proof.
  unfold case_handed_off, start_span, mbind, M_bind, span_end, modify. intros [= <-] (H1 & H2 & H3 & H4).
  unfold span_inv, ends in *. simpl. split_and!; [lia| | |done].
  - intros x Hx. destruct (Nat.eqb_spec x (w_next_span w)) as [->|Hne]; simpl.
    + specialize (H3 (w_next_span w) ltac:(lia)). lia.
    + apply H2. lia.
  - intros x Hx. destruct (Nat.eqb_spec x (w_next_span w)) as [->|Hne]; simpl; [lia|]. apply H3. lia.
Qed.

Lemma do_lops_inv n0 l w w' : do_lops l w = (Ret tt, w') -> span_inv n0 w -> span_inv n0 w'.
Proof.
  revert w. induction l as [|o l IH]; intros w H Hi; [by injection H as <-|].
  apply bind_Ret_inv in H as ([] & w1 & H1 & H). apply (IH w1); [done|].
  destruct o; simpl in H1.
  - by apply (started_inv n0) in H1 as (? & _).
  - by eapply finished_inv.
  - by eapply handed_off_inv.
Qed.

(** Closing ends exactly the spans that are open. *)
Lemma close_all_spec error_type t w w' :
  close_all error_type t w = (Ret tt, w') ->
  w_next_span w' = w_next_span w /\ w_tool_path w' = w_tool_path w /\
  forall id, ends (w_trace w') id = (ends (w_trace w) id + open_in t id)%nat.
Proof.
  revert w. induction t as [|[k i] t IH]; intros w H.
  - injection H as <-. split_and!; [done..|]. intros. unfold open_in. simpl. lia.
  - apply bind_Ret_inv in H as ([] & w1 & H1 & H). injection H1 as <-.
    destruct (IH _ H) as (Hn & Hp & He). split_and!; [done..|]. intros id. rewrite He.
    unfold ends, open_in. simpl. destruct (id =? i)%nat; simpl; lia.
Qed.

Lemma close_all_total error_type t w : exists w', close_all error_type t w = (Ret tt, w').
Proof. revert w. induction t as [|e t IH]; intros w; [by eexists|]. apply IH. Qed.

Lemma started_ret e w : exists w', case_tool_started e w = (Ret tt, w').
Proof.
  unfold case_tool_started, mbind, M_bind, modify, tools_pop. simpl.
  destruct (tools_get _ _); simpl; eauto.
Qed.

Lemma finish_ret e t id w : exists w', finish_span e t id w = (Ret tt, w').
Proof.
  unfold finish_span, mbind, M_bind. destruct (String.eqb t ""); simpl;
    destruct (content_attr _ _) as [|[n v] ?]; simpl; eauto.
Qed.

Lemma do_lop_ret o w : exists w', do_lop o w = (Ret tt, w').
Proof.
  destruct o as [e|e t|e]; simpl; [apply started_ret| |by eexists].
  unfold case_tool_finished. unfold mbind at 1, M_bind at 1, tools_pop at 1.
  destruct (tools_get (w_tools w) (te_invocation_id e)) as [id|] eqn:Eg; [apply finish_ret|].
  destruct (started_ret e (set_tools (tools_del (w_tools w) (te_invocation_id e)) w)) as [w2 H2].
  rewrite (bind_Ret _ _ _ _ _ H2).
  assert (tools_get (w_tools w2) (te_invocation_id e) <> None) as Hs.
  { unfold case_tool_started, mbind, M_bind, modify, tools_pop, start_span in H2. simpl in H2.
    rewrite (tools_get_None_del _ _ Eg), Eg in H2. injection H2 as <-. simpl.
    by rewrite (tools_get_None_del _ _ Eg), tools_get_app_None. }
  unfold mbind, M_bind, tools_pop.
  destruct (tools_get (w_tools w2) (te_invocation_id e)) as [id|]; [apply finish_ret|done].
Qed.

Lemma do_lops_ret l w : exists w', do_lops l w = (Ret tt, w').
Proof.
  revert w. induction l as [|o l IH]; intros w; [by eexists|].
  destruct (do_lop_ret o w) as [w1 H1]. destruct (IH w1) as [w2 H2].
  exists w2. simpl. by rewrite (bind_Ret _ _ _ _ _ H1).
Qed.

(** The callbacks of a lifecycle never diverge. *)
Lemma case_lifecycle_total :
  lifecycle_total (mkLifecycle case_tool_started case_tool_finished case_handed_off).
Proof.
  split_and!; simpl; intros.
  - intros w. destruct (do_lop_ret (LStart e) w) as [w' H]. simpl in H. by rewrite H.
  - intros w. destruct (do_lop_ret (LFinish e t) w) as [w' H]. simpl in H. by rewrite H.
  - intros w. destruct (do_lop_ret (LHandoff e) w) as [w' H]. simpl in H. by rewrite H.
Qed.

Lemma case_close_total t : total (case_close t).
Proof.
  intros w. unfold case_close, mbind, M_bind, get_state.
  destruct (close_all_total t (w_tools w) w) as [w' ->]. done.
Qed.

(** ** Properties *)

(** C39.  Whatever callbacks an adapter makes (duplicate starts, finishes
    without a start, tools left open), every span the attempt starts is ended
    exactly once when the lifecycle is closed, and no tool stays registered. *)
Theorem lifecycle_spans_end_once l error_type w :
  (forall id, (w_next_span w <= id)%nat -> ends (w_trace w) id = 0%nat) ->
  exists w', (new_lifecycle;; do_lops l;; case_close error_type) w = (Ret tt, w') /\
    w_tools w' = [] /\
    forall id, (w_next_span w <= id < w_next_span w')%nat -> ends (w_trace w') id = 1%nat.
Proof.
  intros Hfresh. set (w0 := set_tools [] (set_tool_path [] w)).
  destruct (do_lops_ret l w0) as [w1 H1].
  destruct (close_all_total error_type (w_tools w1) w1) as [w2 H2].
  exists (set_tools [] w2). split_and!; [|done|].
  - change ((new_lifecycle;; do_lops l;; case_close error_type) w)
      with ((do_lops l;; case_close error_type) w0).
    rewrite (bind_Ret _ _ _ _ _ H1). unfold case_close, mbind, M_bind, get_state. by rewrite H2.
  - assert (span_inv (w_next_span w) w0) as Hi0.
    { unfold span_inv, w0, open_in. simpl. split_and!; [lia|intros; lia|intros id Hid; rewrite (Hfresh _ Hid); done|].
      intros e He. by apply elem_of_nil in He. }
    pose proof (do_lops_inv _ _ _ _ H1 Hi0) as (Ha & Hb & _ & _).
    destruct (close_all_spec _ _ _ _ H2) as (Hn & _ & He). simpl.
    intros id Hid. rewrite He. apply Hb. lia.
Qed.

End CaseLifecycle.

Definition omit_config : TelemetryConfig := mkTelemetryConfig "omit" (mkRedaction [] []).

Definition task0 : World :=
  mkTask 0 None false (Circuit.circuit_init None) [] 0 [] [] false None false.

(** A finish without a start, a start, and a duplicate start left open. *)
Lemma lifecycle_spans_end_once_witness :
  let ev := mkToolEvent "call-1" "search" "function" None None VNone VNone in
  exists w', (new_lifecycle no_redaction omit_config;;
     do_lops no_redaction omit_config [LFinish ev ""; LStart ev; LStart ev];;
     case_close "incomplete_tool_call") task0 = (Ret tt, w') /\
   w_tools w' = [] /\ w_next_span w' = 3%nat.
Proof.
  intros ev.
  destruct (lifecycle_spans_end_once no_redaction omit_config [LFinish ev ""; LStart ev; LStart ev]
    "incomplete_tool_call" task0) as (w' & H & Ht & He); [intros; reflexivity|].
  exists w'. split; [exact H|]. split; [exact Ht|]. vm_compute in H. injection H as <-. reflexivity.
Defined.

End Lifecycle.
