(* ===== verification/Faults.v ===== *)
(** * Deterministic fault injection ([faults.py])

    Rule selection is a pure function of the scenario, the seed and the
    identity of the attempt.  The middleware is task code around an adapter;
    the fault lifecycle interposes on the tool callbacks. *)
From S2P Require Import Prelude PyFloat PyStr PyVal Models Sha256 Circuit Effects Retry.
Import PyFloat PyStr PyVal Sha256.

Module Faults.

Definition mem_str (s : string) (l : list string) : bool := existsb (String.eqb s) l.
Definition mem_Z (z : Z) (l : list Z) : bool := existsb (Z.eqb z) l.
Definition nonempty {A} (l : list A) : bool := match l with [] => false | _ => true end.

(** The text hashed for one rule. *)
Definition rule_material (scenario : FaultScenarioConfig) (seed : Z) (case_id : string)
    (iteration attempt : Z) (rule : FaultRuleConfig) : string :=
  nul_join [fs_digest scenario; str_of_Z seed; case_id; str_of_Z iteration; str_of_Z attempt; fr_name rule].

(** The three selectors of a rule. *)
Definition rule_applies (case_id : string) (iteration attempt : Z) (rule : FaultRuleConfig) : bool :=
  negb (nonempty (fr_case_ids rule) && negb (mem_str case_id (fr_case_ids rule))) &&
  negb (nonempty (fr_iterations rule) && negb (mem_Z iteration (fr_iterations rule))) &&
  mem_Z attempt (fr_attempts rule).

Fixpoint select_loop (scenario : FaultScenarioConfig) (seed : Z) (case_id : string)
    (iteration attempt : Z) (rules : list FaultRuleConfig) : option FaultRuleConfig :=
  match rules with
  | [] => None
  | rule :: rules' =>
      if negb (rule_applies case_id iteration attempt rule)
      then select_loop scenario seed case_id iteration attempt rules'
      else if flt (hash_draw (rule_material scenario seed case_id iteration attempt rule)) (fr_probability rule)
           then Some rule
           else select_loop scenario seed case_id iteration attempt rules'
  end.

Definition select_fault_rule (scenario : option FaultScenarioConfig) (seed : option Z)
    (case_id : string) (iteration attempt : Z) : option FaultRuleConfig :=
  match scenario, seed with
  | Some sc, Some sd => select_loop sc sd case_id iteration attempt (fs_rules sc)
  | _, _ => None
  end.

Definition _with_injection (response : AdapterResponse) (rule : FaultRuleConfig) : AdapterResponse :=
  let metadata := dict_set (dict_set (ar_metadata response) "agentstorm.injected_rule" (VStr (fr_name rule)))
                    "agentstorm.injected_fault" (VStr (fr_fault rule)) in
  mkResponse (ar_output response) (ar_input_tokens response) (ar_output_tokens response)
    (ar_model_call_count response) (ar_tool_call_count response) metadata.

Definition _injected_error (rule : FaultRuleConfig) (category code failure_kind : string)
    (ambiguous safe_to_retry : bool) (response : option AdapterResponse) (usage_complete : bool)
    : ExecutionError :=
  mkExecutionError category code failure_kind ambiguous safe_to_retry response
    (fr_name rule) (fr_fault rule) usage_complete [].

(** ** [_ToolFaultLifecycle] *)

Definition fault_tool_started (delegate : option AgentLifecycle) (rule : FaultRuleConfig)
    (event : ToolLifecycleEvent) : M unit :=
  match delegate with Some d => tool_started d event | None => mret tt end;;
  injected ← get_state w_injected;
  if negb injected && (String.eqb (fr_tool_name rule) "" || String.eqb (fr_tool_name rule) (te_name event))
  then modify (set_injected true);;
       raise (EExec (_injected_error rule "tool" "injected_tool_error" "tool" true false None false))
  else mret tt.

Definition fault_tool_finished (delegate : option AgentLifecycle)
    (event : ToolLifecycleEvent) (error_type : string) : M unit :=
  match delegate with Some d => tool_finished d event error_type | None => mret tt end.

Definition fault_handed_off (delegate : option AgentLifecycle) (event : HandoffLifecycleEvent) : M unit :=
  match delegate with Some d => handed_off d event | None => mret tt end.

Definition tool_fault_lifecycle (delegate : option AgentLifecycle) (rule : FaultRuleConfig) : AgentLifecycle :=
  mkLifecycle (fault_tool_started delegate rule) (fault_tool_finished delegate) (fault_handed_off delegate).

(** ** [FaultInjectionMiddleware.run] *)

Section Middleware.
Context {env : Env}.

(** [(rule.delay_ms or 0) / 1000] *)
Definition delay_seconds (rule : FaultRuleConfig) : float := of_ratio (or0 (fr_delay_ms rule)) 1000.

(** [rule.status_code or 500] *)
Definition rule_status (rule : FaultRuleConfig) : Z :=
  let s := or0 (fr_status_code rule) in if s =? 0 then 500 else s.

Definition usage_known (r : AdapterResponse) : bool :=
  is_some (ar_input_tokens r) && is_some (ar_output_tokens r).

Definition run (adapter : AgentAdapter) (scenario : option FaultScenarioConfig) (seed : option Z)
    (case : TestCase) (iteration attempt : Z) (lifecycle : option AgentLifecycle) : M AdapterResponse :=
  match select_fault_rule scenario seed (tc_case_id case) iteration attempt with
  | None => adapter_run case lifecycle
  | Some rule =>
      if String.eqb (fr_fault rule) "latency" then
        sleep (delay_seconds rule);;
        response ← adapter_run case lifecycle;
        mret (_with_injection response rule)
      else if String.eqb (fr_fault rule) "timeout" then
        sleep (delay_seconds rule);;
        raise (EExec (_injected_error rule "provider" "timeout" "timeout" true false None true))
      else if String.eqb (fr_fault rule) "rate_limit" then
        raise (EExec (_injected_error rule "provider" "rate_limited" "provider" false true None true))
      else if String.eqb (fr_fault rule) "http_error" then
        let status := rule_status rule in
        let code := if status =? 429 then "rate_limited"
                    else if 500 <=? status then "http_5xx" else "http_4xx" in
        raise (EExec (_injected_error rule "provider" code "provider" (500 <=? status) (status =? 429) None true))
      else if String.eqb (fr_fault rule) "tool_error" then
        modify (set_injected false);;
        adapter_run case (Some (tool_fault_lifecycle lifecycle rule))
      else
        response ← adapter_run case lifecycle;
        if String.eqb (fr_fault rule) "malformed_response" then
          raise (EExec (_injected_error rule "provider" "malformed_response" "provider" true false
                   (Some response) (usage_known response)))
        else mret response
  end.

Lemma fault_lifecycle_total delegate rule :
  (forall l, delegate = Some l -> lifecycle_total l) -> lifecycle_total (tool_fault_lifecycle delegate rule).
Proof.
  intros H. split_and!; simpl; intros.
  - unfold fault_tool_started. apply total_bind.
    + destruct delegate as [d|]; [by apply H|done].
    + intros _. apply total_bind; [done|]. intros []; simpl; [done|]. by destruct (_ || _)%bool.
  - destruct delegate as [d|]; [by apply H|done].
  - destruct delegate as [d|]; [by apply H|done].
Qed.

Lemma run_total adapter scenario seed case it at_ lc :
  (forall l, lc = Some l -> lifecycle_total l) -> total (run adapter scenario seed case it at_ lc).
Proof.
  intros Hl. unfold run. destruct (select_fault_rule _ _ _ _ _) as [rule|]; [|by apply adapter_total].
  repeat case_match; eauto using adapter_total with effects.
  all: repeat (apply total_bind; [by eauto using adapter_total, total_await, total_modify|intros]).
  all: try done.
  - apply adapter_total. intros l [= <-]. by apply fault_lifecycle_total.
Qed.

(** Faults that are raised before the provider is called. *)
Definition precall_fault (f : string) : bool := mem_str f ["timeout"; "rate_limit"; "http_error"].

Lemma precall_other f : precall_fault f = true -> f = "timeout" \/ f = "rate_limit" \/ f = "http_error".
Proof. unfold precall_fault, mem_str. simpl. intros. rewrite !orb_true_iff in H. naive_solver (bool_simpl; auto). Qed.

(** The error a pre-call fault raises. *)
Definition precall_error (rule : FaultRuleConfig) : ExecutionError :=
  if String.eqb (fr_fault rule) "timeout" then
    _injected_error rule "provider" "timeout" "timeout" true false None true
  else if String.eqb (fr_fault rule) "rate_limit" then
    _injected_error rule "provider" "rate_limited" "provider" false true None true
  else
    let status := rule_status rule in
    _injected_error rule "provider"
      (if status =? 429 then "rate_limited" else if 500 <=? status then "http_5xx" else "http_4xx")
      "provider" (500 <=? status) (status =? 429) None true.

(** An injected timeout, rate limit or HTTP error never reaches the
    provider: the attempt ends with the rule's error (or with a cancellation
    during the injected delay) whatever the adapter is, and that error is
    provider-side, has known (zero) usage and is safe to retry exactly when it
    is a rate limit. *)
Theorem precall_fault_skips_adapter adapter scenario seed case it n lc rule w :
  select_fault_rule scenario seed (tc_case_id case) it n = Some rule ->
  precall_fault (fr_fault rule) = true ->
  let e := precall_error rule in
  ((run adapter scenario seed case it n lc w).1 = Raise (EExec e) \/
   (run adapter scenario seed case it n lc w).1 = Raise ECancelled /\ fr_fault rule = "timeout") /\
  ee_category e = "provider" /\ ee_usage_complete e = true /\ ee_response e = None /\
  (ee_safe_to_retry e = true <-> ee_code e = "rate_limited").
Proof.
  intros Hs Hp. unfold run. rewrite Hs.
  destruct (precall_other _ Hp) as [Hf|[Hf|Hf]]; unfold precall_error; rewrite !Hf; simpl.
  - split_and!; try done.
    unfold mbind, M_bind, sleep, await_point. repeat case_match; simplify_eq/=; auto.
  - split_and!; try done. by left.
  - split_and!; try done; [by left|].
    destruct (rule_status rule =? 429) eqn:E; simpl; [done|].
    destruct (500 <=? rule_status rule); done.
Qed.

(** ** Selection *)

(** The rule would be injected on its own. *)
Definition fires (scenario : FaultScenarioConfig) (seed : Z) (case_id : string) (it n : Z)
    (rule : FaultRuleConfig) : bool :=
  rule_applies case_id it n rule &&
  flt (hash_draw (rule_material scenario seed case_id it n rule)) (fr_probability rule).

Lemma select_loop_find scenario seed case_id it n rules :
  select_loop scenario seed case_id it n rules = List.find (fires scenario seed case_id it n) rules.
Proof.
  unfold fires. induction rules as [|r rules IH]; simpl; [done|]. rewrite IH.
  destruct (rule_applies _ _ _ _); simpl; [|done]. by destruct (flt _ _).
Qed.

(** Rules are tried in declaration order and at most one applies: the
    selected rule fires and no earlier rule does; when nothing is selected no
    rule of the scenario fires. *)
Theorem select_first_firing_rule scenario seed case_id it n :
  match select_fault_rule (Some scenario) (Some seed) case_id it n with
  | Some rule =>
      exists before after, fs_rules scenario = before ++ rule :: after /\
        fires scenario seed case_id it n rule = true /\
        Forall (fun r => fires scenario seed case_id it n r = false) before
  | None => Forall (fun r => fires scenario seed case_id it n r = false) (fs_rules scenario)
  end.
Proof.
  unfold select_fault_rule. rewrite select_loop_find.
  induction (fs_rules scenario) as [|r rules IH]; simpl; [constructor|].
  destruct (fires scenario seed case_id it n r) eqn:E.
  - exists [], rules. split_and!; [done|done|constructor].
  - destruct (List.find _ rules) as [rule|].
    + destruct IH as (before & after & -> & Hf & Hb). exists (r :: before), after.
      split_and!; [done|done|]. by constructor.
    + by constructor.
Qed.

Lemma draw_below u : 0 <= u < 2 ^ 64 - 1024 -> flt (draw_of_u64 u) (of_Z 1) = true.
Proof.
  intros Hu. destruct (draw_of_u64 u) as [k| | |] eqn:Eu; cycle 1.
  1-3: destruct (Retry.draw_of_u64_unit u ltac:(lia)) as (? & ? & _); congruence.
  assert (flt (draw_of_u64 (2 ^ 64 - 1025)) (of_Z 1) = true) as Hb by (vm_compute; reflexivity).
  assert (fle (draw_of_u64 u) (draw_of_u64 (2 ^ 64 - 1025)) = true) as Hm.
  { unfold draw_of_u64, of_ratio. pose proof one_k_pos. apply of_units_mono; nia. }
  rewrite Eu in Hm. rewrite (of_Z_exact 1) in * by lia.
  destruct (draw_of_u64 (2 ^ 64 - 1025)); simpl in *; try done. bool_simpl. apply Z.ltb_lt. lia.
Qed.

Lemma draw_top u : 2 ^ 64 - 1024 <= u < 2 ^ 64 -> draw_of_u64 u = of_Z 1.
Proof.
  intros Hu. destruct (Retry.draw_of_u64_unit u ltac:(lia)) as (k & Hk & Hr).
  assert (draw_of_u64 (2 ^ 64 - 1024) = of_Z 1) as Hb by (vm_compute; reflexivity).
  assert (fle (draw_of_u64 (2 ^ 64 - 1024)) (draw_of_u64 u) = true) as Hm.
  { unfold draw_of_u64, of_ratio. pose proof one_k_pos. apply of_units_mono; nia. }
  rewrite Hb, Hk, (of_Z_exact 1) in * by lia. simpl in Hm. bool_simpl. f_equal. lia.
Qed.

(** Probability 0 never injects.  Probability 1 injects exactly when the
    64-bit hash prefix is below [2^64 - 1024]: the division rounds the top 1024
    prefixes up to 1.0, and [1.0 < 1.0] is false. *)
Theorem probability_extremes scenario seed case_id it n rule :
  rule_applies case_id it n rule = true ->
  let u := digest_u64 (rule_material scenario seed case_id it n rule) in
  (fr_probability rule = Fin 0 -> fires scenario seed case_id it n rule = false) /\
  (fr_probability rule = of_Z 1 -> (fires scenario seed case_id it n rule = true <-> u < 2 ^ 64 - 1024)).
Proof.
  intros Ha u. unfold fires, hash_draw. rewrite Ha. cbn [andb]. fold u.
  pose proof (digest_u64_range (rule_material scenario seed case_id it n rule)) as Hu. fold u in Hu.
  destruct (Retry.draw_of_u64_unit u Hu) as (k & Hk & Hr). split; intros ->.
  - rewrite Hk. simpl. apply Z.ltb_ge. lia.
  - split; intros H; [|apply draw_below; lia].
    destruct (Z.lt_ge_cases u (2 ^ 64 - 1024)) as [|Hge]; [done|].
    rewrite draw_top in H by lia. by rewrite flt_irrefl in H.
Qed.

End Middleware.

Definition sample_rule (fault : string) : FaultRuleConfig :=
  mkRule "r1" fault (of_Z 1) [] [] [1] None (Some 503) "".

Definition sample_scenario (fault : string) : FaultScenarioConfig :=
  mkScenario "cm" "scenario.json" "sha256:00" [sample_rule fault].

Definition quiet_env : Env := fun _ => mkSnapshot (Fin 0) false false (fun c => c) false.

Definition sample_case : TestCase := mkTestCase "case-1" "hello" None [] [].

(** An adapter that always answers the same. *)
#[program] Definition const_adapter (r : AdapterResponse) : AgentAdapter :=
  {| adapter_run := fun _ _ => mret r |}.
Next Obligation. done. Qed.

Definition sample_response : AdapterResponse := mkResponse "ok" (Some 11) (Some 7) (Some 1) None [].

Definition sample_task : World :=
  mkTask 0 None false (Circuit.circuit_init None) [] 0 [] [] false None false.

Lemma precall_fault_skips_adapter_witness :
  let sc := sample_scenario "http_error" in
  (@run quiet_env (const_adapter sample_response) (Some sc) (Some 7) sample_case 0 1 None sample_task).1
    = Raise (EExec (precall_error (sample_rule "http_error"))) /\
  ee_code (precall_error (sample_rule "http_error")) = "http_5xx".
Proof.
  intros sc. split; [|reflexivity].
  assert (select_fault_rule (Some sc) (Some 7) (tc_case_id sample_case) 0 1 = Some (sample_rule "http_error"))
    as Hs by (vm_compute; reflexivity).
  destruct (@precall_fault_skips_adapter quiet_env (const_adapter sample_response) (Some sc) (Some 7)
    sample_case 0 1 None (sample_rule "http_error") sample_task Hs eq_refl) as [[H|[_ H]] _].
  - exact H.
  - discriminate H.
Defined.

Lemma probability_extremes_witness :
  fires (sample_scenario "timeout") 7 "case-1" 0 1 (sample_rule "timeout") = true.
Proof.
  destruct (probability_extremes (sample_scenario "timeout") 7 "case-1" 0 1 (sample_rule "timeout") eq_refl) as [_ H].
  apply (proj2 (H eq_refl)). apply Z.ltb_lt. vm_compute. reflexivity.
Defined.

End Faults.
