(* ===== verification/PyDecimal.v ===== *)
(** * Decimal arithmetic ([decimal.Decimal])

    A finite decimal is a sign, a coefficient and an exponent; every operation
    is the exact result rounded half-even to the precision of the context, as
    the General Decimal Arithmetic specification has it.  Exponents stay far
    inside the limits of the default context, so they are not bounded here, and
    the special values (infinities, NaN) are not values of the type. *)
From S2P Require Import Prelude PyFloat PyStr PyVal.
Import PyFloat PyStr PyVal.

Module PyDecimal.

Record dec := mkDec { d_neg : bool; d_coef : Z; d_exp : Z }.

(** Number of decimal digits of a coefficient; zero has one. *)
Fixpoint ndigits_fuel (fuel : nat) (c : Z) : Z :=
  match fuel with
  | O => 1
  | S f => if c <? 10 then 1 else 1 + ndigits_fuel f (c / 10)
  end.
Definition ndigits (c : Z) : Z := ndigits_fuel (Z.to_nat (Z.log2 c)) c.

(** Rounding to the precision of the context. *)
Definition dfix (prec : Z) (d : dec) : dec :=
  let n := ndigits (d_coef d) in
  if n <=? prec then d
  else
    let k := n - prec in
    let c := rhe (d_coef d) (10 ^ k) in
    if c =? 10 ^ prec then mkDec (d_neg d) (10 ^ (prec - 1)) (d_exp d + k + 1)
    else mkDec (d_neg d) c (d_exp d + k).

(** [Decimal(z)] *)
Definition dec_of_Z (z : Z) : dec := mkDec (z <? 0) (Z.abs z) 0.

Definition dmul (prec : Z) (a b : dec) : dec :=
  dfix prec (mkDec (xorb (d_neg a) (d_neg b)) (d_coef a * d_coef b) (d_exp a + d_exp b)).

(** Trailing zeros are removed while the exponent is below the ideal one. *)
Fixpoint strip_zeros (fuel : nat) (c e : Z) : Z * Z :=
  match fuel with
  | O => (c, e)
  | S f => if c mod 10 =? 0 then strip_zeros f (c / 10) (e + 1) else (c, e)
  end.

(** [a / b] for a divisor that is not zero. *)
Definition ddiv (prec : Z) (a b : dec) : dec :=
  let neg := xorb (d_neg a) (d_neg b) in
  let ideal := d_exp a - d_exp b in
  if d_coef a =? 0 then dfix prec (mkDec neg 0 ideal)
  else
    let shift := ndigits (d_coef b) - ndigits (d_coef a) + prec + 1 in
    let e := ideal - shift in
    let num := if 0 <=? shift then d_coef a * 10 ^ shift else d_coef a in
    let den := if 0 <=? shift then d_coef b else d_coef b * 10 ^ (- shift) in
    let q := num / den in
    if num mod den =? 0 then
      let '(c, e') := strip_zeros (Z.to_nat (ideal - e)) q e in dfix prec (mkDec neg c e')
    else dfix prec (mkDec neg (if q mod 5 =? 0 then q + 1 else q) e).

Definition signed (d : dec) : Z := if d_neg d then - d_coef d else d_coef d.

Definition dadd (prec : Z) (a b : dec) : dec :=
  let e := Z.min (d_exp a) (d_exp b) in
  let s := signed a * 10 ^ (d_exp a - e) + signed b * 10 ^ (d_exp b - e) in
  let neg := if s =? 0 then (d_coef a =? 0) && (d_coef b =? 0) && d_neg a && d_neg b else s <? 0 in
  dfix prec (mkDec neg (Z.abs s) e).

(** [d.quantize(Decimal((0, (1,), e)))] *)
Definition dquantize (prec : Z) (d : dec) (e : Z) : pyres dec :=
  if d_coef d =? 0 then Ok (mkDec (d_neg d) 0 e)
  else if prec <? d_exp d + ndigits (d_coef d) - e then Err InvalidOperation
  else
    let c := if e <=? d_exp d then d_coef d * 10 ^ (d_exp d - e) else rhe (d_coef d) (10 ^ (e - d_exp d)) in
    if prec <? ndigits c then Err InvalidOperation else Ok (mkDec (d_neg d) c e).

(** [format(d, "f")] *)
Definition dec_format (d : dec) : string :=
  (if d_neg d then "-" else "") +:+
  (if d_exp d <=? 0 then fixed_str (d_coef d) (Z.to_nat (- d_exp d))
   else str_of_Z (d_coef d * 10 ^ d_exp d)).

Fixpoint remove_us (s : string) : string :=
  match s with
  | "" => ""
  | String c s' => if Ascii.eqb c "_" then remove_us s' else String c (remove_us s')
  end.

Definition split_exponent (s : string) : string * option string :=
  match split_first "e" s with
  | (m, Some x) => (m, Some x)
  | (_, None) => split_first "E" s
  end.

(** [Decimal(s)] on the finite numerals. *)
Definition dec_of_str (s : string) : pyres dec :=
  let '(neg, body) := split_sign (remove_us (strip s)) in
  let '(ms, es) := split_exponent body in
  match mantissa ms, es with
  | Some (m, k), None => Ok (mkDec neg m k)
  | Some (m, k), Some es' =>
      let '(eneg, ebody) := split_sign es' in
      match digit_part ebody with
      | Some (e, _) => Ok (mkDec neg m (k + (if eneg : bool then - e else e)))
      | None => Err InvalidOperation
      end
  | None, _ => Err InvalidOperation
  end.

(** ** Digits *)

Lemma ndigits_fuel_bounds f c :
  1 <= c -> c < 10 * 2 ^ Z.of_nat f -> 10 ^ (ndigits_fuel f c - 1) <= c < 10 ^ ndigits_fuel f c /\ 1 <= ndigits_fuel f c.
Proof.
  revert c. induction f as [|f IH]; intros c H1 H2.
  - simpl in *. lia.
  - simpl. destruct (c <? 10) eqn:E; bool_simpl; [lia|].
    assert (1 <= c / 10) as Hd by (apply Z.div_le_lower_bound; lia).
    assert (c / 10 < 10 * 2 ^ Z.of_nat f) as Hu.
    { apply Z.div_lt_upper_bound; [lia|]. rewrite Nat2Z.inj_succ, Z.pow_succ_r in H2 by lia. lia. }
    destruct (IH _ Hd Hu) as [[Ha Hb] Hc]. pose proof (Z.div_mod c 10). pose proof (Z.mod_pos_bound c 10).
    set (n := ndigits_fuel f (c / 10)) in *.
    replace (1 + n - 1) with (Z.succ (n - 1)) by lia. replace (1 + n) with (Z.succ n) by lia.
    rewrite !Z.pow_succ_r by lia. lia.
Qed.

Lemma ndigits_bounds c : 1 <= c -> 10 ^ (ndigits c - 1) <= c < 10 ^ ndigits c /\ 1 <= ndigits c.
Proof.
  intros H. apply ndigits_fuel_bounds; [done|]. pose proof (Z.log2_spec c). pose proof (Z.log2_nonneg c).
  rewrite Z2Nat.id by lia. assert (2 ^ Z.succ (Z.log2 c) = 2 * 2 ^ Z.log2 c) by (apply Z.pow_succ_r; lia). lia.
Qed.

Lemma ndigits_le c p : 0 <= c -> 1 <= p -> c < 10 ^ p <-> ndigits c <= p.
Proof.
  intros H Hp. destruct (Z.eq_dec c 0) as [->|].
  - unfold ndigits. simpl. pose proof (Z.pow_pos_nonneg 10 p). lia.
  - destruct (ndigits_bounds c) as [[Ha Hb] Hc]; [lia|]. split; intros Hlt.
    + assert (10 ^ (ndigits c - 1) < 10 ^ p) as Hq by lia.
      apply Z.pow_lt_mono_r_iff in Hq; lia.
    + assert (10 ^ ndigits c <= 10 ^ p) by (apply Z.pow_le_mono_r; lia). lia.
Qed.

Lemma dfix_small prec d : 1 <= prec -> 0 <= d_coef d < 10 ^ prec -> dfix prec d = d.
Proof.
  intros Hp [H0 H]. apply (ndigits_le _ prec) in H; [|done..]. unfold dfix.
  by rewrite (proj2 (Z.leb_le _ _)) by done.
Qed.
(** ** Plain numerals: digits and a point *)

Definition is_plain (c : ascii) : bool := is_digit c || Ascii.eqb c ".".

Ltac all_ascii := intros [[] [] [] [] [] [] [] []]; try done.

Lemma plain_facts c : is_plain c = true ->
  char_width c = 1%nat /\ ascii_space c = false /\ Ascii.eqb c "_" = false /\
  Ascii.eqb "e" c = false /\ Ascii.eqb "E" c = false /\ Ascii.eqb c "-" = false /\ Ascii.eqb c "+" = false.
Proof. revert c. all_ascii. Qed.

Lemma digit_facts c : is_digit c = true -> is_plain c = true /\ Ascii.eqb "." c = false /\ 0 <= digit_val c <= 9.
Proof. revert c. all_ascii. Qed.

Lemma plain_chars fuel s : all_chars is_plain s = true -> (String.length s <= fuel)%nat ->
  Forall (fun ch => char_isspace ch = false) (chars_fuel fuel s) /\ concat_str (chars_fuel fuel s) = s.
Proof.
  revert fuel. induction s as [|c s IH]; intros [|fuel] Hs Hf; simpl in *; try done; try lia.
  bool_simpl. destruct (plain_facts c) as (Hw & Hsp & _); [done|]. rewrite Hw. simpl.
  destruct (IH fuel) as [Ha Hb]; [done|lia|]. destruct s; simpl; [split; [by constructor|]|split; [by constructor|]].
  - by rewrite Hb.
  - by rewrite Hb.
Qed.

Lemma drop_while_none {A} (p : A -> bool) l : Forall (fun x => p x = false) l -> drop_while p l = l.
Proof. destruct 1 as [|x l Hx]; simpl; [done|]. by rewrite Hx. Qed.

Lemma plain_strip s : all_chars is_plain s = true -> strip s = s.
Proof.
  intros Hs. destruct (plain_chars (String.length s) s Hs) as [Ha Hb]; [lia|].
  unfold strip, chars. rewrite (drop_while_none _ _ Ha).
  rewrite drop_while_none by (by apply Forall_rev). by rewrite rev_involutive.
Qed.

Lemma plain_remove_us s : all_chars is_plain s = true -> remove_us s = s.
Proof.
  induction s as [|c s IH]; simpl; [done|]. intros. bool_simpl.
  destruct (plain_facts c) as (_ & _ & -> & _); [done|]. by rewrite IH.
Qed.

Lemma split_first_none c s : all_chars (fun d => negb (Ascii.eqb c d)) s = true -> split_first c s = (s, None).
Proof. induction s as [|d s IH]; simpl; [done|]. intros. bool_simpl. rewrite H. by rewrite IH. Qed.

Lemma all_chars_impl (p q : ascii -> bool) s :
  (forall c, p c = true -> q c = true) -> all_chars p s = true -> all_chars q s = true.
Proof. intros Hpq. induction s as [|c s IH]; simpl; [done|]. intros. bool_simpl. by rewrite Hpq, IH. Qed.

Lemma all_chars_app p s t : all_chars p (s +:+ t) = all_chars p s && all_chars p t.
Proof. induction s as [|c s IH]; simpl; [done|]. by rewrite IH, andb_assoc. Qed.

Lemma plain_exponent s : all_chars is_plain s = true -> split_exponent s = (s, None).
Proof.
  intros Hs. unfold split_exponent.
  rewrite !split_first_none; [done|..]; eapply all_chars_impl; try done; intros c Hc;
    destruct (plain_facts c Hc) as (_ & _ & _ & He & HE & _); by rewrite ?He, ?HE.
Qed.

Lemma plain_sign s : all_chars is_plain s = true -> split_sign s = (false, s).
Proof.
  destruct s as [|c s]; [done|]. simpl. intros. bool_simpl.
  by destruct (plain_facts c) as (_ & _ & _ & _ & _ & -> & ->).
Qed.

(** Reading a plain numeral is reading its mantissa. *)
Lemma plain_dec s m k : all_chars is_plain s = true -> mantissa s = Some (m, k) ->
  dec_of_str s = Ok (mkDec false m k).
Proof.
  intros Hs Hm. unfold dec_of_str.
  by rewrite plain_strip, plain_remove_us, plain_sign, plain_exponent, Hm by done.
Qed.

(** The value of a digit string. *)
Fixpoint digits_value (acc : Z) (s : string) : Z :=
  match s with "" => acc | String c s' => digits_value (acc * 10 + digit_val c) s' end.

Lemma digits_us_value b acc n s : all_chars is_digit s = true -> (b = true \/ s <> "") ->
  digits_us b acc n s = Some (digits_value acc s, n + bytelen s).
Proof.
  unfold bytelen. revert b acc n. induction s as [|c s IH]; intros b acc n Hs Hb; simpl in *.
  - destruct Hb as [->|]; [|done]. do 2 f_equal. lia.
  - bool_simpl. rewrite H. rewrite IH by auto. do 2 f_equal. lia.
Qed.

Lemma digit_part_value s : all_chars is_digit s = true -> s <> "" ->
  digit_part s = Some (digits_value 0 s, bytelen s).
Proof. intros. unfold digit_part. rewrite digits_us_value by auto. done. Qed.

Lemma digits_value_range acc s : all_chars is_digit s = true -> 0 <= acc ->
  acc * 10 ^ bytelen s <= digits_value acc s < (acc + 1) * 10 ^ bytelen s.
Proof.
  unfold bytelen. revert acc. induction s as [|c s IH]; intros acc Hs Ha; simpl String.length in *.
  - simpl. lia.
  - simpl in Hs. bool_simpl. destruct (digit_facts c) as (_ & _ & Hd); [done|].
    specialize (IH (acc * 10 + digit_val c) ltac:(done) ltac:(lia)). simpl.
    rewrite Nat2Z.inj_succ, Z.pow_succ_r by lia. nia.
Qed.

Lemma digits_value_app acc s t : digits_value acc (s +:+ t) = digits_value (digits_value acc s) t.
Proof. revert acc. induction s as [|c s IH]; intros; simpl; [done|]. by rewrite IH. Qed.

Lemma digits_value_zeros n t : digits_value 0 (concat_str (replicate n "0") +:+ t) = digits_value 0 t.
Proof. induction n; done. Qed.

Lemma pretty_go_digits (x : N) s :
  all_chars is_digit s = true -> all_chars is_digit (pretty_N_go x s) = true /\
  forall acc, exists b, digits_value acc (pretty_N_go x s) = digits_value (acc * 10 ^ b + Z.of_N x) s /\
    bytelen (pretty_N_go x s) = b + bytelen s /\ 0 <= b /\
    ((x <> 0)%N -> 1 <= b /\ 10 ^ (b - 1) <= Z.of_N x).
Proof.
  revert s. induction (N.lt_wf_0 x) as [x _ IH]; intros s Hs.
  destruct (decide (x = 0)%N) as [->|Hx].
  { split; [done|]. intros acc. exists 0. rewrite pretty_N_go_0. split_and!; [f_equal; lia|lia..|done]. }
  rewrite (pretty_N_go_step x s) by lia.
  assert (x / 10 < x)%N as Hlt by (apply N.div_lt; lia).
  assert (is_digit (pretty_N_char (x mod 10)) = true /\ digit_val (pretty_N_char (x mod 10)) = Z.of_N (x mod 10)) as [Hc1 Hc2].
  { assert (x mod 10 < 10)%N as Hm by (apply N.mod_lt; lia). revert Hm.
    generalize (x mod 10)%N. intros y Hy.
    assert (y ∈ [0;1;2;3;4;5;6;7;8;9]%N) as Hin.
    { rewrite !elem_of_cons. lia. }
    rewrite !elem_of_cons in Hin. destruct_or?; subst; try done. by apply elem_of_nil in Hin. }
  destruct (IH _ Hlt (String (pretty_N_char (x mod 10)) s)) as [Ha Hb]; [by simpl; rewrite Hc1|].
  split; [done|]. intros acc. destruct (Hb acc) as (b & Hv & Hl & Hb0 & Hbx). exists (b + 1).
  simpl in Hv. rewrite Hc2 in Hv. unfold bytelen in *. simpl String.length in Hl.
  pose proof (N.div_mod x 10 ltac:(lia)) as Hdm.
  assert (Z.of_N x = 10 * Z.of_N (x / 10) + Z.of_N (x mod 10)) as Hz by lia.
  split_and!.
  - rewrite Hv. f_equal. rewrite Z.pow_add_r by lia. rewrite Hz. lia.
  - lia.
  - lia.
  - intros _. split; [lia|]. replace (b + 1 - 1) with b by lia.
    destruct (decide (x / 10 = 0)%N) as [E|E].
    + rewrite E in *. rewrite pretty_N_go_0 in Hl. simpl in Hl.
      assert (b = 0) as -> by lia. change (10 ^ 0) with 1. lia.
    + destruct (Hbx E) as [Hb1 Hb2]. assert (10 ^ b = 10 * 10 ^ (b - 1)) as ->
        by (rewrite <- Z.pow_succ_r by lia; f_equal; lia).
      pose proof (N2Z.is_nonneg (x mod 10)). rewrite Hz.
      etrans; [by apply Z.mul_le_mono_nonneg_l|lia].
Qed.

Lemma str_of_Z_digits z : 0 <= z -> all_chars is_digit (str_of_Z z) = true /\ str_of_Z z <> "" /\
  digits_value 0 (str_of_Z z) = z /\ (forall n, 1 <= n -> z < 10 ^ n -> bytelen (str_of_Z z) <= n).
Proof.
  intros Hz. unfold str_of_Z. destruct z as [|p|]; [|..|lia].
  { split_and!; try done. }
  change (pretty (Z.pos p)) with (pretty (N.pos p)).
  change (pretty (N.pos p)) with (pretty_N_go (N.pos p) "").
  destruct (pretty_go_digits (N.pos p) "" eq_refl) as [Ha Hb]. destruct (Hb 0) as (b & Hv & Hl & _ & Hbx).
  destruct Hbx as [Hb1 Hb2]; [done|]. unfold bytelen in *. cbn [String.length] in Hl. split_and!; [done| |rewrite Hv; cbn [digits_value]; lia|].
  - intros E. rewrite E in Hl. simpl in Hl. lia.
  - intros n Hn Hlt. assert (10 ^ (b - 1) < 10 ^ n) as Hq by lia. apply Z.pow_lt_mono_r_iff in Hq; lia.
Qed.
Lemma split_first_app c s t : all_chars (fun d => negb (Ascii.eqb c d)) s = true ->
  split_first c (s +:+ String c t) = (s, Some t).
Proof.
  induction s as [|d s IH]; simpl; intros Hs.
  - by rewrite Ascii.eqb_refl.
  - bool_simpl. rewrite H. by rewrite IH.
Qed.

Lemma digits_no_point s : all_chars is_digit s = true -> all_chars (fun d => negb (Ascii.eqb "." d)) s = true.
Proof. apply all_chars_impl. intros c Hc. by destruct (digit_facts c Hc) as (_ & -> & _). Qed.

Lemma digits_plain s : all_chars is_digit s = true -> all_chars is_plain s = true.
Proof. apply all_chars_impl. intros c Hc. by destruct (digit_facts c Hc). Qed.

(** [ip.fp] on two digit strings. *)
Lemma point_dec ip fp :
  all_chars is_digit ip = true -> all_chars is_digit fp = true -> ip <> "" -> fp <> "" ->
  dec_of_str (ip +:+ String "." fp) =
    Ok (mkDec false (digits_value 0 ip * 10 ^ bytelen fp + digits_value 0 fp) (- bytelen fp)).
Proof.
  intros Hi Hf Hi0 Hf0. apply plain_dec.
  - rewrite all_chars_app. simpl. by rewrite !digits_plain.
  - unfold mantissa. rewrite split_first_app by (by apply digits_no_point).
    rewrite !digit_part_value by done. by destruct ip, fp.
Qed.

Lemma int_dec ip : all_chars is_digit ip = true -> ip <> "" ->
  dec_of_str ip = Ok (mkDec false (digits_value 0 ip) 0).
Proof.
  intros Hi Hi0. apply plain_dec; [by apply digits_plain|]. unfold mantissa.
  rewrite split_first_none by (by apply digits_no_point). by rewrite digit_part_value.
Qed.

Lemma zeros_digits_app n s : all_chars is_digit s = true ->
  all_chars is_digit (concat_str (replicate n "0") +:+ s) = true.
Proof. induction n; done. Qed.

Lemma zeros_length_app n s : bytelen (concat_str (replicate n "0") +:+ s) = Z.of_nat n + bytelen s.
Proof.
  unfold bytelen. rewrite length_app_str.
  assert (String.length (concat_str (replicate n "0")) = n) as ->; [|lia].
  induction n as [|n IH]; [done|]. by f_equal/=.
Qed.

(** Printing with [n] places and reading back is the identity. *)
Lemma fixed_str_dec v n : 0 <= v -> (0 < n)%nat -> dec_of_str (fixed_str v n) = Ok (mkDec false v (- Z.of_nat n)).
Proof.
  intros Hv Hn. unfold fixed_str, pow10. rewrite (proj2 (Z.ltb_ge v 0)) by lia.
  rewrite Z.abs_eq by lia. destruct n as [|n']; [lia|]. set (n := S n') in *.
  assert (0 < 10 ^ Z.of_nat n) as Hp by lia.
  destruct (str_of_Z_digits (v / 10 ^ Z.of_nat n)) as (Ha & Hb & Hc & _); [apply Z.div_pos; lia|].
  pose proof (Z.mod_pos_bound v _ Hp) as Hm.
  destruct (str_of_Z_digits (v mod 10 ^ Z.of_nat n)) as (Hd & He & Hf & Hg); [lia|].
  specialize (Hg (Z.of_nat n) ltac:(lia) ltac:(lia)). unfold zfill.
  set (fp := str_of_Z (v mod 10 ^ Z.of_nat n)) in *.
  set (k := (n - String.length fp)%nat).
  assert (bytelen (concat_str (replicate k "0") +:+ fp) = Z.of_nat n) as Hlen.
  { rewrite zeros_length_app. unfold bytelen in *. lia. }
  change ("" +:+ ?x) with x. change ("." +:+ ?x) with (String "." x).
  rewrite point_dec; [|done|by apply zeros_digits_app|done|].
  - rewrite Hlen, Hc, digits_value_zeros, Hf. do 2 f_equal. pose proof (Z.div_mod v (10 ^ Z.of_nat n)). lia.
  - intros E. rewrite E in Hlen. unfold bytelen in Hlen. simpl in Hlen. lia.
Qed.

(** ** Arithmetic on exact operands *)

Lemma strip_zeros_spec fuel c e c' e' :
  strip_zeros fuel c e = (c', e') -> exists j, c = c' * 10 ^ j /\ e' = e + j /\ 0 <= j <= Z.of_nat fuel.
Proof.
  revert c e. induction fuel as [|f IH]; intros c e; cbn [strip_zeros].
  - intros [= <- <-]. exists 0. rewrite Z.pow_0_r. lia.
  - destruct (c mod 10 =? 0) eqn:E; bool_simpl.
    + intros H. apply IH in H as (j & Hc & He & Hj). exists (j + 1). rewrite Z.pow_add_r by lia.
      pose proof (Z.div_mod c 10). lia.
    + intros [= <- <-]. exists 0. rewrite Z.pow_0_r. lia.
Qed.

(** Zeros are removed down to the ideal exponent when they are there. *)
Lemma strip_zeros_enough fuel k c e c' e' :
  strip_zeros fuel (c * 10 ^ Z.of_nat k) e = (c', e') -> (k <= fuel)%nat -> e + Z.of_nat k <= e'.
Proof.
  revert k c e. induction fuel as [|f IH]; intros k c e; cbn [strip_zeros].
  - intros [= <- <-] Hk. lia.
  - destruct k as [|k].
    + rewrite Z.pow_0_r, Z.mul_1_r. intros H _. destruct (c mod 10 =? 0).
      * apply strip_zeros_spec in H. destruct H as (j & _ & -> & Hj). lia.
      * simplify_eq. lia.
    + rewrite Nat2Z.inj_succ, Z.pow_succ_r by lia.
      replace (c * (10 * 10 ^ Z.of_nat k)) with (c * 10 ^ Z.of_nat k * 10) by lia.
      rewrite Z.mod_mul, Z.div_mul by lia. simpl. intros H Hk. apply IH in H; lia.
Qed.

Lemma ndigits_pow n : 0 <= n -> ndigits (10 ^ n) = n + 1.
Proof.
  intros Hn. assert (10 ^ n < 10 ^ (n + 1)) as H1 by (apply Z.pow_lt_mono_r; lia).
  apply ndigits_le in H1; [|lia..]. destruct (Z.le_gt_cases (ndigits (10 ^ n)) n) as [H|H]; [|lia].
  destruct (ndigits_bounds (10 ^ n)) as [[_ Hb] Hc]; [lia|].
  apply (Z.pow_lt_mono_r_iff 10) in Hb; lia.
Qed.

(** A division by a power of ten that needs no rounding: the quotient is
    [c * 10^j] at the smaller exponent. *)
Lemma ddiv_pow10 prec neg c e n :
  1 <= prec -> 0 <= n -> 0 <= c < 10 ^ prec ->
  exists c' j, ddiv prec (mkDec neg c e) (mkDec false (10 ^ n) 0) = mkDec neg c' (e - n + j) /\
    c = c' * 10 ^ j /\ 0 <= j <= n.
Proof.
  intros Hp Hn Hc. unfold ddiv. cbn [d_neg d_coef d_exp]. rewrite xorb_false_r, Z.sub_0_r.
  destruct (c =? 0) eqn:E0; bool_simpl.
  { exists 0, n. rewrite dfix_small by (simpl; lia). split_and!; [f_equal; lia|lia..]. }
  rewrite ndigits_pow by done.
  assert (1 <= ndigits c <= prec) as Hd.
  { split; [apply ndigits_bounds; lia|]. apply ndigits_le; lia. }
  set (s := n + 1 - ndigits c + prec + 1). assert (n + 2 <= s) as Hs by lia.
  rewrite (proj2 (Z.leb_le 0 s)) by lia.
  replace (10 ^ s) with (10 ^ (s - n) * 10 ^ n) by (rewrite <- Z.pow_add_r by lia; f_equal; lia).
  assert (0 < 10 ^ n) as Hpn by lia.
  rewrite Z.mul_assoc, Z.mod_mul, Z.div_mul by lia. simpl (0 =? 0).
  destruct (strip_zeros _ _ _) as [c' e'] eqn:Es. cbv iota.
  replace (e - (e - s)) with s in Es by lia.
  pose proof (strip_zeros_spec _ _ _ _ _ Es) as (j & Hj & -> & Hjr).
  replace (s - n) with (Z.of_nat (Z.to_nat (s - n))) in Es by lia.
  apply strip_zeros_enough in Es; [|lia].
  exists c', (j - (s - n)).
  assert (c = c' * 10 ^ (j - (s - n))) as Hcc.
  { apply (Z.mul_reg_r _ _ (10 ^ (s - n))); [lia|]. rewrite <- Z.mul_assoc, <- Z.pow_add_r by lia.
    rewrite Hj. do 2 f_equal. lia. }
  split_and!; [|done|lia|lia].
  rewrite dfix_small; [f_equal; lia|done|]. simpl.
  assert (1 <= 10 ^ (j - (s - n))) by (apply (Z.pow_le_mono_r 10 0); lia). nia.
Qed.

Lemma dquantize_exact prec neg c e q :
  1 <= prec -> 0 <= c -> q <= e -> c * 10 ^ (e - q) < 10 ^ prec ->
  dquantize prec (mkDec neg c e) q = Ok (mkDec neg (c * 10 ^ (e - q)) q).
Proof.
  intros Hp Hc Hq Hlt. unfold dquantize. cbn [d_coef d_exp d_neg].
  destruct (c =? 0) eqn:E; bool_simpl; [by subst|].
  assert (ndigits (c * 10 ^ (e - q)) <= prec) as Hn by (apply ndigits_le; nia).
  rewrite (proj2 (Z.leb_le q e)) by done. rewrite !(proj2 (Z.ltb_ge prec _)); [done|done|].
  destruct (ndigits_bounds c) as [[Ha Hb] Hd]; [lia|].
  assert (10 ^ (ndigits c - 1 + (e - q)) < 10 ^ prec) as Hx.
  { rewrite Z.pow_add_r by lia. nia. }
  apply Z.pow_lt_mono_r_iff in Hx; lia.
Qed.
End PyDecimal.
