(* ===== verification/FloatRepr.v ===== *)
(** * [repr(float)] reads back

    The shortest decimal of [PyJson.shortest] exists with at most 17 digits, and
    the decimal it returns has exactly the digits it claims and rounds to the
    float it was computed from.  [dec_exp] estimates the decimal exponent from
    the binary one and is off by at most one, which it corrects. *)
From S2P Require Import Prelude PyFloat PyStr PyVal PyJson PyDecimal.
Import PyFloat PyStr PyVal PyJson PyDecimal.

Module FloatRepr.

#[local] Opaque Z.pow.

(** ** Rounding a value close to a float *)

Lemma rhe_near n d q : 0 < d -> 2 * Z.abs (n - q * d) < d -> rhe n d = q.
Proof. intros Hd Hn. pose proof (rhe_bounds n d Hd). nia. Qed.

Lemma shift_bounds k : 0 < k -> k < 2 ^ (53 + shift_of k) /\ (0 < shift_of k -> 2 ^ (52 + shift_of k) <= k).
Proof.
  intros Hk. unfold shift_of. pose proof (Z.log2_spec k Hk) as [Hlo Hhi]. split.
  - eapply Z.lt_le_trans; [exact Hhi|]. apply Z.pow_le_mono_r; lia.
  - intros Hs. replace (52 + Z.max 0 (Z.log2 k - 52)) with (Z.log2 k) by lia. done.
Qed.

Lemma shift_of_eq q s : 0 <= s -> 0 <= q < 2 ^ (53 + s) -> (0 < s -> 2 ^ (52 + s) <= q) -> shift_of q = s.
Proof.
  intros Hs Hq Hlo. unfold shift_of. destruct (Z.eq_dec q 0) as [->|].
  { destruct (Z.eq_dec s 0) as [->|]; [done|]. specialize (Hlo ltac:(lia)).
    pose proof (pow2_pos (52 + s)). lia. }
  assert (Z.log2 q < 53 + s) by (apply Z.log2_lt_pow2; lia).
  destruct (Z.eq_dec s 0) as [->|]; [lia|].
  assert (52 + s <= Z.log2 q) by (apply Z.log2_le_pow2; [lia|]; apply Hlo; lia). lia.
Qed.

(** Rounding when the shift is known. *)
Lemma rnd_pos_at a d s m :
  0 < d -> 0 <= s -> shift_of (a / d) = s -> 2 * Z.abs (a - m * 2 ^ s * d) < d * 2 ^ s ->
  rnd_pos a d = m * 2 ^ s.
Proof.
  intros Hd Hs Hsh Hn. unfold rnd_pos. rewrite Hsh. pose proof (pow2_pos s Hs).
  rewrite (rhe_near _ _ m); [done|nia|]. by replace (m * (d * 2 ^ s)) with (m * 2 ^ s * d) by ring.
Qed.

(** An error of [k / (2 * 10^16)] is below half a unit of [k = m * u] when [m]
    has at most 53 bits. *)
Lemma near_ulp x m u d :
  0 < u -> 0 < d -> 0 <= m <= 2 ^ 53 -> 2 * 10 ^ 16 * x <= m * u * d -> 2 * x < d * u.
Proof.
  intros Hu Hd Hm Hx. assert (2 ^ 53 < 10 ^ 16) by (vm_compute; reflexivity).
  assert (0 < d * u) by nia.
  assert (m * (d * u) <= 2 ^ 53 * (d * u)) by (apply Z.mul_le_mono_nonneg_r; lia).
  assert (2 ^ 53 * (d * u) < 10 ^ 16 * (d * u)) by (apply Z.mul_lt_mono_pos_r; lia).
  nia.
Qed.

(** A value within [k / (2 * 10^16)] of the float [k] rounds to [k]. *)
Lemma rnd_near a d k :
  0 < d -> 0 < k -> repr53 k -> 2 * 10 ^ 16 * Z.abs (a - k * d) <= k * d -> rnd a d = k.
Proof.
  intros Hd Hk Hr Hn. assert (0 < a) as Ha by (pose proof (Z.pow_pos_nonneg 10 16); nia).
  unfold rnd. rewrite (proj2 (Z.leb_le 0 a)) by lia.
  destruct (shift_bounds k Hk) as [Hhi Hlo]. destruct (repr53_shift k ltac:(lia) Hr) as [m Hm].
  set (s := shift_of k) in *. assert (0 <= s) as Hs by apply shift_of_nonneg.
  pose proof (pow2_pos s Hs) as Hp. rewrite Z.pow_add_r in Hhi by lia.
  assert (0 < m < 2 ^ 53) as Hmb by (clear Hn; nia).
  rewrite Hm in Hn. pose proof (near_ulp _ m _ _ Hp Hd ltac:(lia) Hn) as Hnear.
  assert (a / d < 2 ^ (53 + s)) as Hup.
  { apply Z_div_lt_mul; [done|]. rewrite Z.pow_add_r by lia. clear Hn. nia. }
  assert (0 <= a / d) by (apply Z.div_pos; lia).
  destruct (Z.le_gt_cases (2 ^ (52 + s)) (a / d)) as [Hge|Hlt].
  { rewrite (rnd_pos_at a d s m); [done..| |done]. apply shift_of_eq; [done|lia|done]. }
  destruct (Z.eq_dec s 0) as [E|E].
  { rewrite (rnd_pos_at a d s m); [done..| |done]. apply shift_of_eq; [done|lia|lia]. }
  specialize (Hlo ltac:(lia)).
  assert (m = 2 ^ 52) as Hm52.
  { rewrite Z.pow_add_r in Hlo, Hlt by lia. pose proof (Z.mul_succ_div_gt a d Hd). clear Hn.
    assert (a < 2 ^ 52 * 2 ^ s * d) by nia. assert (2 ^ 52 <= m) by nia. nia. }
  assert (2 ^ s = 2 * 2 ^ (s - 1)) as H2s by (rewrite <- Z.pow_succ_r by lia; f_equal; lia).
  pose proof (pow2_pos (s - 1) ltac:(lia)) as Hp'.
  assert (m * 2 ^ s = 2 ^ 53 * 2 ^ (s - 1)) as Hk2 by (rewrite Hm52, H2s; change (2 ^ 53) with (2 ^ 52 * 2); ring).
  rewrite Hk2 in *. rewrite Hm.
  pose proof (near_ulp _ (2 ^ 53) _ _ Hp' Hd ltac:(lia) Hn) as Hnear'.
  rewrite (rnd_pos_at a d (s - 1) (2 ^ 53)); [done..|lia| |done].
  apply shift_of_eq; [lia| |].
  - replace (53 + (s - 1)) with (52 + s) by lia. lia.
  - intros _. replace (52 + (s - 1)) with (51 + s) by lia. apply Z_div_ge_mul; [done|].
    replace (51 + s) with (52 + (s - 1)) by lia. rewrite Z.pow_add_r by lia. clear Hn. nia.
Qed.

Lemma of_units_near a d k :
  0 < d -> 0 < k -> wf_float (Fin k) -> 2 * 10 ^ 16 * Z.abs (a - k * d) <= k * d -> of_units a d = Fin k.
Proof.
  intros Hd Hk [Hr Hh] Hn. unfold of_units. rewrite (rnd_near a d k) by done. by rewrite (proj2 (Z.ltb_lt _ _)).
Qed.

(** Equal ratios are equal floats. *)
Lemma of_units_ratio n1 d1 n2 d2 :
  0 < d1 -> 0 < d2 -> n1 * d2 = n2 * d1 -> of_units n1 d1 = of_units n2 d2.
Proof.
  intros H1 H2 E. unfold of_units.
  assert (rnd n1 d1 = rnd n2 d2) as -> by (apply Z.le_antisymm; apply rnd_mono; lia).
  assert ((0 <? n1) = (0 <? n2)) as ->; [|done]. apply eq_bool_prop_intro. rewrite !Is_true_true, !Z.ltb_lt. nia.
Qed.

Lemma pow10_pos e : 0 <= e -> 0 < 10 ^ e.
Proof. intros. apply Z.pow_pos_nonneg; lia. Qed.

Lemma pow10_S e : 0 <= e -> 10 ^ (e + 1) = 10 * 10 ^ e.
Proof. intros. rewrite Z.add_1_r. by apply Z.pow_succ_r. Qed.

(** Trailing zeros of the digits move into the exponent. *)
Lemma float_of_decimal_scale m e j : 0 <= j -> float_of_decimal (m * 10 ^ j) e = float_of_decimal m (e + j).
Proof.
  intros Hj. unfold float_of_decimal, of_ratio, pow10. pose proof (pow10_pos j Hj).
  destruct (0 <=? e) eqn:E1; destruct (0 <=? e + j) eqn:E2; bool_simpl; try lia.
  - rewrite Z.pow_add_r by lia. f_equal. ring.
  - apply of_units_ratio; [apply pow10_pos; lia|lia|]. pose proof (pow10_pos (e + j) ltac:(lia)).
    replace (10 ^ j) with (10 ^ (e + j) * 10 ^ (- e)) by (rewrite <- Z.pow_add_r by lia; f_equal; lia). ring.
  - apply of_units_ratio; [apply pow10_pos; lia..|].
    replace (10 ^ (- e)) with (10 ^ j * 10 ^ (- (e + j))) by (rewrite <- Z.pow_add_r by lia; f_equal; lia). ring.
Qed.

(** ** The decimal exponent *)

Lemma one_k_eq : one_k = 2 ^ 1074.
Proof. reflexivity. Qed.

Lemma huge_k_eq : huge_k = 2 ^ 2098.
Proof. reflexivity. Qed.

(** [log10 2] lies between 59/196 and 28/93. *)
Lemma pow10_le_pow2 a b : 0 <= a -> 0 <= b -> 196 * a <= 59 * b -> 10 ^ a <= 2 ^ b.
Proof.
  intros Ha Hb H. apply (Z.pow_le_mono_l_iff _ _ 59); [lia..|].
  assert (10 ^ 59 <= 2 ^ 196) as Hc by (vm_compute; discriminate).
  rewrite <- !Z.pow_mul_r by lia. rewrite (Z.mul_comm a), Z.pow_mul_r by lia.
  etrans; [apply Z.pow_le_mono_l; split; [|exact Hc]; apply Z.pow_nonneg; lia|].
  rewrite <- Z.pow_mul_r by lia. apply Z.pow_le_mono_r; lia.
Qed.

Lemma pow2_le_pow10 a b : 0 <= a -> 0 <= b -> 28 * a <= 93 * b -> 2 ^ a <= 10 ^ b.
Proof.
  intros Ha Hb H. apply (Z.pow_le_mono_l_iff _ _ 93); [lia..|].
  assert (2 ^ 93 <= 10 ^ 28) as Hc by (vm_compute; discriminate).
  rewrite <- !Z.pow_mul_r by lia. rewrite (Z.mul_comm a), Z.pow_mul_r by lia.
  etrans; [apply Z.pow_le_mono_l; split; [|exact Hc]; apply Z.pow_nonneg; lia|].
  rewrite <- Z.pow_mul_r by lia. apply Z.pow_le_mono_r; lia.
Qed.

(** The estimate from the binary exponent [L] is off by at most one. *)
Lemma estimate_low k e L :
  0 < k -> L = Z.log2 k - 1074 -> -1074 <= L <= 1023 -> 100000 * e <= 30103 * L -> ge_pow10 k (e - 1) = true.
Proof.
  intros Hk HL Hb He. pose proof (Z.log2_spec k Hk) as [Hlo _]. pose proof (Z.log2_nonneg k).
  unfold ge_pow10. rewrite one_k_eq. destruct (0 <=? e - 1) eqn:E; bool_simpl; apply Z.leb_le.
  - replace (Z.log2 k) with (1074 + L) in Hlo by lia. rewrite Z.pow_add_r in Hlo by lia.
    pose proof (pow10_le_pow2 (e - 1) L ltac:(lia) ltac:(lia) ltac:(lia)). pose proof (pow2_pos 1074). nia.
  - pose proof (pow10_pos (- (e - 1)) ltac:(lia)). destruct (Z.le_gt_cases 0 L).
    + assert (2 ^ 1074 <= 2 ^ Z.log2 k) by (apply Z.pow_le_mono_r; lia). nia.
    + pose proof (pow2_le_pow10 (- L) (- (e - 1)) ltac:(lia) ltac:(lia) ltac:(lia)) as Hp.
      replace 1074 with (Z.log2 k + - L) by lia. rewrite Z.pow_add_r by lia.
      pose proof (pow2_pos (Z.log2 k)). pose proof (pow2_pos (- L)). nia.
Qed.

Lemma estimate_high k e L :
  0 < k -> L = Z.log2 k - 1074 -> -1074 <= L <= 1023 -> 30103 * L < 100000 * (e + 1) -> ge_pow10 k (e + 2) = false.
Proof.
  intros Hk HL Hb He. pose proof (Z.log2_spec k Hk) as [_ Hhi]. pose proof (Z.log2_nonneg k).
  unfold ge_pow10. rewrite one_k_eq. destruct (0 <=? e + 2) eqn:E; bool_simpl; apply Z.leb_gt.
  - pose proof (pow10_pos (e + 2) ltac:(lia)). destruct (Z.le_gt_cases (-1) L).
    + replace (Z.succ (Z.log2 k)) with (1074 + (L + 1)) in Hhi by lia. rewrite Z.pow_add_r in Hhi by lia.
      pose proof (pow2_le_pow10 (L + 1) (e + 2) ltac:(lia) ltac:(lia) ltac:(lia)). pose proof (pow2_pos 1074). nia.
    + assert (2 ^ Z.succ (Z.log2 k) <= 2 ^ 1074) by (apply Z.pow_le_mono_r; lia). nia.
  - pose proof (pow10_le_pow2 (- (e + 2)) (- (L + 1)) ltac:(lia) ltac:(lia) ltac:(lia)) as Hp.
    replace 1074 with (Z.succ (Z.log2 k) + - (L + 1)) by lia. rewrite Z.pow_add_r by lia.
    pose proof (pow10_pos (- (e + 2)) ltac:(lia)). nia.
Qed.

(** [10^e <= x < 10^(e+1)] for [e = dec_exp x]. *)
Lemma dec_exp_spec k : 0 < k < huge_k -> ge_pow10 k (dec_exp k) = true /\ ge_pow10 k (dec_exp k + 1) = false.
Proof.
  intros [Hk Hh]. unfold dec_exp. set (e := (Z.log2 k - 1074) * 30103 / 100000).
  assert (100000 * e <= 30103 * (Z.log2 k - 1074) < 100000 * (e + 1)) as [H1 H2].
  { unfold e. pose proof (Z.div_mod ((Z.log2 k - 1074) * 30103) 100000 ltac:(lia)).
    pose proof (Z.mod_pos_bound ((Z.log2 k - 1074) * 30103) 100000 ltac:(lia)). lia. }
  assert (-1074 <= Z.log2 k - 1074 <= 1023) as Hb.
  { pose proof (Z.log2_nonneg k). assert (Z.log2 k < 2098) by (apply Z.log2_lt_pow2; [done|by rewrite <- huge_k_eq]). lia. }
  pose proof (estimate_low k e _ Hk eq_refl Hb H1) as Hl. pose proof (estimate_high k e _ Hk eq_refl Hb H2) as Hu.
  destruct (ge_pow10 k (e + 1)) eqn:E1.
  - split; [done|]. by replace (e + 1 + 1) with (e + 2) by lia.
  - destruct (ge_pow10 k e) eqn:E0; split; try done. by replace (e - 1 + 1) with e by lia.
Qed.

(** ** The digits *)

(** Scaled by [10^s], the float is the ratio of [num k s] and [den s]. *)
Definition num (k s : Z) : Z := k * 10 ^ Z.max s 0.
Definition den (s : Z) : Z := one_k * 10 ^ Z.max (- s) 0.

Lemma den_pos s : 0 < den s.
Proof. unfold den. pose proof (pow10_pos (Z.max (- s) 0)). pose proof one_k_pos. nia. Qed.

Lemma ge_pow10_ratio k e s : 0 <= s + e -> ge_pow10 k e = (10 ^ (s + e) * den s <=? num k s).
Proof.
  intros Hse. unfold ge_pow10, num, den. pose proof one_k_pos.
  apply eq_bool_prop_intro. rewrite !Is_true_true.
  destruct (Z.le_gt_cases 0 s) as [Hs|Hs].
  - replace (Z.max s 0) with s by lia. replace (Z.max (- s) 0) with 0 by lia.
    rewrite Z.pow_0_r. destruct (0 <=? e) eqn:E; bool_simpl; rewrite !Z.leb_le.
    + rewrite Z.pow_add_r by lia. pose proof (pow10_pos s Hs). nia.
    + assert (10 ^ s = 10 ^ (s + e) * 10 ^ (- e)) as -> by (rewrite <- Z.pow_add_r by lia; f_equal; lia).
      pose proof (pow10_pos (s + e) Hse). nia.
  - replace (Z.max s 0) with 0 by lia. replace (Z.max (- s) 0) with (- s) by lia.
    rewrite (proj2 (Z.leb_le 0 e)) by lia. rewrite Z.pow_0_r, !Z.leb_le.
    assert (10 ^ e = 10 ^ (s + e) * 10 ^ (- s)) as -> by (rewrite <- Z.pow_add_r by lia; f_equal; lia). nia.
Qed.

Lemma digits_ratio k s :
  (if 0 <=? s then rhe (k * 10 ^ s) one_k else rhe k (one_k * 10 ^ (- s))) = rhe (num k s) (den s).
Proof.
  unfold num, den. destruct (0 <=? s) eqn:E; bool_simpl.
  - replace (Z.max s 0) with s by lia. replace (Z.max (- s) 0) with 0 by lia. by rewrite Z.pow_0_r, Z.mul_1_r.
  - replace (Z.max s 0) with 0 by lia. replace (Z.max (- s) 0) with (- s) by lia. by rewrite Z.pow_0_r, Z.mul_1_r.
Qed.

Lemma decimal_ratio d s : float_of_decimal d (- s) = of_units (d * den s) (10 ^ Z.max s 0).
Proof.
  unfold float_of_decimal, of_ratio, den, pow10. pose proof (pow10_pos (Z.max s 0) ltac:(lia)).
  destruct (0 <=? - s) eqn:E; bool_simpl.
  - replace (Z.max s 0) with 0 by lia. replace (Z.max (- s) 0) with (- s) by lia. rewrite Z.pow_0_r. f_equal; ring.
  - replace (Z.max s 0) with s by lia. replace (Z.max (- s) 0) with 0 by lia. rewrite Z.opp_involutive, Z.pow_0_r. f_equal; ring.
Qed.

(** Seventeen digits determine a float. *)
Lemma digits_suffice k s :
  0 < k -> wf_float (Fin k) -> 10 ^ 16 * den s <= num k s ->
  float_of_decimal (rhe (num k s) (den s)) (- s) = Fin k.
Proof.
  intros Hk Hwf Hge. rewrite decimal_ratio. pose proof (den_pos s).
  apply of_units_near; [apply pow10_pos; lia|done..|]. fold (num k s).
  pose proof (rhe_bounds (num k s) (den s) ltac:(done)).
  assert (2 * Z.abs (rhe (num k s) (den s) * den s - num k s) <= den s) by nia.
  pose proof (pow10_pos 16). nia.
Qed.

Lemma dec_round_spec k p e d e' :
  0 < k -> 1 <= p -> ge_pow10 k e = true -> ge_pow10 k (e + 1) = false -> dec_round k p e = (d, e') ->
  10 ^ (p - 1) <= d < 10 ^ p /\ e <= e' <= e + 1 /\
  (wf_float (Fin k) -> p = 17 -> float_of_decimal d (e' - p + 1) = Fin k).
Proof.
  intros Hk Hp H1 H2. unfold dec_round. rewrite digits_ratio. set (s := p - 1 - e).
  pose proof (den_pos s) as Hq.
  rewrite (ge_pow10_ratio _ _ s) in H1 by lia. rewrite (ge_pow10_ratio _ _ s) in H2 by lia. bool_simpl.
  replace (s + e) with (p - 1) in H1 by lia. replace (s + (e + 1)) with p in H2 by lia.
  assert (10 ^ (p - 1) <= rhe (num k s) (den s)) as Hlo.
  { rewrite <- (rhe_exact (10 ^ (p - 1)) (den s)) by done. apply rhe_mono; [done..|nia]. }
  assert (rhe (num k s) (den s) <= 10 ^ p) as Hhi.
  { rewrite <- (rhe_exact (10 ^ p) (den s)) by done. apply rhe_mono; [done..|nia]. }
  assert (10 ^ p = 10 ^ (p - 1) * 10 ^ 1) as Hpp by (rewrite <- Z.pow_add_r by lia; f_equal; lia).
  pose proof (pow10_pos (p - 1) ltac:(lia)).
  assert (wf_float (Fin k) -> p = 17 -> float_of_decimal (rhe (num k s) (den s)) (- s) = Fin k) as Hf.
  { intros Hwf ->. by apply digits_suffice. }
  destruct (rhe (num k s) (den s) =? 10 ^ p) eqn:E; intros [= <- <-]; bool_simpl.
  - split_and!; [lia..|change (10 ^ 1) with 10 in Hpp; lia|lia|lia|].
    intros Hwf Hp17. rewrite E, Hpp in Hf. rewrite float_of_decimal_scale in Hf by lia.
    rewrite <- (Hf Hwf Hp17). f_equal. lia.
  - split_and!; [lia..|]. intros Hwf Hp17. rewrite <- (Hf Hwf Hp17). f_equal. lia.
Qed.

(** The shortest decimal that reads back has at most 17 digits. *)
Lemma shortest_spec fuel k p e d p' e' :
  0 < k -> wf_float (Fin k) -> ge_pow10 k e = true -> ge_pow10 k (e + 1) = false ->
  1 <= p -> p + Z.of_nat fuel = 18 -> (1 <= fuel)%nat -> shortest fuel k p e = (d, p', e') ->
  1 <= p' <= 17 /\ 10 ^ (p' - 1) <= d < 10 ^ p' /\ float_of_decimal d (e' - p' + 1) = Fin k.
Proof.
  intros Hk Hwf H1 H2. revert p. induction fuel as [|f IH]; intros p Hp Hf Hf1 Hs; [lia|].
  cbn [shortest] in Hs. destruct (dec_round k p e) as [d0 e0] eqn:Ed.
  destruct (dec_round_spec _ _ _ _ _ Hk Hp H1 H2 Ed) as (Hd & _ & H17).
  destruct (bool_decide (float_of_decimal d0 (e0 - p + 1) = Fin k)) eqn:Eb.
  - apply bool_decide_eq_true in Eb. injection Hs as <- <- <-. split_and!; [lia..|done].
  - apply bool_decide_eq_false in Eb. destruct f as [|f].
    { exfalso. apply Eb, H17; [done|lia]. }
    eapply IH; [| | |exact Hs]; lia.
Qed.
End FloatRepr.
