(* ===== verification/Interfaces.v ===== *)
(** * What the runner needs of its collaborators

    The evaluator registry ([evaluators.py]) and the distributed limiter
    ([scheduler.py]) as type classes: the runner's theorems are proved against
    them, [Evaluators.v] and [Scheduler.v] provide the instances. *)
From S2P Require Import Prelude PyFloat PyStr PyVal Models Circuit Effects.
Import PyFloat PyStr PyVal.

Record EvaluationContext := mkContext {
  ec_case_id : string;
  ec_prompt : string;
  ec_output : string;
  ec_latency_ms : float;
  ec_tool_path : list string;
  ec_metadata : dict
}.

(** [EvaluatorRegistry.evaluate]: it ends, and a result has one outcome per
    effective assertion, in order. *)
Class Evaluators := {
  evaluate : TestCase -> EvaluationContext -> M (list AssertionOutcome);
  evaluate_total : forall case ctx, total (evaluate case ctx);
  evaluate_length : forall case ctx w outcomes w',
    evaluate case ctx w = (Ret outcomes, w') -> length outcomes = length (effective_assertions case)
}.

(** [DistributedLimiter.permit] around the body of the [async with].  The
    limiter waits for a grant until the deadline of the case, so it ends when
    the body does and the clock has passed the deadline by the observation
    [limiter_horizon]; a value it returns is the body's. *)
Definition clock_reaches {env : Env} (horizon : nat) (deadline : float) : Prop :=
  forall n, (horizon <= n)%nat -> fle deadline (sn_time (observe n)) = true.

Class Limiter {env : Env} := {
  limiter_permit : string -> Z -> Z -> float -> M AdapterResponse -> M AdapterResponse;
  limiter_horizon : nat;
  permit_total : forall case_id iteration attempt deadline body,
    clock_reaches limiter_horizon deadline -> total body ->
    total (limiter_permit case_id iteration attempt deadline body);
  permit_returns_body : forall case_id iteration attempt deadline body w r w',
    limiter_permit case_id iteration attempt deadline body w = (Ret r, w') ->
    exists w1 w2, body w1 = (Ret r, w2)
}.
