(* ===== verification/Pricing.v ===== *)
(** * Costs ([pricing.py], and the price pattern of [config.py])

    Token counts times prices per million tokens, in decimal arithmetic:
    [token_cost_usd] works with 64 digits, the totals with the 28 digits of the
    default context. *)
From S2P Require Import Prelude PyFloat PyStr PyVal PyDecimal Models.
Import PyFloat PyStr PyVal PyDecimal.

Module Pricing.

Definition _SCALE : Z := -12.
Definition _MILLION : dec := dec_of_Z 1000000.
Definition cost_prec : Z := 64.
Definition default_prec : Z := 28.

Definition token_cost_usd (tokens : Z) (price_per_million : string) : pyres string :=
  price ← dec_of_str price_per_million;
  let cost := ddiv cost_prec (dmul cost_prec (dec_of_Z tokens) price) _MILLION in
  scaled ← dquantize cost_prec cost _SCALE;
  Ok (dec_format scaled).

Definition case_costs (pricing : option PricingConfig) (input_tokens output_tokens : Z) :
    pyres (option string * option string * option string) :=
  match pricing with
  | None => Ok (None, None, None)
  | Some p =>
      input_cost ← token_cost_usd input_tokens (pc_input_usd_per_million_tokens p);
      output_cost ← token_cost_usd output_tokens (pc_output_usd_per_million_tokens p);
      a ← dec_of_str input_cost;
      b ← dec_of_str output_cost;
      total ← dquantize default_prec (dadd default_prec a b) _SCALE;
      Ok (Some input_cost, Some output_cost, Some (dec_format total))
  end.

Fixpoint sum_decimals (acc : dec) (values : list (option string)) : pyres dec :=
  match values with
  | [] => Ok acc
  | None :: values' => sum_decimals acc values'
  | Some v :: values' => d ← dec_of_str v; sum_decimals (dadd default_prec acc d) values'
  end.

Definition sum_costs (values : list (option string)) : pyres (option string) :=
  if existsb (fun v => negb (is_some v)) values then Ok None
  else total ← sum_decimals (dec_of_Z 0) values; Ok (Some (dec_format total)).

(** [^(0|[1-9][0-9]{0,17})(\.[0-9]{1,12})?$] under [fullmatch] *)
Definition price_int_part (s : string) : bool :=
  String.eqb s "0" ||
  match s with
  | String c _ => negb (Ascii.eqb c "0") && all_chars is_digit s && (bytelen s <=? 18)
  | "" => false
  end.

Definition _PRICE_PATTERN (s : string) : bool :=
  let '(ip, fp) := split_first "." s in
  price_int_part ip &&
  match fp with
  | None => true
  | Some f => (1 <=? bytelen f) && (bytelen f <=? 12) && all_chars is_digit f
  end.

(** The price in units of [10^-12] USD. *)
Definition price_units (s : string) : Z :=
  let '(ip, fp) := split_first "." s in
  match fp with
  | None => digits_value 0 ip * 10 ^ 12
  | Some f => (digits_value 0 ip * 10 ^ bytelen f + digits_value 0 f) * 10 ^ (12 - bytelen f)
  end.

(** The exact cost in units of [10^-12] USD, rounded half-even. *)
Definition cost_units (tokens : Z) (price : string) : Z := rhe (tokens * price_units price) (10 ^ 6).

(** ** Reading a price *)

Lemma split_first_join c s a b : split_first c s = (a, Some b) -> s = a +:+ String c b.
Proof.
  revert a. induction s as [|d s IH]; intros a; simpl; [done|].
  destruct (Ascii.eqb c d) eqn:E.
  - intros [= <- <-]. apply Ascii.eqb_eq in E. by subst.
  - destruct (split_first c s) as [a' b'] eqn:Es. intros [= <- ->]. by rewrite (IH a' eq_refl).
Qed.

Lemma split_first_whole c s a : split_first c s = (a, None) -> s = a.
Proof.
  revert a. induction s as [|d s IH]; intros a; simpl; [by intros [= <-]|].
  destruct (Ascii.eqb c d) eqn:E; [done|].
  destruct (split_first c s) as [a' b'] eqn:Es. intros [= <- ->]. by rewrite (IH a' eq_refl).
Qed.

Lemma price_int_facts s : price_int_part s = true ->
  all_chars is_digit s = true /\ s <> "" /\ 0 <= digits_value 0 s < 10 ^ 18.
Proof.
  unfold price_int_part. intros [H|H]%orb_true_iff.
  - apply String.eqb_eq in H as ->. split_and!; by vm_compute.
  - destruct s as [|c s]; [done|]. bool_simpl. split; [done|]. split; [done|].
    pose proof (digits_value_range 0 (String c s) ltac:(done) ltac:(lia)) as Hr.
    assert (10 ^ bytelen (String c s) <= 10 ^ 18) by (apply Z.pow_le_mono_r; lia). lia.
Qed.

Lemma price_dec s : _PRICE_PATTERN s = true ->
  exists m k, dec_of_str s = Ok (mkDec false m (- k)) /\ 0 <= k <= 12 /\ 0 <= m < 10 ^ (18 + k) /\
    price_units s = m * 10 ^ (12 - k).
Proof.
  unfold _PRICE_PATTERN, price_units. destruct (split_first "." s) as [ip [f|]] eqn:E; intros Hp; bool_simpl.
  - apply split_first_join in E as ->. destruct (price_int_facts ip) as (Hi & Hi0 & Hir); [done|].
    assert (f <> "") as Hf0 by (intros ->; done).
    rewrite point_dec by done. exists (digits_value 0 ip * 10 ^ bytelen f + digits_value 0 f), (bytelen f).
    pose proof (digits_value_range 0 f ltac:(done) ltac:(lia)).
    split_and!; [done|lia|lia|nia| |done]. rewrite Z.pow_add_r by lia. nia.
  - apply split_first_whole in E as ->. destruct (price_int_facts ip) as (Hi & Hi0 & Hir); [done|].
    rewrite int_dec by done. exists (digits_value 0 ip), 0. rewrite Z.add_0_r, Z.sub_0_r. done.
Qed.

Lemma rhe_scale n d x : 0 < d -> 0 < x -> rhe (n * x) (d * x) = rhe n d.
Proof. intros. apply Z.le_antisymm; apply rhe_mono; nia. Qed.

Lemma rhe_le n d : 1 <= d -> 0 <= n -> rhe n d <= n.
Proof.
  intros Hd Hn. destruct (Z.eq_dec d 1) as [->|].
  - replace n with (n * 1) at 1 by lia. rewrite rhe_exact; lia.
  - destruct (Z.eq_dec n 0) as [->|]; [by replace 0 with (0 * d) by lia; rewrite rhe_exact; lia|].
    pose proof (rhe_floor n d ltac:(lia)). assert (n / d < n) by (apply Z.div_lt; lia). lia.
Qed.
(** ** Exactness *)

Lemma quantize_cost c' j k :
  0 <= c' -> 0 <= j <= 6 -> 0 <= k <= 12 -> c' * 10 ^ j < 10 ^ (52 + k) ->
  dquantize cost_prec (mkDec false c' (- k - 6 + j)) _SCALE =
    Ok (mkDec false (rhe (c' * 10 ^ j * 10 ^ (12 - k)) (10 ^ 6)) _SCALE).
Proof.
  intros Hc Hj Hk Hlt. unfold cost_prec, _SCALE.
  assert (1 <= 10 ^ j) as Hpj by (apply (Z.pow_le_mono_r 10 0); lia).
  assert (10 ^ (52 + k) <= 10 ^ 64) as H64 by (apply Z.pow_le_mono_r; lia).
  destruct (Z.le_gt_cases (-12) (- k - 6 + j)) as [He|He].
  - assert (c' * 10 ^ j * 10 ^ (12 - k) = c' * 10 ^ (- k - 6 + j - -12) * 10 ^ 6) as Heq.
    { rewrite <- !Z.mul_assoc, <- !Z.pow_add_r by lia. do 2 f_equal. lia. }
    rewrite Heq, rhe_exact by lia. apply dquantize_exact; [lia|lia|lia|].
    assert (c' * 10 ^ j * 10 ^ (12 - k) < 10 ^ 64) as Hx.
    { replace 64 with (52 + k + (12 - k)) by lia. rewrite (Z.pow_add_r 10 (52 + k)) by lia.
      apply Zmult_lt_compat_r; lia. }
    rewrite Heq in Hx. nia.
  - unfold dquantize. cbn [d_coef d_exp d_neg].
    assert (c' * 10 ^ j * 10 ^ (12 - k) = c' * 10 ^ (12 - k + j)) as ->.
    { rewrite <- Z.mul_assoc, <- Z.pow_add_r by lia. do 2 f_equal. lia. }
    replace (10 ^ 6) with (10 ^ (-12 - (- k - 6 + j)) * 10 ^ (12 - k + j))
      by (rewrite <- Z.pow_add_r by lia; f_equal; lia).
    rewrite rhe_scale by lia.
    destruct (c' =? 0) eqn:E0; bool_simpl.
    { subst. replace 0 with (0 * 10 ^ (-12 - (- k - 6 + j))) at 2 by lia. rewrite rhe_exact by lia. done. }
    rewrite (proj2 (Z.leb_gt (-12) _)) by lia.
    assert (c' < 10 ^ 64) as Hs by nia.
    assert (ndigits c' <= 64) as Hd by (apply ndigits_le; lia).
    rewrite (proj2 (Z.ltb_ge 64 _)) by lia.
    pose proof (rhe_le c' (10 ^ (-12 - (- k - 6 + j))) ltac:(lia) Hc).
    pose proof (rhe_nonneg c' (10 ^ (-12 - (- k - 6 + j))) ltac:(lia) Hc).
    rewrite (proj2 (Z.ltb_ge 64 _)); [done|]. apply ndigits_le; lia.
Qed.

Lemma token_cost_units tokens price :
  _PRICE_PATTERN price = true -> 0 <= tokens < 10 ^ 34 ->
  token_cost_usd tokens price = Ok (fixed_str (cost_units tokens price) 12) /\ 0 <= cost_units tokens price.
Proof.
  intros Hp Ht. destruct (price_dec price Hp) as (m & k & Hd & Hk & Hm & Hu).
  assert (0 <= cost_units tokens price) as Hnn by (apply rhe_nonneg; nia).
  split; [|done].
  unfold token_cost_usd. rewrite Hd. unfold mbind, result_bind.
  assert (tokens * m < 10 ^ (52 + k)) as Hlt.
  { replace (52 + k) with (34 + (18 + k)) by lia. rewrite Z.pow_add_r by lia. nia. }
  assert (10 ^ (52 + k) <= 10 ^ 64) by (apply Z.pow_le_mono_r; lia).
  unfold dmul, dec_of_Z. cbn [d_neg d_coef d_exp].
  rewrite (proj2 (Z.ltb_ge tokens 0)) by lia. rewrite Z.abs_eq by lia.
  cbn [xorb]. rewrite dfix_small by (simpl; unfold cost_prec; nia).
  change _MILLION with (mkDec false (10 ^ 6) 0).
  destruct (ddiv_pow10 cost_prec false (tokens * m) (0 + - k) 6) as (c' & j & -> & Hcj & Hj);
    [done|lia|unfold cost_prec; nia|].
  replace (0 + - k - 6 + j) with (- k - 6 + j) by lia.
  assert (0 <= c') by nia.
  rewrite quantize_cost by (try rewrite <- Hcj; lia).
  rewrite <- Hcj. unfold cost_units. rewrite Hu, Z.mul_assoc. done.
Qed.

(** C4.  For every price the configuration accepts and every token count
    below [10^34], the cost of the tokens is computed without an error and is
    the exact product over one million, rounded once, half-even, to twelve
    places. *)
Theorem token_cost_exact tokens price :
  _PRICE_PATTERN price = true -> 0 <= tokens < 10 ^ 34 ->
  token_cost_usd tokens price = Ok (fixed_str (cost_units tokens price) 12).
Proof. intros. by apply token_cost_units. Qed.

Lemma token_cost_exact_witness :
  token_cost_usd 1234567 "0.15" = Ok "0.185185050000" /\
  token_cost_usd 1234567 "0.15" = Ok (fixed_str (cost_units 1234567 "0.15") 12).
Proof. split; [by vm_compute|]. apply (token_cost_exact 1234567 "0.15"); [by vm_compute|lia]. Defined.

(** A sum of two costs in the default context. *)
Lemma dadd_costs a b : 0 <= a -> 0 <= b ->
  dadd default_prec (mkDec false a _SCALE) (mkDec false b _SCALE) = dfix default_prec (mkDec false (a + b) _SCALE).
Proof.
  intros. unfold dadd, signed. cbn [d_neg d_coef d_exp].
  replace (_SCALE - Z.min _SCALE _SCALE) with 0 by done. rewrite Z.pow_0_r, !Z.mul_1_r.
  rewrite Z.abs_eq by lia. change (Z.min _SCALE _SCALE) with _SCALE. do 2 f_equal.
  destruct (a + b =? 0); [by rewrite !andb_false_r|]. apply Z.ltb_ge. lia.
Qed.

Lemma quantize_total s : 0 <= s ->
  dquantize default_prec (dfix default_prec (mkDec false s _SCALE)) _SCALE =
  if s <? 10 ^ 28 then Ok (mkDec false s _SCALE) else Err InvalidOperation.
Proof.
  intros Hs. unfold default_prec. destruct (s <? 10 ^ 28) eqn:E; bool_simpl.
  - rewrite dfix_small by (simpl; lia). rewrite dquantize_exact by (rewrite ?Z.sub_diag; simpl; lia).
    by rewrite Z.sub_diag, Z.pow_0_r, Z.mul_1_r.
  - destruct (ndigits_bounds s) as [[Ha Hb] Hn]; [lia|].
    assert (28 < ndigits s) as Hgt.
    { destruct (Z.le_gt_cases (ndigits s) 28) as [Hle|]; [|done]. apply ndigits_le in Hle; lia. }
    unfold dfix. cbn [d_coef d_neg d_exp]. rewrite (proj2 (Z.leb_gt (ndigits s) 28)) by done.
    set (k := ndigits s - 28). assert (1 <= k) as Hk by lia.
    assert (10 ^ ndigits s = 10 ^ 28 * 10 ^ k) as Hsplit by (rewrite <- Z.pow_add_r by lia; f_equal; lia).
    assert (10 ^ (ndigits s - 1) = 10 ^ 27 * 10 ^ k) as Hsplit' by (rewrite <- Z.pow_add_r by lia; f_equal; lia).
    assert (10 ^ 27 <= rhe s (10 ^ k) <= 10 ^ 28) as Hr.
    { rewrite <- (rhe_exact (10 ^ 27) (10 ^ k)), <- (rhe_exact (10 ^ 28) (10 ^ k)) by lia.
      split; apply rhe_mono; try lia; apply Z.mul_le_mono_nonneg_r; lia. }
    destruct (rhe s (10 ^ k) =? 10 ^ 28) eqn:Ec; bool_simpl.
    + unfold dquantize. cbn [d_coef d_exp d_neg]. change (10 ^ (28 - 1) =? 0) with false.
      rewrite ndigits_pow by lia. cbv iota. unfold _SCALE. rewrite (proj2 (Z.ltb_lt 28 _)) by lia. done.
    + unfold dquantize. cbn [d_coef d_exp d_neg]. rewrite (proj2 (Z.eqb_neq _ 0)) by lia.
      destruct (ndigits_bounds (rhe s (10 ^ k))) as [[Hx Hy] Hz]; [lia|].
      assert (28 <= ndigits (rhe s (10 ^ k))) as H28.
      { assert (10 ^ 27 < 10 ^ ndigits (rhe s (10 ^ k))) as Hq by lia. apply Z.pow_lt_mono_r_iff in Hq; lia. }
      unfold _SCALE. rewrite (proj2 (Z.ltb_lt 28 _)) by lia. done.
Qed.

Lemma dec_format_cost v : 0 <= v -> dec_format (mkDec false v _SCALE) = fixed_str v 12.
Proof. done. Qed.

(** The total of a case is the exact sum of its two costs whenever that
    sum has at most 28 digits; from [10^16] USD on, which the accepted prices
    allow, the quantization of the total raises [InvalidOperation], because it
    runs in the default context and not in the 64-digit one of the two costs. *)
Theorem case_costs_total p i o :
  _PRICE_PATTERN (pc_input_usd_per_million_tokens p) = true ->
  _PRICE_PATTERN (pc_output_usd_per_million_tokens p) = true ->
  0 <= i < 10 ^ 34 -> 0 <= o < 10 ^ 34 ->
  let a := cost_units i (pc_input_usd_per_million_tokens p) in
  let b := cost_units o (pc_output_usd_per_million_tokens p) in
  case_costs (Some p) i o =
    if a + b <? 10 ^ 28 then
      Ok (Some (fixed_str a 12), Some (fixed_str b 12), Some (fixed_str (a + b) 12))
    else Err InvalidOperation.
Proof.
  intros Hp Ho Hi Hj a b.
  destruct (token_cost_units i _ Hp Hi) as [Ha Ha0]. destruct (token_cost_units o _ Ho Hj) as [Hb Hb0].
  fold a in Ha, Ha0. fold b in Hb, Hb0. unfold case_costs. rewrite Ha, Hb. unfold mbind, result_bind.
  rewrite !fixed_str_dec by lia. change (- Z.of_nat 12) with _SCALE.
  rewrite dadd_costs, quantize_total by lia.
  destruct (a + b <? 10 ^ 28); [|done]. by rewrite dec_format_cost by lia.
Qed.

Definition sample_pricing : PricingConfig := mkPricing "0.15" "0.60".
Definition dear_pricing : PricingConfig := mkPricing "999999999999999999" "0".

Lemma case_costs_total_witness :
  case_costs (Some sample_pricing) 1000 200 = Ok (Some "0.000150000000", Some "0.000120000000", Some "0.000270000000") /\
  case_costs (Some dear_pricing) 100000 0 = Err InvalidOperation /\
  (if cost_units 1000 "0.15" + cost_units 200 "0.60" <? 10 ^ 28 then true else false) = true.
Proof.
  split; [|split; [by vm_compute|by vm_compute]].
  rewrite (case_costs_total sample_pricing 1000 200); [by vm_compute|by vm_compute|by vm_compute|lia|lia].
Defined.

Lemma sum_decimals_exact s vs :
  0 <= s -> Forall (fun v => 0 <= v) vs -> s + sumZ (fun v => v) vs < 10 ^ 28 ->
  sum_decimals (mkDec false s _SCALE) ((fun v => Some (fixed_str v 12)) <$> vs) =
    Ok (mkDec false (s + sumZ (fun v => v) vs) _SCALE).
Proof.
  revert s. induction vs as [|v vs IH]; intros s Hs Hv Hlt; simpl in *; [do 2 f_equal; lia|].
  inversion Hv; subst. unfold mbind, result_bind. rewrite fixed_str_dec by lia.
  assert (0 <= sumZ (fun v => v) vs) by (apply sumZ_nonneg; intros x Hx; by eapply Forall_forall in Hx).
  change (- Z.of_nat 12) with _SCALE.
  rewrite dadd_costs, dfix_small by (simpl; unfold default_prec; lia).
  rewrite IH by (done || lia). do 2 f_equal. lia.
Qed.

Lemma sum_costs_none values : None ∈ values -> sum_costs values = Ok None.
Proof.
  intros Hin. unfold sum_costs. rewrite (proj2 (existsb_exists _ _)); [done|].
  exists None. split; [by apply list_elem_of_In|done].
Qed.

Lemma sum_costs_units units :
  sumZ (fun v => v) units < 10 ^ 28 -> Forall (fun v => 0 <= v) units -> units <> [] ->
  sum_costs ((fun v => Some (fixed_str v 12)) <$> units) = Ok (Some (fixed_str (sumZ (fun v => v) units) 12)).
Proof.
  intros Hlt Hnn Hne. unfold sum_costs.
  assert (existsb (fun v => negb (is_some v)) ((fun v => Some (fixed_str v 12)) <$> units) = false) as ->.
  { clear. by induction units. }
  destruct units as [|u units]; [done|]. inversion Hnn; subst. simpl fmap. cbn [sum_decimals].
  unfold mbind, result_bind. rewrite fixed_str_dec by lia. change (- Z.of_nat 12) with _SCALE.
  assert (0 <= sumZ (fun v => v) units) by (apply sumZ_nonneg; intros x Hx; by eapply Forall_forall in Hx).
  assert (dadd default_prec (dec_of_Z 0) (mkDec false u _SCALE) = mkDec false u _SCALE) as ->.
  { transitivity (dadd default_prec (mkDec false 0 _SCALE) (mkDec false u _SCALE)); [done|].
    rewrite dadd_costs by lia. simpl in Hlt. apply dfix_small; simpl; unfold default_prec; lia. }
  rewrite sum_decimals_exact by (done || lia). by rewrite dec_format_cost by (simpl in *; lia).
Qed.

(** Costs whose sum is exact: one of them is unknown, or they are costs of
    twelve places that sum to at most 28 digits. *)
Definition exact_costs (values : list (option string)) : Prop :=
  None ∈ values \/
  exists units, values = (fun v => Some (fixed_str v 12)) <$> units /\
    Forall (fun v => 0 <= v) units /\ sumZ (fun v => v) units < 10 ^ 28.

(** The order of the results does not change an exact sum. *)
Lemma sum_costs_perm l1 l2 : l1 ≡ₚ l2 -> exact_costs l1 -> sum_costs l1 = sum_costs l2.
Proof.
  intros Hp [Hn|(units & -> & Hnn & Hlt)].
  - rewrite !sum_costs_none; [done| |done]. by rewrite <- Hp.
  - symmetry in Hp. destruct (Permutation_map_inv _ _ Hp) as (u2 & -> & Hu).
    change (map ?f ?l) with (f <$> l).
    destruct units as [|u units]; [by apply Permutation_nil in Hu as ->|].
    rewrite !sum_costs_units; try done.
    + by rewrite (sumZ_perm _ _ _ Hu).
    + by rewrite <- (sumZ_perm _ _ _ Hu).
    + by rewrite <- Hu.
    + intros ->. by apply Permutation_sym, Permutation_nil in Hu.
Qed.

(** The cost of a run is unknown as soon as one case's cost is, and is
    otherwise the exact sum of the cases' costs while that sum has at most 28
    digits. *)
Theorem sum_costs_exact (values : list (option string)) (units : list Z) :
  sumZ (fun v => v) units < 10 ^ 28 -> Forall (fun v => 0 <= v) units ->
  (None ∈ values -> sum_costs values = Ok None) /\
  (values = (fun v => Some (fixed_str v 12)) <$> units -> units <> [] ->
   sum_costs values = Ok (Some (fixed_str (sumZ (fun v => v) units) 12))).
Proof. intros Hlt Hnn. split; [apply sum_costs_none|]. intros -> Hne. by apply sum_costs_units. Qed.

Lemma sum_costs_exact_witness :
  sum_costs [Some "0.000270000000"; Some "1.500000000000"] = Ok (Some "1.500270000000").
Proof.
  rewrite (proj2 (sum_costs_exact [Some "0.000270000000"; Some "1.500000000000"] [270000000; 1500000000000]
    ltac:(by vm_compute) ltac:(repeat constructor; lia))); by vm_compute.
Defined.

(** Above 28 digits the sum of the run silently loses digits. *)
Theorem sum_costs_rounds :
  sum_costs [Some "9999999999999999.000000000001"; Some "9999999999999999.000000000001"] =
    Ok (Some "19999999999999998.00000000000").
Proof. by vm_compute. Qed.
End Pricing.
