(* ===== verification/Runner.v ===== *)
(** * One case of a run ([runner.py])

    [_invoke_attempt], [_execute_permitted_case] and [_execute_case] with the
    accounting helpers of the module, as task code over an arbitrary
    environment.  The worker pool is in [Pool.v], the run summary in
    [Summary.v]. *)
From S2P Require Import Prelude PyFloat PyStr PyVal PyJson PyDecimal Models Retry.
From S2P Require Import Circuit Effects Telemetry Lifecycle Faults Interfaces Pricing.
Import PyFloat PyStr PyVal PyJson Retry Circuit Telemetry Lifecycle Faults Pricing.

Module Runner.

(** ** Provider metadata of an attempt *)

Definition _provider_token (value : val) : string :=
  match value with
  | VStr s =>
      if String.eqb s "" || (32 <? pylen s) then ""
      else if negb (all_chars is_token_char s) then "" else s
  | _ => ""
  end.

Definition _last_rate_limit_code (metadata : dict) : string :=
  match get_none metadata "agentstorm.provider.rate_limit_codes" with
  | VList codes =>
      foldl (fun last code =>
        let token := _provider_token code in if String.eqb token "" then last else token) "" codes
  | _ => ""
  end.

Definition _attempt_provider_code (metadata : option dict) : string :=
  match metadata with
  | None | Some [] => ""
  | Some m =>
      let terminal := _provider_token (get_none m "agentstorm.provider.error_code") in
      if negb (String.eqb terminal "") then terminal else _last_rate_limit_code m
  end.

Definition _rate_limit_events (metadata : option dict) : Z :=
  match metadata with
  | None | Some [] => 0
  | Some m =>
      match get_or m "agentstorm.provider.rate_limit_events" (VInt 0) with
      | VInt z => if z <? 0 then 0 else z
      | _ => 0
      end
  end.

(** ** Accounting over attempts *)

Definition _attempt_usage (attempts : list AttemptResult) : Z * Z * bool :=
  (sumZ (fun a => or0 (at_input_tokens a)) attempts,
   sumZ (fun a => or0 (at_output_tokens a)) attempts,
   forallb at_usage_complete attempts).

Definition _attempt_calls (attempts : list AttemptResult) : option Z * Z :=
  (if forallb (fun a => is_some (at_model_call_count a)) attempts
   then Some (sumZ (fun a => or0 (at_model_call_count a)) attempts) else None,
   sumZ at_tool_call_count attempts).

Definition _case_provider_fields (attempts : list AttemptResult) : string * Z :=
  (foldl (fun code a => if String.eqb (at_provider_error_code a) "" then code else at_provider_error_code a)
     "" attempts,
   sumZ at_rate_limit_events attempts).

Definition _costs_for_usage (config : RunConfig) (input_tokens output_tokens : Z) (usage_complete : bool) :
    pyres (option string * option string * option string) :=
  if negb usage_complete then Ok (None, None, None)
  else case_costs (tg_pricing (rc_target config)) input_tokens output_tokens.

Definition _failed_result (config : RunConfig) (case : TestCase) (iteration : Z) (error : ExecutionError)
    (attempts : list AttemptResult) (tool_path : list string) (latency_ms : float) : pyres CaseResult :=
  let '(input_tokens, output_tokens, usage_complete) := _attempt_usage attempts in
  let '(model_call_count, tool_call_count) := _attempt_calls attempts in
  '(input_cost, output_cost, total_cost) ← _costs_for_usage config input_tokens output_tokens usage_complete;
  let '(provider_error_code, in_call_retry_count) := _case_provider_fields attempts in
  Ok {| cr_case_id := tc_case_id case; cr_iteration := iteration; cr_success := false;
        cr_latency_ms := latency_ms; cr_failure_kind := ee_failure_kind error;
        cr_failure_category := ee_category error; cr_error_code := ee_code error;
        cr_attempts := attempts; cr_usage_complete := usage_complete; cr_output := "";
        cr_error := Some (error_str error); cr_input_tokens := Some input_tokens;
        cr_output_tokens := Some output_tokens; cr_model_call_count := model_call_count;
        cr_tool_call_count := tool_call_count; cr_tool_path := tool_path; cr_assertions := [];
        cr_input_cost_usd := input_cost; cr_output_cost_usd := output_cost; cr_cost_usd := total_cost;
        cr_provider_error_code := provider_error_code; cr_in_call_retry_count := in_call_retry_count |}.

(** The result of a case whose provider sequence succeeded and whose
    assertions were evaluated (the end of [_execute_permitted_case]). *)
Definition evaluated_result (config : RunConfig) (case : TestCase) (iteration : Z) (response : AdapterResponse)
    (outcomes : list AssertionOutcome) (attempts : list AttemptResult) (tool_path : list string)
    (latency_ms : float) : pyres CaseResult :=
  let success := forallb ao_passed outcomes in
  let '(input_tokens, output_tokens, usage_complete) := _attempt_usage attempts in
  let '(model_call_count, tool_call_count) := _attempt_calls attempts in
  '(input_cost, output_cost, total_cost) ← _costs_for_usage config input_tokens output_tokens usage_complete;
  let failed_types := ao_type <$> List.filter (fun o => negb (ao_passed o)) outcomes in
  let '(provider_error_code, in_call_retry_count) := _case_provider_fields attempts in
  Ok {| cr_case_id := tc_case_id case; cr_iteration := iteration; cr_success := success;
        cr_latency_ms := latency_ms;
        cr_failure_kind := if success then "" else "assertion";
        cr_failure_category := if success then "" else "evaluation";
        cr_error_code := if success then "" else "assertion_failed";
        cr_attempts := attempts; cr_usage_complete := usage_complete; cr_output := ar_output response;
        cr_error := if success then None else Some ("failed assertions: " +:+ join ", " failed_types);
        cr_input_tokens := Some input_tokens;
        cr_output_tokens := Some output_tokens; cr_model_call_count := model_call_count;
        cr_tool_call_count := tool_call_count; cr_tool_path := tool_path; cr_assertions := outcomes;
        cr_input_cost_usd := input_cost; cr_output_cost_usd := output_cost; cr_cost_usd := total_cost;
        cr_provider_error_code := provider_error_code; cr_in_call_retry_count := in_call_retry_count |}.

Definition add_circuit_events (a : AttemptResult) (events : list string) : AttemptResult :=
  mkAttempt (at_number a) (at_latency_ms a) (at_outcome a) (at_failure_category a) (at_error_code a)
    (at_injected_rule a) (at_injected_fault a) (at_ambiguous a) (at_retry_decision a) (at_backoff_ms a)
    (at_input_tokens a) (at_output_tokens a) (at_usage_complete a) (at_model_call_count a)
    (at_tool_call_count a) (at_circuit_events a ++ events) (at_provider_error_code a)
    (at_rate_limit_events a) (at_finish_reason a).

Definition set_decision (a : AttemptResult) (decision : string) (backoff_ms : Z) : AttemptResult :=
  mkAttempt (at_number a) (at_latency_ms a) (at_outcome a) (at_failure_category a) (at_error_code a)
    (at_injected_rule a) (at_injected_fault a) (at_ambiguous a) decision backoff_ms
    (at_input_tokens a) (at_output_tokens a) (at_usage_complete a) (at_model_call_count a)
    (at_tool_call_count a) (at_circuit_events a) (at_provider_error_code a)
    (at_rate_limit_events a) (at_finish_reason a).

(** [attempts[-1].circuit_events.extend(events)] *)
Fixpoint extend_last (attempts : list AttemptResult) (events : list string) : list AttemptResult :=
  match attempts with
  | [] => []
  | [a] => [add_circuit_events a events]
  | a :: rest => a :: extend_last rest events
  end.

(** The attempt rejected by an open breaker. *)
Definition rejected_attempt (e : ExecutionError) : AttemptResult :=
  mkAttempt 1 (Fin 0) "rejected" (ee_category e) (ee_code e) "" "" false "not_retryable" 0
    (Some 0) (Some 0) true (Some 0) 0 (ee_circuit_events e) "" 0 "".

Definition opt_int (name : string) (v : option Z) (set : string -> val -> M unit) : M unit :=
  match v with Some z => set name (VInt z) | None => mret tt end.

Section Runner.
Context {env : Env} (re_sub : string -> string -> string) (container_repr : val -> string).
Context (agents_installed openai_installed : bool).
Context (config : RunConfig) (adapter : AgentAdapter) (limiter : option Limiter) {evaluators : Evaluators}.

Abbreviation tele := (rc_telemetry config).
Abbreviation policy := (policy_of re_sub tele).

Definition scenario : option FaultScenarioConfig := rc_reliability config ≫= rl_scenario.
Definition seed : option Z := rc_reliability config ≫= rl_seed.
Definition retry : option RetryConfig := rl_retry <$> rc_reliability config.

(** ** _invoke_attempt *)

(** The record of an attempt from the provider's answer. *)
Definition attempt_of (attempt_number : Z) (latency_ms : float) (response : option AdapterResponse)
    (execution_error : option ExecutionError) (tool_path : list string) : AttemptResult :=
  let usage_complete :=
    match execution_error, response with
    | Some e, _ => ee_usage_complete e
    | None, Some r => is_some (ar_input_tokens r) && is_some (ar_output_tokens r)
    | None, None => false
    end in
  let zero_if_known := if usage_complete then Some 0 else None in
  let injected key (of_error : ExecutionError -> string) :=
    match execution_error, response with
    | Some e, _ => of_error e
    | None, Some r => py_str container_repr (get_or (ar_metadata r) key (VStr ""))
    | None, None => ""
    end in
  let injected_fault := injected "agentstorm.injected_fault" ee_injected_fault in
  let metadata := ar_metadata <$> response in
  {| at_number := attempt_number; at_latency_ms := latency_ms;
     at_outcome := if execution_error then "failed" else "succeeded";
     at_failure_category := from_option ee_category "" execution_error;
     at_error_code := from_option ee_code "" execution_error;
     at_injected_rule := injected "agentstorm.injected_rule" ee_injected_rule;
     at_injected_fault := injected_fault;
     at_ambiguous := from_option ee_ambiguous false execution_error;
     at_retry_decision := "not_needed"; at_backoff_ms := 0;
     at_input_tokens := match response with Some r => ar_input_tokens r | None => zero_if_known end;
     at_output_tokens := match response with Some r => ar_output_tokens r | None => zero_if_known end;
     at_usage_complete := usage_complete;
     at_model_call_count :=
       match response with
       | Some r => ar_model_call_count r
       | None => if mem_str injected_fault ["timeout"; "rate_limit"; "http_error"] then Some 0 else None
       end;
     at_tool_call_count :=
       match tool_path with
       | [] => match response with Some r => or0 (ar_tool_call_count r) | None => 0 end
       | _ => Z.of_nat (length tool_path)
       end;
     at_circuit_events := from_option ee_circuit_events [] execution_error;
     at_provider_error_code := _attempt_provider_code metadata;
     at_rate_limit_events := _rate_limit_events metadata;
     at_finish_reason :=
       _provider_token (from_option (fun m => get_none m "agentstorm.provider.finish_reason") VNone metadata) |}.
Abbreviation classify := (classify_adapter_exception agents_installed openai_installed).

(** The provider call of one attempt, under the limiter when there is one. *)
Definition provider_call (lifecycle : AgentLifecycle) (case : TestCase) (iteration attempt_number : Z)
    (remaining_seconds deadline : float) : M AdapterResponse :=
  if fle remaining_seconds (Fin 0) then
    raise (EExec (exec_error "provider" "timeout" "timeout" true false))
  else
    let call := run adapter scenario seed case iteration attempt_number (Some lifecycle) in
    match limiter with
    | None => wait_for call remaining_seconds
    | Some l =>
        limiter_permit (Limiter := l) (tc_case_id case) iteration attempt_number deadline
          (now ← perf_counter; wait_for call (fmax (Fin 0) (fsub deadline now)))
    end.

Definition provider_attributes (attempt_number : Z) : dict :=
  [("gen_ai.operation.name", VStr "invoke_agent");
   ("gen_ai.provider.name", VStr (tg_provider (rc_target config)));
   ("agentstorm.attempt.number", VInt attempt_number)]
  ++ (if String.eqb (tg_model (rc_target config)) "" then []
      else [("gen_ai.request.model", VStr (tg_model (rc_target config)))]).

(** The [except] clauses around the provider call. *)
Definition provider_handler (span : nat) (exc : exn) :
    M (option AdapterResponse * option ExecutionError * string) :=
  match exc with
  | ECancelled => case_close "cancelled";; span_set_error span "cancelled";; raise ECancelled
  | _ =>
      let error := classify exc in
      span_set_error span (exn_name exc);;
      span_set_attribute policy span "agentstorm.failure.category" (VStr (ee_category error));;
      span_set_attribute policy span "agentstorm.error.code" (VStr (ee_code error));;
      mret (ee_response error, Some error, exn_name exc)
  end.

Definition _invoke_attempt (case : TestCase) (iteration attempt_number : Z)
    (remaining_seconds deadline : float) :
    M (option AdapterResponse * option ExecutionError * AttemptResult * list string) :=
  lifecycle ← new_lifecycle re_sub tele;
  '(response, execution_error, latency_ms) ←
    with_span policy "gen_ai.invoke_agent" (provider_attributes attempt_number) (fun span =>
      provider_started ← perf_counter;
      '(response, execution_error, provider_error_type) ←
        try_with
          (r ← provider_call lifecycle case iteration attempt_number remaining_seconds deadline;
           mret (Some r, None, ""))
          (fun exc => Some (provider_handler span exc));
      finished ← perf_counter;
      case_close (if execution_error then provider_error_type else "incomplete_tool_call");;
      opt_int "gen_ai.usage.input_tokens" (response ≫= ar_input_tokens) (span_set_attribute policy span);;
      opt_int "gen_ai.usage.output_tokens" (response ≫= ar_output_tokens) (span_set_attribute policy span);;
      match execution_error, response, sanitizer_of tele with
      | None, Some r, Some cs =>
          span_set_attribute policy span "agentstorm.content.output" (VStr (sanitize_string re_sub cs (ar_output r)))
      | _, _, _ => mret tt
      end;;
      mret (response, execution_error, fmul (fsub finished provider_started) (of_Z 1000)));
  tool_path ← get_state w_tool_path;
  mret (response, execution_error,
        attempt_of attempt_number latency_ms response execution_error tool_path, tool_path).

(** ** _execute_permitted_case *)

Definition retrying (decision : string) : bool := startswith "retry_" decision.

(** The decision before the budgets are looked at. *)
Definition base_decision (error : ExecutionError) (permit : CircuitPermit) (attempt_number : Z) : string :=
  match retry with
  | None => "not_retryable"
  | Some r =>
      let d := retry_eligibility error r in
      let d := if retrying d && cp_probe permit then "half_open_no_retry" else d in
      if retrying d && (rt_max_attempts r <=? attempt_number) then "attempt_limit" else d
  end.

Definition decide_retry (error : ExecutionError) (permit : CircuitPermit) (case : TestCase)
    (iteration attempt_number cumulative_backoff_ms : Z) (deadline : float) : M (string * Z) :=
  let decision := base_decision error permit attempt_number in
  match retry with
  | Some r =>
      if retrying decision then
        backoff_ms ← lift (retry_backoff_ms r seed (tc_case_id case) iteration attempt_number);
        if rt_max_cumulative_backoff_ms r <? cumulative_backoff_ms + backoff_ms then mret ("backoff_budget", 0)
        else
          now ← perf_counter;
          if fle (fmax (Fin 0) (fsub deadline now)) (of_ratio backoff_ms 1000) then mret ("time_budget", 0)
          else mret (decision, backoff_ms)
      else mret (decision, 0)
  | None => mret (decision, 0)
  end.

Definition case_attrs (case : TestCase) (iteration attempt_number : Z) : dict :=
  [("agentstorm.case.id", VStr (tc_case_id case)); ("agentstorm.case.iteration", VInt iteration);
   ("agentstorm.attempt.number", VInt attempt_number)].

Definition attempt_span_attributes (span : nat) (attempt : AttemptResult)
    (execution_error : option ExecutionError) : M unit :=
  let set := span_set_attribute policy span in
  set "agentstorm.attempt.outcome" (VStr (at_outcome attempt));;
  set "agentstorm.retry.decision" (VStr (at_retry_decision attempt));;
  set "agentstorm.retry.backoff_ms" (VInt (at_backoff_ms attempt));;
  set "agentstorm.attempt.ambiguous" (VBool (at_ambiguous attempt));;
  opt_int "agentstorm.agent.model_call_count" (at_model_call_count attempt) set;;
  set "agentstorm.agent.tool_call_count" (VInt (at_tool_call_count attempt));;
  (if String.eqb (at_injected_fault attempt) "" then mret tt
   else set "agentstorm.fault.type" (VStr (at_injected_fault attempt)));;
  match execution_error with Some e => span_set_error span (ee_code e) | None => mret tt end.

(** One pass of the loop up to the end of the attempt span. *)
Definition one_attempt (case : TestCase) (iteration : Z) (permit : CircuitPermit) (deadline : float)
    (cumulative_backoff_ms attempt_number : Z) :
    M (option AdapterResponse * option ExecutionError * AttemptResult * list string) :=
  now ← perf_counter;
  let remaining := fmax (Fin 0) (fsub deadline now) in
  with_span policy "agentstorm.attempt" (case_attrs case iteration attempt_number) (fun span =>
    '(response, execution_error, attempt, attempt_tools) ←
      _invoke_attempt case iteration attempt_number remaining deadline;
    let attempt := if attempt_number =? 1 then add_circuit_events attempt (cp_events permit) else attempt in
    '(decision, backoff_ms) ←
      match execution_error with
      | None => mret ("not_needed", at_backoff_ms attempt)
      | Some e => decide_retry e permit case iteration attempt_number cumulative_backoff_ms deadline
      end;
    let attempt := set_decision attempt decision backoff_ms in
    attempt_span_attributes span attempt execution_error;;
    mret (response, execution_error, attempt, attempt_tools)).

(** The wait between two attempts: a stop request ends the case. *)
Definition backoff_wait (case : TestCase) (iteration attempt_number : Z) (attempt : AttemptResult) : M unit :=
  with_span policy "agentstorm.retry"
    (case_attrs case iteration attempt_number ++
     [("agentstorm.retry.decision", VStr (at_retry_decision attempt));
      ("agentstorm.retry.backoff_ms", VInt (at_backoff_ms attempt))])
    (fun _ => try_with (wait_stop (of_ratio (at_backoff_ms attempt) 1000);; raise ECancelled)
                (fun e => match e with ETimeout => Some (mret tt) | _ => None end)).

Record loop_end := mkEnd {
  le_response : option AdapterResponse;
  le_error : option ExecutionError;
  le_attempts : list AttemptResult;
  le_tool_path : list string
}.

(** [while True], with the attempts made so far; one unit of fuel per pass. *)
Fixpoint attempt_loop (fuel : nat) (case : TestCase) (iteration : Z) (permit : CircuitPermit) (deadline : float)
    (attempts : list AttemptResult) (cumulative_backoff_ms attempt_number : Z) : M loop_end :=
  match fuel with
  | O => diverge
  | S fuel' =>
      stopped ← stop_is_set;
      if stopped : bool then raise ECancelled
      else
        '(response, execution_error, attempt, attempt_tools) ←
          one_attempt case iteration permit deadline cumulative_backoff_ms attempt_number;
        let attempts := attempts ++ [attempt] in
        if negb (is_some execution_error) || negb (retrying (at_retry_decision attempt)) then
          mret (mkEnd response execution_error attempts attempt_tools)
        else
          stopped ← stop_is_set;
          if stopped : bool then raise ECancelled
          else
            backoff_wait case iteration attempt_number attempt;;
            attempt_loop fuel' case iteration permit deadline attempts
              (cumulative_backoff_ms + at_backoff_ms attempt) (attempt_number + 1)
  end.

(** A case makes at most [max_attempts] passes, one without a retry policy. *)
Definition attempt_fuel : nat :=
  match retry with Some r => Z.to_nat (Z.max 1 (rt_max_attempts r)) | None => 1 end.

Fixpoint _trace_circuit_events (events : list string) : M unit :=
  match events with
  | [] => mret tt
  | event :: events' =>
      with_span policy "agentstorm.circuit"
        [("gen_ai.provider.name", VStr (tg_provider (rc_target config)));
         ("agentstorm.circuit.event", VStr event)] (fun _ => mret tt);;
      _trace_circuit_events events'
  end.

Definition trace_outcome (o : AssertionOutcome) : M unit :=
  with_span policy "agentstorm.evaluate"
    [("gen_ai.evaluation.name", VStr (ao_type o)); ("agentstorm.evaluation.index", VInt (ao_index o));
     ("agentstorm.evaluation.deterministic", VBool true);
     ("gen_ai.evaluation.score.label", VStr (if ao_passed o then "pass" else "fail"))]
    (fun span => if negb (ao_passed o) then span_set_error span "assertion" else mret tt).

Fixpoint trace_outcomes (outcomes : list AssertionOutcome) : M unit :=
  match outcomes with [] => mret tt | o :: rest => trace_outcome o;; trace_outcomes rest end.

Definition no_assertion_span : M unit :=
  with_span policy "agentstorm.evaluate"
    [("gen_ai.evaluation.name", VStr "none"); ("agentstorm.evaluation.index", VInt 0);
     ("agentstorm.evaluation.deterministic", VBool true); ("gen_ai.evaluation.score.label", VStr "pass")]
    (fun _ => mret tt).

(** One operation on the shared breaker, under its lock. *)
Definition with_circuit {A} (op : CircuitBreaker -> CircuitBreaker * A) : M A := fun w =>
  let '(c', a) := op (w_circuit w) in (Ret a, set_circuit c' w).

Definition record_circuit (permit : CircuitPermit) (ok : bool) (category : string) : M (list string) :=
  now ← perf_counter; with_circuit (fun c => record_terminal c permit ok category now).

Definition acquire_circuit : M (result ExecutionError CircuitPermit) :=
  now ← perf_counter; with_circuit (fun c => acquire c now).

Definition evaluation_context (case : TestCase) (response : AdapterResponse) (latency_ms : float)
    (tool_path : list string) : EvaluationContext :=
  mkContext (tc_case_id case) (tc_prompt case) (ar_output response) latency_ms tool_path
    (dict_update (tc_metadata case)
       (List.filter (fun kv => startswith "agentstorm." kv.1) (ar_metadata response))).

(** What follows the loop. *)
Definition finish_case (case : TestCase) (iteration : Z) (permit : CircuitPermit) (case_started : float)
    (e : loop_end) : M CaseResult :=
  let provider_succeeded := negb (is_some (le_error e)) && is_some (le_response e) in
  circuit_events ← record_circuit permit provider_succeeded (from_option ee_category "" (le_error e));
  let attempts := match circuit_events with [] => le_attempts e | _ => extend_last (le_attempts e) circuit_events end in
  _trace_circuit_events circuit_events;;
  now ← perf_counter;
  let latency_ms := fmul (fsub now case_started) (of_Z 1000) in
  match le_error e with
  | Some error => lift (_failed_result config case iteration error attempts (le_tool_path e) latency_ms)
  | None =>
      match le_response e with
      | None => raise (EPy AssertionError)
      | Some response =>
          let final_provider_latency_ms := from_option at_latency_ms (Fin 0) (last attempts) in
          evaluated ←
            try_with
              (outcomes ← evaluate case
                 (evaluation_context case response final_provider_latency_ms (le_tool_path e));
               mret (Some outcomes))
              (fun exc => if is_exception exc then Some (mret None) else None);
          match evaluated with
          | None =>
              lift (_failed_result config case iteration
                      (exec_error "harness" "evaluator_failure" "harness" false false)
                      attempts (le_tool_path e) latency_ms)
          | Some outcomes =>
              match outcomes with [] => no_assertion_span | _ => mret tt end;;
              trace_outcomes outcomes;;
              lift (evaluated_result config case iteration response outcomes attempts (le_tool_path e) latency_ms)
          end
      end
  end.

Definition _execute_permitted_case (case : TestCase) (iteration : Z) (permit : CircuitPermit)
    (case_started : float) : M CaseResult :=
  let deadline := fadd case_started (of_Z (wl_timeout_seconds (rc_workload config))) in
  _trace_circuit_events (cp_events permit);;
  e ← attempt_loop attempt_fuel case iteration permit deadline [] 0 1;
  finish_case case iteration permit case_started e.

(** ** _execute_case *)

Definition metadata_attribute (cs : ContentSanitizer) (case : TestCase) (attrs : dict) (key : string) : dict :=
  match dict_get (tc_metadata case) key with
  | None => attrs
  | Some v =>
      if _sensitive_key key then attrs
      else match sanitize_content re_sub cs v with
           | Some s => dict_set attrs ("agentstorm.case.metadata." +:+ key) (VStr s)
           | None => attrs
           end
  end.

Definition case_attributes (case : TestCase) (iteration : Z) : dict :=
  let base := [("agentstorm.run.id", VStr (rc_run_id config)); ("agentstorm.case.id", VStr (tc_case_id case));
               ("agentstorm.case.iteration", VInt iteration)] in
  match sanitizer_of tele with
  | None => base
  | Some cs =>
      foldl (metadata_attribute cs case)
        (dict_set base "agentstorm.content.prompt" (VStr (sanitize_string re_sub cs (tc_prompt case))))
        (td_metadata_keys (tm_redaction tele))
  end.

Definition or_text (s dflt : string) : string := if String.eqb s "" then dflt else s.

Definition case_span_attributes (span : nat) (r : CaseResult) : M unit :=
  let set := span_set_attribute policy span in
  set "agentstorm.case.success" (VBool (cr_success r));;
  set "agentstorm.case.failure_kind" (VStr (or_text (cr_failure_kind r) "none"));;
  (if negb (cr_success r) then
     span_set_error span (or_text (cr_failure_kind r) "failure");;
     set "agentstorm.case.failure_category" (VStr (cr_failure_category r));;
     set "agentstorm.case.error_code" (VStr (cr_error_code r))
   else mret tt);;
  opt_int "gen_ai.usage.input_tokens" (cr_input_tokens r) set;;
  opt_int "gen_ai.usage.output_tokens" (cr_output_tokens r) set;;
  opt_int "agentstorm.agent.model_call_count" (cr_model_call_count r) set;;
  set "agentstorm.agent.tool_call_count" (VInt (cr_tool_call_count r)).

(** The case an open breaker rejects. *)
Definition rejected_case (case : TestCase) (iteration : Z) (error : ExecutionError) (case_started : float) :
    M CaseResult :=
  _trace_circuit_events (ee_circuit_events error);;
  now ← perf_counter;
  lift (_failed_result config case iteration error [rejected_attempt error] []
          (fmul (fsub now case_started) (of_Z 1000))).

Definition _execute_case (case : TestCase) (iteration : Z) : M CaseResult :=
  case_started ← perf_counter;
  with_span policy "agentstorm.case" (case_attributes case iteration) (fun case_span =>
    permit ← acquire_circuit;
    result ← match permit with
             | Err circuit_error => rejected_case case iteration circuit_error case_started
             | Ok p => _execute_permitted_case case iteration p case_started
             end;
    case_span_attributes case_span result;;
    mret result).
(** ** Every part of a case ends *)

(** The limiter, when there is one, gives up by the deadline of the case. *)
Definition limiter_ready (deadline : float) : Prop :=
  match limiter with Some l => clock_reaches (limiter_horizon (Limiter := l)) deadline | None => True end.

Lemma lifecycle_is_total :
  lifecycle_total (mkLifecycle (case_tool_started re_sub tele) (case_tool_finished re_sub tele)
                     (case_handed_off re_sub tele)).
Proof. apply case_lifecycle_total. Qed.

Lemma provider_call_total lc case it n rem dl :
  limiter_ready dl -> lifecycle_total lc -> total (provider_call lc case it n rem dl).
Proof.
  intros Hl Hlc. unfold provider_call, limiter_ready in *. destruct (fle rem (Fin 0)); [done|].
  assert (total (run adapter scenario seed case it n (Some lc))) as Hr.
  { apply run_total. by intros l [= <-]. }
  destruct limiter as [l|]; [|by apply total_wait_for].
  apply permit_total; [done|]. auto with effects.
Qed.

Lemma provider_handler_total span exc : total (provider_handler span exc).
Proof.
  unfold provider_handler. destruct exc; try done.
  apply total_bind; [apply case_close_total|done].
Qed.

Lemma opt_int_total name v (set : string -> val -> M unit) :
  (forall n x, total (set n x)) -> total (opt_int name v set).
Proof. intros H. by destruct v; simpl. Qed.

Lemma invoke_attempt_total case it n rem dl : limiter_ready dl -> total (_invoke_attempt case it n rem dl).
Proof.
  intros Hl. unfold _invoke_attempt.
  eapply total_bind_post with (P := lifecycle_total); [done| |intros lc Hlc].
  { apply post_seq. intros _. apply post_ret, lifecycle_is_total. }
  apply total_bind; [apply total_with_span; intros span|by intros [[??]?]].
  apply total_bind; [done|intros started].
  apply total_bind; [apply total_try|intros [[resp err] et]].
  - apply total_bind; [by apply provider_call_total|done].
  - intros e k [= <-]. apply provider_handler_total.
  - apply total_bind; [done|intros fin]. apply total_bind; [apply case_close_total|intros _].
    apply total_bind; [by apply opt_int_total|intros _]. apply total_bind; [by apply opt_int_total|intros _].
    apply total_bind; [by destruct err, resp, (sanitizer_of tele)|done].
Qed.

Lemma decide_total e p case it n cum dl : total (decide_retry e p case it n cum dl).
Proof.
  unfold decide_retry. destruct retry; [|done]. apply total_if; [|done].
  apply total_bind; [apply total_lift|intros b]. apply total_if; [done|].
  apply total_bind; [done|intros]. by apply total_if.
Qed.

Lemma attempt_span_total span a e : total (attempt_span_attributes span a e).
Proof.
  unfold attempt_span_attributes. repeat (apply total_bind; [done|intros _]).
  apply total_bind; [by apply opt_int_total|intros _]. apply total_bind; [done|intros _].
  apply total_bind; [by destruct (String.eqb _ _)|intros _]. by destruct e.
Qed.

Lemma one_attempt_total case it p dl cum n : limiter_ready dl -> total (one_attempt case it p dl cum n).
Proof.
  intros Hl. apply total_bind; [done|intros now]. apply total_with_span. intros span.
  apply total_bind; [by apply invoke_attempt_total|intros [[[resp err] a] tools]].
  apply total_bind; [destruct err; [apply decide_total|done]|intros [d b]].
  apply total_bind; [apply attempt_span_total|done].
Qed.

Lemma backoff_wait_total case it n a : total (backoff_wait case it n a).
Proof.
  apply total_with_span. intros _. apply total_try; [|by intros [] k H; simplify_eq].
  apply total_bind; [apply total_wait_stop|done].
Qed.

Lemma trace_events_total events : total (_trace_circuit_events events).
Proof. induction events as [|e es IH]; [done|]. apply total_bind; [by apply total_with_span|done]. Qed.

Lemma trace_outcomes_total os : total (trace_outcomes os).
Proof.
  induction os as [|o os IH]; [done|]. apply total_bind; [|done].
  apply total_with_span. intros id. by apply total_if.
Qed.

Lemma with_circuit_total {A} (op : CircuitBreaker -> CircuitBreaker * A) : total (with_circuit op).
Proof. intros w. unfold with_circuit. by destruct (op _). Qed.

Lemma finish_total case it p t0 e : total (finish_case case it p t0 e).
Proof.
  apply total_bind; [apply total_bind; [done|intros; apply with_circuit_total]|intros events].
  apply total_bind; [apply trace_events_total|intros _]. apply total_bind; [done|intros now].
  destruct (le_error e); [apply total_lift|]. destruct (le_response e) as [r|]; [|done].
  apply total_bind; [apply total_try|].
  - apply total_bind; [apply evaluate_total|done].
  - intros exc k. destruct (is_exception exc); [|done]. by intros [= <-].
  - intros [os|]; [|apply total_lift]. apply total_bind; [by destruct os|intros _].
    apply total_bind; [apply trace_outcomes_total|intros _]. apply total_lift.
Qed.
(** ** What one attempt records *)

Lemma invoke_post case it n rem dl :
  post (_invoke_attempt case it n rem dl) (fun '(resp, err, a, tools) =>
    exists l, a = attempt_of n l resp err tools /\ (err = None -> is_Some resp)).
Proof.
  unfold _invoke_attempt. apply post_seq. intros lc.
  eapply (post_bind _ _ (fun '(resp, err, _) => err = None -> is_Some resp)).
  - apply post_with_span. intros span. apply post_seq. intros t0.
    eapply (post_bind _ _ (fun '(resp, err, _) => err = None -> is_Some resp)).
    + apply post_try.
      * apply post_seq. intros r. apply post_ret. by intros _.
      * intros e k [= <-]. unfold provider_handler.
        destruct e; repeat (apply post_seq; intros _); try (apply post_ret; done). apply post_raise.
    + intros [[resp err] et] H. repeat (apply post_seq; intros ?). by apply post_ret.
  - intros [[resp err] l] H. apply post_seq. intros tools. apply post_ret. by exists l.
Qed.

(** A decision to retry and the budgets it respects. *)
Definition retry_allowed (error : ExecutionError) (permit : CircuitPermit) (n cumulative backoff_ms : Z)
    (decision : string) : Prop :=
  exists r, retry = Some r /\ decision = retry_eligibility error r /\ cp_probe permit = false /\
    n < rt_max_attempts r /\ cumulative + backoff_ms <= rt_max_cumulative_backoff_ms r /\
    (0 <= rt_initial_backoff_ms r -> 0 <= rt_max_backoff_ms r -> 0 <= backoff_ms <= rt_max_backoff_ms r).

Lemma base_decision_retrying e p n r :
  retry = Some r -> retrying (base_decision e p n) = true ->
  base_decision e p n = retry_eligibility e r /\ cp_probe p = false /\ n < rt_max_attempts r.
Proof.
  unfold base_decision. intros ->. destruct (retrying (retry_eligibility e r)) eqn:E; simpl.
  - destruct (cp_probe p); simpl; [done|]. rewrite E. simpl.
    destruct (rt_max_attempts r <=? n) eqn:E2; bool_simpl; [done|]. intros _. split_and!; [done|done|lia].
  - rewrite E. simpl. by rewrite E.
Qed.

Lemma decide_post e p case it n cum dl :
  post (decide_retry e p case it n cum dl) (fun '(d, b) =>
    if retrying d then retry_allowed e p n cum b d else b = 0).
Proof.
  unfold decide_retry. destruct retry as [r|] eqn:Er.
  - destruct (retrying (base_decision e p n)) eqn:E; [|apply post_ret; by rewrite E].
    destruct (base_decision_retrying e p n r Er E) as (Hd & Hp & Hn).
    eapply post_bind; [apply post_lift; intros b Hb; exact Hb|intros b Hb]. cbv beta in Hb.
    destruct (_ <? _) eqn:Ec; [by apply post_ret|]. bool_simpl.
    apply post_seq. intros now. destruct (fle _ _); [by apply post_ret|]. apply post_ret.
    rewrite E. exists r. split_and!; [done..|lia|lia|]. intros. by eapply retry_backoff_range.
  - apply post_ret. unfold base_decision. by rewrite Er.
Qed.

(** The record of one pass: its number, and either a success that needs no
    retry, or a failure with a decision. *)
Definition pass_ok (permit : CircuitPermit) (n cumulative : Z) (resp : option AdapterResponse)
    (err : option ExecutionError) (a : AttemptResult) : Prop :=
  at_number a = n /\
  match err with
  | None => is_Some resp /\ at_outcome a = "succeeded" /\ at_retry_decision a = "not_needed" /\ at_backoff_ms a = 0
  | Some e =>
      at_outcome a = "failed" /\ at_error_code a = ee_code e /\ at_failure_category a = ee_category e /\
      if retrying (at_retry_decision a)
      then retry_allowed e permit n cumulative (at_backoff_ms a) (at_retry_decision a) else at_backoff_ms a = 0
  end.

Lemma one_attempt_post case it p dl cum n :
  post (one_attempt case it p dl cum n) (fun '(resp, err, a, tools) => pass_ok p n cum resp err a).
Proof.
  apply post_seq. intros now. apply post_with_span. intros span.
  eapply post_bind; [apply invoke_post|]. intros [[[resp err] a] tools] (l & -> & Hr).
  eapply (post_bind _ _ (fun '(d, b) => match err with
    | None => d = "not_needed" /\ b = 0
    | Some e => if retrying d then retry_allowed e p n cum b d else b = 0 end)).
  - destruct err as [e|]; [apply decide_post|]. apply post_ret. by destruct (n =? 1).
  - intros [d b] Hd. apply post_seq. intros _. apply post_ret.
    destruct err as [e|]; [|destruct Hd as [-> ->]]; destruct (n =? 1); by split_and!; auto.
Qed.

(** ** The loop *)

(** The attempts of a case from number [n] on, when [cumulative] milliseconds
    of backoff are already spent: all but the last are failures the policy
    decided to retry. *)
Fixpoint history (permit : CircuitPermit) (n cumulative : Z) (l : list AttemptResult)
    (resp : option AdapterResponse) (err : option ExecutionError) : Prop :=
  match l with
  | [] => False
  | [a] => pass_ok permit n cumulative resp err a /\ retrying (at_retry_decision a) = false
  | a :: rest =>
      (exists e resp0, pass_ok permit n cumulative resp0 (Some e) a) /\ retrying (at_retry_decision a) = true /\
      history permit (n + 1) (cumulative + at_backoff_ms a) rest resp err
  end.

Lemma history_nonempty p n cum l resp err : history p n cum l resp err -> l <> [].
Proof. by destruct l. Qed.

Lemma loop_post fuel case it p dl acc cum n :
  post (attempt_loop fuel case it p dl acc cum n) (fun e =>
    exists l, le_attempts e = acc ++ l /\ history p n cum l (le_response e) (le_error e)).
Proof.
  revert acc cum n. induction fuel as [|fuel IH]; intros acc cum n; [by intros w a w'|].
  cbn [attempt_loop]. apply post_seq. intros []; [apply post_raise|].
  eapply post_bind; [apply one_attempt_post|]. intros [[[resp err] a] tools] Hp.
  destruct (negb (is_some err) || negb (retrying (at_retry_decision a))) eqn:E.
  - apply post_ret. exists [a]. split; [done|]. cbn [history le_response le_error]. split; [done|].
    destruct err as [e|]; simpl in E; [by apply negb_true_iff in E|].
    destruct Hp as (_ & _ & _ & -> & _). done.
  - bool_simpl. apply post_seq. intros []; [apply post_raise|]. apply post_seq. intros _.
    eapply post_mono; [apply IH|]. intros e (l & Hl & Hh). exists (a :: l).
    rewrite Hl, <- app_assoc. split; [done|]. destruct err as [e0|]; [|done].
    destruct l as [|b l]; [done|]. cbn [history]. split_and!; eauto.
Qed.

Lemma loop_total fuel case it p dl acc cum n :
  limiter_ready dl ->
  Z.max 1 (from_option rt_max_attempts 1 retry) - n + 1 <= Z.of_nat fuel -> (0 < fuel)%nat ->
  total (attempt_loop fuel case it p dl acc cum n).
Proof.
  intros Hl. revert acc cum n. induction fuel as [|fuel IH]; intros acc cum n Hf H0; [lia|].
  cbn [attempt_loop]. apply total_bind; [done|]. intros []; [done|].
  eapply total_bind_post; [by apply one_attempt_total|apply one_attempt_post|].
  intros [[[resp err] a] tools] Hp. destruct (_ || _) eqn:E; [done|]. bool_simpl.
  apply total_bind; [done|]. intros []; [done|]. apply total_bind; [apply backoff_wait_total|intros _].
  destruct err as [e|]; [|done]. destruct Hp as (_ & _ & _ & _ & Hp). rewrite H1 in Hp.
  destruct Hp as (r & Hr & _ & _ & Hn & _). rewrite Hr in *. cbn [from_option] in *. apply IH; lia.
Qed.

Lemma permitted_total case it p t0 :
  limiter_ready (fadd t0 (of_Z (wl_timeout_seconds (rc_workload config)))) ->
  total (_execute_permitted_case case it p t0).
Proof.
  intros Hl. apply total_bind; [apply trace_events_total|intros _].
  apply total_bind; [|intros; apply finish_total]. apply loop_total; [done| |]; unfold attempt_fuel.
  - destruct retry; simpl; lia.
  - destruct retry; simpl; lia.
Qed.
(** ** The result of a case *)

(** Extending the breaker events of the last attempt changes nothing else. *)
Lemma extend_last_map {B} (f : AttemptResult -> B) l events :
  (forall a ev, f (add_circuit_events a ev) = f a) -> f <$> extend_last l events = f <$> l.
Proof.
  intros Hf. induction l as [|a [|b l] IH]; [done| |].
  - simpl. by rewrite Hf.
  - change (extend_last (a :: b :: l) events) with (a :: extend_last (b :: l) events).
    rewrite !fmap_cons. f_equal. apply IH.
Qed.

Definition with_events (l : list AttemptResult) (events : list string) : list AttemptResult :=
  match events with [] => l | _ => extend_last l events end.

(** The fields of an attempt the loop decides on. *)
Definition core (a : AttemptResult) : Z * string * string * Z * string * string :=
  (at_number a, at_outcome a, at_retry_decision a, at_backoff_ms a, at_error_code a, at_failure_category a).

Lemma with_events_core l events : core <$> with_events l events = core <$> l.
Proof. destruct events; [done|]. by apply extend_last_map. Qed.

(** Every total of a result is the sum over its attempts, and its costs are
    known only when the usage of every attempt is. *)
Definition accounted (r : CaseResult) : Prop :=
  let l := cr_attempts r in
  let i := sumZ (fun a => or0 (at_input_tokens a)) l in
  let o := sumZ (fun a => or0 (at_output_tokens a)) l in
  cr_input_tokens r = Some i /\ cr_output_tokens r = Some o /\
  cr_tool_call_count r = sumZ at_tool_call_count l /\
  cr_in_call_retry_count r = sumZ at_rate_limit_events l /\
  cr_model_call_count r =
    (if forallb (fun a => is_some (at_model_call_count a)) l
     then Some (sumZ (fun a => or0 (at_model_call_count a)) l) else None) /\
  cr_usage_complete r = forallb at_usage_complete l /\
  if cr_usage_complete r
  then case_costs (tg_pricing (rc_target config)) i o = Ok (cr_input_cost_usd r, cr_output_cost_usd r, cr_cost_usd r)
  else (cr_input_cost_usd r, cr_output_cost_usd r, cr_cost_usd r) = (None, None, None).

(** The verdict of a result against the end of its provider sequence. *)
Definition verdict (case : TestCase) (r : CaseResult) : Prop :=
  exists a, last (cr_attempts r) = Some a /\
  if cr_success r then
    at_outcome a = "succeeded" /\ forallb ao_passed (cr_assertions r) = true /\
    length (cr_assertions r) = length (effective_assertions case) /\
    cr_failure_kind r = "" /\ cr_failure_category r = "" /\ cr_error_code r = "" /\ cr_error r = None
  else
    cr_error r <> None /\
    ((at_outcome a <> "succeeded" /\ cr_assertions r = [] /\ cr_output r = "" /\
      cr_error_code r = at_error_code a /\ cr_failure_category r = at_failure_category a) \/
     (at_outcome a = "succeeded" /\ cr_assertions r = [] /\
      cr_failure_category r = "harness" /\ cr_error_code r = "evaluator_failure") \/
     (at_outcome a = "succeeded" /\ forallb ao_passed (cr_assertions r) = false /\
      length (cr_assertions r) = length (effective_assertions case) /\
      cr_failure_category r = "evaluation" /\ cr_error_code r = "assertion_failed")).

Lemma failed_result_spec case it error l path lat r :
  _failed_result config case it error l path lat = Ok r ->
  cr_attempts r = l /\ cr_success r = false /\ accounted r /\ cr_assertions r = [] /\ cr_output r = "" /\
  cr_error_code r = ee_code error /\ cr_failure_category r = ee_category error /\
  cr_error r = Some (error_str error) /\ cr_case_id r = tc_case_id case /\ cr_iteration r = it.
Proof.
  unfold _failed_result, _attempt_usage, _attempt_calls, _case_provider_fields, _costs_for_usage.
  destruct (forallb at_usage_complete l) eqn:Eu; simpl.
  - destruct (case_costs _ _ _) as [[[a b] c]|] eqn:Ec; simpl; [|done]. intros [= <-].
    by split_and!.
  - intros [= <-]. by split_and!.
Qed.

Lemma evaluated_result_spec case it resp os l path lat r :
  evaluated_result config case it resp os l path lat = Ok r ->
  cr_attempts r = l /\ cr_success r = forallb ao_passed os /\ accounted r /\ cr_assertions r = os /\
  cr_case_id r = tc_case_id case /\ cr_iteration r = it /\
  (if forallb ao_passed os
   then cr_failure_kind r = "" /\ cr_failure_category r = "" /\ cr_error_code r = "" /\ cr_error r = None
   else cr_failure_category r = "evaluation" /\ cr_error_code r = "assertion_failed" /\ cr_error r <> None).
Proof.
  unfold evaluated_result, _attempt_usage, _attempt_calls, _case_provider_fields, _costs_for_usage.
  destruct (forallb at_usage_complete l) eqn:Eu; simpl.
  - destruct (case_costs _ _ _) as [[[a b] c]|] eqn:Ec; simpl; [|done]. intros [= <-].
    split_and!; try done. by destruct (forallb ao_passed os).
  - intros [= <-]. split_and!; try done. by destruct (forallb ao_passed os).
Qed.

Lemma history_last p n cum l resp err :
  history p n cum l resp err -> exists a n' cum', last l = Some a /\ pass_ok p n' cum' resp err a.
Proof.
  revert n cum. induction l as [|a [|b l] IH]; intros n cum H; [done| |].
  - exists a, n, cum. by destruct H.
  - destruct H as (_ & _ & H). destruct (IH _ _ H) as (x & n' & c' & Hx & Hp). exists x, n', c'. by split.
Qed.

Lemma last_fmap {A B} (f : A -> B) l : last (f <$> l) = f <$> last l.
Proof. induction l as [|x [|y l] IH]; [done..|]. exact IH. Qed.

Lemma last_core l events a :
  last l = Some a -> exists a', last (with_events l events) = Some a' /\ core a' = core a.
Proof.
  intros Ha. assert (last (core <$> with_events l events) = Some (core a)) as H.
  { by rewrite with_events_core, last_fmap, Ha. }
  rewrite last_fmap in H. destruct (last (with_events l events)) as [a'|]; [|done].
  exists a'. split; [done|]. cbn [fmap option_fmap option_map] in H. congruence.
Qed.

(** What a finished provider sequence and a returned result share. *)
Definition finished (case : TestCase) (it : Z) (l : list AttemptResult) (r : CaseResult) : Prop :=
  core <$> cr_attempts r = core <$> l /\ accounted r /\ verdict case r /\
  cr_case_id r = tc_case_id case /\ cr_iteration r = it.

Lemma finish_post case it p t0 e n cum :
  history p n cum (le_attempts e) (le_response e) (le_error e) ->
  post (finish_case case it p t0 e) (finished case it (le_attempts e)).
Proof.
  intros Hh. destruct (history_last _ _ _ _ _ _ Hh) as (a & n' & cum' & Ha & Hp).
  unfold finish_case. apply post_seq. intros events. apply post_seq. intros _. apply post_seq. intros now.
  change (match events with [] => le_attempts e | _ => extend_last (le_attempts e) events end)
    with (with_events (le_attempts e) events).
  destruct (last_core _ events _ Ha) as (a' & Ha' & Hcore). unfold core in Hcore. simplify_eq.
  destruct Hp as (_ & Hp). destruct (le_error e) as [error|].
  - apply post_lift. intros r Hr. destruct (failed_result_spec _ _ _ _ _ _ _ Hr) as (Hl & Hs & Hrest).
    destruct Hrest as (Hacc & Has & Hout & Hc & Hcat & He & Hid & Hit). destruct Hp as (Ho & Hec & Hfc & _).
    split_and!; [by rewrite Hl, with_events_core|done| |done|done].
    exists a'. rewrite Hl, Hs. split_and!; [done|by rewrite He|]. left. split_and!; congruence.
  - destruct Hp as ([resp Hresp] & Ho & _). rewrite Hresp.
    eapply (post_bind _ _ (fun ev => match ev with
      | Some os => length os = length (effective_assertions case) | None => True end)).
    + apply post_try.
      * intros w x w' (os & w1 & Hev & Hret)%bind_Ret_inv. injection Hret as <- <-. by eapply evaluate_length.
      * intros exc k. destruct (is_exception exc); [|done]. intros [= <-]. by apply post_ret.
    + intros [os|] Hlen.
      * apply post_seq. intros _. apply post_seq. intros _. apply post_lift. intros r Hr.
        destruct (evaluated_result_spec _ _ _ _ _ _ _ _ Hr) as (Hl & Hs & Hacc & Has & Hid & Hit & Hv).
        split_and!; [by rewrite Hl, with_events_core|done| |done|done].
        exists a'. rewrite Hl, Hs, Has. split; [done|].
        destruct (forallb ao_passed os) eqn:Eo; [|destruct Hv as (? & ? & ?)].
        -- split_and!; [congruence|done|done|apply Hv..].
        -- split; [done|]. right. right. split_and!; congruence.
      * apply post_lift. intros r Hr. destruct (failed_result_spec _ _ _ _ _ _ _ Hr) as (Hl & Hs & Hrest).
        destruct Hrest as (Hacc & Has & Hout & Hc & Hcat & He & Hid & Hit).
        split_and!; [by rewrite Hl, with_events_core|done| |done|done].
        exists a'. rewrite Hl, Hs. split_and!; [done|by rewrite He|]. simpl in Hc, Hcat. right. left. split_and!; congruence.
Qed.

Lemma permitted_post case it p t0 :
  post (_execute_permitted_case case it p t0) (fun r =>
    exists l resp err, history p 1 0 l resp err /\ finished case it l r).
Proof.
  apply post_seq. intros _. eapply post_bind; [apply loop_post|]. intros e (l & Hl & Hh). simpl in Hl.
  rewrite <- Hl in Hh. eapply post_mono; [by eapply finish_post|]. intros r Hr. eauto 6.
Qed.
(** ** The discipline of the attempts *)

Lemma core_fmap {B} (f : AttemptResult -> B) (g : _ -> B) (l1 l2 : list AttemptResult) :
  (forall a, f a = g (core a)) -> core <$> l1 = core <$> l2 -> f <$> l1 = f <$> l2.
Proof.
  intros Hf H. assert (forall l : list AttemptResult, f <$> l = g <$> (core <$> l)) as Hg.
  { intros l. rewrite <- list_fmap_compose. apply list_fmap_ext. intros. apply Hf. }
  by rewrite !Hg, H.
Qed.

Lemma sumZ_fmap {A} (f : A -> Z) (l : list A) : sumZ f l = sumZ (fun z => z) (f <$> l).
Proof. induction l as [|x l IH]; simpl; [done|]. by rewrite IH. Qed.

Lemma core_length (l1 l2 : list AttemptResult) : core <$> l1 = core <$> l2 -> length l1 = length l2.
Proof. intros H. apply (f_equal length) in H. by rewrite !length_fmap in H. Qed.

Definition retried (a : AttemptResult) : bool := retrying (at_retry_decision a).

Lemma history_shape p n cum l resp err :
  history p n cum l resp err ->
  at_number <$> l = seqZ n (Z.of_nat (length l)) /\
  retried <$> l = replicate (length l - 1) true ++ [false] /\
  take (length l - 1) (at_outcome <$> l) = replicate (length l - 1) "failed".
Proof.
  revert n cum. induction l as [|a [|b l] IH]; intros n cum H; [done| |].
  - destruct H as ((Hn & _) & Hd). unfold retried. simpl. rewrite Hd, Hn. done.
  - destruct H as ((e & resp0 & Hn & Ho & _) & Hd & H). destruct (IH _ _ H) as (H1 & H2 & H3).
    split_and!.
    + rewrite fmap_cons, H1, Hn. change (length (a :: b :: l)) with (S (length (b :: l))).
      rewrite Nat2Z.inj_succ. rewrite (seqZ_cons n) by lia.
      replace (Z.pred (Z.succ (Z.of_nat (length (b :: l))))) with (Z.of_nat (length (b :: l))) by lia.
      by replace (Z.succ n) with (n + 1) by lia.
    + cbn [length] in *. replace (S (S (length l)) - 1)%nat with (S (S (length l) - 1)) by lia.
      rewrite fmap_cons, H2. unfold retried at 1. by rewrite Hd.
    + cbn [length] in *. replace (S (S (length l)) - 1)%nat with (S (S (length l) - 1)) by lia.
      rewrite fmap_cons, Ho. cbn [take replicate]. by rewrite H3.
Qed.

Lemma history_budget p n cum l resp err :
  history p n cum l resp err ->
  (length l = 1%nat /\ sumZ at_backoff_ms l = 0) \/
  exists r, retry = Some r /\ cp_probe p = false /\ n + Z.of_nat (length l) - 1 <= rt_max_attempts r /\
    cum + sumZ at_backoff_ms l <= rt_max_cumulative_backoff_ms r.
Proof.
  revert n cum. induction l as [|a [|b l] IH]; intros n cum H; [done| |].
  - left. destruct H as ((_ & Hp) & Hd). split; [done|]. simpl. destruct err as [e|].
    + destruct Hp as (_ & _ & _ & Hp). rewrite Hd in Hp. lia.
    + destruct Hp as (_ & _ & _ & ->). done.
  - right. destruct H as ((e & resp0 & _ & _ & _ & _ & Hb) & Hd & H). rewrite Hd in Hb.
    destruct Hb as (r & Hr & _ & Hp & Hn & Hc & _).
    change (sumZ at_backoff_ms (a :: b :: l)) with (at_backoff_ms a + sumZ at_backoff_ms (b :: l)).
    change (length (a :: b :: l)) with (S (length (b :: l))).
    destruct (IH _ _ H) as [[Hl Hs]|(r' & Hr' & _ & Hn' & Hc')]; exists r.
    + split_and!; [done|done|lia|lia].
    + assert (r' = r) as -> by congruence. split_and!; [done|done|lia|lia].
Qed.

(** The most attempts a case may make. *)
Definition attempt_limit : Z := match retry with Some r => Z.max 1 (rt_max_attempts r) | None => 1 end.

(** The most backoff a case may accumulate. *)
Definition backoff_limit : Z := match retry with Some r => Z.max 0 (rt_max_cumulative_backoff_ms r) | None => 0 end.

Definition disciplined (l : list AttemptResult) : Prop :=
  at_number <$> l = seqZ 1 (Z.of_nat (length l)) /\
  1 <= Z.of_nat (length l) <= attempt_limit /\
  sumZ at_backoff_ms l <= backoff_limit /\
  retried <$> l = replicate (length l - 1) true ++ [false] /\
  take (length l - 1) (at_outcome <$> l) = replicate (length l - 1) "failed".

Lemma disciplined_core (l1 l2 : list AttemptResult) : core <$> l1 = core <$> l2 -> disciplined l2 -> disciplined l1.
Proof.
  intros H (H1 & H2 & H3 & H4 & H5). unfold disciplined. rewrite (core_length _ _ H).
  rewrite (core_fmap at_number (fun c => c.1.1.1.1.1) _ _ (fun _ => eq_refl) H).
  rewrite (core_fmap retried (fun c => retrying c.1.1.1.2) _ _ (fun _ => eq_refl) H).
  rewrite (core_fmap at_outcome (fun c => c.1.1.1.1.2) _ _ (fun _ => eq_refl) H).
  rewrite sumZ_fmap, (core_fmap at_backoff_ms (fun c => c.1.1.2) _ _ (fun _ => eq_refl) H), <- sumZ_fmap.
  done.
Qed.

Lemma history_disciplined p l resp err : history p 1 0 l resp err -> disciplined l.
Proof.
  intros Hh. destruct (history_shape _ _ _ _ _ _ Hh) as (H1 & H2 & H3).
  unfold disciplined, attempt_limit, backoff_limit.
  destruct (history_budget _ _ _ _ _ _ Hh) as [[Hl Hs]|(r & -> & _ & Hn & Hc)].
  - rewrite Hl in *. split_and!; try done; destruct retry; lia.
  - pose proof (history_nonempty _ _ _ _ _ _ Hh). destruct l; [done|].
    split_and!; [done|simpl; lia|lia|lia|done|done].
Qed.

Lemma execute_case_post case it :
  post (_execute_case case it) (fun r => exists l, disciplined l /\ finished case it l r).
Proof.
  unfold _execute_case. apply post_seq. intros t0. apply post_with_span. intros span.
  apply post_seq. intros permit.
  eapply (post_bind _ _ (fun r => exists l, disciplined l /\ finished case it l r));
    [|intros r Hr; apply post_seq; intros _; by apply post_ret].
  destruct permit as [p|error].
  - eapply post_mono; [apply permitted_post|]. intros r (l & resp & err & Hh & Hf).
    exists l. split; [by eapply history_disciplined|done].
  - apply post_seq. intros _. apply post_seq. intros now. apply post_lift. intros r Hr.
    destruct (failed_result_spec _ _ _ _ _ _ _ Hr) as (Hl & Hs & Hrest).
    destruct Hrest as (Hacc & Has & Hout & Hc & Hcat & He & Hid & Hit).
    exists [rejected_attempt error]. split.
    + unfold disciplined, attempt_limit, backoff_limit. split_and!; try done; destruct retry; simpl; lia.
    + split_and!; [by rewrite Hl|done| |done|done]. exists (rejected_attempt error). rewrite Hl, Hs.
      split_and!; [done|by rewrite He|]. left. by split_and!.
Qed.

(** C1.  Every result of a case has at least one attempt and at most as many
    as the retry policy allows (one without a policy), numbered from 1 without
    gaps; the backoffs sum to at most the cumulative budget; every attempt but
    the last failed and was retried, and the last was not. *)
Theorem case_attempts_disciplined case it w r w' :
  _execute_case case it w = (Ret r, w') -> disciplined (cr_attempts r).
Proof.
  intros H. destruct (execute_case_post _ _ _ _ _ H) as (l & Hd & Hc & _). by eapply disciplined_core.
Qed.

(** C5.  A result is a success exactly when its last attempt succeeded and
    every effective assertion of the case was evaluated and passed; otherwise
    it carries an error and the category and code of the last failed attempt,
    of the evaluator failure, or of the failed assertions. *)
Theorem case_verdict_sound case it w r w' :
  _execute_case case it w = (Ret r, w') ->
  verdict case r /\ cr_case_id r = tc_case_id case /\ cr_iteration r = it.
Proof. intros H. destruct (execute_case_post _ _ _ _ _ H) as (l & _ & _ & _ & Hv & Hid). done. Qed.

(** C6.  The token, call and rate-limit totals of a result are the sums over
    its attempts; its usage is complete exactly when that of every attempt is,
    its costs are those of the token totals in that case, and unknown
    otherwise. *)
Theorem case_accounting case it w r w' :
  _execute_case case it w = (Ret r, w') -> accounted r.
Proof. intros H. by destruct (execute_case_post _ _ _ _ _ H) as (l & _ & _ & Ha & _). Qed.

(** The half-open probe of the circuit breaker is a single provider
    attempt, whatever the retry policy. *)
Theorem probe_makes_one_attempt case it p t0 w r w' :
  cp_probe p = true -> _execute_permitted_case case it p t0 w = (Ret r, w') -> length (cr_attempts r) = 1%nat.
Proof.
  intros Hp H. destruct (permitted_post _ _ _ _ _ _ _ H) as (l & resp & err & Hh & Hc & _).
  rewrite (core_length _ _ Hc). destruct (history_budget _ _ _ _ _ _ Hh) as [[? _]|(? & _ & ? & _)]; congruence.
Qed.

(** C7.  A case always ends: with a result, with a cancellation or with an
    exception.  The fuel of the attempt loop is never used up; under a
    distributed limiter this needs the clock to pass the case deadline. *)
Theorem case_always_ends case it w :
  limiter_ready (fadd (sn_time (observe (w_pos w))) (of_Z (wl_timeout_seconds (rc_workload config)))) ->
  (_execute_case case it w).1 <> Diverge.
Proof.
  intros Hl. unfold _execute_case. rewrite (bind_Ret perf_counter _ w (sn_time (observe (w_pos w))) (set_pos S w) eq_refl).
  apply (total_with_span policy). intros span. apply total_bind.
  - apply total_bind; [done|intros; apply with_circuit_total].
  - intros permit. apply total_bind; [|intros r; apply total_bind; [|done]].
    + destruct permit as [p|error]; [by apply permitted_total|].
      apply total_bind; [apply trace_events_total|intros _]. apply total_bind; [done|intros; apply total_lift].
    + unfold case_span_attributes. repeat (apply total_bind; [done || by apply opt_int_total|intros _]).
      apply total_bind; [by destruct (negb _)|intros _].
      repeat (apply total_bind; [by apply opt_int_total|intros _]). done.
Qed.
End Runner.

(** ** A run on concrete inputs *)

Definition pass_outcome (i : nat) (a : AssertionSpec) : AssertionOutcome :=
  mkOutcome (Z.of_nat i) (as_type a) true "passed" None.

(** A registry in which every assertion passes. *)
#[program] Definition passing : Evaluators :=
  {| evaluate := fun case _ => mret (imap pass_outcome (effective_assertions case)) |}.
Next Obligation. done. Qed.
Next Obligation. intros. simplify_eq/=. injection H as <- <-. apply length_imap. Qed.

Definition sample_config (fault : string) : RunConfig :=
  mkRunConfig "run-1" (mkSource "ns" "src") (mkDataset "ds" "cases.jsonl")
    (mkTarget "fake" "" "" "" (Some sample_pricing) None [] None None)
    (mkWorkload 2 1 30) (mkEvaluation None None None) omit_config
    (Some (mkReliability (Some 7) sample_retry None (Some (sample_scenario fault)))).

(** The first attempt hits the injected fault, the retry reaches the provider. *)
Definition sample_run (fault : string) : M CaseResult :=
  @_execute_case quiet_env no_redaction (fun _ => "") false false (sample_config fault)
    (const_adapter sample_response) None passing sample_case 0.

Lemma sample_run_result : exists r w', sample_run "rate_limit" sample_task = (Ret r, w') /\
  length (cr_attempts r) = 2%nat /\ cr_success r = true /\ cr_cost_usd r = Some "0.000005850000".
Proof. eexists _, _. split; [vm_compute; reflexivity|]. split_and!; reflexivity. Defined.

Lemma case_attempts_disciplined_witness : exists r w', sample_run "rate_limit" sample_task = (Ret r, w') /\
  length (cr_attempts r) = 2%nat /\ disciplined (sample_config "rate_limit") (cr_attempts r).
Proof.
  destruct sample_run_result as (r & w' & H & Hl & _). exists r, w'. split; [exact H|]. split; [exact Hl|].
  exact (case_attempts_disciplined _ _ _ _ _ _ _ _ _ _ _ _ H).
Defined.

Lemma case_verdict_sound_witness : exists r w', sample_run "rate_limit" sample_task = (Ret r, w') /\
  cr_success r = true /\ verdict sample_case r.
Proof.
  destruct sample_run_result as (r & w' & H & _ & Hs & _). exists r, w'. split; [exact H|]. split; [exact Hs|].
  exact (proj1 (case_verdict_sound _ _ _ _ _ _ _ _ _ _ _ _ H)).
Defined.

Lemma case_accounting_witness : exists r w', sample_run "rate_limit" sample_task = (Ret r, w') /\
  cr_cost_usd r = Some "0.000005850000" /\ accounted (sample_config "rate_limit") r.
Proof.
  destruct sample_run_result as (r & w' & H & _ & _ & Hc). exists r, w'. split; [exact H|]. split; [exact Hc|].
  exact (case_accounting _ _ _ _ _ _ _ _ _ _ _ _ H).
Defined.

(** The same failing first attempt under a probe permit is not retried. *)
Lemma probe_makes_one_attempt_witness : exists r w',
  @_execute_permitted_case quiet_env no_redaction (fun _ => "") false false (sample_config "rate_limit")
    (const_adapter sample_response) None passing sample_case 0 probe_permit (Fin 0) sample_task = (Ret r, w') /\
  length (cr_attempts r) = 1%nat /\ cr_success r = false.
Proof.
  assert (exists r w',
    @_execute_permitted_case quiet_env no_redaction (fun _ => "") false false (sample_config "rate_limit")
      (const_adapter sample_response) None passing sample_case 0 probe_permit (Fin 0) sample_task = (Ret r, w') /\
    cr_success r = false) as (r & w' & H & Hs).
  { eexists _, _. split; [vm_compute; reflexivity|reflexivity]. }
  exists r, w'. split; [exact H|]. split; [|exact Hs].
  eapply probe_makes_one_attempt; [|exact H]. reflexivity.
Defined.

Lemma case_always_ends_witness : (sample_run "timeout" sample_task).1 <> Diverge.
Proof. exact (case_always_ends _ _ _ _ _ _ None sample_case 0 sample_task I). Defined.
End Runner.
