(* ===== verification/Summary.v ===== *)
(** * The summary of a shard ([runner.summarize])

    Rates, the 95th percentile and the totals over the results of a shard, and
    the thresholds of the evaluation. *)
From stdpp Require Import sorting.
From S2P Require Import Prelude PyFloat PyStr PyVal PyDecimal Models Pricing.
Import PyFloat PyStr PyVal PyDecimal Pricing.

Module Summary.

(** [sorted(...)] on floats. *)
Fixpoint finsert (x : float) (l : list float) : list float :=
  match l with
  | [] => [x]
  | y :: l' => if fle x y then x :: l else y :: finsert x l'
  end.
Definition fsorted (l : list float) : list float := foldr finsert [] l.

(** The literal [0.95]. *)
Definition c095 : float := of_ratio 95 100.

(** [latencies[max(0, math.ceil(len(latencies) * 0.95) - 1)] if latencies else 0.0] *)
Definition p95_of (latencies : list float) : pyres float :=
  match latencies with
  | [] => Ok (Fin 0)
  | _ =>
      n ← float_of_int (Z.of_nat (length latencies));
      match fceil (fmul n c095) with
      | None => Err OverflowError
      | Some c =>
          match fsorted latencies !! Z.to_nat (Z.max 0 (c - 1)) with
          | Some x => Ok x
          | None => Err IndexError
          end
      end
  end.

(** [x > z] for a float and an int, compared exactly. *)
Definition fgt_int (x : float) (z : Z) : bool :=
  match x with Fin k => z * one_k <? k | PInf => true | _ => false end.

Definition rate (n total : Z) : float := if total =? 0 then Fin 0 else of_ratio n total.

Definition threshold_failures_of (evaluation : EvaluationConfig) (success_rate error_rate p95 : float) : list string :=
  match ev_min_success_rate evaluation with
  | Some m =>
      if flt success_rate m
      then ["success_rate " +:+ format_fixed 4 success_rate +:+ " < " +:+ format_fixed 4 m] else []
  | None => []
  end ++
  match ev_max_error_rate evaluation with
  | Some m =>
      if flt m error_rate
      then ["error_rate " +:+ format_fixed 4 error_rate +:+ " > " +:+ format_fixed 4 m] else []
  | None => []
  end ++
  match ev_max_p95_latency_ms evaluation with
  | Some m =>
      if fgt_int p95 m
      then ["p95_latency_ms " +:+ format_fixed 2 p95 +:+ " > " +:+ str_of_Z m] else []
  | None => []
  end.

Definition known_model_calls (results : list CaseResult) : bool :=
  forallb (fun r => is_some (cr_model_call_count r)) results.

Definition sum_model_calls (results : list CaseResult) : Z := sumZ (fun r => or0 (cr_model_call_count r)) results.

Definition summarize (run_id : string) (shard_index shard_count : Z) (results : list CaseResult)
    (evaluation : EvaluationConfig) (duration_ms : float) : pyres RunSummary :=
  let total := Z.of_nat (length results) in
  let successful_results := List.filter cr_success results in
  let succeeded := Z.of_nat (length successful_results) in
  let failed := total - succeeded in
  let success_rate := rate succeeded total in
  let error_rate := rate failed total in
  p95 ← p95_of (cr_latency_ms <$> results);
  let failures := threshold_failures_of evaluation success_rate error_rate p95 in
  let model_calls := if known_model_calls results then Some (sum_model_calls results) else None in
  let per_success (n : Z) := if succeeded =? 0 then None else Some (of_ratio n succeeded) in
  input_cost ← sum_costs (cr_input_cost_usd <$> results);
  output_cost ← sum_costs (cr_output_cost_usd <$> results);
  cost ← sum_costs (cr_cost_usd <$> results);
  Ok {| rs_run_id := run_id; rs_shard_index := shard_index; rs_shard_count := shard_count;
        rs_duration_ms := duration_ms; rs_total := total; rs_succeeded := succeeded; rs_failed := failed;
        rs_success_rate := success_rate; rs_error_rate := error_rate; rs_p95_latency_ms := p95;
        rs_input_tokens := sumZ (fun r => or0 (cr_input_tokens r)) results;
        rs_output_tokens := sumZ (fun r => or0 (cr_output_tokens r)) results;
        rs_thresholds_passed := match failures with [] => true | _ => false end;
        rs_threshold_failures := failures;
        rs_model_call_count := model_calls;
        rs_tool_call_count := sumZ cr_tool_call_count results;
        rs_model_calls_per_successful_agent :=
          if known_model_calls successful_results then per_success (sum_model_calls successful_results) else None;
        rs_tool_calls_per_successful_agent := per_success (sumZ cr_tool_call_count successful_results);
        rs_input_cost_usd := input_cost; rs_output_cost_usd := output_cost; rs_cost_usd := cost;
        rs_usage_complete := forallb cr_usage_complete results |}.

(** ** The percentile *)

Definition finite_latencies (l : list float) : Prop := Forall (fun x => exists k, x = Fin k) l.

Lemma finsert_perm x l : finsert x l ≡ₚ x :: l.
Proof.
  induction l as [|y l IH]; simpl; [done|]. destruct (fle x y); [done|]. rewrite IH. apply perm_swap.
Qed.

Lemma fsorted_perm l : fsorted l ≡ₚ l.
Proof. induction l as [|x l IH]; simpl; [done|]. by rewrite finsert_perm, IH. Qed.

Definition fle_rel (x y : float) : Prop := fle x y = true.

Lemma fsorted_sorted l : finite_latencies l -> StronglySorted fle_rel (fsorted l).
Proof.
  induction 1 as [|x l [k ->] Hl IH]; simpl; [constructor|].
  assert (finite_latencies (fsorted l)) as Hf by (unfold finite_latencies; by rewrite fsorted_perm).
  induction IH as [|y l' Hs IH' Hy]; simpl; [repeat constructor|].
  inversion Hf as [|? ? [ky ->] Hf']; subst. change (k <=? ky) with (fle (Fin k) (Fin ky)).
  destruct (fle (Fin k) (Fin ky)) eqn:E.
  - constructor; [by constructor|]. constructor; [done|]. eapply Forall_impl; [exact Hy|].
    intros z Hz. unfold fle_rel in *. destruct z; simpl in *; try done. bool_simpl. apply Z.leb_le. lia.
  - constructor; [by apply IH'|]. rewrite finsert_perm. constructor; [|done].
    unfold fle_rel. simpl in *. bool_simpl. apply Z.leb_le. lia.
Qed.
Definition k95 : Z := match c095 with Fin k => k | _ => 0 end.

Lemma c095_fin : c095 = Fin k95.
Proof. by vm_compute. Qed.

Lemma k95_bounds : 20 * k95 <= 19 * one_k /\ (19 * one_k - 20 * k95) * 2 ^ 50 <= one_k.
Proof. split; apply Z.leb_le; by vm_compute. Qed.

Lemma one_k_32 : exists h, one_k = 32 * h /\ forall m, Z.abs m < 2 ^ 53 -> repr53 (m * h).
Proof.
  exists (2 ^ 1069). split; [apply Z.eqb_eq; by vm_compute|].
  intros m Hm. exists m, 1069. split_and!; [lia|done|done].
Qed.

Lemma div20 a : 20 * (a / 20) <= a < 20 * (a / 20) + 20.
Proof. pose proof (Z.div_mod a 20). pose proof (Z.mod_pos_bound a 20). lia. Qed.

(** The rank the code computes in floating point is the exact one. *)
Lemma p95_rank n : 1 <= n < 2 ^ 40 -> fceil (fmul (of_Z n) c095) = Some ((19 * n + 19) / 20).
Proof.
  intros Hn. rewrite of_Z_exact, c095_fin by lia. cbn [fmul].
  set (c := (19 * n + 19) / 20). assert (20 * c <= 19 * n + 19 < 20 * c + 20) as Hc by apply div20.
  clearbody c. destruct k95_bounds as [Hup Hlo]. destruct one_k_32 as (h & Hh & Hr). pose proof one_k_pos as Hk.
  set (x := rnd (n * one_k * k95) one_k).
  assert (forall a b, a <= b -> a * one_k * one_k <= b * one_k * one_k) as Hsq.
  { intros a b Hab. do 2 (apply Z.mul_le_mono_nonneg_r; [lia|]). done. }
  assert (n * (20 * k95) <= n * (19 * one_k)) as Hn1 by (apply Z.mul_le_mono_nonneg_l; lia).
  assert (19 * n * one_k <= 20 * c * one_k) as Hn2 by (apply Z.mul_le_mono_nonneg_r; lia).
  assert (n * ((19 * one_k - 20 * k95) * 2 ^ 50) <= n * one_k) as Hn3 by (apply Z.mul_le_mono_nonneg_l; lia).
  assert (n * one_k <= 2 ^ 40 * one_k) as Hn4 by (apply Z.mul_le_mono_nonneg_r; lia).
  assert (x <= c * one_k) as Hx1.
  { unfold x. rewrite <- (rnd_exact (c * one_k) one_k) by (try apply repr53_one_k; lia). apply rnd_mono; [lia..|].
    replace (n * one_k * k95) with (n * k95 * one_k) by lia. apply Hsq. lia. }
  assert ((32 * c - 31) * h <= x) as Hx2.
  { unfold x. rewrite <- (rnd_exact ((32 * c - 31) * h) one_k) by (try apply Hr; lia).
    apply rnd_mono; [lia..|]. replace (n * one_k * k95) with (n * k95 * one_k) by lia. apply Hsq.
    assert ((640 * c - 620) * one_k <= (608 * n - 1) * one_k) by (apply Z.mul_le_mono_nonneg_r; lia).
    lia. }
  assert ((c - 1) * one_k < x) as Hx3 by lia.
  assert (of_units (n * one_k * k95) one_k = Fin x) as ->.
  { unfold of_units. fold x. pose proof (small_not_huge c ltac:(lia)).
    rewrite (proj2 (Z.ltb_lt _ _)); [done|]. assert (0 <= (c - 1) * one_k) by (apply Z.mul_nonneg_nonneg; lia). lia. }
  cbn [fceil]. f_equal.
  assert (- x / one_k = - c) as ->; [|lia].
  symmetry. apply (Z.div_unique (- x) one_k (- c) (c * one_k - x)); [left; lia|lia].
Qed.

Lemma sorted_split_le l1 x l2 :
  StronglySorted fle_rel (l1 ++ x :: l2) -> Forall (fun y => fle y x = true) l1.
Proof.
  induction l1 as [|y l1 IH]; simpl; [constructor|]. inversion 1 as [|? ? Hs Hy]; subst.
  constructor; [|by apply IH]. eapply Forall_forall in Hy; [exact Hy|].
  rewrite elem_of_app, elem_of_cons. auto.
Qed.

Definition count (p : float -> bool) (l : list float) : Z := Z.of_nat (length (List.filter p l)).

Lemma count_perm p l1 l2 : l1 ≡ₚ l2 -> count p l1 = count p l2.
Proof. unfold count. induction 1; simpl; repeat case_match; simpl; lia. Qed.

Lemma count_app p l1 l2 : count p (l1 ++ l2) = count p l1 + count p l2.
Proof. unfold count. rewrite List.filter_app, length_app. lia. Qed.

Lemma count_all p l : Forall (fun y => p y = true) l -> count p l = Z.of_nat (length l).
Proof. unfold count. induction 1 as [|y l Hy Hl IH]; simpl; [done|]. rewrite Hy. simpl. lia. Qed.

Lemma count_none p l : Forall (fun y => p y = false) l -> count p l = 0.
Proof. unfold count. induction 1 as [|y l Hy Hl IH]; simpl; [done|]. by rewrite Hy. Qed.

Lemma count_bounds p l : 0 <= count p l <= Z.of_nat (length l).
Proof. unfold count. induction l; simpl; [done|]. case_match; simpl; lia. Qed.

Lemma fle_flt_false x y : fle x y = true -> flt y x = false.
Proof. destruct x, y; simpl; try done. intros. bool_simpl. apply Z.ltb_ge. lia. Qed.

Lemma p95_of_sorted l : finite_latencies l -> l <> [] -> Z.of_nat (length l) < 2 ^ 40 ->
  exists l1 x l2, fsorted l = l1 ++ x :: l2 /\ p95_of l = Ok x /\
    Z.of_nat (length l1) = (19 * Z.of_nat (length l) + 19) / 20 - 1.
Proof.
  intros Hf Hne Hlt. set (n := Z.of_nat (length l)) in *.
  assert (1 <= n) as Hn by (destruct l; [done|unfold n; simpl; lia]).
  set (c := (19 * n + 19) / 20). assert (1 <= c <= n) as Hc by (pose proof (div20 (19 * n + 19)); unfold c; lia).
  assert (length (fsorted l) = length l) as Hlen by (by rewrite fsorted_perm).
  destruct (lookup_lt_is_Some_2 (fsorted l) (Z.to_nat (c - 1))) as [x Hx]; [lia|].
  apply list_elem_of_split_length in Hx as (l1 & l2 & Hs & Hl1). exists l1, x, l2. split_and!; [done| |lia].
  unfold p95_of. destruct l as [|y l]; [done|]. fold n. unfold mbind, result_bind, float_of_int.
  rewrite of_Z_exact by lia. cbn [is_finite]. rewrite <- (of_Z_exact n) by lia.
  rewrite p95_rank by lia. fold c. rewrite Z.max_r by lia. rewrite Hs, lookup_app_r by lia.
  by replace (Z.to_nat (c - 1) - length l1)%nat with 0%nat by lia.
Qed.

(** C29.  The reported 95th percentile of a shard of fewer than [2^40] results
    is one of the measured latencies; at least 95% of the results are not
    slower, and fewer than 95% are faster. *)
Theorem p95_is_percentile l :
  finite_latencies l -> l <> [] -> Z.of_nat (length l) < 2 ^ 40 ->
  exists x, p95_of l = Ok x /\ x ∈ l /\
    95 * Z.of_nat (length l) <= 100 * count (fun y => fle y x) l /\
    100 * count (fun y => flt y x) l < 95 * Z.of_nat (length l).
Proof.
  intros Hf Hne Hlt. destruct (p95_of_sorted l Hf Hne Hlt) as (l1 & x & l2 & Hs & Hp & Hl).
  exists x. pose proof (fsorted_perm l) as Hperm. pose proof (fsorted_sorted l Hf) as Hsort.
  rewrite Hs in Hperm, Hsort. split_and!; [done| | |].
  - rewrite <- Hperm. rewrite elem_of_app, elem_of_cons. auto.
  - rewrite <- (count_perm _ _ _ Hperm), count_app, (count_all _ l1) by (by eapply sorted_split_le).
    assert (fle x x = true) as Hx.
    { apply fle_refl. assert (x ∈ l) as Hin by (rewrite <- Hperm, elem_of_app, elem_of_cons; auto).
      eapply Forall_forall in Hf as [k ->]; [done|exact Hin]. }
    assert (count (fun y => fle y x) (x :: l2) = 1 + count (fun y => fle y x) l2) as ->.
    { unfold count. simpl. rewrite Hx. simpl. lia. }
    pose proof (count_bounds (fun y => fle y x) l2).
    pose proof (div20 (19 * Z.of_nat (length l) + 19)). lia.
  - rewrite <- (count_perm _ _ _ Hperm), count_app.
    assert (count (fun y => flt y x) (x :: l2) = 0) as ->.
    { apply count_none. constructor; [apply flt_irrefl|].
      clear - Hsort. induction l1 as [|y l1 IH]; simpl in Hsort; inversion Hsort as [|? ? Hs Hy]; subst; [|auto].
      eapply Forall_impl; [exact Hy|]. intros z Hz. by apply fle_flt_false. }
    pose proof (count_bounds (fun y => flt y x) l1).
    assert (length l1 < length l)%nat by (rewrite <- Hperm, length_app; simpl; lia).
    pose proof (div20 (19 * Z.of_nat (length l) + 19)). lia.
Qed.

Lemma p95_is_percentile_witness :
  let l := [Fin 30; Fin 10; Fin 20] in
  p95_of l = Ok (Fin 30) /\ exists x, p95_of l = Ok x /\ x ∈ l.
Proof.
  intros l. split; [by vm_compute|].
  destruct (p95_is_percentile l) as (x & H & Hin & _); [repeat constructor; eauto|done|done|].
  exists x. split; assumption.
Defined.
(** ** Rates and thresholds *)

Lemma rate_below_one s t : 0 <= s < t -> t < 2 ^ 53 -> flt (rate s t) (of_Z 1) = true.
Proof.
  intros Hs Ht. unfold rate. rewrite (proj2 (Z.eqb_neq t 0)) by lia.
  assert (of_ratio (2 ^ 53 - 1) (2 ^ 53) <> NaN /\ flt (of_ratio (2 ^ 53 - 1) (2 ^ 53)) (of_Z 1) = true) as [Hn Hb]
    by (split; [by vm_compute|by vm_compute]).
  assert (fle (of_ratio s t) (of_ratio (2 ^ 53 - 1) (2 ^ 53)) = true) as Hm.
  { unfold of_ratio. pose proof one_k_pos. apply of_units_mono; [lia..|].
    assert (s * 2 ^ 53 <= (2 ^ 53 - 1) * t) as Hx by lia.
    apply (Z.mul_le_mono_nonneg_r _ _ one_k) in Hx; lia. }
  destruct (of_ratio s t), (of_ratio (2 ^ 53 - 1) (2 ^ 53)), (of_Z 1); simpl in *; try done.
  bool_simpl. apply Z.ltb_lt. lia.
Qed.

Lemma rate_one t : 0 < t < 2 ^ 53 -> rate t t = of_Z 1.
Proof.
  intros Ht. unfold rate. rewrite (proj2 (Z.eqb_neq t 0)) by lia. rewrite (of_Z_exact 1) by lia.
  unfold of_ratio. replace (t * one_k) with (1 * one_k * t) by lia.
  apply of_units_exact; [lia|by apply repr53_one_k|by apply small_not_huge].
Qed.

Lemma filter_length_all {A} (p : A -> bool) l : length (List.filter p l) = length l -> forallb p l = true.
Proof.
  induction l as [|x l IH]; simpl; [done|]. destruct (p x); simpl.
  - intros [= H]. auto.
  - pose proof (List.filter_length_le p l). lia.
Qed.

Lemma filter_length_le {A} (p : A -> bool) (l : list A) : (length (List.filter p l) <= length l)%nat.
Proof. apply List.filter_length_le. Qed.

Lemma summarize_inv run_id si sc results ev d s :
  summarize run_id si sc results ev d = Ok s ->
  exists p95, p95_of (cr_latency_ms <$> results) = Ok p95 /\ rs_p95_latency_ms s = p95 /\
  rs_total s = Z.of_nat (length results) /\ rs_succeeded s = Z.of_nat (length (List.filter cr_success results)) /\
  rs_failed s = rs_total s - rs_succeeded s /\
  rs_success_rate s = rate (rs_succeeded s) (rs_total s) /\ rs_error_rate s = rate (rs_failed s) (rs_total s) /\
  rs_threshold_failures s = threshold_failures_of ev (rs_success_rate s) (rs_error_rate s) p95 /\
  rs_thresholds_passed s = match rs_threshold_failures s with [] => true | _ => false end.
Proof.
  unfold summarize. unfold mbind, result_bind.
  destruct (p95_of _) as [p95|]; [|done].
  destruct (sum_costs _) as [ci|]; [|done]. destruct (sum_costs _) as [co|]; [|done].
  destruct (sum_costs _) as [c|]; [|done]. intros [= <-]. exists p95. by split_and!.
Qed.

(** Each threshold of the evaluation, met. *)
Definition thresholds_met (ev : EvaluationConfig) (s : RunSummary) : Prop :=
  (forall m, ev_min_success_rate ev = Some m -> flt (rs_success_rate s) m = false) /\
  (forall m, ev_max_error_rate ev = Some m -> flt m (rs_error_rate s) = false) /\
  (forall m, ev_max_p95_latency_ms ev = Some m -> fgt_int (rs_p95_latency_ms s) m = false).

Lemma failures_nil ev sr er p :
  threshold_failures_of ev sr er p = [] <->
  (forall m, ev_min_success_rate ev = Some m -> flt sr m = false) /\
  (forall m, ev_max_error_rate ev = Some m -> flt m er = false) /\
  (forall m, ev_max_p95_latency_ms ev = Some m -> fgt_int p m = false).
Proof.
  unfold threshold_failures_of.
  destruct ev as [[m1|] [m2|] [m3|]]; simpl;
    repeat match goal with |- context [if ?b then _ else _] => destruct b eqn:? end; simpl;
    (split; [intros H; try done; split_and!; intros ? [=]; by subst|intros (H1 & H2 & H3)]);
    try done; exfalso;
    repeat match goal with H : forall m, Some ?x = Some m -> _ |- _ => specialize (H x eq_refl) end; congruence.
Qed.

(** C28.  A shard passes exactly when every configured threshold is met, its
    counts add up, and a minimum success rate of 1.0 is met exactly when every
    result of a non-empty shard is a success: rounding never turns a failure
    into a rate of 1.0. *)
Theorem thresholds_decide run_id si sc results ev d s :
  summarize run_id si sc results ev d = Ok s ->
  results <> [] -> Z.of_nat (length results) < 2 ^ 53 ->
  rs_succeeded s + rs_failed s = Z.of_nat (length results) /\
  (rs_thresholds_passed s = true <-> thresholds_met ev s) /\
  (flt (rs_success_rate s) (of_Z 1) = false <-> forallb cr_success results = true).
Proof.
  intros H Hne Hlt. apply summarize_inv in H as (p & _ & Hp & Ht & Hs & Hf & Hsr & Her & Hfs & Hpass).
  assert (0 < length results)%nat as Hpos by (destruct results; [done|simpl; lia]).
  pose proof (filter_length_le cr_success results) as Hle. split_and!; [lia| |].
  - unfold thresholds_met. rewrite Hpass, Hfs, Hp. rewrite <- failures_nil.
    by destruct (threshold_failures_of _ _ _ _).
  - rewrite Hsr, Ht, Hs. split.
    + intros Hno. apply filter_length_all.
      destruct (decide (length (List.filter cr_success results) = length results)) as [|Hneq]; [done|].
      rewrite rate_below_one in Hno; [done|lia|lia].
    + intros Hall. assert (List.filter cr_success results = results) as ->.
      { clear - Hall. induction results as [|x l IH]; simpl in *; [done|]. bool_simpl. rewrite H. by rewrite IH. }
      rewrite rate_one by lia. apply flt_irrefl.
Qed.

(** ** The order in which results arrive *)

#[global] Instance fle_rel_antisymm : AntiSymm (=) fle_rel.
Proof. intros [] []; unfold fle_rel; simpl; try done. intros. bool_simpl. f_equal. lia. Qed.

Lemma fsorted_unique l1 l2 : finite_latencies l1 -> l1 ≡ₚ l2 -> fsorted l1 = fsorted l2.
Proof.
  intros Hf Hp. apply (StronglySorted_unique fle_rel).
  - by apply fsorted_sorted.
  - apply fsorted_sorted. unfold finite_latencies in *. by rewrite <- Hp.
  - by rewrite !fsorted_perm.
Qed.

Lemma p95_perm l1 l2 : finite_latencies l1 -> l1 ≡ₚ l2 -> p95_of l1 = p95_of l2.
Proof.
  intros Hf Hp. unfold p95_of. rewrite (fsorted_unique l1 l2 Hf Hp), (Permutation_length Hp).
  destruct l1 as [|x l1], l2 as [|y l2]; try done; apply Permutation_length in Hp; done.
Qed.

Lemma filter_perm {A} (p : A -> bool) l1 l2 : l1 ≡ₚ l2 -> List.filter p l1 ≡ₚ List.filter p l2.
Proof. induction 1; simpl; repeat case_match; eauto using Permutation. Qed.

Lemma forallb_perm {A} (p : A -> bool) l1 l2 : l1 ≡ₚ l2 -> forallb p l1 = forallb p l2.
Proof. induction 1; simpl; [done|congruence|by rewrite !andb_assoc, (andb_comm (p y))|congruence]. Qed.

(** C30.  Results are appended in completion order; the summary does not depend
    on it: any permutation of the results gives the same summary, for measured
    latencies and costs within the 28 digits of the default context. *)
Theorem summary_order_independent run_id si sc r1 r2 ev d :
  r1 ≡ₚ r2 -> finite_latencies (cr_latency_ms <$> r1) ->
  exact_costs (cr_input_cost_usd <$> r1) -> exact_costs (cr_output_cost_usd <$> r1) ->
  exact_costs (cr_cost_usd <$> r1) ->
  summarize run_id si sc r1 ev d = summarize run_id si sc r2 ev d.
Proof.
  intros Hp Hf Hi Ho Hc. pose proof (filter_perm cr_success _ _ Hp) as Hs.
  unfold summarize, known_model_calls, sum_model_calls.
  rewrite (p95_perm _ _ Hf (fmap_Permutation cr_latency_ms _ _ Hp)).
  rewrite (sum_costs_perm _ _ (fmap_Permutation cr_input_cost_usd _ _ Hp) Hi).
  rewrite (sum_costs_perm _ _ (fmap_Permutation cr_output_cost_usd _ _ Hp) Ho).
  rewrite (sum_costs_perm _ _ (fmap_Permutation cr_cost_usd _ _ Hp) Hc).
  rewrite (Permutation_length Hp), (Permutation_length Hs).
  rewrite !(forallb_perm _ _ _ Hp), !(forallb_perm _ _ _ Hs), !(sumZ_perm _ _ _ Hp), !(sumZ_perm _ _ _ Hs).
  done.
Qed.

(** ** Concrete summaries *)

Definition sample_result (ok : bool) (ms : Z) : CaseResult :=
  mkCaseResult "c" 0 ok (of_Z ms) "" "" "" [] true "" None (Some 11) (Some 7) (Some 1) 0 [] []
    (Some "0.000001650000") (Some "0.000004200000") (Some "0.000005850000") "" 0.

Definition strict_evaluation : EvaluationConfig := mkEvaluation (Some (of_Z 1)) None (Some 100).

Lemma thresholds_decide_witness :
  exists s, summarize "run-1" 0 1 [sample_result true 10; sample_result false 20] strict_evaluation (Fin 0) = Ok s /\
    rs_thresholds_passed s = false /\ rs_cost_usd s = Some "0.000011700000" /\
    rs_succeeded s + rs_failed s = 2.
Proof.
  assert (exists s, summarize "run-1" 0 1 [sample_result true 10; sample_result false 20] strict_evaluation (Fin 0) = Ok s /\
    rs_thresholds_passed s = false /\ rs_cost_usd s = Some "0.000011700000") as (s & H & Hp & Hc).
  { eexists. split; [vm_compute; reflexivity|]. split; reflexivity. }
  exists s. split; [exact H|]. split; [exact Hp|]. split; [exact Hc|].
  exact (proj1 (thresholds_decide _ _ _ _ _ _ _ H ltac:(done) ltac:(done))).
Defined.

Lemma summary_order_independent_witness :
  summarize "run-1" 0 1 [sample_result true 10; sample_result false 20] strict_evaluation (Fin 0) =
  summarize "run-1" 0 1 [sample_result false 20; sample_result true 10] strict_evaluation (Fin 0).
Proof.
  apply summary_order_independent.
  - apply perm_swap.
  - repeat constructor; eexists; vm_compute; reflexivity.
  - right. exists [1650000; 1650000]. split; [by vm_compute|]. split; [repeat constructor; lia|done].
  - right. exists [4200000; 4200000]. split; [by vm_compute|]. split; [repeat constructor; lia|done].
  - right. exists [5850000; 5850000]. split; [by vm_compute|]. split; [repeat constructor; lia|done].
Defined.
End Summary.
