(* ===== verification/Pool.v ===== *)
(** * The worker pool ([WorkloadRunner.__init__] and [WorkloadRunner.execute])

    Sharding, the work list, and the concurrent workers as a step relation.
    The workers share [next_index] and [results]; a step is what one worker does
    between two suspension points, or a stop request.  The indices of finished
    and of lost items are ghost state. *)
From stdpp Require Import relations.
From S2P Require Import Prelude PyFloat PyStr PyVal PyDecimal Models Circuit Effects.
From S2P Require Import Telemetry Lifecycle Faults Interfaces Pricing Runner Summary.
Import PyFloat PyStr PyVal Runner Summary.

Module Pool.

(** [WorkloadRunner.__init__]: the shard is within the shard count. *)
Definition valid_shard (shard_index shard_count : Z) : pyres unit :=
  guard (negb ((shard_count <? 1) || negb ((0 <=? shard_index) && (shard_index <? shard_count))))
    (ValueError "shard index must be within shard count").

(** [[case for index, case in enumerate(cases) if index % shard_count == shard_index]] *)
Fixpoint select_from (index : Z) (shard_index shard_count : Z) (cases : list TestCase) : list TestCase :=
  match cases with
  | [] => []
  | case :: rest =>
      (if index mod shard_count =? shard_index then [case] else []) ++
      select_from (index + 1) shard_index shard_count rest
  end.
Definition selected (shard_index shard_count : Z) (cases : list TestCase) : list TestCase :=
  select_from 0 shard_index shard_count cases.

Definition work_items (iterations : Z) (cases : list TestCase) : list (TestCase * Z) :=
  mjoin ((fun iteration => (fun case => (case, iteration)) <$> cases) <$> seqZ 0 iterations).

(** The attributes of a [WorkloadRunner].  The telemetry client is the policy it
    applies to attribute values; the middleware is the adapter with the scenario
    and the seed of its faults. *)
Record WorkloadRunner {env : Env} := mkRunner {
  wr_config : RunConfig;
  wr_shard_index : Z;
  wr_shard_count : Z;
  wr_telemetry : val -> val;
  wr_content_sanitizer : option Telemetry.ContentSanitizer;
  wr_evaluators : option Evaluators;
  wr_faults : AgentAdapter * option FaultScenarioConfig * option Z;
  wr_circuit : Circuit.CircuitBreaker;
  wr_distributed_limiter : option Limiter
}.

Definition new_runner {env : Env} (re_sub : string -> string -> string) (config : RunConfig) (adapter : AgentAdapter)
    (shard_index shard_count : Z) (distributed_limiter : option Limiter) : pyres WorkloadRunner :=
  valid_shard shard_index shard_count;;
  let telemetry := rc_telemetry config in
  Ok {| wr_config := config; wr_shard_index := shard_index; wr_shard_count := shard_count;
        wr_telemetry := Telemetry.policy_of re_sub telemetry;
        wr_content_sanitizer :=
          if String.eqb (tm_content_mode telemetry) "redacted"
          then Some (Telemetry.mkSanitizer (td_patterns (tm_redaction telemetry))) else None;
        wr_evaluators := None;
        wr_faults := (adapter, rc_reliability config ≫= rl_scenario, rc_reliability config ≫= rl_seed);
        wr_circuit := Circuit.circuit_init (rc_reliability config ≫= rl_circuit_breaker);
        wr_distributed_limiter := distributed_limiter |}.

Lemma new_runner_accepts {env : Env} re_sub config adapter i n limiter :
  is_ok (new_runner re_sub config adapter i n limiter) = true <-> 0 <= i < n.
Proof.
  unfold new_runner, valid_shard, guard. destruct (n <? 1) eqn:E1, (0 <=? i) eqn:E2, (i <? n) eqn:E3; bool_simpl;
    cbn; split; intros; try done; lia.
Qed.

(** A runner that exists starts with a closed circuit, and the middleware and
    the sanitizer of the case executions are the ones it built. *)
Lemma new_runner_state {env : Env} re_sub config adapter i n limiter r :
  new_runner re_sub config adapter i n limiter = Ok r ->
  Circuit.c_state (wr_circuit r) = Circuit.Closed /\ wr_faults r = (adapter, scenario config, seed config) /\
  wr_content_sanitizer r = Telemetry.sanitizer_of (rc_telemetry config).
Proof. unfold new_runner. destruct (valid_shard i n); [|done]. by intros [= <-]. Qed.

Inductive wstate := Idle | Busy (i : nat) | Exited | Failed.

Record pool := mkPool {
  pl_next : nat;
  pl_workers : list wstate;
  pl_results : list CaseResult;
  pl_done : list nat;
  pl_lost : list nat;
  pl_stop : bool
}.

Section Pool.
Context (case_returns : TestCase * Z -> CaseResult -> Prop) (work : list (TestCase * Z)) (concurrency : Z).

Definition worker_count : nat := Nat.min (Z.to_nat concurrency) (length work).

Definition pool_init : pool := mkPool 0 (replicate worker_count Idle) [] [] [] false.

Definition set_worker (w : nat) (s : wstate) (p : pool) : pool :=
  mkPool (pl_next p) (<[w := s]> (pl_workers p)) (pl_results p) (pl_done p) (pl_lost p) (pl_stop p).

Inductive pstep : pool -> pool -> Prop :=
| PStop p :
    pl_stop p = false ->
    pstep p (mkPool (pl_next p) (pl_workers p) (pl_results p) (pl_done p) (pl_lost p) true)
| PExit p w :
    pl_workers p !! w = Some Idle -> pl_stop p = true -> pstep p (set_worker w Exited p)
| PDrain p w :
    pl_workers p !! w = Some Idle -> (length work <= pl_next p)%nat -> pstep p (set_worker w Exited p)
| PTake p w :
    pl_workers p !! w = Some Idle -> pl_stop p = false -> (pl_next p < length work)%nat ->
    pstep p (mkPool (S (pl_next p)) (<[w := Busy (pl_next p)]> (pl_workers p)) (pl_results p) (pl_done p)
               (pl_lost p) (pl_stop p))
| PFinish p w i item r :
    pl_workers p !! w = Some (Busy i) -> work !! i = Some item -> case_returns item r ->
    pstep p (mkPool (pl_next p) (<[w := Idle]> (pl_workers p)) (pl_results p ++ [r]) (pl_done p ++ [i])
               (pl_lost p) (pl_stop p))
| PCancel p w i :
    pl_workers p !! w = Some (Busy i) -> pl_stop p = true ->
    pstep p (mkPool (pl_next p) (<[w := Exited]> (pl_workers p)) (pl_results p) (pl_done p)
               (pl_lost p ++ [i]) (pl_stop p))
| PFail p w i :
    pl_workers p !! w = Some (Busy i) ->
    pstep p (mkPool (pl_next p) (<[w := Failed]> (pl_workers p)) (pl_results p) (pl_done p)
               (pl_lost p ++ [i]) (pl_stop p)).

(** The items being executed. *)
Definition busy_of (s : wstate) : option nat := match s with Busy i => Some i | _ => None end.
Definition busy (p : pool) : list nat := omap busy_of (pl_workers p).

Definition failed_worker (p : pool) : Prop := Failed ∈ pl_workers p.
Definition all_exited (p : pool) : Prop := Forall (fun s => s = Exited) (pl_workers p).

Record pool_inv (p : pool) : Prop := {
  inv_next : (pl_next p <= length work)%nat;
  inv_workers : length (pl_workers p) = worker_count;
  inv_items : pl_done p ++ pl_lost p ++ busy p ≡ₚ seq 0 (pl_next p);
  inv_results : Forall2 (fun i r => exists item, work !! i = Some item /\ case_returns item r) (pl_done p) (pl_results p);
  inv_lost : pl_stop p = false -> ~ failed_worker p -> pl_lost p = [];
  inv_exit : pl_stop p = false -> Exited ∈ pl_workers p -> pl_next p = length work
}.

Lemma busy_split (ws : list wstate) w s : ws !! w = Some s ->
  exists l1 l2, ws = l1 ++ s :: l2 /\ forall s', <[w := s']> ws = l1 ++ s' :: l2.
Proof.
  intros H. apply list_elem_of_split_length in H as (l1 & l2 & -> & ->). exists l1, l2. split; [done|].
  intros s'. by rewrite insert_app_r_alt, Nat.sub_diag by lia.
Qed.

(** The busy items after one worker changes state. *)
Lemma busy_update (ws : list wstate) w s s' : ws !! w = Some s ->
  option_list (busy_of s) ++ omap busy_of (<[w := s']> ws) ≡ₚ option_list (busy_of s') ++ omap busy_of ws.
Proof.
  intros Hw. destruct (busy_split ws w s Hw) as (l1 & l2 & -> & Hi). rewrite Hi, !omap_app.
  cbn [omap list_omap]. destruct s, s'; simpl; try done; solve_Permutation.
Qed.
Lemma worker_elem (ws : list wstate) w s s' x :
  ws !! w = Some s -> x ∈ <[w := s']> ws -> x = s' \/ x ∈ ws.
Proof.
  intros Hw. destruct (busy_split ws w s Hw) as (l1 & l2 & -> & ->). rewrite !elem_of_app, !elem_of_cons. naive_solver.
Qed.

Lemma worker_kept (ws : list wstate) w s s' x :
  ws !! w = Some s -> x ∈ ws -> x <> s -> x ∈ <[w := s']> ws.
Proof.
  intros Hw. destruct (busy_split ws w s Hw) as (l1 & l2 & -> & ->). rewrite !elem_of_app, !elem_of_cons. naive_solver.
Qed.

Lemma pool_init_inv : pool_inv pool_init.
Proof.
  split; simpl; try done; [lia|by rewrite length_replicate| |].
  - unfold busy. simpl. by induction worker_count.
  - intros _ H. exfalso. revert H. by rewrite elem_of_replicate; naive_solver.
Qed.

(** A step in which worker [w] leaves state [s] for [s'], neither of them a
    failure, and nothing is lost. *)
Lemma lost_kept p w s s' :
  pool_inv p -> pl_workers p !! w = Some s -> s <> Failed ->
  pl_stop p = false -> ~ (Failed ∈ <[w := s']> (pl_workers p)) -> pl_lost p = [].
Proof.
  intros Hi Hw Hs Hstop Hf. apply (inv_lost _ Hi Hstop). intros Hin. apply Hf. by eapply worker_kept.
Qed.

Lemma exit_kept p w s s' :
  pool_inv p -> pl_workers p !! w = Some s -> s' <> Exited -> pl_stop p = false ->
  Exited ∈ <[w := s']> (pl_workers p) -> pl_next p = length work.
Proof.
  intros Hi Hw Hs Hstop Hin. apply (inv_exit _ Hi Hstop).
  destruct (worker_elem _ _ _ _ _ Hw Hin) as [<-|?]; done.
Qed.

Ltac pool_simpl := cbn [pl_next pl_workers pl_results pl_done pl_lost pl_stop set_worker].

Lemma pstep_inv p p' : pool_inv p -> pstep p p' -> pool_inv p'.
Proof.
  intros Hi Hs. pose proof (inv_items _ Hi) as Hit. unfold busy in Hit.
  destruct Hs as [p Hst|p w Hw Hst|p w Hw Hn|p w Hw Hst Hn|p w i item r Hw Hwk Hr|p w i Hw Hst|p w i Hw];
    split; pool_simpl; try (by apply Hi); try (by rewrite length_insert; apply Hi); try done; try congruence.
  - unfold busy; pool_simpl. pose proof (busy_update _ _ _ Exited Hw) as Hb. simpl in Hb. by rewrite Hb.
  - unfold busy; pool_simpl. pose proof (busy_update _ _ _ Exited Hw) as Hb. simpl in Hb. by rewrite Hb.
  - intros Hstop Hf. by refine (lost_kept _ _ _ _ Hi Hw _ Hstop Hf).
  - intros _ _. pose proof (inv_next _ Hi). lia.
  - unfold busy; pool_simpl. pose proof (busy_update _ _ _ (Busy (pl_next p)) Hw) as Hb. simpl in Hb.
    rewrite Hb, seq_S, <- Hit. simpl. solve_Permutation.
  - intros Hstop Hf. by refine (lost_kept _ _ _ _ Hi Hw _ Hstop Hf).
  - intros Hstop Hin. assert (pl_next p = length work); [|lia]. by refine (exit_kept _ _ _ _ Hi Hw _ Hstop Hin).
  - unfold busy; pool_simpl. pose proof (busy_update _ _ _ Idle Hw) as Hb. simpl in Hb.
    rewrite <- Hit, <- Hb. solve_Permutation.
  - apply Forall2_app; [apply Hi|]. constructor; [by exists item|done].
  - intros Hstop Hf. by refine (lost_kept _ _ _ _ Hi Hw _ Hstop Hf).
  - intros Hstop Hin. by refine (exit_kept _ _ _ _ Hi Hw _ Hstop Hin).
  - unfold busy; pool_simpl. pose proof (busy_update _ _ _ Exited Hw) as Hb. simpl in Hb.
    rewrite <- Hit, <- Hb. solve_Permutation.
  - unfold busy; pool_simpl. pose proof (busy_update _ _ _ Failed Hw) as Hb. simpl in Hb.
    rewrite <- Hit, <- Hb. solve_Permutation.
  - intros _ Hf. exfalso. apply Hf. unfold failed_worker. simpl.
    destruct (busy_split _ _ _ Hw) as (l1 & l2 & _ & ->). rewrite elem_of_app, elem_of_cons. auto.
  - intros Hstop Hin. by refine (exit_kept _ _ _ _ Hi Hw _ Hstop Hin).
Qed.

Lemma busy_length p : (length (busy p) <= length (pl_workers p))%nat.
Proof.
  unfold busy. induction (pl_workers p) as [|s ws IH]; [done|]. unfold omap in *.
  destruct s; cbn [list_omap busy_of length]; lia.
Qed.

Lemma reachable_inv p : star pstep pool_init p -> pool_inv p.
Proof.
  intros H. eapply (star_invariant _ pool_inv); [|exact H|apply pool_init_inv].
  intros s s' Hs Hst. by eapply pstep_inv.
Qed.

(** What is left to do: two steps per item not taken, two per busy worker, one
    per idle one, and one stop request. *)
Definition weight (s : wstate) : nat := match s with Idle => 1 | Busy _ => 2 | _ => 0 end.
Definition measure (p : pool) : nat :=
  (if pl_stop p then 0 else 1) + 2 * (length work - pl_next p) + sum_list_with weight (pl_workers p).

Lemma weight_update (ws : list wstate) w s s' : ws !! w = Some s ->
  (sum_list_with weight (<[w := s']> ws) + weight s = sum_list_with weight ws + weight s')%nat.
Proof.
  intros Hw. destruct (busy_split ws w s Hw) as (l1 & l2 & -> & ->). rewrite !sum_list_with_app. simpl. lia.
Qed.

Lemma pstep_measure p p' : pstep p p' -> (measure p' < measure p)%nat.
Proof.
  unfold measure.
  destruct 1 as [p Hst|p w Hw Hst|p w Hw Hn|p w Hw Hst Hn|p w i item r Hw Hwk Hr|p w i Hw Hst|p w i Hw]; simpl.
  - rewrite Hst. lia.
  - pose proof (weight_update _ _ _ Exited Hw). simpl in *. lia.
  - pose proof (weight_update _ _ _ Exited Hw). simpl in *. lia.
  - pose proof (weight_update _ _ _ (Busy (pl_next p)) Hw). simpl in *. lia.
  - pose proof (weight_update _ _ _ Idle Hw). simpl in *. lia.
  - pose proof (weight_update _ _ _ Exited Hw). simpl in *. lia.
  - pose proof (weight_update _ _ _ Failed Hw). simpl in *. lia.
Qed.

(** C8.  The pool never runs more cases at once than the configured
    concurrency, never takes an item twice and never loses one: every index
    below [next_index] is finished, lost to a cancellation or failure, or being
    executed, exactly once. *)
Theorem pool_exactly_once p :
  star pstep pool_init p ->
  (length (busy p) <= Nat.min (Z.to_nat concurrency) (length work))%nat /\
  pl_done p ++ pl_lost p ++ busy p ≡ₚ seq 0 (pl_next p) /\
  NoDup (pl_done p ++ pl_lost p ++ busy p) /\
  length (pl_results p) = length (pl_done p) /\ (pl_next p <= length work)%nat.
Proof.
  intros H%reachable_inv. split_and!.
  - fold worker_count. rewrite <- (inv_workers _ H). apply busy_length.
  - apply H.
  - rewrite (inv_items _ H). apply NoDup_seq.
  - symmetry. eapply Forall2_length. apply H.
  - apply H.
Qed.

Lemma completed p :
  1 <= concurrency -> pool_inv p -> all_exited p -> pl_stop p = false ->
  exists items, items ≡ₚ work /\ Forall2 case_returns items (pl_results p).
Proof.
  intros Hc H Hx Hstop.
  assert (pl_next p = length work) as Hn.
  { destruct (pl_workers p) as [|s ws] eqn:Ews.
    - pose proof (inv_workers _ H) as Hw. rewrite Ews in Hw. unfold worker_count in Hw. simpl in Hw.
      pose proof (inv_next _ H). lia.
    - apply (inv_exit _ H Hstop). unfold all_exited in Hx. rewrite Ews in *. inversion Hx; subst. left. }
  assert (pl_lost p = []) as Hl.
  { apply (inv_lost _ H Hstop). intros Hin. unfold failed_worker in Hin.
    by eapply Forall_forall in Hx; [|exact Hin]. }
  assert (busy p = []) as Hb.
  { unfold busy. clear - Hx. unfold all_exited in Hx. induction Hx as [|s ws -> Hx IH]; [done|]. exact IH. }
  pose proof (inv_items _ H) as Hit. rewrite Hl, Hb, Hn in Hit. simpl in Hit. rewrite app_nil_r in Hit.
  pose proof (inv_results _ H) as Hr. clear - Hit Hr.
  exists (omap (fun i => work !! i) (pl_done p)). split.
  - rewrite Hit. clear. induction work as [|x l IH] using rev_ind; [done|].
    rewrite length_app. simpl. rewrite Nat.add_1_r, seq_S, omap_app. simpl.
    rewrite lookup_app_r, Nat.sub_diag by lia. simpl.
    apply Permutation_app; [|done]. rewrite <- IH at 2. apply reflexive_eq.
    apply list_omap_ext. apply Forall_Forall2_diag, Forall_forall. intros i Hi%elem_of_seq.
    by rewrite lookup_app_l by lia.
  - clear Hit. induction Hr as [|i r l l' (item & Hw & Hret) Hr IH]; simpl; [constructor|].
    rewrite Hw. by constructor.
Qed.

(** ** Liveness *)

(** A worker that has not returned can move: an idle one takes an item, drains
    or sees the stop request; a busy one returns its result, or is cancelled. *)
Definition ended (s : wstate) : Prop := s = Exited \/ s = Failed.
#[local] Instance ended_dec s : Decision (ended s).
Proof. destruct s; [right|right|left|left]; unfold ended; naive_solver. Defined.
Definition all_ended (p : pool) : Prop := Forall ended (pl_workers p).

(** A step of a run that nobody stops and in which no case raises. *)
Definition quiet_step (p p' : pool) : Prop := pstep p p' /\ pl_stop p' = false /\ ~ failed_worker p'.

Definition quiet_inv (p : pool) : Prop := pool_inv p /\ pl_stop p = false /\ ~ failed_worker p.

Lemma running_worker p : ~ all_ended p -> exists w s, pl_workers p !! w = Some s /\ ~ ended s.
Proof.
  intros H%(not_Forall_Exists ended). apply Exists_exists in H as (s & Hin & Hs).
  apply list_elem_of_lookup in Hin as (w & Hw). by exists w, s.
Qed.

Lemma no_failed_update p w s s' :
  pl_workers p !! w = Some s -> s' <> Failed -> ~ failed_worker p -> ~ (Failed ∈ <[w := s']> (pl_workers p)).
Proof. intros Hw Hs Hf Hin. by destruct (worker_elem _ _ _ _ _ Hw Hin) as [|]. Qed.

Lemma busy_item p w i : pool_inv p -> pl_workers p !! w = Some (Busy i) -> exists item, work !! i = Some item.
Proof.
  intros Hi Hw. apply lookup_lt_is_Some_2.
  assert (i ∈ seq 0 (pl_next p)) as Hs%elem_of_seq.
  { rewrite <- (inv_items _ Hi), !elem_of_app. right; right. unfold busy.
    apply list_elem_of_omap. exists (Busy i). split; [by eapply list_elem_of_lookup_2|done]. }
  pose proof (inv_next _ Hi). lia.
Qed.

Lemma quiet_progress p :
  (forall item, item ∈ work -> exists r, case_returns item r) ->
  quiet_inv p -> all_exited p \/ exists p', quiet_step p p'.
Proof.
  intros Hret (Hi & Hstop & Hf). destruct (decide (all_ended p)) as [Hx|Hx].
  { left. apply Forall_forall. intros s Hin. unfold all_ended in Hx. rewrite Forall_forall in Hx.
    by destruct (Hx s Hin) as [?|Hs]; [|subst s]. }
  right. apply running_worker in Hx as (w & s & Hw & Hs). destruct s as [|i| |]; [| |unfold ended in Hs; naive_solver..].
  - destruct (Nat.le_gt_cases (length work) (pl_next p)) as [Hn|Hn].
    + exists (set_worker w Exited p). split; [by apply PDrain|]. split; [done|]. by eapply no_failed_update.
    + eexists. split; [by apply PTake|]. split; [done|]. by eapply no_failed_update.
  - destruct (busy_item _ _ _ Hi Hw) as (item & Hit).
    destruct (Hret item) as (r & Hr); [by eapply list_elem_of_lookup_2|].
    eexists. split; [by eapply PFinish|]. split; [done|]. by eapply no_failed_update.
Qed.

Lemma quiet_init : quiet_inv pool_init.
Proof.
  split; [apply pool_init_inv|split; [done|]]. unfold failed_worker. simpl. rewrite elem_of_replicate. naive_solver.
Qed.

(** If every case execution returns, every run that is neither stopped nor hit
    by an exception reaches the state in which all workers have returned. *)
Lemma quiet_completes :
  (forall item, item ∈ work -> exists r, case_returns item r) ->
  eventually quiet_step (fun p => star pstep pool_init p /\ all_exited p /\ pl_stop p = false) pool_init.
Proof.
  intros Hret.
  apply (eventually_measure _ _ (fun p => star pstep pool_init p /\ quiet_inv p) measure).
  - intros p [Hstar Hq]. destruct (quiet_progress p Hret Hq) as [Hx|Hn]; [left; by destruct Hq as (_ & ? & _)|].
    right. split; [done|]. intros p' (Hs & Hstop & Hf). split; [split|by apply pstep_measure].
    + eapply star_app; [exact Hstar|by apply star_one].
    + destruct Hq as [Hi _]. split; [by eapply pstep_inv|done].
  - split; [constructor|apply quiet_init].
Qed.

Lemma stopped_progress p : pl_stop p = true -> all_ended p \/ exists p', pstep p p'.
Proof.
  intros Hstop. destruct (decide (all_ended p)) as [|Hx]; [by left|right].
  apply running_worker in Hx as (w & s & Hw & Hs). destruct s as [|i| |]; [| |unfold ended in Hs; naive_solver..].
  - eexists. by apply (PExit p w).
  - eexists. by apply (PCancel p w i).
Qed.

(** C10.  After a stop request no item is taken any more, whatever the schedule,
    and every worker ends: the run always drains. *)
Theorem stop_drains p :
  pl_stop p = true -> eventually pstep (fun p' => all_ended p' /\ pl_next p' = pl_next p) p.
Proof.
  intros Hstop. apply (eventually_measure _ _ (fun q => pl_stop q = true /\ pl_next q = pl_next p) measure); [|done].
  intros q [Hq Hn]. destruct (stopped_progress q Hq); [by left|right]. split; [done|].
  intros q' Hs. split; [|by apply pstep_measure]. destruct Hs; simpl in *; try done; congruence.
Qed.

(** Every schedule of the pool is finite: it has at most two steps per
    work item, one per worker and one for a stop request. *)
Lemma pool_terminates n p :
  nsteps pstep n pool_init p -> (n <= 1 + 2 * length work + worker_count)%nat.
Proof.
  intros H. assert (forall q q' k, nsteps pstep k q q' -> (k + measure q' <= measure q)%nat) as Hm.
  { induction 1 as [|k q q1 q' Hs Hn IH]; [lia|]. apply pstep_measure in Hs. lia. }
  apply Hm in H. unfold measure in H at 2. simpl in H.
  assert (sum_list_with weight (replicate worker_count Idle) = worker_count) as Hw.
  { clear. induction worker_count; simpl; lia. }
  lia.
Qed.
End Pool.

(** ** Shards *)

Lemma concat_app_perm {A B} (f g : A -> list B) l :
  mjoin ((fun i => f i ++ g i) <$> l) ≡ₚ mjoin (f <$> l) ++ mjoin (g <$> l).
Proof. induction l as [|x l IH]; simpl; [done|]. rewrite IH. solve_Permutation. Qed.

Lemma concat_hit {B} (c : B) j l : NoDup l -> j ∈ l ->
  mjoin ((fun i => if j =? i then [c] else []) <$> l) = [c].
Proof.
  intros Hnd. induction Hnd as [|x l Hx Hnd IH]; [by intros ?%elem_of_nil|].
  intros [->|Hin]%elem_of_cons; simpl.
  - rewrite Z.eqb_refl. simpl. f_equal. clear - Hx. induction l as [|y l IH]; [done|]. simpl.
    apply not_elem_of_cons in Hx as [Hne Hx]. rewrite (proj2 (Z.eqb_neq x y)) by done. auto.
  - rewrite (proj2 (Z.eqb_neq j x)) by (intros ->; done). simpl. auto.
Qed.

Lemma select_partition k n cases : 1 <= n ->
  mjoin ((fun i => select_from k i n cases) <$> seqZ 0 n) ≡ₚ cases.
Proof.
  intros Hn. revert k. induction cases as [|c cases IH]; intros k; simpl.
  - induction (seqZ 0 n); done.
  - rewrite (concat_app_perm (fun i => if k mod n =? i then [c] else [])), IH.
    rewrite (concat_hit c (k mod n)); [done|apply NoDup_seqZ|]. apply elem_of_seqZ.
    pose proof (Z.mod_pos_bound k n). lia.
Qed.

Lemma work_length iterations cases : 0 <= iterations ->
  Z.of_nat (length (work_items iterations cases)) = iterations * Z.of_nat (length cases).
Proof.
  intros Hi. unfold work_items.
  assert (forall l : list Z, length (mjoin ((fun it => (fun c => (c, it)) <$> cases) <$> l)) = (length l * length cases)%nat) as ->.
  { induction l as [|x l IH]; [done|]. simpl. rewrite length_app, length_fmap. f_equal. exact IH. }
  rewrite length_seqZ. lia.
Qed.

(** C11.  The shards partition the dataset: over all shard indices every case is
    selected exactly once, the work of a shard is every selected case in every
    iteration, and a runner is built for exactly these shard indices. *)
Theorem shards_partition n cases iterations :
  1 <= n ->
  mjoin ((fun i => selected i n cases) <$> seqZ 0 n) ≡ₚ cases /\
  (forall i case it, (case, it) ∈ work_items iterations (selected i n cases) <->
     case ∈ selected i n cases /\ 0 <= it < iterations) /\
  (forall env re_sub config adapter i limiter,
     is_ok (@new_runner env re_sub config adapter i n limiter) = true <-> 0 <= i < n).
Proof.
  intros Hn. split_and!; [| |intros; apply new_runner_accepts].
  - by apply select_partition.
  - intros i case it. unfold work_items. rewrite list_elem_of_join. split.
    + intros (l & Hin & (j & -> & Hj)%list_elem_of_fmap).
      apply list_elem_of_fmap in Hin as (c & [= -> ->] & Hc). apply elem_of_seqZ in Hj. split; [done|lia].
    + intros [Hc Hit]. exists ((fun c => (c, it)) <$> selected i n cases). split.
      * apply list_elem_of_fmap. eauto.
      * apply list_elem_of_fmap. exists it. split; [done|]. apply elem_of_seqZ. lia.
Qed.
(** ** A whole shard *)

Definition shard_work (config : RunConfig) (shard_index shard_count : Z) (cases : list TestCase) : list (TestCase * Z) :=
  work_items (wl_iterations (rc_workload config)) (selected shard_index shard_count cases).

Definition result_key (r : CaseResult) : string * Z := (cr_case_id r, cr_iteration r).
Definition item_key (item : TestCase * Z) : string * Z := (tc_case_id item.1, item.2).

(** The value [execute] returns. *)
Definition execute_value (config : RunConfig) (shard_index shard_count : Z) (duration_ms : float) (p : pool) :
    pyres (list CaseResult * RunSummary) :=
  s ← summarize (rc_run_id config) shard_index shard_count (pl_results p) (rc_evaluation config) duration_ms;
  Ok (pl_results p, s).

(** The results of a completed pool, for case executions that return what
    [_execute_case] returns. *)
Section Results.
Context (config : RunConfig) (returns : TestCase * Z -> CaseResult -> Prop).
Hypothesis returns_finished : forall item r, returns item r ->
  exists l, disciplined config l /\ finished config item.1 item.2 l r.

Lemma completed_results work concurrency p :
  1 <= concurrency -> star (pstep returns work) (pool_init work concurrency) p -> all_exited p -> pl_stop p = false ->
  exists items, items ≡ₚ work /\
    Forall2 (fun item r => item ∈ work /\ exists l, disciplined config l /\ finished config item.1 item.2 l r)
      items (pl_results p).
Proof.
  intros Hc Hstar%reachable_inv Hx Hstop.
  destruct (completed _ _ _ _ Hc Hstar Hx Hstop) as (items & Hp & Hr). exists items. split; [done|].
  assert (Forall (fun item => item ∈ work) items) as Hin by (apply Forall_forall; intros x Hx'; by rewrite <- Hp).
  clear - Hr Hin returns_finished. induction Hr as [|item r items rs H Hr IH]; [constructor|].
  inversion Hin; subst. constructor; [|by apply IH]. split; [done|]. by apply returns_finished.
Qed.

Lemma results_keys (P : TestCase * Z -> Prop) items results :
  Forall2 (fun item r => P item /\ exists l, disciplined config l /\ finished config item.1 item.2 l r) items results ->
  result_key <$> results ≡ₚ item_key <$> items.
Proof.
  induction 1 as [|item r items rs (_ & l & _ & _ & _ & _ & H1 & H2) Hall IH]; [done|].
  rewrite !fmap_cons, IH. unfold result_key, item_key. by rewrite H1, H2.
Qed.

Lemma results_sound shard_index shard_count cases items results :
  Forall2 (fun item r => item ∈ shard_work config shard_index shard_count cases /\
    exists l, disciplined config l /\ finished config item.1 item.2 l r) items results ->
  Forall (fun r => disciplined config (cr_attempts r) /\ accounted config r /\
                   exists case, case ∈ selected shard_index shard_count cases /\ verdict case r) results.
Proof.
  induction 1 as [|item r items rs (Hin & l & Hd & Hcore & Ha & Hv & _) Hall IH]; constructor; [|done].
  split_and!; [by eapply disciplined_core|done|]. exists item.1. split; [|done].
  destruct item as [c it]. unfold shard_work, work_items in Hin.
  apply list_elem_of_join in Hin as (l' & Hin & (j & -> & _)%list_elem_of_fmap).
  apply list_elem_of_fmap in Hin as (c' & [= -> ->] & Hc). done.
Qed.
End Results.

Section Execute.
Context (re_sub : string -> string -> string) (container_repr : val -> string).
Context (agents_installed openai_installed : bool) (config : RunConfig) (adapter : AgentAdapter)
  (evaluators : Evaluators).

(** A result [_execute_case] can return for an item, in some environment and
    under some limiter. *)
Definition runner_returns (item : TestCase * Z) (r : CaseResult) : Prop :=
  exists (env : Env) (limiter : option Limiter) w w',
    _execute_case re_sub container_repr agents_installed openai_installed config adapter limiter item.1 item.2 w
      = (Ret r, w').

(** [execute] on one schedule, without a stop request. *)
Definition executes (shard_index shard_count : Z) (cases : list TestCase) (p : pool) : Prop :=
  let work := shard_work config shard_index shard_count cases in
  let concurrency := wl_concurrency (rc_workload config) in
  star (pstep runner_returns work) (pool_init work concurrency) p /\ all_exited p /\ pl_stop p = false.

Lemma completed_shard shard_index shard_count cases p :
  1 <= wl_concurrency (rc_workload config) -> executes shard_index shard_count cases p ->
  exists items, items ≡ₚ shard_work config shard_index shard_count cases /\
    Forall2 (fun item r => item ∈ shard_work config shard_index shard_count cases /\
      exists l, disciplined config l /\ finished config item.1 item.2 l r) items (pl_results p).
Proof.
  intros Hc (Hstar & Hx & Hstop). eapply completed_results; [|exact Hc|exact Hstar|done..].
  intros item r (env & lim & w & w' & H). by apply execute_case_post in H.
Qed.

Lemma completed_keys shard_index shard_count cases p :
  1 <= wl_concurrency (rc_workload config) -> executes shard_index shard_count cases p ->
  result_key <$> pl_results p ≡ₚ item_key <$> shard_work config shard_index shard_count cases.
Proof.
  intros Hc He. destruct (completed_shard _ _ _ _ Hc He) as (items & Hp & Hall).
  rewrite <- Hp. exact (results_keys config (fun item => item ∈ shard_work config shard_index shard_count cases) _ _ Hall).
Qed.

(** C2.  End to end: a shard that is neither stopped nor hit by an exception
    returns exactly one result per case and iteration of the shard, each with
    disciplined attempts, the sums of its attempts and a sound verdict, and its
    summary counts all of them. *)
Theorem shard_end_to_end shard_index shard_count cases p duration_ms results summary :
  1 <= wl_concurrency (rc_workload config) -> 0 <= wl_iterations (rc_workload config) ->
  executes shard_index shard_count cases p ->
  execute_value config shard_index shard_count duration_ms p = Ok (results, summary) ->
  result_key <$> results ≡ₚ item_key <$> shard_work config shard_index shard_count cases /\
  Forall (fun r => disciplined config (cr_attempts r) /\ accounted config r /\
                   exists case, case ∈ selected shard_index shard_count cases /\ verdict case r) results /\
  rs_total summary = wl_iterations (rc_workload config) * Z.of_nat (length (selected shard_index shard_count cases)).
Proof.
  intros Hc Hi He Hv. pose proof (completed_keys _ _ _ _ Hc He) as Hk.
  destruct (completed_shard _ _ _ _ Hc He) as (items & Hp & Hall).
  unfold execute_value in Hv. destruct (summarize _ _ _ _ _ _) as [s|] eqn:Es; simpl in Hv; [|done].
  injection Hv as <- <-. apply summarize_inv in Es as (_ & _ & _ & Ht & _). split_and!; [done| |].
  - by eapply results_sound.
  - rewrite Ht. apply Forall2_length in Hall. rewrite <- Hall, (Permutation_length Hp).
    unfold shard_work. by rewrite work_length by done.
Qed.

(** C9.  If every case execution of the shard returns, then on every schedule that is
    neither stopped nor hit by an exception the pool keeps moving until all
    workers have returned, and it then holds exactly one result for every case
    and iteration of the shard. *)
Theorem shard_completes shard_index shard_count cases :
  1 <= wl_concurrency (rc_workload config) ->
  (forall item, item ∈ shard_work config shard_index shard_count cases -> exists r, runner_returns item r) ->
  eventually (quiet_step runner_returns (shard_work config shard_index shard_count cases))
    (fun p => executes shard_index shard_count cases p /\
       result_key <$> pl_results p ≡ₚ item_key <$> shard_work config shard_index shard_count cases)
    (pool_init (shard_work config shard_index shard_count cases) (wl_concurrency (rc_workload config))).
Proof.
  intros Hc Hret. eapply eventually_mono; [|by apply quiet_completes].
  intros p He. split; [exact He|by apply completed_keys].
Qed.
End Execute.
(** ** A schedule on concrete inputs: one item, taken, finished, drained *)

Section SampleRun.
Context (R : TestCase * Z -> CaseResult -> Prop) (item : TestCase * Z) (r : CaseResult) (Hr : R item r).

Definition sample_taken : pool := mkPool 1 [Busy 0] [] [] [] false.
Definition sample_back : pool := mkPool 1 [Idle] [r] [0%nat] [] false.
Definition sample_end : pool := mkPool 1 [Exited] [r] [0%nat] [] false.

Lemma sample_step1 : pstep R [item] (pool_init [item] 1) sample_taken.
Proof. apply (PTake R [item] (pool_init [item] 1) 0); simpl; [done|done|lia]. Qed.

Lemma sample_step2 : pstep R [item] sample_taken sample_back.
Proof. by apply (PFinish R [item] sample_taken 0 0 item r). Qed.

Lemma sample_step3 : pstep R [item] sample_back sample_end.
Proof. apply (PDrain R [item] sample_back 0); simpl; [done|lia]. Qed.

Lemma sample_reach : star (pstep R [item]) (pool_init [item] 1) sample_end.
Proof.
  eapply star_next; [apply sample_step1|]. eapply star_next; [apply sample_step2|].
  apply star_one, sample_step3.
Qed.
End SampleRun.

Definition any_result (_ : TestCase * Z) (_ : CaseResult) : Prop := True.
Abbreviation sample_item := (Faults.sample_case, 0).

Lemma pool_exactly_once_witness :
  NoDup (pl_done (sample_end (sample_result true 10))) /\
  (length (busy (sample_end (sample_result true 10))) <= 1)%nat.
Proof.
  destruct (pool_exactly_once any_result [sample_item] 1 (sample_end (sample_result true 10))
    (sample_reach any_result sample_item (sample_result true 10) I)) as (H1 & _ & H3 & _).
  split; [exact H3|exact H1].
Defined.

Definition sample_stopped : pool := mkPool 1 [Busy 0; Idle] [] [] [] true.

Lemma stop_drains_witness :
  eventually (pstep any_result [sample_item; sample_item]) (fun p => all_ended p /\ pl_next p = 1%nat) sample_stopped.
Proof. apply (stop_drains any_result [sample_item; sample_item] sample_stopped). reflexivity. Defined.

Lemma shards_partition_witness :
  mjoin ((fun i => selected i 2 [Faults.sample_case; Faults.sample_case; Faults.sample_case]) <$> seqZ 0 2)
    ≡ₚ [Faults.sample_case; Faults.sample_case; Faults.sample_case].
Proof. apply (shards_partition 2 _ 1). lia. Defined.

Definition ret_or {A} (d : A) (o : Effects.outcome A) : A := match o with Ret a => a | _ => d end.

Definition sample_value : CaseResult :=
  ret_or (sample_result false 0) (fst (sample_run "rate_limit" Faults.sample_task)).

(** One case, one iteration, whose first attempt is rate limited. *)
Lemma shard_end_to_end_witness :
  exists p results summary,
    executes Telemetry.no_redaction (fun _ => "") false false (sample_config "rate_limit")
      (Faults.const_adapter Faults.sample_response) passing 0 1 [Faults.sample_case] p /\
    execute_value (sample_config "rate_limit") 0 1 (Fin 0) p = Ok (results, summary) /\
    rs_total summary = 1 /\ rs_cost_usd summary = Some "0.000005850000".
Proof.
  set (r := sample_value).
  assert (executes Telemetry.no_redaction (fun _ => "") false false (sample_config "rate_limit")
    (Faults.const_adapter Faults.sample_response) passing 0 1 [Faults.sample_case] (sample_end r)) as He.
  { split; [|split; [repeat constructor|reflexivity]].
    apply (sample_reach _ (Faults.sample_case, 0) r).
    exists Faults.quiet_env, None, Faults.sample_task, (sample_run "rate_limit" Faults.sample_task).2.
    vm_compute. reflexivity. }
  assert (exists results summary, execute_value (sample_config "rate_limit") 0 1 (Fin 0) (sample_end r) = Ok (results, summary) /\
    rs_cost_usd summary = Some "0.000005850000") as (results & summary & Hv & Hc).
  { eexists _, _. split; [vm_compute; reflexivity|reflexivity]. }
  exists (sample_end r), results, summary. split; [exact He|]. split; [exact Hv|]. split; [|exact Hc].
  destruct (shard_end_to_end _ _ _ _ (sample_config "rate_limit") _ _ 0 1 [Faults.sample_case] _ _ _ _
    ltac:(done) ltac:(done) He Hv) as (_ & _ & Ht).
  exact Ht.
Defined.

Lemma shard_completes_witness :
  eventually (quiet_step (runner_returns Telemetry.no_redaction (fun _ => "") false false (sample_config "rate_limit")
      (Faults.const_adapter Faults.sample_response) passing) [(Faults.sample_case, 0)])
    (fun p => length (pl_results p) = 1%nat) (pool_init [(Faults.sample_case, 0)] 1).
Proof.
  eapply eventually_mono; [|apply (shard_completes Telemetry.no_redaction (fun _ => "") false false
    (sample_config "rate_limit") (Faults.const_adapter Faults.sample_response) passing 0 1 [Faults.sample_case])].
  - intros p [_ H]. apply Permutation_length in H. rewrite length_fmap in H. exact H.
  - done.
  - intros item Hin. exists sample_value.
    assert (item = (Faults.sample_case, 0)) as -> by (revert Hin; vm_compute; set_solver).
    exists Faults.quiet_env, None, Faults.sample_task, (sample_run "rate_limit" Faults.sample_task).2.
    vm_compute. reflexivity.
Defined.
End Pool.
