(* ===== verification/JsonParse.v ===== *)
(** * Reading JSON ([json.loads])

    The decoder of the Standard Library on text: whitespace, strings with their
    escapes, integers and floats, the three constants [NaN], [Infinity] and
    [-Infinity], arrays, and objects in which a repeated key keeps its place and
    takes its last value.  [None] is a decoding error.  A lone surrogate escape
    is kept as its three-byte form.  Fuel is the length of the text, which bounds
    the nesting. *)
From S2P Require Import Prelude PyFloat PyStr PyVal PyJson.
Import PyFloat PyStr PyVal PyJson.

Module JsonParse.

Definition json_space (c : ascii) : bool :=
  let b := byte_of c in (b =? 32) || (b =? 9) || (b =? 10) || (b =? 13).

Fixpoint skip_ws (s : string) : string :=
  match s with
  | String c s' => if json_space c then skip_ws s' else s
  | "" => ""
  end.

Definition hex_val (c : ascii) : option Z :=
  let b := byte_of c in
  if (48 <=? b) && (b <=? 57) then Some (b - 48)
  else if (97 <=? b) && (b <=? 102) then Some (b - 87)
  else if (65 <=? b) && (b <=? 70) then Some (b - 55)
  else None.

Definition hex4 (a b c d : ascii) : option Z :=
  a ← hex_val a; b ← hex_val b; c ← hex_val c; d ← hex_val d;
  Some (((a * 16 + b) * 16 + c) * 16 + d).

Definition byte_chr (b : Z) : ascii := ascii_of_nat (Z.to_nat b).

(** UTF-8 of a code point. *)
Definition encode_cp (cp : Z) : string :=
  if cp <? 128 then String (byte_chr cp) ""
  else if cp <? 2048 then String (byte_chr (192 + cp / 64)) (String (byte_chr (128 + cp mod 64)) "")
  else if cp <? 65536 then
    String (byte_chr (224 + cp / 4096))
      (String (byte_chr (128 + cp / 64 mod 64)) (String (byte_chr (128 + cp mod 64)) ""))
  else
    String (byte_chr (240 + cp / 262144))
      (String (byte_chr (128 + cp / 4096 mod 64))
        (String (byte_chr (128 + cp / 64 mod 64)) (String (byte_chr (128 + cp mod 64)) ""))).

Definition simple_escape (c : ascii) : option ascii :=
  if Ascii.eqb c quote then Some quote
  else if Ascii.eqb c backslash then Some backslash
  else if Ascii.eqb c "/" then Some "/"%char
  else if Ascii.eqb c "b" then Some (byte_chr 8)
  else if Ascii.eqb c "f" then Some (byte_chr 12)
  else if Ascii.eqb c "n" then Some (byte_chr 10)
  else if Ascii.eqb c "r" then Some (byte_chr 13)
  else if Ascii.eqb c "t" then Some (byte_chr 9)
  else None.

Definition is_high (cp : Z) : bool := (55296 <=? cp) && (cp <=? 56319).
Definition is_low (cp : Z) : bool := (56320 <=? cp) && (cp <=? 57343).

(** The characters up to the closing quote, and the text after it. *)
Fixpoint scan_str (s : string) : option (string * string) :=
  match s with
  | "" => None
  | String c s1 =>
      if Ascii.eqb c quote then Some ("", s1)
      else if Ascii.eqb c backslash then
        match s1 with
        | "" => None
        | String e s2 =>
            if Ascii.eqb e "u" then
              match s2 with
              | String a1 (String a2 (String a3 (String a4 s3))) =>
                  match hex4 a1 a2 a3 a4 with
                  | None => None
                  | Some cp =>
                      let single :=
                        match scan_str s3 with
                        | Some (t, rest) => Some (encode_cp cp +:+ t, rest)
                        | None => None
                        end in
                      if is_high cp then
                        match s3 with
                        | String b0 (String b1 (String b2 (String b3 (String b4 (String b5 s4))))) =>
                            if Ascii.eqb b0 backslash && Ascii.eqb b1 "u" then
                              match hex4 b2 b3 b4 b5 with
                              | Some cp2 =>
                                  if is_low cp2 then
                                    match scan_str s4 with
                                    | Some (t, rest) =>
                                        Some (encode_cp (65536 + (cp - 55296) * 1024 + (cp2 - 56320)) +:+ t, rest)
                                    | None => None
                                    end
                                  else single
                              | None => single
                              end
                            else single
                        | _ => single
                        end
                      else single
                  end
              | _ => None
              end
            else
              match simple_escape e with
              | Some d => match scan_str s2 with Some (t, rest) => Some (String d t, rest) | None => None end
              | None => None
              end
        end
      else if byte_of c <? 32 then None
      else match scan_str s1 with Some (t, rest) => Some (String c t, rest) | None => None end
  end.

Fixpoint span_digits (s : string) : string * string :=
  match s with
  | String c s' => if is_digit c then let '(a, b) := span_digits s' in (String c a, b) else ("", s)
  | "" => ("", "")
  end.

Definition digits_Z (s : string) : Z := match digit_part s with Some (v, _) => v | None => 0 end.

(** The integer part: [0] alone or digits that do not start with 0. *)
Definition int_part (s : string) : option (string * string) :=
  match s with
  | String c s' =>
      if Ascii.eqb c "0" then Some ("0", s')
      else if is_digit c then Some (span_digits s) else None
  | "" => None
  end.

(** The optional fraction and exponent. *)
Definition frac_part (s : string) : option string * string :=
  match s with
  | String "." s' => match span_digits s' with ("", _) => (None, s) | (f, rest) => (Some f, rest) end
  | _ => (None, s)
  end.

Definition exp_part (s : string) : option Z * string :=
  match s with
  | String c s' =>
      if Ascii.eqb c "e" || Ascii.eqb c "E" then
        let '(neg, body) := split_sign s' in
        match span_digits body with
        | ("", _) => (None, s)
        | (e, rest) => (Some (if neg : bool then - digits_Z e else digits_Z e), rest)
        end
      else (None, s)
  | "" => (None, s)
  end.

Definition scan_number (s : string) : option (val * string) :=
  let '(neg, body) := match s with String "-" s' => (true, s') | _ => (false, s) end in
  match int_part body with
  | None => None
  | Some (ip, rest) =>
      let '(fp, rest1) := frac_part rest in
      let '(ep, rest2) := exp_part rest1 in
      let sign_Z (z : Z) := if neg : bool then - z else z in
      let sign_f (x : float) := if neg : bool then fneg x else x in
      match fp, ep with
      | None, None => Some (VInt (sign_Z (digits_Z ip)), rest2)
      | _, _ =>
          let f := default "" fp in
          Some (VFloat (sign_f (float_of_decimal (digits_Z (ip +:+ f)) (default 0 ep - bytelen f))), rest2)
      end
  end.

Definition constants : list (string * val) :=
  [("null", VNone); ("true", VBool true); ("false", VBool false);
   ("NaN", VFloat NaN); ("Infinity", VFloat PInf); ("-Infinity", VFloat NInf)].

Fixpoint scan_constant (l : list (string * val)) (s : string) : option (val * string) :=
  match l with
  | [] => None
  | (name, v) :: l' => if startswith name s then Some (v, drop_str (String.length name) s) else scan_constant l' s
  end.

Fixpoint scan_value (fuel : nat) (s : string) : option (val * string) :=
  match fuel with
  | O => None
  | S f =>
      match s with
      | "" => None
      | String c s' =>
          if Ascii.eqb c quote then '(t, rest) ← scan_str s'; Some (VStr t, rest)
          else if Ascii.eqb c "{" then
            match skip_ws s' with
            | String "}" rest => Some (VDict [], rest)
            | s2 => '(d, rest) ← scan_members f s2 []; Some (VDict d, rest)
            end
          else if Ascii.eqb c "[" then
            match skip_ws s' with
            | String "]" rest => Some (VList [], rest)
            | s2 => '(l, rest) ← scan_items f s2; Some (VList l, rest)
            end
          else
            match scan_constant constants s with
            | Some r => Some r
            | None => scan_number s
            end
      end
  end
with scan_items (fuel : nat) (s : string) : option (list val * string) :=
  match fuel with
  | O => None
  | S f =>
      '(v, rest) ← scan_value f s;
      match skip_ws rest with
      | String "," rest' => '(l, rest'') ← scan_items f (skip_ws rest'); Some (v :: l, rest'')
      | String "]" rest' => Some ([v], rest')
      | _ => None
      end
  end
with scan_members (fuel : nat) (s : string) (acc : dict) : option (dict * string) :=
  match fuel with
  | O => None
  | S f =>
      match s with
      | String c s' =>
          if Ascii.eqb c quote then
            '(k, rest) ← scan_str s';
            match skip_ws rest with
            | String ":" rest' =>
                '(v, rest'') ← scan_value f (skip_ws rest');
                let acc' := dict_set acc k v in
                match skip_ws rest'' with
                | String "," r => scan_members f (skip_ws r) acc'
                | String "}" r => Some (acc', r)
                | _ => None
                end
            | _ => None
            end
          else None
      | "" => None
      end
  end.

(** [json.loads(s)] *)
Definition loads (s : string) : option val :=
  '(v, rest) ← scan_value (2 * S (String.length s)) (skip_ws s);
  match skip_ws rest with "" => Some v | _ => None end.

Definition qt (s : string) : string := String quote (s +:+ String quote "").

Example loads_object :
  loads (" {" +:+ qt "a" +:+ ": [1, -2.5e1, true], " +:+ qt "b" +:+ " : null, " +:+ qt "a" +:+ ":" +:+ qt "x\u0041\n" +:+ "} ")
  = Some (VDict [("a", VStr ("xA" +:+ String (byte_chr 10) "")); ("b", VNone)]).
Proof. by vm_compute. Qed.

Example loads_rejects : loads "[1,]" = None /\ loads "01" = None /\ loads "{}x" = None /\ loads "" = None.
Proof. by vm_compute. Qed.
End JsonParse.
