(* ===== verification/JsonCodec.v ===== *)
(** * [json.loads] after [json.dumps]

    What the encoder writes, the decoder reads back: strings with their escapes,
    integers, floats through the shortest decimal, lists and dictionaries, under
    any separators made of a comma or a colon and blanks.  With sorted keys the
    value read back is the value with its dictionaries sorted. *)
From S2P Require Import Prelude PyFloat PyStr PyVal PyJson PyDecimal FloatRepr JsonParse.
Import PyFloat PyStr PyVal PyJson PyDecimal FloatRepr JsonParse.

Module JsonCodec.

#[local] Opaque Z.pow.

Lemma app_nil (t : string) : "" +:+ t = t.
Proof. done. Qed.

Lemma app_cons c (s t : string) : String c s +:+ t = String c (s +:+ t).
Proof. done. Qed.

(** ** Numbers *)

Definition starts_digit (s : string) : bool := match s with String c _ => is_digit c | "" => false end.

(** A number ends before this text. *)
Definition number_end (s : string) : bool :=
  match s with
  | "" => true
  | String c _ => negb (is_digit c || Ascii.eqb c "." || Ascii.eqb c "e" || Ascii.eqb c "E")
  end.

Lemma number_end_digit s : number_end s = true -> starts_digit s = false.
Proof. destruct s as [|c s]; [done|]. cbn [number_end starts_digit]. intros. by bool_simpl. Qed.

Lemma span_digits_app s rest :
  all_chars is_digit s = true -> starts_digit rest = false -> span_digits (s +:+ rest) = (s, rest).
Proof.
  intros Hs Hr. induction s as [|c s IH].
  - rewrite app_nil. destruct rest as [|c rest]; [done|]. cbn [starts_digit] in Hr. cbn [span_digits]. by rewrite Hr.
  - cbn [all_chars] in Hs. bool_simpl. rewrite app_cons.
    cbn [span_digits]. rewrite H, IH by done. done.
Qed.

(** The integer parts [int_part] accepts. *)
Definition int_text (s : string) : Prop :=
  s = "0" \/ (all_chars is_digit s = true /\ match s with String c _ => c <> "0"%char | "" => False end).

Lemma int_part_app ip rest :
  int_text ip -> starts_digit rest = false -> int_part (ip +:+ rest) = Some (ip, rest).
Proof.
  intros [->|[Hd Hc]] Hr; [done|]. destruct ip as [|c s]; [done|].
  rewrite app_cons. cbn [int_part].
  rewrite (proj2 (Ascii.eqb_neq c "0") Hc). cbn [all_chars] in Hd. bool_simpl. rewrite H.
  f_equal. apply (span_digits_app (String c s)); [|done]. cbn [all_chars]. by rewrite H.
Qed.

Lemma int_text_digits s : int_text s -> all_chars is_digit s = true /\ s <> "".
Proof. intros [->|[H Hc]]; [done|]. by destruct s. Qed.

Lemma digits_Z_value s : all_chars is_digit s = true -> s <> "" -> digits_Z s = digits_value 0 s.
Proof. intros. unfold digits_Z. by rewrite digit_part_value. Qed.

(** The text of a non-negative integer has no leading zero. *)
Lemma str_of_Z_int_text z : 0 <= z -> int_text (str_of_Z z).
Proof.
  intros Hz. destruct (str_of_Z_digits z Hz) as (Hd & Hne & Hv & Hlen).
  destruct (str_of_Z z) as [|c s] eqn:E; [done|].
  destruct (ascii_dec c "0") as [->|Hc]; [|by right].
  left. destruct s as [|c' s]; [done|]. exfalso. cbn [all_chars] in Hd. apply andb_true_iff in Hd as [_ Hd].
  change (digits_value 0 (String "0" (String c' s))) with (digits_value 0 (String c' s)) in Hv.
  pose proof (digits_value_range 0 (String c' s) Hd ltac:(lia)) as Hr.
  unfold bytelen in *. cbn [String.length] in *.
  specialize (Hlen (Z.of_nat (S (String.length s))) ltac:(lia) ltac:(lia)). lia.
Qed.

Definition sign_char (neg : bool) : string := if neg then "-" else "".
Definition signed (neg : bool) (x : float) : float := if neg then fneg x else x.

Lemma digit_not_minus c : is_digit c = true -> c <> "-"%char.
Proof. intros H ->. done. Qed.

(** The sign is split off before a digit. *)
Lemma split_minus neg body s :
  s = sign_char neg +:+ body -> starts_digit body = true ->
  match s with String "-" s' => (true, s') | _ => (false, s) end = (neg, body).
Proof.
  intros -> Hb. destruct neg; [done|]. unfold sign_char. rewrite app_nil. destruct body as [|c s]; [done|]. cbn [starts_digit] in Hb.
  pose proof (digit_not_minus c Hb). destruct c as [[] [] [] [] [] [] [] []]; done.
Qed.

Lemma starts_digit_app s t : all_chars is_digit s = true -> s <> "" -> starts_digit (s +:+ t) = true.
Proof. destruct s as [|c s]; [done|]. cbn [all_chars]. rewrite app_cons. intros. by bool_simpl. Qed.
Definition frac_text (fp : option string) : string := match fp with Some f => "." +:+ f | None => "" end.
Definition exp_text (ep : option Z) : string :=
  match ep with
  | Some e => "e" +:+ (if e <? 0 then "-" else "+") +:+ zfill 2 (str_of_Z (Z.abs e))
  | None => ""
  end.
Definition frac_ok (fp : option string) : Prop := forall f, fp = Some f -> all_chars is_digit f = true /\ f <> "".

Lemma zfill_digits n z : 0 <= z ->
  all_chars is_digit (zfill n (str_of_Z z)) = true /\ zfill n (str_of_Z z) <> "" /\
  digits_value 0 (zfill n (str_of_Z z)) = z.
Proof.
  intros Hz. destruct (str_of_Z_digits z Hz) as (Hd & Hne & Hv & _). unfold zfill.
  rewrite all_chars_app, Hd, digits_value_zeros, Hv, andb_true_r.
  generalize (n - String.length (str_of_Z z))%nat. intros m.
  split_and!; [by induction m|by destruct m|done].
Qed.

Lemma after_int fp ep rest : number_end rest = true -> starts_digit (frac_text fp +:+ exp_text ep +:+ rest) = false.
Proof. intros Hr. destruct fp, ep; try done. by apply number_end_digit. Qed.

Lemma after_frac ep rest : number_end rest = true -> starts_digit (exp_text ep +:+ rest) = false.
Proof. apply (after_int None ep). Qed.

Lemma frac_part_app fp ep rest :
  frac_ok fp -> number_end rest = true ->
  frac_part (frac_text fp +:+ exp_text ep +:+ rest) = (fp, exp_text ep +:+ rest).
Proof.
  intros Hf Hr. destruct fp as [f|].
  - destruct (Hf f eq_refl) as [Hd Hne]. unfold frac_text. rewrite !app_str_assoc.
    change ("." +:+ f +:+ exp_text ep +:+ rest) with (String "." (f +:+ exp_text ep +:+ rest)). cbn [frac_part].
    rewrite span_digits_app by (done || by apply after_frac). by destruct f.
  - unfold frac_text. rewrite app_nil. destruct ep as [e|]; [done|]. unfold exp_text. rewrite app_nil.
    destruct rest as [|c rest]; [done|]. cbn [number_end] in Hr. bool_simpl. cbn [frac_part].
    destruct c as [[] [] [] [] [] [] [] []]; done.
Qed.

Lemma split_exp_sign e t : starts_digit t = true -> split_sign ((if e <? 0 then "-" else "+") +:+ t) = (e <? 0, t).
Proof. intros _. by destruct (e <? 0). Qed.

Lemma exp_part_app ep rest : number_end rest = true -> exp_part (exp_text ep +:+ rest) = (ep, rest).
Proof.
  intros Hr. destruct ep as [e|].
  - destruct (zfill_digits 2 (Z.abs e) ltac:(lia)) as (Hd & Hne & Hv). unfold exp_text. rewrite !app_str_assoc.
    set (z := zfill 2 (str_of_Z (Z.abs e))) in *. rewrite app_cons, app_nil. cbn [exp_part].
    change (Ascii.eqb "e" "e" || Ascii.eqb "e" "E") with true. cbv iota.
    rewrite split_exp_sign by (by apply starts_digit_app).
    rewrite span_digits_app by (done || by apply number_end_digit).
    destruct z as [|c z'] eqn:Ez; [done|]. rewrite <- Ez in *. rewrite digits_Z_value, Hv by done.
    destruct (e <? 0) eqn:E; bool_simpl; do 2 f_equal; lia.
  - unfold exp_text. rewrite app_nil. destruct rest as [|c rest]; [done|]. cbn [number_end] in Hr. bool_simpl.
    cbn [exp_part]. by rewrite H0, H1.
Qed.

Definition number_val (neg : bool) (ip : string) (fp : option string) (ep : option Z) : val :=
  match fp, ep with
  | None, None => VInt (if neg then - digits_value 0 ip else digits_value 0 ip)
  | _, _ =>
      let f := default "" fp in
      VFloat (signed neg (float_of_decimal (digits_value 0 (ip +:+ f)) (default 0 ep - bytelen f)))
  end.

Lemma scan_number_app neg ip fp ep rest :
  int_text ip -> frac_ok fp -> number_end rest = true ->
  scan_number (sign_char neg +:+ ip +:+ frac_text fp +:+ exp_text ep +:+ rest) = Some (number_val neg ip fp ep, rest).
Proof.
  intros Hi Hf Hr. destruct (int_text_digits ip Hi) as [Hd Hne]. unfold scan_number.
  rewrite (split_minus neg _ _ eq_refl) by (by apply starts_digit_app).
  rewrite int_part_app by (done || by apply after_int).
  rewrite frac_part_app, exp_part_app by done.
  assert (all_chars is_digit (ip +:+ default "" fp) = true /\ ip +:+ default "" fp <> "") as [Hd' Hne'].
  { rewrite all_chars_app, Hd. 
    destruct fp as [f|]; cbn [from_option]; unfold id; [destruct (Hf f eq_refl) as [Hfd _]; rewrite Hfd|]; by destruct ip. }
  unfold number_val. rewrite (digits_Z_value ip) by done. by destruct fp, ep; rewrite ?digits_Z_value.
Qed.
(** ** [repr] of a float *)

Lemma take_drop_str n s : take_str n s +:+ drop_str n s = s.
Proof. revert s. induction n as [|n IH]; intros [|c s]; try done. cbn [take_str drop_str]. by rewrite app_cons, IH. Qed.

Lemma all_chars_split p n s :
  all_chars p s = true -> all_chars p (take_str n s) = true /\ all_chars p (drop_str n s) = true.
Proof. intros H. rewrite <- (take_drop_str n s), all_chars_app in H. by bool_simpl. Qed.

Lemma length_drop_str n s : String.length (drop_str n s) = (String.length s - n)%nat.
Proof. revert s. induction n as [|n IH]; intros [|c s]; try done. apply IH. Qed.

Lemma nonempty_length s : (1 <= String.length s)%nat -> s <> "".
Proof. intros H ->. cbn in H. lia. Qed.

(** A prefix of the digits of a positive number is an integer part. *)
Lemma int_text_take n s : int_text s -> s <> "0" -> (1 <= n)%nat -> int_text (take_str n s).
Proof.
  intros [->|[Hd Hc]] Hne Hn; [done|]. right. split; [by apply all_chars_split|].
  destruct s as [|c s]; [done|]. by destruct n; [lia|].
Qed.

(** The digits of a number with [p] digits. *)
Lemma digits_text d p : 1 <= p -> 10 ^ (p - 1) <= d < 10 ^ p ->
  let ds := str_of_Z d in
  all_chars is_digit ds = true /\ digits_value 0 ds = d /\ bytelen ds = p /\ int_text ds /\ ds <> "0".
Proof.
  intros Hp Hd. pose proof (pow10_pos (p - 1) ltac:(lia)).
  destruct (str_of_Z_digits d ltac:(lia)) as (Ha & Hne & Hv & Hlen).
  pose proof (digits_value_range 0 _ Ha ltac:(lia)) as Hr. rewrite Hv in Hr.
  assert (10 ^ (p - 1) < 10 ^ bytelen (str_of_Z d)) as Hlt%Z.pow_lt_mono_r_iff by (unfold bytelen in *; lia).
  2,3: unfold bytelen; lia.
  specialize (Hlen p Hp ltac:(lia)). split_and!; [done|done|lia|apply str_of_Z_int_text; lia|].
  intros E. rewrite E in Hv. change (digits_value 0 "0") with 0 in Hv. lia.
Qed.

Lemma zeros_value n acc : digits_value acc (concat_str (replicate n "0")) = acc * 10 ^ Z.of_nat n.
Proof.
  revert acc. induction n as [|n IH]; intros acc; [cbn; rewrite Z.pow_0_r; lia|].
  cbn [replicate concat_str foldr]. change (String.append "0" ?s) with (String "0" s). cbn [digits_value].
  fold (concat_str (replicate n "0")). rewrite IH, Nat2Z.inj_succ, Z.pow_succ_r by lia.
  change (digit_val "0") with 0. ring.
Qed.

Lemma zeros_digits n : all_chars is_digit (concat_str (replicate n "0")) = true.
Proof. by induction n. Qed.

Lemma zeros_length n : String.length (concat_str (replicate n "0")) = n.
Proof. induction n as [|n IH]; [done|]. exact (f_equal S IH). Qed.

(** A text that scans as a float: its parts and the value they stand for. *)
Definition float_text (s : string) (x : float) : Prop :=
  exists ip fp ep, s = ip +:+ frac_text fp +:+ exp_text ep /\ int_text ip /\ frac_ok fp /\
    (fp <> None \/ ep <> None) /\
    float_of_decimal (digits_value 0 (ip +:+ default "" fp)) (default 0 ep - bytelen (default "" fp)) = x.

Lemma frac_ok_some f : all_chars is_digit f = true -> f <> "" -> frac_ok (Some f).
Proof. by intros H1 H2 f' [= <-]. Qed.

Lemma float_text_frac ip f x :
  int_text ip -> all_chars is_digit f = true -> f <> "" ->
  float_of_decimal (digits_value 0 (ip +:+ f)) (- bytelen f) = x -> float_text (ip +:+ "." +:+ f) x.
Proof.
  intros Hi Hf Hne Hx. exists ip, (Some f), None. split_and!; [|done|by apply frac_ok_some|by left|done].
  cbn [frac_text exp_text]. by rewrite app_str_nil.
Qed.
(** The four shapes of [repr]: a small fraction, an integral value, a point inside the digits,
    and the exponent form. *)
Lemma repr_small_text d p e x :
  1 <= p -> 10 ^ (p - 1) <= d < 10 ^ p -> e < 0 -> float_of_decimal d (e - p + 1) = x ->
  float_text ("0." +:+ concat_str (replicate (Z.to_nat (- e - 1)) "0") +:+ str_of_Z d) x.
Proof.
  intros Hp Hd He Hx. destruct (digits_text d p Hp Hd) as (Ha & Hv & Hl & _).
  set (z := concat_str (replicate (Z.to_nat (- e - 1)) "0")).
  assert (String.length z = Z.to_nat (- e - 1)) as Hz by apply zeros_length.
  apply (float_text_frac "0" (z +:+ str_of_Z d)); [by left| | |].
  - rewrite all_chars_app. unfold z. by rewrite zeros_digits.
  - apply nonempty_length. rewrite length_app_str. unfold bytelen in Hl. lia.
  - rewrite app_cons, app_nil. cbn [digits_value]. change (0 * 10 + digit_val "0") with 0.
    unfold z. rewrite digits_value_zeros, Hv. rewrite <- Hx. f_equal. unfold bytelen in *.
    fold z. rewrite length_app_str. lia.
Qed.

Lemma repr_integral_text d p e x :
  1 <= p -> 10 ^ (p - 1) <= d < 10 ^ p -> p <= e + 1 -> float_of_decimal d (e - p + 1) = x ->
  float_text (str_of_Z d +:+ concat_str (replicate (Z.to_nat (e + 1 - p)) "0") +:+ ".0") x.
Proof.
  intros Hp Hd He Hx. destruct (digits_text d p Hp Hd) as (Ha & Hv & Hl & Hi & Hne).
  set (z := concat_str (replicate (Z.to_nat (e + 1 - p)) "0")).
  rewrite <- app_str_assoc. apply (float_text_frac (str_of_Z d +:+ z) "0"); [|done..|].
  - right. destruct Hi as [|[_ Hc]]; [done|]. split.
    + rewrite all_chars_app, Ha. apply zeros_digits.
    + by destruct (str_of_Z d).
  - rewrite !digits_value_app, Hv. unfold z. rewrite zeros_value.
    change (digits_value ?a "0") with (a * 10 + 0). rewrite Z.add_0_r. change (- bytelen "0") with (-1).
    rewrite <- Z.mul_assoc, (Z.mul_comm _ 10), <- Z.pow_succ_r by lia.
    rewrite float_of_decimal_scale by lia. rewrite <- Hx. f_equal. lia.
Qed.

Lemma repr_point_text d p e x :
  1 <= p -> 10 ^ (p - 1) <= d < 10 ^ p -> 0 <= e -> e + 1 < p -> float_of_decimal d (e - p + 1) = x ->
  float_text (take_str (Z.to_nat (e + 1)) (str_of_Z d) +:+ "." +:+ drop_str (Z.to_nat (e + 1)) (str_of_Z d)) x.
Proof.
  intros Hp Hd He Hep Hx. destruct (digits_text d p Hp Hd) as (Ha & Hv & Hl & Hi & Hne). unfold bytelen in Hl.
  destruct (all_chars_split _ (Z.to_nat (e + 1)) _ Ha) as [_ Hdrop].
  apply float_text_frac; [apply int_text_take; done || lia|done| |].
  - apply nonempty_length. rewrite length_drop_str. lia.
  - rewrite take_drop_str, Hv, <- Hx. f_equal. unfold bytelen. rewrite length_drop_str. lia.
Qed.

Lemma repr_exp_text d p e x :
  1 <= p -> 10 ^ (p - 1) <= d < 10 ^ p -> float_of_decimal d (e - p + 1) = x ->
  float_text (take_str 1 (str_of_Z d) +:+ (if 1 <? p then "." +:+ drop_str 1 (str_of_Z d) else "") +:+ "e" +:+
    (if e <? 0 then "-" else "+") +:+ zfill 2 (str_of_Z (Z.abs e))) x.
Proof.
  intros Hp Hd Hx. destruct (digits_text d p Hp Hd) as (Ha & Hv & Hl & Hi & Hne). unfold bytelen in Hl.
  destruct (all_chars_split _ 1 _ Ha) as [_ Hdrop].
  exists (take_str 1 (str_of_Z d)), (if 1 <? p then Some (drop_str 1 (str_of_Z d)) else None), (Some e).
  split_and!; [by destruct (1 <? p)|apply int_text_take; done || lia| |by right|].
  - destruct (1 <? p) eqn:E; bool_simpl; [|done]. apply frac_ok_some; [done|].
    apply nonempty_length. rewrite length_drop_str. lia.
  - rewrite <- Hx. destruct (1 <? p) eqn:E; bool_simpl; cbn [from_option]; unfold id.
    + rewrite take_drop_str, Hv. f_equal. unfold bytelen. rewrite length_drop_str. lia.
    + assert (take_str 1 (str_of_Z d) +:+ "" = str_of_Z d) as ->.
      { rewrite <- (take_drop_str 1 (str_of_Z d)) at 2. f_equal.
        assert (String.length (drop_str 1 (str_of_Z d)) = 0)%nat as H0 by (rewrite length_drop_str; lia).
        by destruct (drop_str 1 (str_of_Z d)). }
      rewrite Hv. f_equal. change (bytelen "") with 0. lia.
Qed.

Lemma repr_positive_text k : 0 < k -> wf_float (Fin k) -> float_text (repr_positive k) (Fin k).
Proof.
  intros Hk Hwf. unfold repr_positive. destruct (shortest 17 k 1 (dec_exp k)) as [[d p] e] eqn:Es.
  destruct (dec_exp_spec k) as [H1 H2]; [destruct Hwf as [_ Hh]; lia|].
  destruct (shortest_spec 17 k 1 _ d p e Hk Hwf H1 H2 ltac:(lia) ltac:(lia) ltac:(lia) Es) as (Hp & Hd & Hx).
  destruct (_ && _) eqn:E1; [destruct (e <? 0) eqn:E2; [|destruct (p <=? e + 1) eqn:E3]|]; bool_simpl.
  - apply (repr_small_text d p); done || lia.
  - apply (repr_integral_text d p); done || lia.
  - apply (repr_point_text d p); done || lia.
  - apply (repr_exp_text d p); done || lia.
Qed.

Lemma float_repr_scan k rest : wf_float (Fin k) -> number_end rest = true ->
  exists neg body, float_repr (Fin k) = sign_char neg +:+ body /\ starts_digit (body +:+ rest) = true /\
    scan_number (float_repr (Fin k) +:+ rest) = Some (VFloat (Fin k), rest).
Proof.
  intros Hwf Hr.
  assert (exists neg body j, float_repr (Fin k) = sign_char neg +:+ body /\ float_text body (Fin j) /\
    signed neg (Fin j) = Fin k) as (neg & body & j & Ht & (ip & fp & ep & -> & Hi & Hf & Hfe & Hx) & Hs).
  { unfold float_repr. destruct (k =? 0) eqn:E0; bool_simpl.
    - exists false, "0.0", 0. split; [done|]. split; [|by subst].
      exists "0", (Some "0"), None. split_and!; [done|by left|by apply frac_ok_some|by left|]. by vm_compute.
    - destruct (k <? 0) eqn:E1; bool_simpl.
      + exists true, (repr_positive (- k)), (- k). split; [done|]. split; [|cbn; f_equal; lia].
        apply repr_positive_text; [lia|]. destruct Hwf as [H1 H2]. split; [by apply repr53_opp|lia].
      + exists false, (repr_positive k), k. split; [done|]. split; [|done]. apply repr_positive_text; [lia|done]. }
  exists neg, (ip +:+ frac_text fp +:+ exp_text ep). split_and!; [done| |].
  - rewrite !app_str_assoc. destruct (int_text_digits ip Hi). by apply starts_digit_app.
  - rewrite Ht, !app_str_assoc, scan_number_app by done. f_equal. f_equal. unfold number_val.
    rewrite Hx, Hs. destruct fp, ep; try done. by destruct Hfe.
Qed.
(** ** Strings *)

Definition prepend (d : string) (r : option (string * string)) : option (string * string) :=
  match r with Some (t, rest) => Some (d +:+ t, rest) | None => None end.

Lemma scan_simple e d t : Ascii.eqb e "u" = false -> simple_escape e = Some d ->
  scan_str (String backslash (String e t)) = prepend (String d "") (scan_str t).
Proof.
  intros Hu He. cbn [scan_str]. change (Ascii.eqb backslash quote) with false.
  change (Ascii.eqb backslash backslash) with true. cbv iota. rewrite Hu, He. by destruct (scan_str t) as [[]|].
Qed.

Lemma scan_unicode a1 a2 a3 a4 cp t : hex4 a1 a2 a3 a4 = Some cp -> is_high cp = false ->
  scan_str (String backslash (String "u" (String a1 (String a2 (String a3 (String a4 t))))))
  = prepend (encode_cp cp) (scan_str t).
Proof.
  intros Hh Hi. cbn [scan_str]. change (Ascii.eqb backslash quote) with false.
  change (Ascii.eqb backslash backslash) with true. change (Ascii.eqb "u" "u") with true. cbv iota.
  rewrite Hh, Hi. by destruct (scan_str t) as [[]|].
Qed.

Lemma scan_plain c t :
  Ascii.eqb c quote = false -> Ascii.eqb c backslash = false -> (byte_of c <? 32) = false ->
  scan_str (String c t) = prepend (String c "") (scan_str t).
Proof. intros H1 H2 H3. cbn [scan_str]. rewrite H1, H2, H3. by destruct (scan_str t) as [[]|]. Qed.

Lemma scan_escape_char c t : scan_str (escape_char c +:+ t) = prepend (String c "") (scan_str t).
Proof.
  destruct c as [[] [] [] [] [] [] [] []];
    (match goal with |- scan_str (escape_char ?c +:+ _) = _ =>
       let s := eval vm_compute in (escape_char c) in change (escape_char c) with s;
       rewrite ?app_cons, app_nil;
       first [by apply scan_plain|by apply scan_simple|etrans; [apply (scan_unicode _ _ _ _ (byte_of c)); reflexivity|reflexivity]]
     end).
Qed.

Lemma scan_escape s rest : scan_str (escape s +:+ String quote rest) = Some (s, rest).
Proof.
  induction s as [|c s IH]; [done|]. cbn [escape]. rewrite app_str_assoc, scan_escape_char, IH. done.
Qed.

(** ** Constants *)

Lemma number_not_constant neg body :
  starts_digit body = true -> scan_constant constants (sign_char neg +:+ body) = None.
Proof.
  destruct body as [|c body]; [done|]. cbn [starts_digit]. intros Hc.
  destruct neg, c as [[] [] [] [] [] [] [] []]; try done.
Qed.

(** ** Separators *)

Definition blanks (s : string) : bool := all_chars json_space s.

Lemma skip_blanks s t : blanks s = true -> skip_ws (s +:+ t) = skip_ws t.
Proof.
  unfold blanks. induction s as [|c s IH]; [done|]. cbn [all_chars]. intros. bool_simpl. rewrite app_cons.
  cbn [skip_ws]. rewrite H. by apply IH.
Qed.

(** [opts] separates items by a comma, and keys from values by a colon. *)
Record json_opts (o : dump_opts) : Prop := {
  jo_item : exists b, item_sep o = String "," b /\ blanks b = true;
  jo_key : exists b, key_sep o = String ":" b /\ blanks b = true;
}.

Lemma compact_json : json_opts compact.
Proof. by split; exists "". Qed.

Lemma spaced_json : json_opts spaced.
Proof. by split; exists " ". Qed.
(** ** Values *)

(** What [scan_value] reads from [s], whatever follows it. *)
Record scans (y : val) (s : string) : Prop := {
  sc_head : exists c s', s = String c s' /\ json_space c = false /\ c <> "]"%char;
  sc_value rest fuel : number_end rest = true -> (2 * String.length s <= fuel)%nat ->
    scan_value fuel (s +:+ rest) = Some (y, rest);
}.

Lemma scans_positive y s : scans y s -> (1 <= String.length s)%nat.
Proof. intros [(c & s' & -> & _) _]. cbn. lia. Qed.

Lemma scans_skip y s t : scans y s -> skip_ws (s +:+ t) = s +:+ t.
Proof. intros [(c & s' & -> & Hc & _) _]. rewrite app_cons. cbn [skip_ws]. by rewrite Hc. Qed.

Ltac fuel_step := intros rest [|fuel] Hr Hfuel; [cbn in Hfuel; lia|].

Lemma scans_none : scans VNone "null".
Proof. split; [by exists "n"%char, "ull"|]. fuel_step. by destruct rest. Qed.

Lemma scans_bool (b : bool) : scans (VBool b) (if b then "true" else "false").
Proof. destruct b; (split; [by eexists _, _|]; fuel_step; by destruct rest). Qed.

Lemma scans_special x s : (x, s) ∈ [(NaN, "NaN"); (PInf, "Infinity"); (NInf, "-Infinity")] -> scans (VFloat x) s.
Proof.
  rewrite !elem_of_cons, elem_of_nil. intros Hx. destruct_or!; simplify_eq;
    (split; [by eexists _, _|]; fuel_step; by destruct rest).
Qed.

Lemma scan_value_number f neg body :
  starts_digit body = true -> scan_value (S f) (sign_char neg +:+ body) = scan_number (sign_char neg +:+ body).
Proof.
  intros Hb. pose proof (number_not_constant neg body Hb) as Hc.
  destruct neg; unfold sign_char in *; rewrite ?app_nil, ?app_cons in *.
  - cbn [scan_value]. rewrite Hc. done.
  - destruct body as [|c body]; [done|]. cbn [starts_digit] in Hb. cbn [scan_value]. rewrite Hc.
    by destruct c as [[] [] [] [] [] [] [] []].
Qed.

Lemma number_head neg body rest :
  starts_digit (body +:+ rest) = true -> body <> "" ->
  exists c s', sign_char neg +:+ body = String c s' /\ json_space c = false /\ c <> "]"%char.
Proof.
  intros Hb Hne. destruct neg; [by eexists _, _|]. destruct body as [|c body]; [done|].
  exists c, body. split; [done|]. rewrite app_cons in Hb. cbn [starts_digit] in Hb.
  by destruct c as [[] [] [] [] [] [] [] []].
Qed.

Lemma scans_number y neg body :
  body <> "" ->
  (forall rest, number_end rest = true -> starts_digit (body +:+ rest) = true /\
     scan_number ((sign_char neg +:+ body) +:+ rest) = Some (y, rest)) ->
  scans y (sign_char neg +:+ body).
Proof.
  intros Hne Hn. split; [apply (number_head _ _ ""); [by apply Hn|done]|].
  intros rest [|fuel] Hr Hf.
  { destruct body; [done|]. rewrite length_app_str in Hf. cbn [String.length] in Hf. lia. }
  destruct (Hn rest Hr) as [Hd Hs]. rewrite <- Hs, app_str_assoc. by apply scan_value_number.
Qed.

Lemma scans_int z : scans (VInt z) (str_of_Z z).
Proof.
  assert (str_of_Z z = sign_char (z <? 0) +:+ str_of_Z (Z.abs z)) as -> by by destruct z.
  pose proof (str_of_Z_int_text (Z.abs z) ltac:(lia)) as Hi. destruct (int_text_digits _ Hi) as [Hd Hne].
  apply scans_number; [done|]. intros rest Hr. split; [by apply starts_digit_app|].
  pose proof (scan_number_app (z <? 0) (str_of_Z (Z.abs z)) None None rest Hi ltac:(done) Hr) as Hs.
  rewrite app_str_assoc. cbn [frac_text exp_text] in Hs. rewrite !app_nil in Hs. rewrite Hs. unfold number_val.
  destruct (str_of_Z_digits (Z.abs z) ltac:(lia)) as (_ & _ & Hv & _). rewrite Hv.
  destruct (z <? 0) eqn:E; bool_simpl; do 3 f_equal; lia.
Qed.

Lemma scans_float k : wf_float (Fin k) -> scans (VFloat (Fin k)) (float_repr (Fin k)).
Proof.
  intros Hwf. destruct (float_repr_scan k "" Hwf eq_refl) as (neg & body & Ht & Hd & _).
  rewrite app_str_nil in Hd. rewrite Ht. apply scans_number; [by intros ->|].
  intros rest Hr. rewrite <- Ht. destruct (float_repr_scan k rest Hwf Hr) as (_ & _ & _ & _ & Hs).
  split; [|done]. by destruct body.
Qed.

(** ** Lists and dictionaries *)

Definition solid (t : string) : Prop := exists c t', t = String c t' /\ json_space c = false.

Lemma solid_app t u : solid t -> solid (t +:+ u).
Proof. intros (c & t' & -> & Hc). by exists c, (t' +:+ u). Qed.

Lemma solid_skip t : solid t -> skip_ws t = t.
Proof. intros (c & t' & -> & Hc). cbn [skip_ws]. by rewrite Hc. Qed.

Lemma join_cons sep x y l : join sep (x :: y :: l) = x +:+ sep +:+ join sep (y :: l).
Proof. done. Qed.

Lemma solid_join sep x l : solid x -> solid (join sep (x :: l)).
Proof. intros Hx. destruct l as [|y l]; [done|]. rewrite join_cons. by apply solid_app. Qed.

Lemma scans_solid y s : scans y s -> solid s.
Proof. intros [(c & s' & -> & Hc & _) _]. by exists c, s'. Qed.

(** [s] is the quoted text of the key [k]. *)
Definition key_text (k s : string) : Prop :=
  exists body, s = String quote (body +:+ String quote "") /\
    forall rest, scan_str (body +:+ String quote rest) = Some (k, rest).

Lemma key_text_plain k : key_text k (dump_str k).
Proof. exists (escape k). split; [done|]. intros rest. apply scan_escape. Qed.

Lemma key_text_solid k s : key_text k s -> solid s.
Proof. intros (body & -> & _). by eexists _, _. Qed.

Lemma scans_key_text t s : key_text t s -> scans (VStr t) s.
Proof.
  intros (body & -> & Hs). split; [by eexists _, _|]. fuel_step.
  rewrite app_cons, app_str_assoc, app_cons, app_nil. cbn [scan_value].
  change (Ascii.eqb quote quote) with true. cbv iota. by rewrite Hs.
Qed.

Lemma scans_str t : scans (VStr t) (dump_str t).
Proof. apply scans_key_text, key_text_plain. Qed.

(** Items separated by [sep] between the blanks [opening] and [closing], keys
    and values separated by [ksep]; [ktext] writes a key. *)
Section Containers.
Context (ktext : string -> string) (sep ksep opening closing : string).
Hypothesis Hsep : exists b, sep = String "," b /\ blanks b = true.
Hypothesis Hksep : exists b, ksep = String ":" b /\ blanks b = true.
Hypothesis Hopen : blanks opening = true.
Hypothesis Hclose : blanks closing = true.

Lemma item_sep_skip t : solid t -> exists u, sep +:+ t = String "," u /\ skip_ws u = t.
Proof.
  intros Ht. destruct Hsep as (b & -> & Hb). exists (b +:+ t). split; [done|].
  rewrite skip_blanks by done. by apply solid_skip.
Qed.

Lemma key_sep_skip t : solid t -> exists u, ksep +:+ t = String ":" u /\ skip_ws u = t.
Proof.
  intros Ht. destruct Hksep as (b & -> & Hb). exists (b +:+ t). split; [done|].
  rewrite skip_blanks by done. by apply solid_skip.
Qed.

(** The end of a container: no number goes on, and the bracket is next. *)
Lemma closing_end c rest : (c = "]" \/ c = "}")%char ->
  number_end (closing +:+ String c rest) = true /\ skip_ws (closing +:+ String c rest) = String c rest.
Proof.
  intros Hc. split.
  - destruct closing as [|d t]; [by destruct Hc as [->| ->]|]. unfold blanks in Hclose. cbn [all_chars] in Hclose.
    apply andb_true_iff in Hclose as [Hd _]. rewrite app_cons. by destruct d as [[] [] [] [] [] [] [] []].
  - rewrite skip_blanks by done. by destruct Hc as [->| ->].
Qed.

Lemma scan_items_join ys items rest fuel :
  Forall2 scans ys items -> ys <> [] -> (2 * S (String.length (join sep items)) <= fuel)%nat ->
  scan_items fuel (join sep items +:+ closing +:+ String "]" rest) = Some (ys, rest).
Proof.
  intros Hall. revert fuel. induction Hall as [|y s ys items Hs Hall IH]; intros fuel Hne Hf; [done|].
  destruct fuel as [|fuel]; [lia|]. destruct Hall as [|y' s' ys items Hs' Hall].
  - destruct (closing_end "]" rest) as [He Hk]; [by left|]. cbn [join scan_items] in *.
    rewrite (sc_value _ _ Hs) by (done || lia). cbn [mbind option_bind]. by rewrite Hk.
  - rewrite join_cons in *. rewrite !app_str_assoc. rewrite !length_app_str in Hf.
    destruct (item_sep_skip (join sep (s' :: items) +:+ closing +:+ String "]" rest)) as (u & Hu & Hsk).
    { by eapply solid_app, solid_join, scans_solid. }
    pose proof (scans_positive _ _ Hs). cbn [scan_items]. rewrite Hu.
    rewrite (sc_value _ _ Hs) by (done || lia). cbn [mbind option_bind]. cbn [skip_ws].
    change (json_space ",") with false. cbv iota. rewrite Hsk, IH; [done|done|lia].
Qed.

Definition list_text (items : list string) : string :=
  match items with [] => "[]" | _ => "[" +:+ opening +:+ join sep items +:+ closing +:+ "]" end.

Lemma scans_list ys items : Forall2 scans ys items -> scans (VList ys) (list_text items).
Proof.
  intros Hall. split; [destruct items; by eexists _, _|]. intros rest fuel Hr Hf.
  destruct Hall as [|y s ys items Hs Hall]; [cbn in Hf; by destruct fuel; [lia|]|]. unfold list_text in *.
  rewrite !length_app_str in Hf. cbn [String.length] in Hf. destruct fuel as [|fuel]; [lia|].
  change (("[" +:+ ?j) +:+ rest) with (String "[" (j +:+ rest)).
  rewrite !app_str_assoc. change ("]" +:+ rest) with (String "]" rest).
  set (text := join sep (s :: items) +:+ closing +:+ String "]" rest).
  assert (solid text) as Hsolid by by eapply solid_app, solid_join, scans_solid.
  assert (scan_items fuel text = Some (y :: ys, rest)) as Hsc
    by (apply scan_items_join; [by constructor|done|lia]).
  cbn [scan_value]. change (Ascii.eqb "[" quote) with false. change (Ascii.eqb "[" "{") with false.
  change (Ascii.eqb "[" "[") with true. cbv iota. rewrite skip_blanks, (solid_skip _ Hsolid) by done.
  destruct (sc_head _ _ Hs) as (c & s' & -> & _ & Hc).
  assert (exists t, text = String c t) as [t Ht] by (unfold text; destruct items; by eexists).
  rewrite Ht in *. destruct c as [[] [] [] [] [] [] [] []]; try done; by rewrite Hsc.
Qed.

Definition member (kv : string * string) : string := ktext kv.1 +:+ ksep +:+ kv.2.

(** The entries of a dictionary and their texts. *)
Definition scans_member (e : string * val) (kv : string * string) : Prop := e.1 = kv.1 /\ scans e.2 kv.2.

Lemma dict_set_fresh d k v : k ∉ d.*1 -> dict_set d k v = d ++ [(k, v)].
Proof.
  induction d as [|[k' v'] d IH]; [done|]. rewrite fmap_cons, not_elem_of_cons. intros [Hne Hk]. cbn [dict_set].
  rewrite (proj2 (String.eqb_neq k k')) by done. by rewrite IH.
Qed.

(** One member, up to the text that follows its value. *)
Lemma scan_members_step fuel k s y acc t :
  key_text k (ktext k) -> scans y s -> (2 * String.length s <= fuel)%nat -> number_end t = true ->
  scan_members (S fuel) (member (k, s) +:+ t) acc =
  match skip_ws t with
  | String "," r => scan_members fuel (skip_ws r) (dict_set acc k y)
  | String "}" r => Some (dict_set acc k y, r)
  | _ => None
  end.
Proof.
  intros (body & Hb & Hk) Hs Hf Ht.
  destruct (key_sep_skip (s +:+ t)) as (u & Hu & Hsk); [by eapply solid_app, scans_solid|].
  assert (member (k, s) +:+ t = String quote (body +:+ String quote (String ":" u))) as ->.
  { unfold member. cbn [fst snd]. by rewrite Hb, !app_str_assoc, Hu, app_cons, app_str_assoc. }
  cbn [scan_members]. change (Ascii.eqb quote quote) with true. cbv iota. rewrite Hk.
  cbn [mbind option_bind]. cbn [skip_ws].
  change (json_space ":") with false. cbv iota. rewrite Hsk, (sc_value _ _ Hs) by done. done.
Qed.

Lemma length_member k s : key_text k (ktext k) ->
  (2 + String.length s <= String.length (member (k, s)))%nat.
Proof.
  intros (body & Hb & _). unfold member. cbn [fst snd]. rewrite Hb, length_app_str. cbn [String.length].
  rewrite !length_app_str. cbn [String.length]. lia.
Qed.

(** Every key of the dictionary has a text that reads back. *)
Abbreviation keys_ok d := (Forall (fun k => key_text k (ktext k)) d.*1).

Lemma scan_members_join d items rest fuel acc :
  Forall2 scans_member d items -> d <> [] -> keys_ok d -> NoDup (acc.*1 ++ d.*1) ->
  (2 * S (String.length (join sep (member <$> items))) <= fuel)%nat ->
  scan_members fuel (join sep (member <$> items) +:+ closing +:+ String "}" rest) acc = Some (acc ++ d, rest).
Proof.
  intros Hall. revert fuel acc.
  induction Hall as [|[k y] [k' s] d items [E Hs] Hall IH]; intros fuel acc Hne Hok Hnd Hf; [done|].
  cbn [fst snd] in E, Hs. subst k'. rewrite fmap_cons in Hnd, Hok. cbn [fst] in Hnd, Hok.
  apply Forall_cons in Hok as [Hkt Hok]. pose proof (length_member k s Hkt) as Hlen.
  assert (k ∉ acc.*1) as Hk by (apply NoDup_app in Hnd as (_ & Hd & _); intros Hin; apply (Hd _ Hin); left).
  destruct fuel as [|fuel]; [lia|]. destruct Hall as [|e' kv' d items Hs' Hall].
  - rewrite fmap_cons in *. cbn [fmap list_fmap join] in *.
    destruct (closing_end "}" rest) as [He Hcl]; [by right|].
    rewrite (scan_members_step _ _ _ y), Hcl by (done || lia). by rewrite dict_set_fresh.
  - rewrite !(fmap_cons member), join_cons in *. rewrite !app_str_assoc. rewrite !length_app_str in Hf.
    destruct (item_sep_skip (join sep (member kv' :: (member <$> items)) +:+ closing +:+ String "}" rest)) as (u & Hu & Hsk).
    { apply solid_app, solid_join. unfold member. apply solid_app. destruct Hs' as [Ek _]. rewrite <- Ek.
      rewrite fmap_cons in Hok. apply Forall_cons in Hok as [Hok _]. by eapply key_text_solid. }
    rewrite Hu. rewrite (scan_members_step _ _ _ y) by (done || lia). cbn [skip_ws].
    change (json_space ",") with false. cbv iota. rewrite Hsk, dict_set_fresh by done. rewrite <- (fmap_cons member) in *.
    rewrite IH; [by rewrite <- app_assoc|done|done| |lia].
    rewrite fmap_app, <- app_assoc. exact Hnd.
Qed.

Definition dict_text (items : list (string * string)) : string :=
  match items with [] => "{}" | _ => "{" +:+ opening +:+ join sep (member <$> items) +:+ closing +:+ "}" end.

Lemma scans_dict d items :
  Forall2 scans_member d items -> keys_ok d -> NoDup d.*1 -> scans (VDict d) (dict_text items).
Proof.
  intros Hall Hok Hnd. split; [destruct items; by eexists _, _|]. intros rest fuel Hr Hf.
  destruct Hall as [|e kv d items Hs Hall]; [cbn in Hf; by destruct fuel; [lia|]|]. unfold dict_text in *.
  rewrite !length_app_str in Hf. cbn [String.length] in Hf. destruct fuel as [|fuel]; [lia|].
  change (("{" +:+ ?j) +:+ rest) with (String "{" (j +:+ rest)).
  rewrite !app_str_assoc. change ("}" +:+ rest) with (String "}" rest).
  set (text := join sep (member <$> kv :: items) +:+ closing +:+ String "}" rest).
  assert (key_text kv.1 (ktext kv.1)) as Hkv.
  { rewrite fmap_cons in Hok. apply Forall_cons in Hok as [Hok _]. destruct Hs as [Ek _]. by rewrite Ek in Hok. }
  assert (solid text) as Hsolid
    by (unfold text; apply solid_app; rewrite fmap_cons; by eapply solid_join, solid_app, key_text_solid).
  assert (scan_members fuel text [] = Some (e :: d, rest)) as Hsc
    by (apply (scan_members_join (e :: d)); [by constructor|done|done|done|lia]).
  cbn [scan_value]. change (Ascii.eqb "{" quote) with false. change (Ascii.eqb "{" "{") with true. cbv iota.
  rewrite skip_blanks, (solid_skip _ Hsolid) by done.
  assert (exists t, text = String quote t) as [t Ht].
  { destruct Hkv as (body & Hb & _). unfold text. rewrite fmap_cons.
    destruct items; cbn [join fmap list_fmap]; unfold member at 1; rewrite Hb; by eexists. }
  rewrite Ht in *. change quote with (Ascii false true false false false true false false) in *.
  cbv iota beta. by rewrite Hsc.
Qed.
End Containers.

Lemma keys_plain (d : dict) : Forall (fun k => key_text k (dump_str k)) d.*1.
Proof. apply Forall_true. intros k. apply key_text_plain. Qed.
(** ** The round trip *)

(** The value read back: dictionaries sorted by key if the encoder sorts. *)
Fixpoint canon (sort : bool) (v : val) : val :=
  match v with
  | VList l => VList (map (canon sort) l)
  | VDict d =>
      let d' := map (fun '(k, x) => (k, canon sort x)) d in
      VDict (if sort then sort_items d' else d')
  | _ => v
  end.

(** What [json.loads] can return: floats that are binary64 numbers, no key twice, no other objects. *)
Inductive json_val : val -> Prop :=
| jv_none : json_val VNone
| jv_bool b : json_val (VBool b)
| jv_int z : json_val (VInt z)
| jv_float x : wf_float x -> json_val (VFloat x)
| jv_str s : json_val (VStr s)
| jv_list l : Forall json_val l -> json_val (VList l)
| jv_dict d : NoDup d.*1 -> Forall (fun e => json_val e.2) d -> json_val (VDict d).

Lemma insert_key_perm {A} (e : string * A) l : insert_key e l ≡ₚ e :: l.
Proof.
  induction l as [|e' l IH]; [done|]. cbn [insert_key]. destruct (String.leb _ _); [done|]. rewrite IH. constructor.
Qed.

Lemma sort_items_perm {A} (l : list (string * A)) : sort_items l ≡ₚ l.
Proof. induction l as [|e l IH]; [done|]. cbn. rewrite insert_key_perm. by f_equiv. Qed.

(** Sorting commutes with a relation that keeps the keys. *)
Lemma sort_items_Forall2 {A B} (R : string * A -> string * B -> Prop) l l' :
  (forall e e', R e e' -> e.1 = e'.1) -> Forall2 R l l' -> Forall2 R (sort_items l) (sort_items l').
Proof.
  intros HR. assert (forall e e' l l', R e e' -> Forall2 R l l' -> Forall2 R (insert_key e l) (insert_key e' l')) as Hins.
  { intros e e' m m' He Hm. induction Hm as [|f f' m m' Hf Hm IH]; [by repeat constructor|]. cbn [insert_key].
    rewrite (HR _ _ He), (HR _ _ Hf). destruct (String.leb _ _); by repeat constructor. }
  induction 1 as [|e e' l l' He Hl IH]; [constructor|]. cbn. by apply Hins.
Qed.

Lemma Forall_mp {A} (P Q : A -> Prop) l : Forall (fun x => P x -> Q x) l -> Forall P l -> Forall Q l.
Proof. induction 1; inversion 1; constructor; auto. Qed.

Section RoundTrip.
Context (o : dump_opts) (Ho : json_opts o).

Lemma list_scans ys items : Forall2 scans ys items -> scans (VList ys) ("[" +:+ join (item_sep o) items +:+ "]").
Proof.
  intros H. pose proof (scans_list (item_sep o) "" "" (jo_item _ Ho) eq_refl eq_refl ys items H) as Hs. by destruct items.
Qed.

Lemma dict_scans d items : Forall2 scans_member d items -> NoDup d.*1 ->
  scans (VDict d) ("{" +:+ join (item_sep o) ((fun kv => dump_str kv.1 +:+ key_sep o +:+ kv.2) <$> items) +:+ "}").
Proof.
  intros H Hnd. pose proof (scans_dict dump_str (item_sep o) (key_sep o) "" "" (jo_item _ Ho) (jo_key _ Ho) eq_refl eq_refl d items H (keys_plain d) Hnd) as Hs.
  by destruct items.
Qed.

(** The encoder's text scans as the canonical value. *)
Definition encodes (v : val) : Prop := exists s, dumps o v = Ok s /\ scans (canon (sort_keys o) v) s.

Lemma encode_list l : Forall encodes l -> exists items,
  sequence ((fix go l := match l with [] => [] | x :: l' => dumps o x :: go l' end) l) = Ok items /\
  Forall2 scans (map (canon (sort_keys o)) l) items.
Proof.
  induction 1 as [|x l (s & Hs & Hc) _ (items & Hi & Ha)]; [by exists []|]. exists (s :: items).
  cbn [sequence]. rewrite Hs, Hi. split; [done|by constructor].
Qed.

Lemma encode_dict d : Forall (fun e => encodes e.2) d -> exists items,
  sequence ((fix go d :=
        match d with
        | [] => []
        | (k, x) :: d' => (match dumps o x with Ok s => Ok (k, s) | Err e => Err e end) :: go d'
        end) d) = Ok items /\
  Forall2 scans_member (map (fun '(k, x) => (k, canon (sort_keys o) x)) d) items.
Proof.
  induction 1 as [|[k x] d (s & Hs & Hc) _ (items & Hi & Ha)]; [by exists []|]. exists ((k, s) :: items).
  cbn [snd] in Hs, Hc. cbn [sequence]. rewrite Hs, Hi. split; [done|]. by constructor.
Qed.

Lemma canon_keys sort (d : dict) : (map (fun '(k, x) => (k, canon sort x)) d).*1 = d.*1.
Proof. induction d as [|[k x] d IH]; [done|]. cbn. f_equal. exact IH. Qed.

Lemma json_encodes v : allow_nan o = true -> json_val v -> encodes v.
Proof.
  intros Hnan. induction v as [|b|z|x|t|l IH|d IH|n] using val_nested_ind; intros Hv; inversion Hv as [| | |? Hx| |? Hl|? Hnd Hd]; subst.
  - exists "null". split; [done|apply scans_none].
  - eexists. split; [reflexivity|apply scans_bool].
  - eexists. split; [reflexivity|apply scans_int].
  - destruct x as [k| | |]; (eexists; split; [cbn [dumps dump_float]; rewrite ?Hnan; reflexivity|]).
    + by apply scans_float.
    + apply scans_special. set_solver.
    + apply scans_special. set_solver.
    + apply scans_special. set_solver.
  - eexists. split; [reflexivity|apply scans_str].
  - destruct (encode_list l) as (items & Hi & Ha); [exact (Forall_mp _ _ _ IH Hl)|].
    eexists. split; [cbn [dumps]; rewrite Hi; reflexivity|]. by apply list_scans.
  - destruct (encode_dict d) as (items & Hi & Ha); [exact (Forall_mp (fun e => json_val e.2) _ _ IH Hd)|].
    eexists. split; [cbn [dumps]; rewrite Hi; reflexivity|]. cbn [canon].
    destruct (sort_keys o).
    + apply dict_scans.
      * apply sort_items_Forall2; [by intros e e' []|exact Ha].
      * rewrite sort_items_perm, canon_keys. done.
    + apply dict_scans; [exact Ha|by rewrite canon_keys].
Qed.

(** Every such value is encoded, and the text reads back as the value. *)
Lemma loads_dumps v : allow_nan o = true -> json_val v ->
  exists s, dumps o v = Ok s /\ loads s = Some (canon (sort_keys o) v).
Proof.
  intros Hnan Hv. destruct (json_encodes v Hnan Hv) as (s & Hs & Hc). exists s. split; [done|].
  unfold loads. rewrite <- (app_str_nil s) at 2. rewrite (scans_skip _ _ _ Hc), (sc_value _ _ Hc) by (done || lia). done.
Qed.
End RoundTrip.
Lemma canon_false v : canon false v = v.
Proof.
  induction v as [| | | | |l IH|d IH|] using val_nested_ind; try done; cbn [canon]; f_equal.
  - induction IH as [|x l Hx _ IH]; [done|]. cbn [map]. by rewrite Hx, IH.
  - induction IH as [|[k x] d Hx _ IH]; [done|]. cbn [map]. cbn [snd] in Hx. by rewrite Hx, IH.
Qed.

(** ** What the decoder returns *)

Lemma float_of_decimal_wf m e : wf_float (float_of_decimal m e).
Proof.
  unfold float_of_decimal, of_ratio, pow10. destruct (0 <=? e) eqn:E; bool_simpl; apply of_units_wf; [lia|].
  apply pow10_pos. lia.
Qed.

Lemma fneg_wf x : wf_float x -> wf_float (fneg x).
Proof. destruct x as [k| | |]; try done. intros [H1 H2]. split; [by apply repr53_opp|lia]. Qed.

Lemma scan_number_val s v r : scan_number s = Some (v, r) -> json_val v.
Proof.
  unfold scan_number. destruct (match s with String "-" s' => _ | _ => _ end) as [neg body].
  destruct (int_part body) as [[ip rest]|]; [|done]. destruct (frac_part rest) as [fp rest1].
  destruct (exp_part rest1) as [ep rest2]. intros H.
  destruct fp, ep; injection H as <- _; constructor; destruct neg; try apply fneg_wf; apply float_of_decimal_wf.
Qed.

Lemma scan_constant_val s v r : scan_constant constants s = Some (v, r) -> json_val v.
Proof.
  assert (Forall (fun nv => json_val nv.2) constants) as H by (repeat constructor).
  induction H as [|[name x] l Hx _ IH]; [done|]. cbn [scan_constant].
  destruct (startswith name s); [|done]. by intros [= <- _].
Qed.

Definition json_dict (d : dict) : Prop := NoDup d.*1 /\ Forall (fun e => json_val e.2) d.

Lemma dict_set_json d k v : json_dict d -> json_val v -> json_dict (dict_set d k v).
Proof.
  intros [Hnd Hd] Hv. destruct (decide (k ∈ d.*1)) as [Hk|Hk].
  - assert ((dict_set d k v).*1 = d.*1 /\ Forall (fun e => json_val e.2) (dict_set d k v)) as [H1 H2]; [|by rewrite <- H1 in Hnd].
    clear Hnd. induction Hd as [|[k' x] d Hx Hd IH]; [by apply elem_of_nil in Hk|]. cbn [dict_set].
    destruct (String.eqb k k') eqn:E; bool_simpl; [subst; split; [done|by constructor]|].
    rewrite fmap_cons, elem_of_cons in Hk. destruct Hk as [|Hk]; [done|]. destruct (IH Hk) as [H1 H2].
    rewrite !fmap_cons, H1. split; [done|by constructor].
  - rewrite dict_set_fresh by done. split.
    + rewrite fmap_app. apply NoDup_app. split_and!; [done| |repeat constructor; set_solver]. set_solver.
    + apply Forall_app. split; [done|by repeat constructor].
Qed.

(** One unit of fuel more. *)
Section ScanStep.
Context (f : nat).
Hypothesis IHv : forall s v r, scan_value f s = Some (v, r) -> json_val v.
Hypothesis IHi : forall s l r, scan_items f s = Some (l, r) -> Forall json_val l.
Hypothesis IHm : forall s acc d r, json_dict acc -> scan_members f s acc = Some (d, r) -> json_dict d.

Lemma scan_value_step s v r : scan_value (S f) s = Some (v, r) -> json_val v.
Proof.
  cbn [scan_value]. destruct s as [|c s]; [done|].
  destruct (Ascii.eqb c quote); [|destruct (Ascii.eqb c "{"); [|destruct (Ascii.eqb c "[")]].
  + destruct (scan_str s) as [[t rest]|]; [|done]. intros [= <- _]. constructor.
  + assert (json_dict []) as H0 by (split; constructor).
    assert (forall t, (t ≫= λ '(d, rest), Some (VDict d, rest)) = Some (v, r) ->
      (forall d rest, t = Some (d, rest) -> json_dict d) -> json_val v) as Hd.
    { intros [[d rest]|] H Hj; [|done]. injection H as <- _. destruct (Hj d rest eq_refl). by constructor. }
    intros H. destruct (skip_ws s) as [|c' s'] eqn:Es.
    * eapply Hd; [exact H|]. intros d rest. by apply IHm.
    * destruct (ascii_dec c' "}") as [->|Hc]; [injection H as <- _; constructor; constructor|].
      eapply (Hd (scan_members f (String c' s') [])); [|intros d rest; by apply IHm].
      rewrite <- H. by destruct c' as [[] [] [] [] [] [] [] []].
  + assert (forall t, (t ≫= λ '(l, rest), Some (VList l, rest)) = Some (v, r) ->
      (forall l rest, t = Some (l, rest) -> Forall json_val l) -> json_val v) as Hl.
    { intros [[l rest]|] H Hj; [|done]. injection H as <- _. constructor. by eapply Hj. }
    intros H. destruct (skip_ws s) as [|c' s'] eqn:Es.
    * eapply Hl; [exact H|]. apply IHi.
    * destruct (ascii_dec c' "]") as [->|Hc]; [injection H as <- _; constructor; constructor|].
      eapply (Hl (scan_items f (String c' s'))); [|apply IHi].
      rewrite <- H. by destruct c' as [[] [] [] [] [] [] [] []].
  + destruct (scan_constant constants (String c s)) as [[x rest]|] eqn:Ec.
    * intros [= <- _]. by eapply scan_constant_val.
    * apply scan_number_val.
Qed.

Lemma scan_items_step s l r : scan_items (S f) s = Some (l, r) -> Forall json_val l.
Proof.
  cbn [scan_items]. destruct (scan_value f s) as [[v rest]|] eqn:Ev; [|done]. cbn [mbind option_bind].
  apply IHv in Ev. destruct (skip_ws rest) as [|c rest']; [done|].
  destruct (ascii_dec c ",") as [->|Hc1].
  { destruct (scan_items f (skip_ws rest')) as [[l' r']|] eqn:Ei; [|done]. cbn. intros [= <- _].
    constructor; [done|by eapply IHi]. }
  destruct (ascii_dec c "]") as [->|Hc2]; [intros [= <- _]; by constructor|].
  by destruct c as [[] [] [] [] [] [] [] []].
Qed.

Lemma scan_members_json s acc d r : json_dict acc -> scan_members (S f) s acc = Some (d, r) -> json_dict d.
Proof.
  intros Hacc. cbn [scan_members]. destruct s as [|c s]; [done|]. destruct (Ascii.eqb c quote); [|done].
  destruct (scan_str s) as [[k rest]|]; [|done]. cbn [mbind option_bind].
  destruct (skip_ws rest) as [|c' rest']; [done|].
  destruct (ascii_dec c' ":") as [->|Hc]; [|by destruct c' as [[] [] [] [] [] [] [] []]].
  destruct (scan_value f (skip_ws rest')) as [[v rest'']|] eqn:Ev; [|done]. cbn [mbind option_bind].
  apply IHv in Ev. destruct (skip_ws rest'') as [|c2 r2]; [done|].
  destruct (ascii_dec c2 ",") as [->|Hc1]; [by apply IHm, dict_set_json|].
  destruct (ascii_dec c2 "}") as [->|Hc2]; [intros [= <- _]; by apply dict_set_json|].
  by destruct c2 as [[] [] [] [] [] [] [] []].
Qed.
End ScanStep.

Lemma scan_json f :
  (forall s v r, scan_value f s = Some (v, r) -> json_val v) /\
  (forall s l r, scan_items f s = Some (l, r) -> Forall json_val l) /\
  (forall s acc d r, json_dict acc -> scan_members f s acc = Some (d, r) -> json_dict d).
Proof.
  induction f as [|f (IHv & IHi & IHm)]; [done|]. split_and!; intros.
  - by eapply scan_value_step.
  - by eapply scan_items_step.
  - by eapply scan_members_json.
Qed.

Lemma loads_json s v : loads s = Some v -> json_val v.
Proof.
  unfold loads. intros H. destruct (scan_value (2 * S (String.length s)) (skip_ws s)) as [[x rest]|] eqn:E; [|done].
  cbn [mbind option_bind] in H. destruct (skip_ws rest); [|done]. injection H as <-. by eapply scan_json.
Qed.
End JsonCodec.
