(* ===== verification/JsonLines.v ===== *)
(** * The files the worker writes: indented JSON and JSON lines

    [json.dumps(..., indent=2)] also reads back as the value, and the text of a
    value without [indent] has no line break, so a file with one document per
    line splits into its documents. *)
From S2P Require Import Prelude PyFloat PyStr PyVal PyJson PyDecimal FloatRepr JsonParse JsonCodec.
Import PyFloat PyStr PyVal PyJson PyDecimal FloatRepr JsonParse JsonCodec.

Module JsonLines.

(** ** The indented form *)

Lemma blanks_of_blank n : blanks (blanks_of n) = true.
Proof. unfold blanks. by induction n. Qed.

Lemma new_line_blank level : blanks (new_line level) = true.
Proof. apply blanks_of_blank. Qed.

Definition encodes_indent (v : val) : Prop := forall level, exists s, dumps_indent level v = Ok s /\ scans v s.

Lemma encode_indent_list l level : Forall encodes_indent l -> exists items,
  sequence ((fix go l := match l with [] => [] | x :: l' => dumps_indent level x :: go l' end) l) = Ok items /\
  Forall2 scans l items.
Proof.
  induction 1 as [|x l Hx _ (items & Hi & Ha)]; [by exists []|]. destruct (Hx level) as (s & Hs & Hc).
  exists (s :: items). cbn [sequence]. rewrite Hs, Hi. split; [done|by constructor].
Qed.

Lemma encode_indent_dict (d : dict) level : Forall (fun e => encodes_indent e.2) d -> exists items,
  sequence ((fix go d :=
        match d with
        | [] => []
        | (k, x) :: d' => (match dumps_indent level x with Ok s => Ok (k, s) | Err e => Err e end) :: go d'
        end) d) = Ok items /\
  Forall2 scans_member d items.
Proof.
  induction 1 as [|[k x] d Hx _ (items & Hi & Ha)]; [by exists []|]. destruct (Hx level) as (s & Hs & Hc).
  exists ((k, s) :: items). cbn [snd] in Hs, Hc. cbn [sequence]. rewrite Hs, Hi. split; [done|]. by constructor.
Qed.

Lemma json_encodes_indent v : json_val v -> encodes_indent v.
Proof.
  assert (forall v, json_val v -> exists s, dumps spaced v = Ok s /\ scans v s) as Hflat.
  { intros x Hx. destruct (json_encodes spaced spaced_json x eq_refl Hx) as (s & Hs & Hc). exists s.
    split; [done|]. by rewrite <- (canon_false x). }
  induction v as [|b|z|x|t|l IH|d IH|n] using val_nested_ind; intros Hv level; try (by apply (Hflat _ Hv));
    inversion Hv as [| | | | |? Hl|? Hnd Hd]; subst.
  - destruct (encode_indent_list l (S level)) as (items & Hi & Ha); [exact (Forall_mp _ _ _ IH Hl)|].
    eexists. split; [cbn [dumps_indent]; rewrite Hi; reflexivity|].
    pose proof (scans_list ("," +:+ new_line (S level)) (new_line (S level)) (new_line level)
      (ex_intro _ (new_line (S level)) (conj eq_refl (new_line_blank (S level))))
      (new_line_blank (S level)) (new_line_blank level) l items Ha) as Hs.
    by destruct items.
  - destruct (encode_indent_dict d (S level)) as (items & Hi & Ha); [exact (Forall_mp (fun e => json_val e.2) _ _ IH Hd)|].
    eexists. split; [cbn [dumps_indent]; rewrite Hi; reflexivity|].
    pose proof (scans_dict dump_str ("," +:+ new_line (S level)) ": " (new_line (S level)) (new_line level)
      (ex_intro _ (new_line (S level)) (conj eq_refl (new_line_blank (S level))))
      (ex_intro _ " " (conj eq_refl eq_refl))
      (new_line_blank (S level)) (new_line_blank level) d items Ha (keys_plain d) Hnd) as Hs.
    by destruct items.
Qed.

Lemma scans_loads v s t : scans v s -> blanks t = true -> loads (s +:+ t) = Some v.
Proof.
  intros Hc Ht. unfold loads. rewrite (scans_skip _ _ _ Hc).
  rewrite (sc_value _ _ Hc); [|by destruct t as [|c t]; [|cbn in Ht; destruct c as [[] [] [] [] [] [] [] []]]|rewrite length_app_str; lia].
  cbn [mbind option_bind]. rewrite <- (app_str_nil t), skip_blanks by done. done.
Qed.

Lemma loads_dumps_indent v t : json_val v -> blanks t = true ->
  exists s, dumps_indent 0%nat v = Ok s /\ loads (s +:+ t) = Some v.
Proof. intros Hv Ht. destruct (json_encodes_indent v Hv 0%nat) as (s & Hs & Hc). exists s. split; [done|by apply scans_loads]. Qed.

(** ** The characters of a number *)

Definition number_char (c : ascii) : bool := is_digit c || existsb (Ascii.eqb c) ["."; "e"; "+"; "-"]%char.

Definition numeric (s : string) : Prop := all_chars number_char s = true.

Lemma numeric_app s t : numeric s -> numeric t -> numeric (s +:+ t).
Proof. unfold numeric. rewrite all_chars_app. by intros -> ->. Qed.

Lemma numeric_digits s : all_chars is_digit s = true -> numeric s.
Proof. apply all_chars_impl. unfold number_char. by intros c ->. Qed.

Lemma numeric_float_text s x : float_text s x -> numeric s.
Proof.
  intros (ip & fp & ep & -> & Hi & Hf & _). apply int_text_digits in Hi as [Hi _].
  repeat apply numeric_app; [by apply numeric_digits| |].
  - destruct fp as [f|]; [|done]. destruct (Hf f eq_refl) as [Hd _]. apply (numeric_app "."); [done|by apply numeric_digits].
  - destruct ep as [e|]; [|done]. cbn [exp_text]. apply (numeric_app "e"); [done|].
    apply numeric_app; [by destruct (e <? 0)|]. apply numeric_digits, zfill_digits. lia.
Qed.

Lemma numeric_float k : wf_float (Fin k) -> numeric (float_repr (Fin k)).
Proof.
  intros Hwf. unfold float_repr. destruct (k =? 0) eqn:E0; [done|]. destruct (k <? 0) eqn:E1; bool_simpl.
  - apply (numeric_app "-"); [done|]. eapply numeric_float_text, repr_positive_text; [lia|].
    destruct Hwf as [H1 H2]. split; [by apply repr53_opp|lia].
  - eapply numeric_float_text, repr_positive_text; [lia|done].
Qed.

Lemma numeric_int z : numeric (str_of_Z z).
Proof.
  assert (str_of_Z z = sign_char (z <? 0) +:+ str_of_Z (Z.abs z)) as -> by by destruct z.
  apply numeric_app; [by destruct (z <? 0)|]. apply numeric_digits, str_of_Z_digits. lia.
Qed.

(** ** One document per line *)

Definition one_line (s : string) : bool := all_chars (fun c => negb (byte_of c =? 10)) s.

Lemma one_line_app s t : one_line s = true -> one_line t = true -> one_line (s +:+ t) = true.
Proof. unfold one_line. rewrite all_chars_app. by intros -> ->. Qed.

Lemma one_line_numeric s : numeric s -> one_line s = true.
Proof. apply all_chars_impl. intros c. by destruct c as [[] [] [] [] [] [] [] []]. Qed.

Lemma one_line_join sep l : one_line sep = true -> Forall (fun s => one_line s = true) l -> one_line (join sep l) = true.
Proof.
  intros Hs. induction 1 as [|x l Hx Hl IH]; [done|]. destruct l as [|y l]; [done|].
  rewrite join_cons. by repeat apply one_line_app.
Qed.

Lemma one_line_escape s : one_line (escape s) = true.
Proof.
  induction s as [|c s IH]; [done|]. cbn [escape]. apply one_line_app; [|done].
  by destruct c as [[] [] [] [] [] [] [] []].
Qed.

Lemma one_line_str s : one_line (dump_str s) = true.
Proof. unfold dump_str. apply (one_line_app (String quote "")); [done|]. apply one_line_app; [apply one_line_escape|done]. Qed.

Lemma sequence_Forall {A} (P : A -> Prop) l ys : sequence l = Ok ys -> Forall (fun r => forall a, r = Ok a -> P a) l -> Forall P ys.
Proof.
  intros H Hl. revert ys H. induction Hl as [|r l Hr Hl IH]; intros ys; cbn [sequence]; [by intros [= <-]|].
  destruct r as [a|]; [|done]. destruct (sequence l) as [ys'|]; [|done]. intros [= <-]. constructor; [by apply Hr|by apply IH].
Qed.

(** Without sorting, the text of a value has no line break. *)
Lemma dumps_one_line o v s :
  one_line (item_sep o) = true -> one_line (key_sep o) = true -> sort_keys o = false ->
  json_val v -> dumps o v = Ok s -> one_line s = true.
Proof.
  intros Hi Hk Hsort. revert s. induction v as [|b|z|x|t|l IH|d IH|n] using val_nested_ind; intros s Hv Hs;
    inversion Hv as [| | |? Hx| |? Hl|? Hnd Hd]; subst; cbn [dumps] in Hs.
  - by injection Hs as <-.
  - injection Hs as <-. by destruct b.
  - injection Hs as <-. apply one_line_numeric, numeric_int.
  - destruct x as [k| | |]; cbn [dump_float] in Hs; [injection Hs as <-; by apply one_line_numeric, numeric_float|..];
      (destruct (allow_nan o); [|done]; by injection Hs as <-).
  - injection Hs as <-. apply one_line_str.
  - match type of Hs with (?m ≫= _) = _ => destruct m as [items|] eqn:E; [|done] end. injection Hs as <-.
    apply (one_line_app "["); [done|]. apply one_line_app; [|done]. apply one_line_join; [done|].
    eapply sequence_Forall; [exact E|]. clear - IH Hl.
    induction IH as [|x l Hx _ IHl]; [constructor|]. inversion Hl; subst. constructor; [eauto|by apply IHl].
  - match type of Hs with (?m ≫= _) = _ => destruct m as [items|] eqn:E; [|done] end. cbn in Hs. rewrite Hsort in Hs. injection Hs as <-.
    apply (one_line_app "{"); [done|]. apply one_line_app; [|done]. apply one_line_join; [done|].
    apply Forall_fmap. apply (Forall_impl (fun kv => one_line kv.2 = true)).
    2: { intros [k t] Ht. apply one_line_app; [apply one_line_str|by apply one_line_app]. }
    eapply sequence_Forall; [exact E|]. clear - IH Hd.
    induction IH as [|[k x] d Hx _ IHd]; [constructor|]. inversion Hd; subst. constructor; [|by apply IHd].
    intros [k' t] Ht. destruct (dumps o x) as [u|] eqn:Eu; [|done]. injection Ht as -> <-. by eapply Hx.
Qed.

(** [text.split("\n")] *)
Fixpoint split_lines (s : string) : list string :=
  match s with
  | "" => [""]
  | String c s' =>
      if byte_of c =? 10 then "" :: split_lines s'
      else match split_lines s' with l :: ls => String c l :: ls | [] => [] end
  end.

Definition nl : string := String (ascii_of_nat 10) "".

Lemma split_line s t : one_line s = true -> split_lines (s +:+ nl +:+ t) = s :: split_lines t.
Proof.
  induction s as [|c s IH]; [done|]. unfold one_line in *. cbn [all_chars]. intros. bool_simpl.
  rewrite app_cons. cbn [split_lines]. rewrite (proj2 (Z.eqb_neq _ _)) by done. by rewrite IH.
Qed.

Lemma split_concat l : Forall (fun s => one_line s = true) l ->
  split_lines (concat_str ((fun s => s +:+ nl) <$> l)) = l ++ [""].
Proof.
  induction 1 as [|s l Hs Hl IH]; [done|].
  change (concat_str _) with ((s +:+ nl) +:+ concat_str ((fun s => s +:+ nl) <$> l)).
  rewrite app_str_assoc, split_line by done. by rewrite IH.
Qed.
End JsonLines.
