(* ===== verification/JsonAscii.v ===== *)
(** * [json.dumps] with the default [ensure_ascii=True]

    What is not printable ASCII becomes an escape, a surrogate pair above the
    basic plane. *)
From S2P Require Import Prelude PyFloat PyStr PyVal PyJson PyDecimal FloatRepr JsonParse JsonCodec JsonLines Sha256.
Import PyFloat PyStr PyVal PyJson PyDecimal FloatRepr JsonParse JsonCodec JsonLines.

Module JsonAscii.

(** The escape of a 16-bit unit. *)
Definition hex4_of (n : Z) : string := hex1 (n / 4096 mod 16) +:+ hex1 (n / 256 mod 16) +:+ hex1 (n / 16 mod 16) +:+ hex1 (n mod 16).

Definition u_escape (n : Z) : string := String backslash ("u" +:+ hex4_of n).

(** The code point of a character from its UTF-8 bytes. *)
Definition code_point (ch : string) : Z :=
  match Sha256.str_bytes ch with
  | [a] => a
  | [a; b] => (a - 192) * 64 + (b - 128)
  | [a; b; c] => ((a - 224) * 64 + (b - 128)) * 64 + (c - 128)
  | [a; b; c; d] => (((a - 240) * 64 + (b - 128)) * 64 + (c - 128)) * 64 + (d - 128)
  | _ => 0
  end.

Definition ensure_ascii_char (ch : string) : string :=
  let cp := code_point ch in
  if cp <? 127 then ch
  else if cp <? 65536 then u_escape cp
  else u_escape (55296 + (cp - 65536) / 1024) +:+ u_escape (56320 + (cp - 65536) mod 1024).

Definition ensure_ascii (s : string) : string := concat_str (ensure_ascii_char <$> chars s).

(** ** Reading an escape *)

Lemma hex1_char n : 0 <= n < 16 -> exists c, hex1 n = String c "" /\ hex_val c = Some n.
Proof.
  intros Hn. assert (n ∈ seqZ 0 16) as Hin by (apply elem_of_seqZ; lia).
  revert Hin. vm_compute seqZ. rewrite !elem_of_cons, elem_of_nil. intros H. destruct_or!; subst; try done; by eexists.
Qed.

Lemma u_escape_form n : 0 <= n < 65536 -> exists a b c d,
  u_escape n = String backslash (String "u" (String a (String b (String c (String d ""))))) /\ hex4 a b c d = Some n.
Proof.
  intros Hn. assert (forall m, 0 <= m mod 16 < 16) as Hm by (intros; apply Z.mod_pos_bound; lia).
  unfold u_escape, hex4_of.
  destruct (hex1_char (n / 4096 mod 16) (Hm _)) as (a & -> & Ha). destruct (hex1_char (n / 256 mod 16) (Hm _)) as (b & -> & Hb).
  destruct (hex1_char (n / 16 mod 16) (Hm _)) as (c & -> & Hc). destruct (hex1_char (n mod 16) (Hm _)) as (d & -> & Hd).
  exists a, b, c, d. split; [done|]. unfold hex4. rewrite Ha, Hb, Hc, Hd. cbn [mbind option_bind]. f_equal.
  assert (n / 256 = n / 16 / 16) as -> by (rewrite Z.div_div by lia; done).
  assert (n / 4096 = n / 16 / 16 / 16) as -> by (rewrite !Z.div_div by lia; done).
  pose proof (Z.div_mod n 16 ltac:(lia)). pose proof (Z.div_mod (n / 16) 16 ltac:(lia)).
  pose proof (Z.div_mod (n / 16 / 16) 16 ltac:(lia)).
  rewrite (Z.mod_small (n / 16 / 16 / 16)); [lia|]. rewrite !Z.div_div by lia.
  split; [apply Z.div_pos; lia|apply Z.div_lt_upper_bound; lia].
Qed.

Lemma scan_pair n1 n2 t : is_high n1 = true -> is_low n2 = true -> 0 <= n1 < 65536 -> 0 <= n2 < 65536 ->
  scan_str (u_escape n1 +:+ u_escape n2 +:+ t) = prepend (encode_cp (65536 + (n1 - 55296) * 1024 + (n2 - 56320))) (scan_str t).
Proof.
  intros Hh Hl H1 H2. destruct (u_escape_form n1 H1) as (a & b & c & d & -> & E1).
  destruct (u_escape_form n2 H2) as (a' & b' & c' & d' & -> & E2). rewrite !app_cons, !app_nil. cbn [scan_str].
  change (Ascii.eqb backslash quote) with false. change (Ascii.eqb backslash backslash) with true.
  change (Ascii.eqb "u" "u") with true. cbn [andb]. cbv iota. rewrite E1, E2, Hh, Hl. by destruct (scan_str t) as [[]|].
Qed.

Lemma scan_single n t : is_high n = false -> 0 <= n < 65536 -> scan_str (u_escape n +:+ t) = prepend (encode_cp n) (scan_str t).
Proof.
  intros Hh Hn. destruct (u_escape_form n Hn) as (a & b & c & d & -> & E). rewrite !app_cons, !app_nil. by apply scan_unicode.
Qed.

(** ** Characters *)

Lemma byte_chr_of c : byte_chr (byte_of c) = c.
Proof. unfold byte_chr, byte_of. rewrite Nat2Z.id. apply ascii_nat_embedding. Qed.

Lemma byte_chr_eq n c : n = byte_of c -> byte_chr n = c.
Proof. intros ->. apply byte_chr_of. Qed.

(** The digits of a number in base 64, from the top. *)
Lemma base64_div a b : 0 <= b < 64 -> (a * 64 + b) / 64 = a /\ (a * 64 + b) mod 64 = b.
Proof. intros Hb. split; [rewrite Z.div_add_l, (Z.div_small b) by lia; lia|rewrite Z.add_comm, Z.mod_add, Z.mod_small by lia; done]. Qed.

Lemma is_cont_range c : is_cont c = true -> 128 <= byte_of c < 192.
Proof. unfold is_cont. intros. bool_simpl. lia. Qed.

Lemma byte_range c : 0 <= byte_of c < 256.
Proof. unfold byte_of. pose proof (nat_ascii_bounded c). lia. Qed.
(** The characters of UTF-8, by their number of bytes. *)
Inductive utf8_char : string -> Prop :=
| U1 a : byte_of a < 128 -> utf8_char (String a "")
| U2 a b : 194 <= byte_of a < 224 -> is_cont b = true -> utf8_char (String a (String b ""))
| U3 a b c : 224 <= byte_of a < 240 -> valid_second a b = true -> is_cont c = true ->
    utf8_char (String a (String b (String c "")))
| U4 a b c d : 240 <= byte_of a <= 244 -> valid_second a b = true -> is_cont c = true -> is_cont d = true ->
    utf8_char (String a (String b (String c (String d "")))).

Lemma first_char_utf8 ch s : first_char (ch +:+ s) = Some ch -> utf8_char ch.
Proof.
  intros H. pose proof (first_char_nonempty _ _ H) as Hl. destruct (first_char_width _ _ H) as (a & r & -> & Hw).
  assert (valid_lead a = true) as Hv.
  { rewrite app_cons in H. unfold first_char in H. by destruct (valid_lead a). }
  unfold valid_lead, char_width in *. pose proof (byte_range a).
  destruct r as [|b [|c [|d [|e r]]]]; cbn [String.length] in Hl, Hw; try lia;
    rewrite ?app_cons, ?app_nil in H; unfold first_char in H;
    (destruct (negb (valid_lead a)) eqn:El; [done|]); clear El; unfold char_width in H;
    destruct (byte_of a <? 192) eqn:E1; bool_simpl; try lia;
    try (destruct (byte_of a <? 224) eqn:E2; bool_simpl; try lia);
    try (destruct (byte_of a <? 240) eqn:E3; bool_simpl; try lia);
    cbv iota in H; apply orb_true_iff in Hv.
  - constructor. destruct Hv; bool_simpl; lia.
  - destruct (valid_second a b) eqn:Es; [|done]. constructor; [destruct Hv; bool_simpl; lia|by eapply valid_second_cont].
  - destruct (valid_second a b && is_cont c) eqn:Es; [|done]. bool_simpl. constructor; [lia|done|done].
  - destruct (valid_second a b && is_cont c && is_cont d) eqn:Es; [|done]. bool_simpl.
    constructor; [destruct Hv; bool_simpl; lia|done..].
Qed.

(** The code point of a character of several bytes is in its range, and encodes
    to the character. *)
Lemma encode_two a b : 194 <= byte_of a < 224 -> is_cont b = true ->
  let cp := (byte_of a - 192) * 64 + (byte_of b - 128) in
  128 <= cp < 2048 /\ encode_cp cp = String a (String b "").
Proof.
  intros Ha Hb%is_cont_range cp. assert (128 <= cp < 2048) as Hr by (unfold cp; lia). split; [done|].
  unfold encode_cp. rewrite (proj2 (Z.ltb_ge cp 128)), (proj2 (Z.ltb_lt cp 2048)) by lia.
  destruct (base64_div (byte_of a - 192) (byte_of b - 128) ltac:(lia)) as [H1 H2]. fold cp in H1, H2.
  rewrite H1, H2. f_equal; [|f_equal]; apply byte_chr_eq; lia.
Qed.

Lemma encode_three a b c : 224 <= byte_of a < 240 -> valid_second a b = true -> is_cont c = true ->
  let cp := ((byte_of a - 224) * 64 + (byte_of b - 128)) * 64 + (byte_of c - 128) in
  2048 <= cp < 65536 /\ is_high cp = false /\ encode_cp cp = String a (String b (String c "")).
Proof.
  intros Ha Hv Hc%is_cont_range cp. pose proof (is_cont_range _ (valid_second_cont _ _ Hv)) as Hb.
  assert (2048 <= cp < 65536 /\ is_high cp = false) as [Hr Hh].
  { unfold valid_second in Hv. unfold cp, is_high.
    destruct (byte_of a =? 224) eqn:E1; [|destruct (byte_of a =? 237) eqn:E2; [|destruct (byte_of a =? 240) eqn:E3; [|destruct (byte_of a =? 244) eqn:E4]]];
      bool_simpl; (split; [lia|]); apply andb_false_iff.
    - left. apply Z.leb_gt. lia.
    - left. apply Z.leb_gt. lia.
    - lia.
    - lia.
    - destruct (Z.lt_ge_cases (byte_of a) 237); [left; apply Z.leb_gt; lia|right; apply Z.leb_gt; lia]. }
  split_and!; [lia|lia|done|].
  unfold encode_cp. rewrite (proj2 (Z.ltb_ge cp 128)), (proj2 (Z.ltb_ge cp 2048)), (proj2 (Z.ltb_lt cp 65536)) by lia.
  destruct (base64_div ((byte_of a - 224) * 64 + (byte_of b - 128)) (byte_of c - 128) ltac:(lia)) as [H1 H2].
  destruct (base64_div (byte_of a - 224) (byte_of b - 128) ltac:(lia)) as [H3 H4]. fold cp in H1, H2.
  assert (cp / 4096 = byte_of a - 224) as -> by (change 4096 with (64 * 64); by rewrite <- Z.div_div, H1, H3 by lia).
  rewrite H1, H2, H4. f_equal; [|f_equal; [|f_equal]]; apply byte_chr_eq; lia.
Qed.

Lemma encode_four a b c d : 240 <= byte_of a <= 244 -> valid_second a b = true -> is_cont c = true -> is_cont d = true ->
  let cp := (((byte_of a - 240) * 64 + (byte_of b - 128)) * 64 + (byte_of c - 128)) * 64 + (byte_of d - 128) in
  65536 <= cp < 1114112 /\ encode_cp cp = String a (String b (String c (String d ""))).
Proof.
  intros Ha Hv Hc%is_cont_range Hd%is_cont_range cp. pose proof (is_cont_range _ (valid_second_cont _ _ Hv)) as Hb.
  assert (65536 <= cp < 1114112) as Hr.
  { unfold valid_second in Hv. unfold cp.
    destruct (byte_of a =? 224) eqn:E1; [|destruct (byte_of a =? 237) eqn:E2; [|destruct (byte_of a =? 240) eqn:E3; [|destruct (byte_of a =? 244) eqn:E4]]];
      bool_simpl; lia. }
  split; [done|]. unfold encode_cp. rewrite !(proj2 (Z.ltb_ge cp _)) by lia.
  destruct (base64_div (((byte_of a - 240) * 64 + (byte_of b - 128)) * 64 + (byte_of c - 128)) (byte_of d - 128) ltac:(lia)) as [H1 H2].
  destruct (base64_div ((byte_of a - 240) * 64 + (byte_of b - 128)) (byte_of c - 128) ltac:(lia)) as [H3 H4].
  destruct (base64_div (byte_of a - 240) (byte_of b - 128) ltac:(lia)) as [H5 H6]. fold cp in H1, H2.
  assert (cp / 4096 = cp / 64 / 64) as -> by (rewrite Z.div_div by lia; done).
  assert (cp / 262144 = cp / 64 / 64 / 64) as -> by (rewrite !Z.div_div by lia; done).
  rewrite H1, H2, H3, H4, H5, H6. f_equal; [|f_equal; [|f_equal; [|f_equal]]]; apply byte_chr_eq; lia.
Qed.
(** A character of several bytes is written as its escape and read back. *)
Lemma scan_wide ch t : utf8_char ch -> (2 <= String.length ch)%nat ->
  scan_str (ensure_ascii_char ch +:+ t) = prepend ch (scan_str t).
Proof.
  intros Hc Hl. destruct Hc as [a Ha|a b Ha Hb|a b c Ha Hv Hc|a b c d Ha Hv Hc Hd]; [cbn in Hl; lia|..].
  - destruct (encode_two a b Ha Hb) as [Hr He]. unfold ensure_ascii_char. cbn [code_point Sha256.str_bytes].
    set (cp := (byte_of a - 192) * 64 + (byte_of b - 128)) in *.
    rewrite (proj2 (Z.ltb_ge cp 127)), (proj2 (Z.ltb_lt cp 65536)) by lia.
    rewrite scan_single, He by (lia || (unfold is_high; apply andb_false_iff; left; apply Z.leb_gt; lia)). done.
  - destruct (encode_three a b c Ha Hv Hc) as (Hr & Hh & He). unfold ensure_ascii_char. cbn [code_point Sha256.str_bytes].
    set (cp := ((byte_of a - 224) * 64 + (byte_of b - 128)) * 64 + (byte_of c - 128)) in *.
    rewrite (proj2 (Z.ltb_ge cp 127)), (proj2 (Z.ltb_lt cp 65536)) by lia.
    rewrite scan_single, He by (done || lia). done.
  - destruct (encode_four a b c d Ha Hv Hc Hd) as (Hr & He). unfold ensure_ascii_char. cbn [code_point Sha256.str_bytes].
    set (cp := (((byte_of a - 240) * 64 + (byte_of b - 128)) * 64 + (byte_of c - 128)) * 64 + (byte_of d - 128)) in *.
    rewrite (proj2 (Z.ltb_ge cp 127)), (proj2 (Z.ltb_ge cp 65536)) by lia.
    assert (0 <= (cp - 65536) / 1024 < 1024) as Hq
      by (split; [apply Z.div_pos; lia|apply Z.div_lt_upper_bound; lia]).
    pose proof (Z.mod_pos_bound (cp - 65536) 1024 ltac:(lia)). pose proof (Z.div_mod (cp - 65536) 1024 ltac:(lia)).
    rewrite app_str_assoc, scan_pair; [|unfold is_high; apply andb_true_iff; split; apply Z.leb_le; lia
      |unfold is_low; apply andb_true_iff; split; apply Z.leb_le; lia|lia|lia].
    replace (65536 + (55296 + (cp - 65536) / 1024 - 55296) * 1024 + (56320 + (cp - 65536) mod 1024 - 56320)) with cp by lia.
    by rewrite He.
Qed.

(** ** Character by character *)

Lemma chars_fuel_enough f1 f2 s : (String.length s <= f1)%nat -> (String.length s <= f2)%nat -> chars_fuel f1 s = chars_fuel f2 s.
Proof.
  revert f2 s. induction f1 as [|f1 IH]; intros [|f2] [|c s] H1 H2; cbn [String.length] in *; try lia; try done.
  cbn [chars_fuel]. f_equal. assert (1 <= char_width c)%nat as Hw by (unfold char_width; repeat case_match; lia).
  pose proof (drop_str_length (char_width c) (String c s)) as Hd. cbn [String.length] in Hd. apply IH; lia.
Qed.

Lemma chars_cons ch s : first_char (ch +:+ s) = Some ch -> chars (ch +:+ s) = ch :: chars s.
Proof.
  intros H. pose proof (first_char_nonempty _ _ H) as Hl. destruct (first_char_width _ _ H) as (c & r & E & Hw).
  unfold chars. rewrite length_app_str. destruct (String.length ch + String.length s)%nat as [|f] eqn:Ef; [lia|].
  rewrite E at 1. rewrite app_cons. cbn [chars_fuel]. rewrite <- app_cons, <- E, Hw.
  rewrite take_app_le, Nat.sub_diag, drop_app_str by lia. cbn [take_str]. rewrite app_str_nil. f_equal.
  apply chars_fuel_enough; lia.
Qed.

Lemma ensure_ascii_cons ch s : first_char (ch +:+ s) = Some ch ->
  ensure_ascii (ch +:+ s) = ensure_ascii_char ch +:+ ensure_ascii s.
Proof. intros H. unfold ensure_ascii. by rewrite (chars_cons ch s H). Qed.

Lemma valid_utf8_app a b : valid_utf8 a -> valid_utf8 b -> valid_utf8 (a +:+ b).
Proof.
  induction 1 as [|ch s Hf Hv IH]; intros Hb; [done|]. rewrite app_str_assoc. constructor; [|auto].
  by eapply first_char_app.
Qed.

Lemma ensure_ascii_app a b : valid_utf8 a -> ensure_ascii (a +:+ b) = ensure_ascii a +:+ ensure_ascii b.
Proof.
  induction 1 as [|ch s Hf Hv IH]; [done|]. rewrite app_str_assoc, ensure_ascii_cons by (by eapply first_char_app).
  rewrite (ensure_ascii_cons ch s Hf), IH. by rewrite app_str_assoc.
Qed.

(** Printable ASCII (and blanks) is left alone. *)
Definition plain_char (c : ascii) : bool := byte_of c <? 127.

Lemma plain_first c s : plain_char c = true -> first_char (String c "" +:+ s) = Some (String c "").
Proof.
  unfold plain_char. intros H. bool_simpl. rewrite app_cons, app_nil. unfold first_char, valid_lead, char_width.
  by rewrite (proj2 (Z.ltb_lt (byte_of c) 128)), (proj2 (Z.ltb_lt (byte_of c) 192)) by lia.
Qed.

Lemma plain_valid s : all_chars plain_char s = true -> valid_utf8 s.
Proof.
  induction s as [|c s IH]; intros H; [constructor|]. cbn [all_chars] in H. bool_simpl.
  apply (valid_cons (String c "") s); [by apply plain_first|auto].
Qed.

Lemma plain_ascii s : all_chars plain_char s = true -> ensure_ascii s = s.
Proof.
  induction s as [|c s IH]; intros Hs; [done|]. cbn [all_chars] in Hs. apply andb_true_iff in Hs as [Hc Hs].
  change (String c s) with (String c "" +:+ s). rewrite ensure_ascii_cons by (by apply plain_first). rewrite IH by done.
  f_equal. unfold ensure_ascii_char. cbn [code_point Sha256.str_bytes]. unfold plain_char in Hc. by rewrite Hc.
Qed.
(** ** Strings *)

Lemma escape_app a b : escape (a +:+ b) = escape a +:+ escape b.
Proof. induction a as [|c a IH]; [done|]. rewrite app_cons. cbn [escape]. by rewrite IH, app_str_assoc. Qed.

Lemma escape_high c : (128 <=? byte_of c) = true -> escape_char c = String c "".
Proof. by destruct c as [[] [] [] [] [] [] [] []]. Qed.

Lemma escape_wide ch : utf8_char ch -> (2 <= String.length ch)%nat -> escape ch = ch.
Proof.
  intros Hc Hl. destruct Hc as [a Ha|a b Ha Hb|a b c Ha Hv Hc|a b c d Ha Hv Hc Hd]; [cbn in Hl; lia|..];
    repeat match goal with
    | H : valid_second _ _ = true |- _ => apply valid_second_cont in H
    end;
    repeat match goal with H : is_cont _ = true |- _ => apply is_cont_range in H end;
    cbn [escape]; rewrite !escape_high by (apply Z.leb_le; lia); done.
Qed.

Lemma escape_low c : (byte_of c <? 127) = true -> all_chars plain_char (escape_char c) = true.
Proof. by destruct c as [[] [] [] [] [] [] [] []]. Qed.

(** An ASCII character: its escape is valid text, and it reads back. *)
Lemma scan_low c t : byte_of c < 128 ->
  valid_utf8 (escape_char c) /\ scan_str (ensure_ascii (escape_char c) +:+ t) = prepend (String c "") (scan_str t).
Proof.
  intros Hc. destruct (Z.eq_dec (byte_of c) 127) as [E|E].
  - assert (c = byte_chr 127) as -> by (by rewrite <- E, byte_chr_of). split.
    + apply (valid_cons (String (byte_chr 127) "") ""); [done|constructor].
    + change (ensure_ascii (escape_char (byte_chr 127))) with (u_escape 127). by rewrite scan_single by (done || lia).
  - assert (all_chars plain_char (escape_char c) = true) as Hp by (apply escape_low, Z.ltb_lt; lia).
    split; [by apply plain_valid|]. rewrite plain_ascii by done. apply scan_escape_char.
Qed.

Lemma scan_ascii s rest : valid_utf8 s ->
  valid_utf8 (escape s) /\ scan_str (ensure_ascii (escape s) +:+ String quote rest) = Some (s, rest).
Proof.
  induction 1 as [|ch s Hf Hv [IHv IH]]; [split; [constructor|done]|]. rewrite escape_app.
  pose proof (first_char_utf8 _ _ Hf) as Hc. destruct (Nat.le_gt_cases 2 (String.length ch)) as [Hl|Hl].
  - rewrite (escape_wide ch Hc Hl). assert (first_char (ch +:+ escape s) = Some ch) as Hf' by (by eapply first_char_app).
    split; [by constructor|]. rewrite (ensure_ascii_cons _ _ Hf'), app_str_assoc, scan_wide, IH by done. done.
  - destruct Hc as [a Ha|? ? ? ?|? ? ? ? ? ?|? ? ? ? ? ? ? ?]; try (cbn in Hl; lia).
    cbn [escape]. rewrite app_str_nil. destruct (scan_low a (ensure_ascii (escape s) +:+ String quote rest) Ha) as [Hva Hs].
    split; [by apply valid_utf8_app|]. rewrite ensure_ascii_app, app_str_assoc, Hs, IH by done. done.
Qed.

(** ** Documents *)

(** A text and what its ASCII form scans as. *)
Definition ascii_scans (v : val) (s : string) : Prop := valid_utf8 s /\ scans v (ensure_ascii s).

Lemma ascii_dump_str k : valid_utf8 k -> valid_utf8 (dump_str k) /\ key_text k (ensure_ascii (dump_str k)).
Proof.
  intros Hk. destruct (scan_ascii k "" Hk) as [Hv _]. unfold dump_str.
  assert (valid_utf8 (escape k +:+ String quote "")) as Hv2.
  { apply valid_utf8_app; [done|by apply plain_valid]. }
  split.
  - apply (valid_cons (String quote "")); [done|done].
  - exists (ensure_ascii (escape k)). split.
    + change (String quote ?t) with (String quote "" +:+ t). rewrite ensure_ascii_cons by done.
      rewrite ensure_ascii_app by done. done.
    + intros rest. by apply scan_ascii.
Qed.

Lemma ascii_plain v s : all_chars plain_char s = true -> scans v s -> ascii_scans v s.
Proof. intros Hp Hs. split; [by apply plain_valid|]. by rewrite plain_ascii. Qed.

Lemma plain_numeric s : numeric s -> all_chars plain_char s = true.
Proof. apply all_chars_impl. intros c. by destruct c as [[] [] [] [] [] [] [] []]. Qed.

Lemma plain_new_line level : all_chars plain_char (new_line level) = true.
Proof.
  unfold new_line. cbn [all_chars]. change (plain_char (ascii_of_nat 10)) with true. cbn [andb].
  generalize (2 * level)%nat as n. by induction n.
Qed.

(** The strings and keys of a value are text, without lone surrogates. *)
Inductive utf8_val : val -> Prop :=
| uv_scalar v : (match v with VStr _ | VList _ | VDict _ => False | _ => True end) -> utf8_val v
| uv_str s : valid_utf8 s -> utf8_val (VStr s)
| uv_list l : Forall utf8_val l -> utf8_val (VList l)
| uv_dict d : Forall valid_utf8 d.*1 -> Forall (fun e => utf8_val e.2) d -> utf8_val (VDict d).

(** [ensure_ascii] goes through the punctuation of a container. *)
Lemma ascii_plain_app a b : all_chars plain_char a = true -> ensure_ascii (a +:+ b) = a +:+ ensure_ascii b.
Proof. intros Ha. rewrite ensure_ascii_app by (by apply plain_valid). by rewrite plain_ascii. Qed.

Lemma ascii_join sep items : all_chars plain_char sep = true -> Forall valid_utf8 items ->
  valid_utf8 (join sep items) /\ ensure_ascii (join sep items) = join sep (ensure_ascii <$> items).
Proof.
  intros Hs. induction 1 as [|x l Hx Hl [IHv IH]]; [split; [constructor|done]|].
  destruct l as [|y l]; [done|]. rewrite !fmap_cons, !join_cons in *. split.
  - apply valid_utf8_app; [done|]. by apply valid_utf8_app; [apply plain_valid|].
  - by rewrite ensure_ascii_app, ascii_plain_app, IH.
Qed.

Lemma ascii_wrap level l r items :
  all_chars plain_char l = true -> all_chars plain_char r = true -> Forall valid_utf8 items ->
  valid_utf8 (wrap level l r items) /\ ensure_ascii (wrap level l r items) = wrap level l r (ensure_ascii <$> items).
Proof.
  intros Hl Hr Hi. pose proof (plain_new_line level) as H1. pose proof (plain_new_line (S level)) as H2.
  destruct (ascii_join ("," +:+ new_line (S level)) items) as [Hv Hj]; [by cbn|done|].
  assert (valid_utf8 (new_line level +:+ r)) by (by apply valid_utf8_app; apply plain_valid).
  destruct items as [|x items]; cbn [wrap]; [rewrite fmap_nil; cbn [wrap]|rewrite fmap_cons in *; cbn [wrap]].
  - split; [by apply valid_utf8_app; apply plain_valid|]. by rewrite ascii_plain_app, plain_ascii.
  - split.
    + apply valid_utf8_app; [by apply plain_valid|]. apply valid_utf8_app; [by apply plain_valid|].
      by apply valid_utf8_app.
    + rewrite (ascii_plain_app l), (ascii_plain_app (new_line (S level))), ensure_ascii_app, Hj by done.
      by rewrite ascii_plain_app, (plain_ascii r).
Qed.

Definition ascii_encodes (v : val) : Prop := forall level, exists s, dumps_indent level v = Ok s /\ ascii_scans v s.

Lemma ascii_list l level : Forall ascii_encodes l -> exists items,
  sequence ((fix go l := match l with [] => [] | x :: l' => dumps_indent level x :: go l' end) l) = Ok items /\
  Forall2 ascii_scans l items.
Proof.
  induction 1 as [|x l Hx _ (items & Hi & Ha)]; [by exists []|]. destruct (Hx level) as (s & Hs & Hc).
  exists (s :: items). cbn [sequence]. rewrite Hs, Hi. split; [done|by constructor].
Qed.

Definition ascii_member (e : string * val) (kv : string * string) : Prop :=
  e.1 = kv.1 /\ ascii_scans e.2 kv.2.

Lemma ascii_dict (d : dict) level : Forall (fun e => ascii_encodes e.2) d -> exists items,
  sequence ((fix go d :=
        match d with
        | [] => []
        | (k, x) :: d' => (match dumps_indent level x with Ok s => Ok (k, s) | Err e => Err e end) :: go d'
        end) d) = Ok items /\
  Forall2 ascii_member d items.
Proof.
  induction 1 as [|[k x] d Hx _ (items & Hi & Ha)]; [by exists []|]. destruct (Hx level) as (s & Hs & Hc).
  exists ((k, s) :: items). cbn [snd] in Hs, Hc. cbn [sequence]. rewrite Hs, Hi. split; [done|]. by constructor.
Qed.

(** The ASCII text of an indented list or dictionary. *)
Lemma ascii_scans_list level l items : Forall2 ascii_scans l items -> ascii_scans (VList l) (wrap level "[" "]" items).
Proof.
  intros Ha. destruct (ascii_wrap level "[" "]" items) as [Hv He]; [done..| |].
  { clear -Ha. induction Ha as [|? ? ? ? [? _]]; by constructor. }
  split; [done|]. rewrite He.
  assert (Forall2 scans l (ensure_ascii <$> items)) as Hs.
  { clear -Ha. induction Ha as [|? ? ? ? [_ ?]]; rewrite ?fmap_cons; by constructor. }
  pose proof (scans_list ("," +:+ new_line (S level)) (new_line (S level)) (new_line level)
    (ex_intro _ (new_line (S level)) (conj eq_refl (new_line_blank (S level))))
    (new_line_blank (S level)) (new_line_blank level) l _ Hs) as Hl.
  by destruct items.
Qed.

Lemma ascii_scans_dict level (d : dict) items :
  Forall2 ascii_member d items -> Forall valid_utf8 d.*1 -> NoDup d.*1 ->
  ascii_scans (VDict d) (wrap level "{" "}" ((fun kv => dump_str kv.1 +:+ ": " +:+ kv.2) <$> items)).
Proof.
  intros Ha Hk Hnd. destruct (ascii_wrap level "{" "}" ((fun kv => dump_str kv.1 +:+ ": " +:+ kv.2) <$> items)) as [Hv He]; [done..| |].
  { clear -Ha Hk. induction Ha as [|[k v] [k' s] ? ? [E [? _]]]; [constructor|]. cbn in E. subst k'.
    rewrite fmap_cons in Hk. apply Forall_cons in Hk as [Hk1 Hk]. rewrite fmap_cons. constructor; [|by auto].
    apply valid_utf8_app; [by apply ascii_dump_str|]. by apply valid_utf8_app; [apply plain_valid|]. }
  split; [done|]. rewrite He.
  assert (Forall2 scans_member d ((fun kv => (kv.1, ensure_ascii kv.2)) <$> items)) as Hs.
  { clear -Ha. induction Ha as [|? ? ? ? [? [_ ?]]]; rewrite ?fmap_cons; by constructor. }
  assert (ensure_ascii <$> ((fun kv => dump_str kv.1 +:+ ": " +:+ kv.2) <$> items)
    = member (fun k => ensure_ascii (dump_str k)) ": " <$> ((fun kv => (kv.1, ensure_ascii kv.2)) <$> items)) as Hm.
  { clear -Ha Hk. induction Ha as [|[k v] [k' s] ? ? [E [Hv _]]]; [done|]. cbn in E. subst k'.
    rewrite fmap_cons in Hk. apply Forall_cons in Hk as [Hk1 Hk]. rewrite !fmap_cons. f_equal; [|auto].
    unfold member. cbn [fst snd]. rewrite ensure_ascii_app by (by apply ascii_dump_str). by rewrite (ascii_plain_app ": "). }
  rewrite Hm.
  pose proof (scans_dict (fun k => ensure_ascii (dump_str k)) ("," +:+ new_line (S level)) ": " (new_line (S level)) (new_line level)
    (ex_intro _ (new_line (S level)) (conj eq_refl (new_line_blank (S level))))
    (ex_intro _ " " (conj eq_refl eq_refl))
    (new_line_blank (S level)) (new_line_blank level) d _ Hs) as Hd.
  assert (Forall (fun k => key_text k (ensure_ascii (dump_str k))) d.*1) as Hkt.
  { eapply Forall_impl; [exact Hk|]. intros k Hu. by apply ascii_dump_str. }
  specialize (Hd Hkt Hnd). by destruct items.
Qed.

Lemma utf8_encodes v : json_val v -> utf8_val v -> ascii_encodes v.
Proof.
  induction v as [|b|z|x|t|l IH|d IH|n] using val_nested_ind; intros Hv Hu level;
    inversion Hv as [| | |? Hx| |? Hl|? Hnd Hd]; subst; inversion Hu as [? Hm|? Hs|? Hul|? Huk Hud]; subst; try done.
  - eexists. split; [done|]. apply ascii_plain; [done|apply scans_none].
  - eexists. split; [done|]. apply ascii_plain; [by destruct b|apply scans_bool].
  - eexists. split; [done|]. apply ascii_plain; [apply plain_numeric, numeric_int|apply scans_int].
  - destruct x as [k| | |]; eexists; (split; [reflexivity|]).
    1: apply ascii_plain; [by apply plain_numeric, numeric_float|by apply scans_float].
    all: apply ascii_plain; [done|apply scans_special; set_solver].
  - eexists. split; [done|]. destruct (ascii_dump_str t Hs) as [H1 H2]. split; [done|by apply scans_key_text].
  - destruct (ascii_list l (S level)) as (items & Hi & Ha).
    { apply (Forall_mp _ _ _ (Forall_mp _ _ _ IH Hl) Hul). }
    eexists. split; [cbn [dumps_indent]; rewrite Hi; reflexivity|]. by apply ascii_scans_list.
  - destruct (ascii_dict d (S level)) as (items & Hi & Ha).
    { apply (Forall_mp _ _ _ (Forall_mp _ _ _ IH Hd) Hud). }
    eexists. split; [cbn [dumps_indent]; rewrite Hi; reflexivity|]. by apply ascii_scans_dict.
Qed.

Lemma loads_ascii_indent v t : json_val v -> utf8_val v -> blanks t = true ->
  exists s, dumps_indent 0%nat v = Ok s /\ loads (ensure_ascii s +:+ t) = Some v.
Proof.
  intros Hv Hu Ht. destruct (utf8_encodes v Hv Hu 0%nat) as (s & Hs & _ & Hc). exists s.
  split; [done|by apply scans_loads].
Qed.
End JsonAscii.
