(* ===== verification/Redaction.v ===== *)
(** * Credentials in exported content ([ContentSanitizer] of [telemetry.py])

    Which keys count as credentials, said without the code's normalisation, and
    what the sanitiser does with a JSON value: entries under such keys have no
    influence on the exported text, everything else stays where it was. *)
From S2P Require Import Prelude PyFloat PyStr PyVal PyJson PyDecimal FloatRepr JsonParse JsonCodec JsonLines JsonAscii Models Telemetry.
Import PyFloat PyStr PyVal PyJson PyDecimal JsonCodec JsonAscii Telemetry.

Module Redaction.

(** ** Credential-like keys *)

Definition credential_words : list string :=
  ["apikey"; "auth"; "authorization"; "cookie"; "credential"; "credentials"; "passphrase"; "password"; "privatekey";
   "secret"; "sessionid"; "token"].

(** What a character adds to the word a key spells: a letter in lower case or a
    digit; the Kelvin sign counts as a k, the dotted capital I as an i. *)
Definition spelled (ch : string) : string :=
  if String.eqb ch (bytes_str [226; 132; 170]%nat) then "k"
  else if String.eqb ch (bytes_str [196; 176]%nat) then "i"
  else match ch with
       | String c "" =>
           if is_upper c then String (ascii_of_nat (Z.to_nat (byte_of c + 32))) ""
           else if is_lower c || is_digit c then ch else ""
       | _ => ""
       end.

Definition word_of (key : string) : string := concat_str (spelled <$> chars key).

(** The word the key spells ends in a credential word. *)
Definition credential_like (key : string) : Prop :=
  exists prefix word, word ∈ credential_words /\ word_of key = prefix +:+ word.

Lemma rev_str_app s acc : rev_str s acc = rev_str s "" +:+ acc.
Proof.
  revert acc. induction s as [|c s IH]; intros acc; [done|]. cbn [rev_str]. rewrite (IH (String c acc)), (IH (String c "")).
  by rewrite app_str_assoc.
Qed.

Lemma rev_str_concat a b : rev_str (a +:+ b) "" = rev_str b "" +:+ rev_str a "".
Proof.
  induction a as [|c a IH]; cbn [rev_str]; [by rewrite app_str_nil|]. rewrite app_cons. cbn [rev_str].
  by rewrite rev_str_app, IH, app_str_assoc, <- (rev_str_app a).
Qed.

Lemma rev_str_involutive s : rev_str (rev_str s "") "" = s.
Proof. induction s as [|c s IH]; [done|]. cbn [rev_str]. by rewrite (rev_str_app s (String c "")), rev_str_concat, IH. Qed.

Lemma prefix_spec p s : String.prefix p s = true <-> exists t, s = p +:+ t.
Proof.
  revert s. induction p as [|c p IH]; intros s; [split; [intros _; by exists s|by destruct s]|].
  destruct s as [|d s]; [split; [done|by intros [t [=]]]|].
  change (String.prefix (String c p) (String d s)) with (if ascii_dec c d then String.prefix p s else false).
  destruct (ascii_dec c d) as [->|Hne].
  - rewrite IH. split; intros [t Ht]; exists t; [by rewrite Ht|by injection Ht].
  - split; [done|]. intros [t [= -> _]]. done.
Qed.

Lemma endswith_spec p s : endswith p s = true <-> exists t, s = t +:+ p.
Proof.
  unfold endswith. rewrite prefix_spec. split; intros [t Ht].
  - exists (rev_str t ""). rewrite <- (rev_str_involutive s), Ht, rev_str_concat. by rewrite rev_str_involutive.
  - exists (rev_str t ""). by rewrite Ht, rev_str_concat.
Qed.

(** ** The code's test finds exactly these keys *)

Lemma keep_alnum_app a b : keep_alnum (a +:+ b) = keep_alnum a +:+ keep_alnum b.
Proof. induction a as [|c a IH]; [done|]. rewrite app_cons. cbn [keep_alnum]. rewrite IH. by destruct (_ || _). Qed.

Lemma keep_alnum_high c s : 128 <= byte_of c -> keep_alnum (String c s) = keep_alnum s.
Proof.
  intros H. cbn [keep_alnum]. unfold is_lower, is_digit.
  by rewrite (proj2 (Z.leb_gt (byte_of c) 122)), (proj2 (Z.leb_gt (byte_of c) 57)), !andb_false_r by lia.
Qed.

Lemma spelled_char ch : utf8_char ch -> keep_alnum (lower_char ch) = spelled ch.
Proof.
  destruct 1 as [a Ha|a b Ha Hb|a b c Ha Hv Hc|a b c d Ha Hv Hc Hd].
  - clear Ha. by destruct a as [[] [] [] [] [] [] [] []].
  - apply is_cont_range in Hb. unfold lower_char, spelled.
    destruct (String.eqb_spec (String a (String b "")) (bytes_str [226; 132; 170]%nat)); [done|].
    destruct (String.eqb _ (bytes_str [196; 176]%nat)); [done|]. by rewrite !keep_alnum_high by lia.
  - apply valid_second_cont, is_cont_range in Hv. apply is_cont_range in Hc. unfold lower_char, spelled.
    destruct (String.eqb _ (bytes_str [226; 132; 170]%nat)); [done|].
    destruct (String.eqb _ (bytes_str [196; 176]%nat)); [done|]. by rewrite !keep_alnum_high by lia.
  - apply valid_second_cont, is_cont_range in Hv. apply is_cont_range in Hc. apply is_cont_range in Hd. unfold lower_char, spelled.
    destruct (String.eqb _ (bytes_str [226; 132; 170]%nat)); [done|].
    destruct (String.eqb _ (bytes_str [196; 176]%nat)); [done|]. by rewrite !keep_alnum_high by lia.
Qed.

Lemma word_of_spec key : valid_utf8 key -> keep_alnum (lower key) = word_of key.
Proof.
  unfold lower, word_of. induction 1 as [|ch s Hf Hv IH]; [done|]. rewrite (chars_cons ch s Hf), !fmap_cons. cbn [concat_str foldr].
  fold (concat_str (lower_char <$> chars s)). fold (concat_str (spelled <$> chars s)).
  by rewrite keep_alnum_app, IH, (spelled_char ch) by (by eapply first_char_utf8).
Qed.

Lemma credential_like_spec key :
  existsb (fun word => endswith word (word_of key)) credential_words = true <-> credential_like key.
Proof.
  unfold credential_like. rewrite existsb_exists. split.
  - intros (w & Hw & [t Ht]%endswith_spec). exists t, w. split; [by apply list_elem_of_In|done].
  - intros (t & w & Hw & Ht). exists w. split; [by apply list_elem_of_In|]. apply endswith_spec. by exists t.
Qed.

Lemma sensitive_spec key : valid_utf8 key -> _sensitive_key key = true <-> credential_like key.
Proof. intros Hu. unfold _sensitive_key. by rewrite (word_of_spec key Hu), <- credential_like_spec. Qed.

#[global] Instance credential_like_dec key : Decision (credential_like key).
Proof.
  refine (cast_if (decide (existsb (fun word => endswith word (word_of key)) credential_words = true)));
    by rewrite <- credential_like_spec.
Defined.

Lemma sensitive_decide key : valid_utf8 key -> _sensitive_key key = bool_decide (credential_like key).
Proof. intros Hu. apply eq_true_iff_eq. by rewrite bool_decide_eq_true, (sensitive_spec key Hu). Qed.

(** ** Places in a JSON value *)

Inductive step : Type := Key (key : string) | Item (n : nat).

Fixpoint reach (v : val) (path : list step) : option val :=
  match path with
  | [] => Some v
  | s :: path' =>
      v' ← match v, s with VDict d, Key key => dict_get d key | VList l, Item n => l !! n | _, _ => None end;
      reach v' path'
  end.

(** The step goes under a credential-like key. *)
Definition hidden (s : step) : Prop := match s with Key key => credential_like key | Item _ => False end.

(** The value without its credential-like entries, at every depth. *)
Fixpoint without_credentials (v : val) : val :=
  match v with
  | VList l => VList (map without_credentials l)
  | VDict d =>
      VDict ((fix go (d : dict) : dict :=
        match d with
        | [] => []
        | (key, item) :: d' => if decide (credential_like key) then go d' else (key, without_credentials item) :: go d'
        end) d)
  | _ => v
  end.

(** ** What the sanitiser keeps *)
Section Clean.
Context (re_sub : string -> string -> string) (cs : ContentSanitizer).

Abbreviation cleaned := (clean re_sub cs).

Definition clean_entry (e : string * val) : option (string * val) :=
  if _sensitive_key e.1 then None else pair e.1 <$> cleaned e.2.

Lemma clean_list l : cleaned (VList l) = Some (VList (omap cleaned l)).
Proof. reflexivity. Qed.

Lemma clean_dict d : cleaned (VDict d) = Some (VDict (omap clean_entry d)).
Proof.
  cbn [clean]. do 2 f_equal. induction d as [|[k v] d IH]; [done|]. cbn [omap list_omap]. rewrite IH.
  unfold clean_entry at 4. cbn [fst snd]. destruct (_sensitive_key k); [done|]. by destruct (cleaned v).
Qed.

Lemma clean_total v : json_val v -> exists v', cleaned v = Some v'.
Proof. destruct 1; cbn [clean]; eauto. Qed.

Lemma clean_item l n : Forall json_val l -> omap cleaned l !! n = l !! n ≫= cleaned.
Proof.
  intros Hl. revert n. induction Hl as [|v l Hv _ IH]; intros n; [done|]. destruct (clean_total v Hv) as [v' Hv'].
  cbn [omap list_omap]. rewrite Hv'. destruct n as [|n]; cbn; [done|]. apply IH.
Qed.

Lemma clean_key d k : Forall (fun e => json_val e.2) d ->
  dict_get (omap clean_entry d) k = if _sensitive_key k then None else dict_get d k ≫= cleaned.
Proof.
  induction 1 as [|[k' v] d Hv _ IH]; [by destruct (_sensitive_key k)|]. destruct (clean_total v Hv) as [v' Hv'].
  cbn [omap list_omap]. unfold clean_entry at 1. cbn [fst snd] in *. cbn [dict_get]. destruct (String.eqb_spec k k') as [->|Hne].
  - destruct (_sensitive_key k') eqn:Hs; [done|]. rewrite Hv'. cbn. by rewrite String.eqb_refl, Hv'.
  - destruct (_sensitive_key k'); [done|]. rewrite Hv'. cbn. by rewrite (proj2 (String.eqb_neq k k') Hne).
Qed.

Lemma utf8_key d k v : utf8_val (VDict d) -> json_val (VDict d) -> dict_get d k = Some v ->
  valid_utf8 k /\ utf8_val v /\ json_val v.
Proof.
  intros Hu Hj Hk. inversion Hu as [? Hf| | |? Hks Hvs]; subst; [done|]. inversion Hj as [| | | | | |? _ Hjs]; subst.
  apply dict_get_elem in Hk. rewrite !Forall_forall in *. split_and!.
  - apply Hks. apply list_elem_of_fmap. by exists (k, v).
  - by apply (Hvs (k, v)).
  - by apply (Hjs (k, v)).
Qed.

Lemma utf8_item l n v : utf8_val (VList l) -> json_val (VList l) -> l !! n = Some v -> utf8_val v /\ json_val v.
Proof.
  intros Hu Hj Hn. inversion Hu as [? Hf| |? Hl|]; subst; [done|]. inversion Hj as [| | | | |? Hjl|]; subst.
  split; by eapply Forall_lookup_1.
Qed.

#[global] Instance hidden_dec s : Decision (hidden s).
Proof. destruct s; cbn; apply _. Defined.

(** Every place of the cleaned value. *)
Lemma clean_at path v v' : json_val v -> utf8_val v -> cleaned v = Some v' ->
  reach v' path = if decide (Exists hidden path) then None else reach v path ≫= cleaned.
Proof.
  revert v v'. induction path as [|s path IH]; intros v v' Hj Hu Hc; [by rewrite decide_False by (by inversion 1)|].
  assert (forall s, reach v' (s :: path) = None -> reach v (s :: path) = None ->
    reach v' (s :: path) = if decide (Exists hidden (s :: path)) then None else reach v (s :: path) ≫= cleaned) as Hno.
  { intros s0 -> ->. by destruct (decide (Exists hidden (s0 :: path))). }
  destruct v as [|b|z|x|t|l|d|n]; [injection Hc as <-; by apply Hno ..| | |inversion Hj].
  - rewrite clean_list in Hc. injection Hc as <-. destruct s as [k|n]; [by apply Hno|]. cbn [reach].
    inversion Hj as [| | | | |? Hjl|]; subst. rewrite clean_item by done.
    assert (Exists hidden (Item n :: path) <-> Exists hidden path) as Hh by (rewrite Exists_cons; cbn; tauto).
    rewrite (decide_ext _ _ _ _ Hh). destruct (l !! n) as [w|] eqn:Hn; [|by case_decide].
    destruct (utf8_item l n w Hu Hj Hn) as [Huw Hjw]. destruct (clean_total w Hjw) as [w' Hw]. cbn. rewrite Hw. cbn.
    by apply IH.
  - rewrite clean_dict in Hc. injection Hc as <-. destruct s as [k|n]; [|by apply Hno]. cbn [reach].
    inversion Hj as [| | | | | |? _ Hjs]; subst. rewrite clean_key by done.
    destruct (dict_get d k) as [w|] eqn:Hk; [|by destruct (_sensitive_key k), (decide (Exists hidden (Key k :: path)))].
    destruct (utf8_key d k w Hu Hj Hk) as (Hku & Huw & Hjw). destruct (clean_total w Hjw) as [w' Hw].
    rewrite (sensitive_decide k Hku). case_bool_decide as Hs; cbn; [|rewrite Hw; cbn].
    + rewrite decide_True; [done|]. apply Exists_cons. by left.
    + assert (Exists hidden (Key k :: path) <-> Exists hidden path) as Hh by (rewrite Exists_cons; cbn; tauto).
      rewrite (decide_ext _ _ _ _ Hh). by apply IH.
Qed.

Definition public_entries (d : dict) : dict :=
  omap (fun e => if decide (credential_like e.1) then None else Some (e.1, without_credentials e.2)) d.

Lemma without_dict d : without_credentials (VDict d) = VDict (public_entries d).
Proof.
  cbn [without_credentials]. f_equal. induction d as [|[k v] d IH]; [done|]. rewrite IH. unfold public_entries.
  cbn [omap list_omap fst snd]. by destruct (decide (credential_like k)).
Qed.

Lemma omap_cons {A B} (f : A -> option B) x l :
  omap f (x :: l) = match f x with Some y => y :: omap f l | None => omap f l end.
Proof. reflexivity. Qed.

Lemma clean_entry_public k v : valid_utf8 k ->
  clean_entry (k, v) = if decide (credential_like k) then None else pair k <$> cleaned v.
Proof. intros Hk. unfold clean_entry. cbn [fst snd]. rewrite (sensitive_decide k Hk). by case_bool_decide; case_decide. Qed.

Lemma clean_without v : utf8_val v -> cleaned (without_credentials v) = cleaned v.
Proof.
  induction v as [|b|z|x|t|l IH|d IH|n] using val_nested_ind; intros Hu; try done.
  - cbn [without_credentials]. rewrite !clean_list. do 2 f_equal. inversion Hu as [? Hf| |? Hl|]; subst; [done|].
    clear Hu. induction Hl as [|w l Hw _ IHl]; [done|]. apply Forall_cons in IH as [Hwi Hli].
    cbn [map omap list_omap]. by rewrite (Hwi Hw), (IHl Hli).
  - rewrite without_dict, !clean_dict. do 2 f_equal. inversion Hu as [? Hf| | |? Hks Hvs]; subst; [done|].
    clear Hu. induction d as [|[k w] d IHd]; [done|]. rewrite fmap_cons in Hks. apply Forall_cons in Hks as [Hk Hks].
    apply Forall_cons in Hvs as [Hw Hvs]. apply Forall_cons in IH as [IHw IH]. specialize (IHd IH Hks Hvs). cbn [snd] in *.
    unfold public_entries in *. rewrite !omap_cons, !(clean_entry_public k) by done. cbn [fst snd].
    destruct (decide (credential_like k)) as [Hs|Hs]; [done|].
    by rewrite omap_cons, (clean_entry_public k), decide_False, (IHw Hw), IHd by done.
Qed.

(** C38.  The exported content of a JSON value (its strings are text) does not
    depend on anything under a credential-like key (one that spells, whatever
    the case and the punctuation, a word ending in apikey, auth, authorization,
    cookie, credential(s), passphrase, password, privatekey, secret, sessionid
    or token), and nothing else is lost: in the value that is rendered a place
    reached through such a key does not exist, every other place is there when
    it was there before and holds what was there, cleaned in the same way, and
    so its texts are the redacted and bounded ones and its numbers, booleans
    and nulls are unchanged. *)
Theorem content_redacted value :
  json_val value -> utf8_val value ->
  sanitize_content re_sub cs value = sanitize_content re_sub cs (without_credentials value) /\
  exists v, clean re_sub cs value = Some v /\
    (forall path, Exists hidden path -> reach v path = None) /\
    (forall path, Forall (fun s => ~ hidden s) path -> reach v path = reach value path ≫= clean re_sub cs) /\
    (forall path s, Forall (fun s => ~ hidden s) path -> reach value path = Some (VStr s) ->
       reach v path = Some (VStr (sanitize_string re_sub cs s))) /\
    (forall path x, Forall (fun s => ~ hidden s) path -> reach value path = Some x ->
       match x with VNone | VBool _ | VInt _ | VFloat _ => reach v path = Some x | _ => True end).
Proof.
  intros Hj Hu. split.
  { pose proof (clean_without value Hu) as Hc. unfold sanitize_content. rewrite Hc.
    by destruct value; try rewrite without_dict. }
  destruct (clean_total value Hj) as [v Hv]. exists v.
  assert (forall path, Forall (fun s => ~ hidden s) path -> reach v path = reach value path ≫= clean re_sub cs) as Hopen.
  { intros path Hp. rewrite (clean_at path value v Hj Hu Hv), decide_False; [done|]. by apply Forall_not_Exists. }
  split_and!; [done| |done|..].
  - intros path Hp. by rewrite (clean_at path value v Hj Hu Hv), decide_True.
  - intros path s Hp Hs. by rewrite (Hopen path Hp), Hs.
  - intros path x Hp Hx. destruct x; try done; by rewrite (Hopen path Hp), Hx.
Qed.

End Clean.

(** Metadata with credentials at two depths, spelled in different ways. *)
Definition sample_login (key : string) : dict := [("API_KEY", VStr key); ("user", VStr "ann")].
Definition sample_metadata (key : string) : val :=
  VDict [("login", VDict (sample_login key)); ("steps", VList [VDict [("Session-ID", VInt 4)]; VInt 7])].

Lemma content_redacted_witness :
  json_val (sample_metadata "k-1") /\ utf8_val (sample_metadata "k-1") /\
  exists v, clean no_redaction (mkSanitizer []) (sample_metadata "k-1") = Some v /\
    reach v [Key "login"; Key "API_KEY"] = None /\
    reach v [Key "steps"; Item 0; Key "Session-ID"] = None /\
    reach v [Key "login"; Key "user"] = Some (VStr "ann") /\
    reach v [Key "steps"; Item 1] = Some (VInt 7).
Proof.
  assert (json_val (sample_metadata "k-1")) as Hj.
  { repeat first [constructor | apply (proj1 (bool_decide_eq_true _)); reflexivity]; vm_compute; set_solver. }
  assert (utf8_val (sample_metadata "k-1")) as Hu.
  { unfold sample_metadata, sample_login.
    repeat first [apply uv_dict | apply uv_list | apply uv_str | by apply uv_scalar | by apply plain_valid
      | apply Forall_cons_2 | apply Forall_nil_2]. }
  split; [done|]. split; [done|].
  destruct (content_redacted no_redaction (mkSanitizer []) (sample_metadata "k-1") Hj Hu) as [_ (v & Hv & Hhid & Hopen & Hstr & Hval)].
  exists v. split_and!; [done|..].
  - apply Hhid. right. left. by apply credential_like_spec.
  - apply Hhid. right. right. left. by apply credential_like_spec.
  - apply (Hstr _ "ann"); [|done]. by repeat constructor; cbn; rewrite <- credential_like_spec.
  - apply (Hval _ (VInt 7)); [|done]. repeat constructor; cbn; [by rewrite <- credential_like_spec|tauto].
Defined.

End Redaction.
