(* ===== verification/OpenAIValidate.v ===== *)
(** * Validators of the OpenAI-compatible adapter
      ([adapters/openai_compatible.py], the validation functions)

    What the configuration and the adapter constructor accept as a base URL, a
    model id, token and retry limits and extra request fields.  [urlsplit] is
    modelled for the parts the code reads; the two checks of the Standard
    Library on unusual network locations (Unicode normalization, the address
    inside brackets) are parameters, they can only reject. *)
From S2P Require Import Prelude PyFloat PyStr PyVal PyJson.
Import PyFloat PyStr PyVal PyJson.

Module OpenAIValidate.

Definition _MAX_URL_LENGTH : Z := 2048.
Definition _MAX_MODEL_LENGTH : Z := 256.
Definition _RESERVED_REQUEST_FIELDS : list string := ["model"; "messages"; "stream"; "tools"; "tool_choice"].
Definition _MAX_REQUEST_FIELDS : Z := 16.
Definition _MAX_REQUEST_FIELD_BYTES : Z := 1024.
Definition _MAX_REQUEST_FIELD_DEPTH : nat := 6.
Definition _MAX_OUTPUT_TOKENS : Z := 131072.
Definition MAX_HTTP_RETRY_ATTEMPTS : Z := 16.
Definition MAX_HTTP_RETRY_WAIT_SECONDS : Z := 300.

(** ** urlsplit *)

Record SplitResult := mkSplit {
  sp_scheme : string;
  sp_netloc : string;
  sp_path : string;
  sp_query : string;
  sp_fragment : string
}.

Definition is_scheme_char (c : ascii) : bool :=
  is_alnum c || Ascii.eqb c "+" || Ascii.eqb c "-" || Ascii.eqb c ".".

(** The longest prefix without [/], [?] and [#], and the rest. *)
Fixpoint split_netloc (s : string) : string * string :=
  match s with
  | "" => ("", "")
  | String c s' =>
      if Ascii.eqb c "/" || Ascii.eqb c "?" || Ascii.eqb c "#" then ("", s)
      else let '(a, b) := split_netloc s' in (String c a, b)
  end.

(** [s.rpartition(c)]: the text before the last [c], when there is one, and
    the text after it. *)
Fixpoint split_last (c : ascii) (s : string) : option string * string :=
  match s with
  | "" => (None, "")
  | String d s' =>
      match split_last c s' with
      | (Some a, b) => (Some (String d a), b)
      | (None, b) => if Ascii.eqb c d then (Some "", s') else (None, String d b)
      end
  end.

Definition has_char (c : ascii) (s : string) : bool := negb (all_chars (fun d => negb (Ascii.eqb c d)) s).

(** C0 controls and space at the start of the URL are dropped. *)
Fixpoint lstrip_c0 (s : string) : string :=
  match s with
  | String c s' => if byte_of c <=? 32 then lstrip_c0 s' else s
  | "" => ""
  end.

Section Urls.
Context (netloc_nfkc_ok : string -> bool) (bracketed_host_ok : string -> bool).

Definition urlsplit (url : string) : pyres SplitResult :=
  let url := lstrip_c0 url in
  let '(scheme, rest) :=
    match split_first ":" url with
    | (s, Some r) =>
        match s with
        | String c _ => if is_alpha c && all_chars is_scheme_char s then (lower s, r) else ("", url)
        | "" => ("", url)
        end
    | (_, None) => ("", url)
    end in
  '(netloc, rest) ←
    (if startswith "//" rest then
       let '(netloc, rest) := split_netloc (drop_str 2 rest) in
       if xorb (has_char "[" netloc) (has_char "]" netloc) then Err (ValueError "Invalid IPv6 URL")
       else if has_char "[" netloc && negb (bracketed_host_ok netloc) then Err (ValueError "Invalid IPv6 URL")
       else Ok (netloc, rest)
     else Ok ("", rest));
  let '(rest, fragment) := split_first "#" rest in
  let '(path, query) := split_first "?" rest in
  if negb (netloc_nfkc_ok netloc) then Err (ValueError "netloc contains invalid characters under NFKC normalization")
  else Ok (mkSplit scheme netloc path (default "" query) (default "" fragment)).

(** [parsed.username] and [parsed.password]; [None] when absent. *)
Definition userinfo (s : SplitResult) : option string * option string :=
  match split_last "@" (sp_netloc s) with
  | (Some info, _) => let '(user, password) := split_first ":" info in (Some user, password)
  | (None, _) => (None, None)
  end.

(** [parsed.hostname] as a truth value: is it non-empty? *)
Definition has_hostname (s : SplitResult) : bool :=
  let hostinfo := (split_last "@" (sp_netloc s)).2 in
  let host :=
    match split_first "[" hostinfo with
    | (_, Some bracketed) => (split_first "]" bracketed).1
    | (_, None) => (split_first ":" hostinfo).1
    end in
  negb (String.eqb host "").

Definition nonempty_opt (o : option string) : bool :=
  match o with Some s => negb (String.eqb s "") | None => false end.

Definition bad_url : pyexn := ValueError "target.baseURL must be an absolute http or https URL without credentials".

Definition line_break (c : ascii) : bool := let b := byte_of c in (b =? 13) || (b =? 10) || (b =? 9).

(** [urlsplit] drops tabs and line breaks inside the URL. *)
Fixpoint remove_breaks (s : string) : string :=
  match s with
  | "" => ""
  | String c s' => if line_break c then remove_breaks s' else String c (remove_breaks s')
  end.

Definition validate_base_url (base_url : string) : pyres unit :=
  guard (negb (String.eqb base_url "" || negb (String.eqb base_url (strip base_url)) ||
               (_MAX_URL_LENGTH <? pylen base_url) || negb (all_chars (fun c => negb (line_break c)) base_url)))
    bad_url;;
  parsed ← urlsplit base_url;
  guard ((String.eqb (sp_scheme parsed) "http" || String.eqb (sp_scheme parsed) "https") && has_hostname parsed)
    bad_url;;
  guard (negb (nonempty_opt (userinfo parsed).1 || nonempty_opt (userinfo parsed).2))
    (ValueError "target.baseURL must not contain credentials");;
  guard (String.eqb (sp_query parsed) "" && String.eqb (sp_fragment parsed) "")
    (ValueError "target.baseURL must not contain a query or fragment");;
  guard (negb (endswith "/chat/completions" (rstrip_ascii "/" (sp_path parsed))))
    (ValueError "target.baseURL must be the API root, not the chat completions path").
End Urls.

Definition validate_pinned_model (model : string) : pyres unit :=
  guard (negb (String.eqb model "" || negb (String.eqb model (strip model)) ||
               (_MAX_MODEL_LENGTH <? bytelen model) || any_space model))
    (ValueError "target.model must be a pinned model id without whitespace").

(** ** Integer limits *)

Definition validate_range (value : val) (hi : Z) (not_int out_of_range : string) : pyres Z :=
  match value with
  | VInt z => if (1 <=? z) && (z <=? hi) then Ok z else Err (ValueError out_of_range)
  | _ => Err (ValueError not_int)
  end.

Definition validate_max_output_tokens (value : val) : pyres Z :=
  validate_range value _MAX_OUTPUT_TOKENS "target.maxTokens must be an integer"
    "target.maxTokens must be between 1 and 131072".

Definition validate_http_retry_attempts (value : val) : pyres Z :=
  validate_range value MAX_HTTP_RETRY_ATTEMPTS "target.httpRetryAttempts must be an integer"
    "target.httpRetryAttempts must be between 1 and 16".

Definition validate_http_retry_max_wait_seconds (value : val) : pyres Z :=
  validate_range value MAX_HTTP_RETRY_WAIT_SECONDS "target.httpRetryMaxWaitSeconds must be an integer"
    "target.httpRetryMaxWaitSeconds must be between 1 and 300".

(** ** Request fields *)

Definition not_json : pyexn := ValueError "target.requestFields values must be JSON values".

Definition too_deep : pyexn := ValueError "target.requestFields is nested too deeply".

(** [_json_value] with the depth that is left. *)
Fixpoint _json_value (value : val) (left : nat) : pyres unit :=
  match value with
  | VNone | VStr _ | VBool _ | VInt _ => Ok tt
  | VFloat f => guard (is_finite f) not_json
  | VList items =>
      (fix go (l : list val) : pyres unit :=
         match l with
         | [] => Ok tt
         | item :: l' => (match left with O => Err too_deep | S n => _json_value item n end);; go l'
         end) items
  | VDict items =>
      (fix go (l : dict) : pyres unit :=
         match l with
         | [] => Ok tt
         | (_, item) :: l' => (match left with O => Err too_deep | S n => _json_value item n end);; go l'
         end) items
  | VObj _ => Err not_json
  end.

(** [^[A-Za-z_][A-Za-z0-9_]{0,63}$] *)
Definition _REQUEST_FIELD_KEY (key : string) : bool :=
  match key with
  | String c rest => is_ident_start c && all_chars is_ident_char rest && (bytelen key <=? 64)
  | "" => false
  end.

Definition field_opts : dump_opts := mkDump "," ":" false false.

Definition validate_request_field (blocked : list string) (kv : string * val) : pyres unit :=
  let '(key, value) := kv in
  guard (_REQUEST_FIELD_KEY key) (ValueError "target.requestFields keys must be identifiers");;
  guard (negb (existsb (String.eqb key) blocked)) (ValueError ("request field " +:+ key +:+ " is reserved"));;
  _json_value value _MAX_REQUEST_FIELD_DEPTH;;
  encoded ← dumps field_opts value;
  guard (bytelen encoded <=? _MAX_REQUEST_FIELD_BYTES)
    (ValueError "target.requestFields values must be at most 1024 bytes").

Definition validate_request_fields (fields : val) (reject_keys : list string) : pyres dict :=
  match fields with
  | VNone => Ok []
  | VDict d =>
      guard (Z.of_nat (length d) <=? _MAX_REQUEST_FIELDS)
        (ValueError "target.requestFields must contain at most 16 entries");;
      mapM_result (validate_request_field (_RESERVED_REQUEST_FIELDS ++ reject_keys)) d;;
      Ok d
  | _ => Err (ValueError "target.requestFields must be an object")
  end.
End OpenAIValidate.
