(* ===== verification/Config.v ===== *)
(** * Configuration and dataset ([config.py])

    The loaders, from the parsed JSON document on: every accepted document
    yields a configuration inside the bounds the other components rely on.
    Parameters: [re_ok], whether [re.compile] accepts a pattern, and
    [container_repr], the text of [str] on a list, a dictionary or an object. *)
From S2P Require Import Prelude PyFloat PyStr PyVal PyJson JsonParse JsonCodec.
From S2P Require Import PyDecimal Models Retry Circuit Pricing OpenAIValidate.
Import PyFloat PyStr PyVal PyJson Pricing OpenAIValidate.

Module Config.

(** ** Checked accessors *)

Fixpoint min_string (l : list string) : option string :=
  match l with
  | [] => None
  | x :: l' => match min_string l' with Some y => Some (if String.ltb y x then y else x) | None => Some x end
  end.

Definition _only_keys (value : dict) (allowed : list string) (path : string) : pyres unit :=
  match min_string (List.filter (fun k => negb (existsb (String.eqb k) allowed)) value.*1) with
  | Some k => Err (ValueError (path +:+ " contains unknown field '" +:+ k +:+ "'"))
  | None => Ok tt
  end.

Definition _strict_int (value : val) (path : string) : pyres Z :=
  match value with VInt z => Ok z | _ => Err (ValueError (path +:+ " must be an integer")) end.

Definition _strict_number (value : val) (path : string) : pyres float :=
  match value with
  | VInt z => float_of_int z
  | VFloat f => Ok f
  | _ => Err (ValueError (path +:+ " must be a number"))
  end.

Definition _nonempty_string (value : val) (path : string) (max_bytes : Z) : pyres string :=
  let error := ValueError (path +:+ " must be a non-empty string of at most " +:+ str_of_Z max_bytes +:+ " bytes") in
  match value with
  | VStr s => if blank s || (max_bytes <? bytelen s) then Err error else Ok s
  | _ => Err error
  end.

(** [len(l) == len(set(l))] *)
Fixpoint unique_strings (l : list string) : bool :=
  match l with [] => true | x :: l' => negb (existsb (String.eqb x) l') && unique_strings l' end.
Fixpoint unique_ints (l : list Z) : bool :=
  match l with [] => true | x :: l' => negb (existsb (Z.eqb x) l') && unique_ints l' end.

Definition _string_selector (value : val) (path : string) : pyres (list string) :=
  match value with
  | VList items =>
      parsed ← mapM_result (fun item => _nonempty_string item path 512) items;
      guard (unique_strings parsed) (ValueError (path +:+ " must not contain duplicates"));;
      Ok parsed
  | _ => Err (ValueError (path +:+ " must be an array"))
  end.

Definition _integer_selector (value : val) (path : string) (minimum : Z) : pyres (list Z) :=
  match value with
  | VList items =>
      parsed ← mapM_result (fun item => _strict_int item path) items;
      guard (forallb (fun item => minimum <=? item) parsed)
        (ValueError (path +:+ " values must be at least " +:+ str_of_Z minimum));;
      guard (unique_ints parsed) (ValueError (path +:+ " must not contain duplicates"));;
      Ok parsed
  | _ => Err (ValueError (path +:+ " must be an array"))
  end.

Definition in_unit (x : float) : bool := fle (Fin 0) x && fle x (of_Z 1).

(** ** reliability *)

Definition retry_keys : list string :=
  ["maxAttempts"; "initialBackoffMs"; "maxBackoffMs"; "maxCumulativeBackoffMs"; "jitterRatio";
   "allowAmbiguousRetries"].

Definition _retry (value : val) : pyres RetryConfig :=
  match value with
  | VDict d =>
      _only_keys d retry_keys "reliability.retry";;
      max_attempts ← _strict_int (get_or d "maxAttempts" (VInt 1)) "maxAttempts";
      initial_backoff_ms ← _strict_int (get_or d "initialBackoffMs" (VInt 100)) "initialBackoffMs";
      max_backoff_ms ← _strict_int (get_or d "maxBackoffMs" (VInt 2000)) "maxBackoffMs";
      max_cumulative ← _strict_int (get_or d "maxCumulativeBackoffMs" (VInt 5000)) "maxCumulativeBackoffMs";
      jitter_ratio ← _strict_number (get_or d "jitterRatio" (VFloat (of_ratio 2 10))) "jitterRatio";
      match get_or d "allowAmbiguousRetries" (VBool false) with
      | VBool allow =>
          guard ((1 <=? max_attempts) && (max_attempts <=? 10))
            (ValueError "reliability.retry.maxAttempts must be between 1 and 10");;
          guard (negb (Z.min initial_backoff_ms (Z.min max_backoff_ms max_cumulative) <? 1))
            (ValueError "reliability retry backoff values must be positive");;
          guard (negb (max_backoff_ms <? initial_backoff_ms))
            (ValueError "reliability.retry.initialBackoffMs cannot exceed maxBackoffMs");;
          guard (in_unit jitter_ratio) (ValueError "reliability.retry.jitterRatio must be between 0 and 1");;
          Ok (mkRetry max_attempts initial_backoff_ms max_backoff_ms max_cumulative jitter_ratio allow)
      | _ => Err (ValueError "reliability.retry.allowAmbiguousRetries must be a boolean")
      end
  | _ => Err (ValueError "reliability.retry must be an object")
  end.

Definition has_keys (d : dict) (keys : list string) : bool := forallb (dict_has d) keys.

Definition _circuit_breaker (value : val) : pyres (option CircuitBreakerConfig) :=
  match value with
  | VNone => Ok None
  | VDict d =>
      _only_keys d ["failureThreshold"; "openDurationMs"] "reliability.circuitBreaker";;
      guard (has_keys d ["failureThreshold"; "openDurationMs"])
        (ValueError "reliability.circuitBreaker requires failureThreshold and openDurationMs");;
      threshold ← _strict_int (get_none d "failureThreshold") "failureThreshold";
      duration ← _strict_int (get_none d "openDurationMs") "openDurationMs";
      guard (negb ((threshold <? 1) || (duration <? 1)))
        (ValueError "reliability.circuitBreaker values must be positive");;
      Ok (Some (mkBreaker threshold duration))
  | _ => Err (ValueError "reliability.circuitBreaker must be an object")
  end.

Definition _FAULTS : list string :=
  ["latency"; "timeout"; "http_error"; "malformed_response"; "rate_limit"; "tool_error"].

Definition rule_keys : list string :=
  ["name"; "fault"; "probability"; "caseIDs"; "iterations"; "attempts"; "delayMs"; "statusCode"; "toolName"].

(** The fields that depend on the fault.  A falsy [toolName] that is not a
    string is kept by the source and never read; it is the empty string here. *)
Definition fault_fields (path fault : string) (delay_ms status_code tool_name : val) :
    pyres (option Z * option Z * string) :=
  let inapplicable f := ValueError (path +:+ " has fields that do not apply to " +:+ f) in
  if String.eqb fault "latency" || String.eqb fault "timeout" then
    delay ← _strict_int delay_ms (path +:+ ".delayMs");
    guard (negb (delay <? 0)) (ValueError (path +:+ ".delayMs must be non-negative"));;
    guard (is_none status_code && negb (truthy tool_name)) (inapplicable fault);;
    Ok (Some delay, None, "")
  else if String.eqb fault "http_error" then
    status ← _strict_int status_code (path +:+ ".statusCode");
    guard ((400 <=? status) && (status <=? 599) && is_none delay_ms && negb (truthy tool_name))
      (ValueError (path +:+ ".statusCode must be between 400 and 599"));;
    Ok (None, Some status, "")
  else if String.eqb fault "tool_error" then
    match tool_name with
    | VStr name =>
        guard (bytelen name <=? 512) (ValueError (path +:+ ".toolName must be a string of at most 512 bytes"));;
        guard (is_none delay_ms && is_none status_code) (inapplicable "tool_error");;
        Ok (None, None, name)
    | _ => Err (ValueError (path +:+ ".toolName must be a string of at most 512 bytes"))
    end
  else
    guard (is_none delay_ms && is_none status_code && negb (truthy tool_name)) (inapplicable fault);;
    Ok (None, None, "").

Definition _fault_rule (value : val) (index : Z) : pyres FaultRuleConfig :=
  let path := "FaultScenario.rules[" +:+ str_of_Z index +:+ "]" in
  match value with
  | VDict d =>
      _only_keys d rule_keys path;;
      name ← _nonempty_string (get_none d "name") (path +:+ ".name") 128;
      known ← in_str_set (get_none d "fault") _FAULTS;
      match get_none d "fault", known with
      | VStr fault, true =>
          probability ← _strict_number (get_none d "probability") (path +:+ ".probability");
          guard (in_unit probability) (ValueError (path +:+ ".probability must be between 0 and 1"));;
          case_ids ← _string_selector (get_or d "caseIDs" (VList [])) (path +:+ ".caseIDs");
          iterations ← _integer_selector (get_or d "iterations" (VList [])) (path +:+ ".iterations") 0;
          attempts ← _integer_selector (get_or d "attempts" (VList [VInt 1])) (path +:+ ".attempts") 1;
          guard (forallb (fun a => a <=? 10) attempts) (ValueError (path +:+ ".attempts must be between 1 and 10"));;
          '(delay_ms, status_code, tool_name) ←
            fault_fields path fault (get_none d "delayMs") (get_none d "statusCode") (get_or d "toolName" (VStr ""));
          Ok (mkRule name fault probability case_ids iterations attempts delay_ms status_code tool_name)
      | _, _ => Err (ValueError (path +:+ ".fault is unsupported"))
      end
  | _ => Err (ValueError (path +:+ " must be an object"))
  end.

Fixpoint fault_rules (index : Z) (rules : list val) : pyres (list FaultRuleConfig) :=
  match rules with
  | [] => Ok []
  | rule :: rest => r ← _fault_rule rule index; rs ← fault_rules (index + 1) rest; Ok (r :: rs)
  end.

(** [sha256:[0-9a-f]{64}] *)
Definition is_digest (s : string) : bool :=
  startswith "sha256:" s && (bytelen s =? 71) && all_chars is_hex_lower (drop_str 7 s).

Definition _scenario_snapshot (value : val) : pyres (option FaultScenarioConfig) :=
  match value with
  | VNone => Ok None
  | VDict d =>
      let keys := ["sourceName"; "sourceKey"; "digest"; "scenario"] in
      _only_keys d keys "reliability.scenario";;
      guard (has_keys d keys) (ValueError "reliability.scenario snapshot is incomplete");;
      source_name ← _nonempty_string (get_none d "sourceName") "sourceName" 253;
      source_key ← _nonempty_string (get_none d "sourceKey") "sourceKey" 253;
      digest ← _nonempty_string (get_none d "digest") "digest" 71;
      guard (is_digest digest) (ValueError "reliability.scenario.digest must be a sha256 digest");;
      match get_none d "scenario" with
      | VDict scenario =>
          _only_keys scenario ["apiVersion"; "kind"; "rules"] "FaultScenario";;
          guard (eq_str (get_none scenario "apiVersion") "agentstorm.io/v1alpha1" &&
                 eq_str (get_none scenario "kind") "FaultScenario")
            (ValueError "FaultScenario apiVersion or kind is invalid");;
          match get_none scenario "rules" with
          | VList raw_rules =>
              guard (Z.of_nat (length raw_rules) <=? 100)
                (ValueError "FaultScenario.rules must be an array of at most 100 entries");;
              rules ← fault_rules 0 raw_rules;
              guard (unique_strings (fr_name <$> rules)) (ValueError "FaultScenario rule names must be unique");;
              Ok (Some (mkScenario source_name source_key digest rules))
          | _ => Err (ValueError "FaultScenario.rules must be an array of at most 100 entries")
          end
      | _ => Err (ValueError "reliability.scenario.scenario must be an object")
      end
  | _ => Err (ValueError "reliability.scenario must be an object")
  end.

Definition _reliability (value : val) : pyres (option ReliabilityConfig) :=
  match value with
  | VNone => Ok None
  | VDict d =>
      _only_keys d ["seed"; "retry"; "circuitBreaker"; "scenario"] "reliability";;
      seed ← match get_none d "seed" with
             | VNone => Ok None
             | VInt z => if z <? 0 then Err (ValueError "reliability.seed must be a non-negative integer") else Ok (Some z)
             | _ => Err (ValueError "reliability.seed must be a non-negative integer")
             end;
      retry ← _retry (get_or d "retry" (VDict []));
      breaker ← _circuit_breaker (get_none d "circuitBreaker");
      scenario ← _scenario_snapshot (get_none d "scenario");
      guard (negb (is_some scenario && negb (is_some seed)))
        (ValueError "reliability.seed is required when a scenario is configured");;
      Ok (Some (mkReliability seed retry breaker scenario))
  | _ => Err (ValueError "reliability must be an object")
  end.
(** ** target *)

Definition _pricing (value : val) : pyres (option PricingConfig) :=
  match value with
  | VNone => Ok None
  | VDict d =>
      match get_none d "inputUSDPerMillionTokens" with
      | VStr input_price =>
          guard (_PRICE_PATTERN input_price)
            (ValueError "target.pricing.inputUSDPerMillionTokens must be a non-negative decimal");;
          match get_none d "outputUSDPerMillionTokens" with
          | VStr output_price =>
              guard (_PRICE_PATTERN output_price)
                (ValueError "target.pricing.outputUSDPerMillionTokens must be a non-negative decimal");;
              Ok (Some (mkPricing input_price output_price))
          | _ => Err (ValueError "target.pricing.outputUSDPerMillionTokens must be a non-negative decimal")
          end
      | _ => Err (ValueError "target.pricing.inputUSDPerMillionTokens must be a non-negative decimal")
      end
  | _ => Err (ValueError "target.pricing must be an object")
  end.

(** The first of two spellings that is present, validated. *)
Definition either_key (target : dict) (key1 key2 : string) (validate : val -> pyres Z) : pyres (option Z) :=
  if dict_has target key1 then z ← validate (get_none target key1); Ok (Some z)
  else if dict_has target key2 then z ← validate (get_none target key2); Ok (Some z)
  else Ok None.

Definition _max_output_tokens (target : dict) : pyres (option Z) :=
  either_key target "maxTokens" "max_output_tokens" validate_max_output_tokens.
Definition _http_retry_attempts (target : dict) : pyres (option Z) :=
  either_key target "httpRetryAttempts" "http_retry_attempts" validate_http_retry_attempts.
Definition _http_retry_max_wait_seconds (target : dict) : pyres (option Z) :=
  either_key target "httpRetryMaxWaitSeconds" "http_retry_max_wait_seconds" validate_http_retry_max_wait_seconds.

Definition _request_fields (target : dict) : pyres dict :=
  validate_request_fields (get_or target "requestFields" (get_none target "request_fields"))
    ["temperature"; "max_tokens"].

(** ** evaluation *)

Fixpoint first_present (data : dict) (keys : list string) : option val :=
  match keys with
  | [] => None
  | key :: keys' =>
      match dict_get data key with
      | Some v => if is_none v then first_present data keys' else Some v
      | None => first_present data keys'
      end
  end.

Definition _optional_float (data : dict) (keys : list string) : pyres (option float) :=
  match first_present data keys with Some v => f ← py_float v; Ok (Some f) | None => Ok None end.

Definition _optional_int (data : dict) (keys : list string) : pyres (option Z) :=
  match first_present data keys with Some v => z ← py_int v; Ok (Some z) | None => Ok None end.

Definition _optional_string (value : val) : option string :=
  match value with VStr s => if String.eqb s "" then None else Some s | _ => None end.

Definition _metadata (raw : dict) : dict :=
  match get_none raw "metadata" with VDict d => d | _ => [] end.

Section Loaders.
Context (re_ok : string -> bool) (container_repr : val -> string).
Context (netloc_nfkc_ok : string -> bool) (bracketed_host_ok : string -> bool).

(** ** telemetry *)

Fixpoint redaction_patterns (index : Z) (patterns : list val) : pyres (list string) :=
  match patterns with
  | [] => Ok []
  | pattern :: rest =>
      let here := "telemetry.redaction.patterns[" +:+ str_of_Z index +:+ "]" in
      match pattern with
      | VStr p =>
          guard (bytelen p <=? 256) (ValueError (here +:+ " must be a string of at most 256 bytes"));;
          guard (re_ok p) (ValueError (here +:+ " is invalid"));;
          ps ← redaction_patterns (index + 1) rest;
          Ok (p :: ps)
      | _ => Err (ValueError (here +:+ " must be a string of at most 256 bytes"))
      end
  end.

Definition bad_keys : pyexn := ValueError "telemetry.redaction.metadataKeys must be an array of non-empty strings".

Definition nonempty_strings (e : pyexn) (items : list val) : pyres (list string) :=
  mapM_result (fun v => match v with VStr s => if String.eqb s "" then Err e else Ok s | _ => Err e end) items.

Definition _telemetry (value : val) : pyres TelemetryConfig :=
  match (if is_none value then VDict [] else value) with
  | VDict d =>
      let content_mode := get_or d "contentMode" (get_or d "content_mode" (VStr "omit")) in
      known ← in_str_set content_mode ["omit"; "redacted"];
      match content_mode, known with
      | VStr mode, true =>
          let redaction := get_or d "redaction" (VDict []) in
          match (if is_none redaction then VDict [] else redaction) with
          | VDict r =>
              let metadata_keys := get_or r "metadataKeys" (get_or r "metadata_keys" (VList [])) in
              match get_or r "patterns" (VList []) with
              | VList patterns =>
                  guard (Z.of_nat (length patterns) <=? 20)
                    (ValueError "telemetry.redaction.patterns must be an array of at most 20 entries");;
                  parsed ← redaction_patterns 0 patterns;
                  match metadata_keys with
                  | VList keys =>
                      ks ← nonempty_strings bad_keys keys;
                      Ok (mkTelemetryConfig mode (mkRedaction parsed ks))
                  | _ => Err bad_keys
                  end
              | _ => Err (ValueError "telemetry.redaction.patterns must be an array of at most 20 entries")
              end
          | _ => Err (ValueError "telemetry.redaction must be an object")
          end
      | _, _ => Err (ValueError "telemetry.contentMode must be omit or redacted")
      end
  | _ => Err (ValueError "telemetry must be an object")
  end.

(** ** load_run_config *)

(** [module.path:function] with identifiers, at most 256 bytes. *)
Definition is_identifier (s : string) : bool :=
  match s with String c r => is_ident_start c && all_chars is_ident_char r | "" => false end.

Fixpoint dotted (fuel : nat) (s : string) : bool :=
  match fuel with
  | O => false
  | S f =>
      match split_first "." s with
      | (a, None) => is_identifier a
      | (a, Some b) => is_identifier a && dotted f b
      end
  end.

Definition is_entrypoint (s : string) : bool :=
  match split_first ":" s with
  | (m, Some f) => dotted (S (String.length s)) m && is_identifier f
  | (_, None) => false
  end.

Definition text_or (d : dict) (key dflt : string) : string :=
  py_str container_repr (py_or (get_none d key) (VStr dflt)).

Definition int_or (d : dict) (key : string) (dflt : Z) : pyres Z := py_int (py_or (get_none d key) (VInt dflt)).

Definition target_config (target : dict) : pyres TargetConfig :=
  pricing ← _pricing (get_none target "pricing");
  max_output_tokens ← _max_output_tokens target;
  request_fields ← _request_fields target;
  http_retry_attempts ← _http_retry_attempts target;
  http_retry_max_wait_seconds ← _http_retry_max_wait_seconds target;
  Ok {| tg_provider := text_or target "provider" "fake";
        tg_model := text_or target "model" "";
        tg_base_url :=
          py_str container_repr (py_or (py_or (get_none target "baseURL") (get_none target "base_url")) (VStr ""));
        tg_adapter_entrypoint :=
          py_str container_repr
            (py_or (py_or (get_none target "adapterEntrypoint") (get_none target "adapter_entrypoint")) (VStr ""));
        tg_pricing := pricing; tg_max_output_tokens := max_output_tokens; tg_request_fields := request_fields;
        tg_http_retry_attempts := http_retry_attempts;
        tg_http_retry_max_wait_seconds := http_retry_max_wait_seconds |}.

Definition evaluation_config (evaluation : dict) : pyres EvaluationConfig :=
  min_success_rate ← _optional_float evaluation ["minSuccessRate"; "min_success_rate"];
  max_error_rate ← _optional_float evaluation ["maxErrorRate"; "max_error_rate"];
  max_p95_latency_ms ← _optional_int evaluation ["maxP95LatencyMs"; "max_p95_latency_ms"];
  Ok (mkEvaluation min_success_rate max_error_rate max_p95_latency_ms).

Definition evaluation_keys : list string :=
  ["minSuccessRate"; "min_success_rate"; "maxErrorRate"; "max_error_rate"; "maxP95LatencyMs"; "max_p95_latency_ms"].

(** [key in data] also answers on a list and on a string, where a hit cannot
    be indexed. *)
Definition evaluation_of (value : val) : pyres EvaluationConfig :=
  let absent := Ok (mkEvaluation None None None) in
  match value with
  | VDict d => evaluation_config d
  | VList l =>
      if existsb (fun x => existsb (eq_str x) evaluation_keys) l
      then Err (TypeError "list indices must be integers or slices, not str") else absent
  | VStr s =>
      if existsb (fun k => contains k s) evaluation_keys
      then Err (TypeError "string indices must be integers") else absent
  | _ => Err (TypeError "argument is not iterable")
  end.

(** The checks after the configuration is built. *)
Definition check_config (config : RunConfig) : pyres unit :=
  let t := rc_target config in
  let wl := rc_workload config in
  (if String.eqb (tg_provider t) "openai-compatible" then
     validate_pinned_model (tg_model t);;
     guard (negb (String.eqb (tg_base_url t) ""))
       (ValueError "target.baseURL is required for provider openai-compatible");;
     validate_base_url netloc_nfkc_ok bracketed_host_ok (tg_base_url t)
   else Ok tt);;
  guard (negb (String.eqb (tg_provider t) "openai-agents" && blank (tg_model t)))
    (ValueError "target.model is required for provider openai-agents");;
  guard (negb ((wl_concurrency wl <? 1) || (wl_iterations wl <? 1)))
    (ValueError "workload concurrency and iterations must be positive");;
  guard (negb (wl_timeout_seconds wl <? 1)) (ValueError "workload timeout_seconds must be positive");;
  guard (negb (negb (String.eqb (tg_adapter_entrypoint t) "") &&
               ((256 <? bytelen (tg_adapter_entrypoint t)) || negb (is_entrypoint (tg_adapter_entrypoint t)))))
    (ValueError "target.adapterEntrypoint must be a module:function reference").

Definition load_run_config (document : val) : pyres RunConfig :=
  raw ← as_dict document;
  let run_id := text_or raw "run_id" "local-run" in
  source ← as_dict (get_or raw "source" (VDict []));
  dataset ← as_dict (get_or raw "dataset" (VDict []));
  target ← as_dict (get_or raw "target" (VDict []));
  target ← target_config target;
  workload ← as_dict (get_or raw "workload" (VDict []));
  concurrency ← int_or workload "concurrency" 1;
  iterations ← int_or workload "iterations" 1;
  timeout_seconds ← int_or workload "timeout_seconds" 900;
  evaluation ← evaluation_of (get_or raw "evaluation" (VDict []));
  telemetry ← _telemetry (get_or raw "telemetry" (VDict []));
  reliability ← _reliability (get_none raw "reliability");
  let config := {| rc_run_id := run_id;
    rc_source := mkSource (text_or source "namespace" "local") (text_or source "name" run_id);
    rc_dataset := mkDataset (text_or dataset "name" "local-dataset") (text_or dataset "key" "cases.jsonl");
    rc_target := target; rc_workload := mkWorkload concurrency iterations timeout_seconds;
    rc_evaluation := evaluation; rc_telemetry := telemetry; rc_reliability := reliability |} in
  check_config config;;
  Ok config.
(** ** load_dataset *)

Definition assertion_types : list string :=
  ["exact"; "contains"; "regex"; "json_schema"; "tool_path"; "latency"; "python"].

Definition allowed_fields (assertion_type : string) : list string :=
  if String.eqb assertion_type "exact" || String.eqb assertion_type "contains" then ["type"; "value"]
  else if String.eqb assertion_type "regex" then ["type"; "pattern"]
  else if String.eqb assertion_type "json_schema" then ["type"; "schema"]
  else if String.eqb assertion_type "tool_path" then ["type"; "path"]
  else if String.eqb assertion_type "latency" then ["type"; "max_ms"]
  else ["type"; "entrypoint"; "config"].

(** [max_ms > 0] and [float(max_ms)] *)
Definition positive_number (v : val) : option (pyres float) :=
  match v with
  | VInt z => if 0 <? z then Some (float_of_int z) else None
  | VFloat f => if fle f (Fin 0) then None else Some (Ok f)
  | _ => None
  end.

Definition valid_entrypoint (s : string) : bool :=
  match split_first ":" s with
  | (m, Some f) =>
      negb (String.eqb m "") && negb (String.eqb f "") && (count_char ":" f =? 0)
  | (_, None) => false
  end.

Definition _assertion_spec (raw : dict) (assertion_type location : string) : pyres AssertionSpec :=
  let fail msg := Err (ValueError (location +:+ msg)) in
  if String.eqb assertion_type "exact" || String.eqb assertion_type "contains" then
    match get_none raw "value" with
    | VStr s => Ok (mkAssertionSpec assertion_type (Some s) None VNone [] None None [])
    | _ => fail " value must be a string"
    end
  else if String.eqb assertion_type "regex" then
    match get_none raw "pattern" with
    | VStr s => Ok (mkAssertionSpec assertion_type None (Some s) VNone [] None None [])
    | _ => fail " pattern must be a string"
    end
  else if String.eqb assertion_type "json_schema" then
    match get_none raw "schema" with
    | VDict _ | VBool _ => Ok (mkAssertionSpec assertion_type None None (get_none raw "schema") [] None None [])
    | _ => fail " schema must be an object or boolean"
    end
  else if String.eqb assertion_type "tool_path" then
    match get_none raw "path" with
    | VList items =>
        path ← nonempty_strings (ValueError (location +:+ " path must be an array of non-empty strings")) items;
        Ok (mkAssertionSpec assertion_type None None VNone path None None [])
    | _ => fail " path must be an array of non-empty strings"
    end
  else if String.eqb assertion_type "latency" then
    match positive_number (get_none raw "max_ms") with
    | Some r => max_ms ← r; Ok (mkAssertionSpec assertion_type None None VNone [] (Some max_ms) None [])
    | None => fail " max_ms must be positive"
    end
  else
    match get_none raw "entrypoint" with
    | VStr entrypoint =>
        if valid_entrypoint entrypoint then
          match get_or raw "config" (VDict []) with
          | VDict config => Ok (mkAssertionSpec assertion_type None None VNone [] None (Some entrypoint) config)
          | _ => fail " config must be an object"
          end
        else fail " entrypoint must use module:function"
    | _ => fail " entrypoint must use module:function"
    end.

Fixpoint parse_assertions (line_number index : Z) (items : list val) : pyres (list AssertionSpec) :=
  match items with
  | [] => Ok []
  | item :: rest =>
      let location := "dataset line " +:+ str_of_Z line_number +:+ " assertions[" +:+ str_of_Z index +:+ "]" in
      match item with
      | VDict raw =>
          known ← in_str_set (get_none raw "type") assertion_types;
          match get_none raw "type", known with
          | VStr assertion_type, true =>
              guard (forallb (fun k => existsb (String.eqb k) (allowed_fields assertion_type)) raw.*1)
                (ValueError (location +:+ " has unknown fields"));;
              spec ← _assertion_spec raw assertion_type location;
              specs ← parse_assertions line_number (index + 1) rest;
              Ok (spec :: specs)
          | _, _ => Err (ValueError (location +:+ " has unsupported type"))
          end
      | _ => Err (ValueError (location +:+ " must be an object"))
      end
  end.

Definition _assertions (value : val) (line_number : Z) : pyres (list AssertionSpec) :=
  match value with
  | VNone => Ok []
  | VList items => parse_assertions line_number 0 items
  | _ => Err (ValueError ("dataset line " +:+ str_of_Z line_number +:+ " assertions must be an array"))
  end.

(** [text.splitlines()]: the characters that end a line; a carriage return
    takes a following line feed with it. *)
Definition line_end (ch : string) : bool :=
  match ch with
  | String c "" => let b := byte_of c in ((10 <=? b) && (b <=? 13)) || ((28 <=? b) && (b <=? 30))
  | _ => existsb (String.eqb ch) (bytes_str <$> [[194; 133]; [226; 128; 168]; [226; 128; 169]]%nat)
  end.

Definition is_byte (ch : string) (b : nat) : bool := String.eqb ch (bytes_str [b]).

Fixpoint lines_of (cur : string) (cs : list string) : list string :=
  match cs with
  | [] => if String.eqb cur "" then [] else [cur]
  | ch :: rest =>
      if is_byte ch 13 then
        match rest with
        | lf :: rest' => if is_byte lf 10 then cur :: lines_of "" rest' else cur :: lines_of "" rest
        | [] => [cur]
        end
      else if line_end ch then cur :: lines_of "" rest
      else lines_of (cur +:+ ch) rest
  end.

Definition splitlines (text : string) : list string := lines_of "" (chars text).

Definition parse_case (line_number : Z) (case_ids : list string) (raw : val) : pyres TestCase :=
  d ← as_dict raw;
  let required := ValueError ("dataset line " +:+ str_of_Z line_number +:+ " requires a non-empty string input") in
  match get_none d "input" with
  | VStr prompt =>
      guard (negb (blank prompt)) required;;
      let case_id := text_or d "id" ("case-" +:+ str_of_Z line_number) in
      guard (negb (existsb (String.eqb case_id) case_ids))
        (ValueError ("duplicate dataset case id '" +:+ case_id +:+ "' at line " +:+ str_of_Z line_number));;
      assertions ← _assertions (get_none d "assertions") line_number;
      Ok (mkTestCase case_id prompt (_optional_string (get_none d "expected_contains")) assertions (_metadata d))
  | _ => Err required
  end.

Fixpoint parse_lines (line_number : Z) (case_ids : list string) (lines : list string) : pyres (list TestCase) :=
  match lines with
  | [] => Ok []
  | line :: rest =>
      if blank line then parse_lines (line_number + 1) case_ids rest
      else
        match JsonParse.loads line with
        | None => Err (ValueError ("invalid JSONL at line " +:+ str_of_Z line_number))
        | Some raw =>
            case ← parse_case line_number case_ids raw;
            cases ← parse_lines (line_number + 1) (case_ids ++ [tc_case_id case]) rest;
            Ok (case :: cases)
        end
  end.

Definition load_dataset (text : string) : pyres (list TestCase) :=
  cases ← parse_lines 1 [] (splitlines text);
  match cases with [] => Err (ValueError "dataset contains no cases") | _ => Ok cases end.
End Loaders.

(** ** What an accepted document guarantees *)

(** Follows a successful run through its binds, guards and matches. *)
Ltac scrutinee t :=
  lazymatch t with
  | match ?x with _ => _ end => scrutinee x
  | _ => t
  end.

Ltac ok_inv H :=
  unfold mbind, result_bind, guard in H;
  repeat (match type of H with
          | (match ?x with _ => _ end) = Ok _ => let t := scrutinee x in destruct t eqn:?
          end; try discriminate H);
  try (injection H as <-); subst; bool_simpl.

(** Every float of the document is a binary64 value. *)
Fixpoint wf_val (v : val) : Prop :=
  match v with
  | VFloat f => wf_float f
  | VList l => (fix go l := match l with [] => True | x :: l' => wf_val x /\ go l' end) l
  | VDict d => (fix go d := match d with [] => True | (_, x) :: d' => wf_val x /\ go d' end) d
  | _ => True
  end.

(** The decoder only returns such documents. *)
Lemma json_wf v : JsonCodec.json_val v -> wf_val v.
Proof.
  induction v as [| | | | |l IH|d IH|] using val_nested_ind; intros Hv; try done; inversion Hv as [| | |? Hx| |? Hl|? _ Hd]; subst.
  - exact Hx.
  - cbn [wf_val]. clear Hv. induction IH as [|x l Hx _ IHl]; [done|]. inversion Hl; subst. split; [by apply Hx|by apply IHl].
  - cbn [wf_val]. clear Hv. induction IH as [|[k x] d Hx _ IHd]; [done|]. inversion Hd; subst. split; [by apply Hx|by apply IHd].
Qed.

Lemma wf_dict_get d k v : wf_val (VDict d) -> dict_get d k = Some v -> wf_val v.
Proof.
  simpl. induction d as [|[k' v'] d IH]; simpl; [done|]. intros [Hv Hd].
  destruct (String.eqb k k'); [intros [= <-]; done|auto].
Qed.

Lemma wf_get_none d k : wf_val (VDict d) -> wf_val (get_none d k).
Proof. intros H. unfold get_none. destruct (dict_get d k) eqn:E; [by eapply wf_dict_get|done]. Qed.

Lemma wf_get_or d k v : wf_val (VDict d) -> wf_val v -> wf_val (get_or d k v).
Proof. intros H Hv. unfold get_or. destruct (dict_get d k) eqn:E; [by eapply wf_dict_get|done]. Qed.

Lemma strict_number_wf v path f : wf_val v -> _strict_number v path = Ok f -> wf_float f.
Proof.
  unfold _strict_number, float_of_int. destruct v; simpl; try done.
  - intros _ H. ok_inv H. apply of_units_wf. lia.
  - intros Hv [= <-]. done.
Qed.

Lemma in_unit_fin x : in_unit x = true -> exists k, x = Fin k /\ 0 <= k <= one_k.
Proof.
  unfold in_unit. rewrite (of_Z_exact 1) by lia. destruct x; simpl; try done.
  intros. bool_simpl. exists k. split; [done|lia].
Qed.

Lemma retry_valid v r : wf_val v -> _retry v = Ok r -> Retry.valid_retry r.
Proof.
  intros Hv H. unfold _retry in H. destruct v as [| | | | | |d|]; try done. ok_inv H.
  match goal with Hn : _strict_number _ _ = Ok ?j, Hu : in_unit ?j = true |- _ =>
    assert (wf_float j) as Hw;
      [eapply strict_number_wf, Hn; apply wf_get_or; [done|]; apply of_units_wf; lia|];
    destruct (in_unit_fin _ Hu) as (k & -> & Hr)
  end.
  unfold Retry.valid_retry. simpl. split_and!; try lia. exists k. split_and!; try lia; [done|]. apply Hw.
Qed.
Definition valid_breaker (b : CircuitBreakerConfig) : Prop := 1 <= cb_failure_threshold b /\ 1 <= cb_open_duration_ms b.

Lemma breaker_valid v b : _circuit_breaker v = Ok (Some b) -> valid_breaker b.
Proof.
  unfold _circuit_breaker. destruct v as [| | | | | |d|]; try done. intros H. ok_inv H. split; simpl; lia.
Qed.

(** A rule inside the bounds of the fault scenario format. *)
Definition valid_rule (r : FaultRuleConfig) : Prop :=
  fr_fault r ∈ _FAULTS /\ blank (fr_name r) = false /\
  (exists k, fr_probability r = Fin k /\ 0 <= k <= one_k) /\
  NoDup (fr_case_ids r) /\ NoDup (fr_iterations r) /\ NoDup (fr_attempts r) /\
  Forall (fun i => 0 <= i) (fr_iterations r) /\ Forall (fun a => 1 <= a <= 10) (fr_attempts r) /\
  (fr_fault r = "http_error" -> exists s, fr_status_code r = Some s /\ 400 <= s <= 599) /\
  (fr_fault r = "latency" \/ fr_fault r = "timeout" -> exists d, fr_delay_ms r = Some d /\ 0 <= d).

Lemma unique_strings_NoDup l : unique_strings l = true -> NoDup l.
Proof.
  induction l as [|x l IH]; simpl; [constructor|]. intros. bool_simpl. constructor; [|auto].
  intros Hin%list_elem_of_In. assert (existsb (String.eqb x) l = true) as Hx; [|congruence].
  apply existsb_exists. exists x. by rewrite String.eqb_refl.
Qed.

Lemma unique_ints_NoDup l : unique_ints l = true -> NoDup l.
Proof.
  induction l as [|x l IH]; simpl; [constructor|]. intros. bool_simpl. constructor; [|auto].
  intros Hin%list_elem_of_In. assert (existsb (Z.eqb x) l = true) as Hx; [|congruence].
  apply existsb_exists. exists x. by rewrite Z.eqb_refl.
Qed.

Lemma forallb_Forall_le lo l : forallb (fun item => lo <=? item) l = true -> Forall (fun i => lo <= i) l.
Proof. induction l; simpl; [constructor|]. intros. bool_simpl. constructor; [lia|auto]. Qed.

Lemma string_selector_valid v path l : _string_selector v path = Ok l -> NoDup l.
Proof. unfold _string_selector. destruct v; try done. intros H. ok_inv H. by apply unique_strings_NoDup. Qed.

Lemma integer_selector_valid v path lo l :
  _integer_selector v path lo = Ok l -> NoDup l /\ Forall (fun i => lo <= i) l.
Proof.
  unfold _integer_selector. destruct v; try done. intros H. ok_inv H.
  split; [by apply unique_ints_NoDup|by apply forallb_Forall_le].
Qed.

Lemma fault_fields_valid path fault d s t delay status name :
  fault_fields path fault d s t = Ok (delay, status, name) ->
  (fault = "http_error" -> exists c, status = Some c /\ 400 <= c <= 599) /\
  (fault = "latency" \/ fault = "timeout" -> exists m, delay = Some m /\ 0 <= m).
Proof.
  unfold fault_fields. intros H.
  destruct (String.eqb fault "latency" || String.eqb fault "timeout") eqn:E1.
  - ok_inv H. apply orb_true_iff in E1.
    split; [intros ->; by destruct E1|]. intros _. eexists. split; [done|lia].
  - bool_simpl. split; [|naive_solver]. intros ->. simpl in H. ok_inv H. eexists. split; [done|lia].
Qed.

Lemma existsb_elem s l : existsb (String.eqb s) l = true -> s ∈ l.
Proof.
  intros (x & Hin & Hx)%existsb_exists. apply String.eqb_eq in Hx as ->. by apply list_elem_of_In.
Qed.

Lemma in_str_set_elem s l : in_str_set (VStr s) l = Ok true -> s ∈ l.
Proof. intros [= H]. by apply existsb_elem. Qed.

Lemma nonempty_string_valid v path n s : _nonempty_string v path n = Ok s -> blank s = false.
Proof. unfold _nonempty_string. destruct v; try done. intros H. ok_inv H. done. Qed.

Lemma fault_rule_valid v i r : _fault_rule v i = Ok r -> valid_rule r.
Proof.
  unfold _fault_rule. destruct v as [| | | | | |d|]; try done. intros H. ok_inv H.
  match goal with Hs : in_str_set (VStr ?f) _ = Ok true |- _ =>
    assert (f ∈ _FAULTS) by (by apply in_str_set_elem) end.
  match goal with Hu : in_unit _ = true |- _ => destruct (in_unit_fin _ Hu) as (k & -> & Hk) end.
  match goal with Hf : fault_fields _ _ _ _ _ = _ |- _ => destruct (fault_fields_valid _ _ _ _ _ _ _ _ Hf) as [Hh Hl] end.
  repeat match goal with
  | H : _string_selector _ _ = Ok _ |- _ => apply string_selector_valid in H
  | H : _integer_selector _ _ _ = Ok _ |- _ => apply integer_selector_valid in H as [? ?]
  | H : _nonempty_string _ _ _ = Ok _ |- _ => apply nonempty_string_valid in H
  end.
  unfold valid_rule. simpl. split_and!; try done; [eauto|].
  rewrite Forall_forall in *. intros n Hn. split; [auto|].
  match goal with Hb : forallb _ _ = true |- _ => eapply forallb_forall in Hb; [|by apply list_elem_of_In]; bool_simpl; lia end.
Qed.

Lemma fault_rules_valid i l rules : fault_rules i l = Ok rules -> Forall valid_rule rules /\ length rules = length l.
Proof.
  revert i rules. induction l as [|v l IH]; intros i rules H; simpl in H; ok_inv H; [done|].
  destruct (IH _ _ ltac:(eassumption)) as [Ha Hl]. split; [|simpl; congruence].
  constructor; [by eapply fault_rule_valid|done].
Qed.

Definition valid_scenario (s : FaultScenarioConfig) : Prop :=
  Forall valid_rule (fs_rules s) /\ NoDup (fr_name <$> fs_rules s) /\ (length (fs_rules s) <= 100)%nat /\
  is_digest (fs_digest s) = true.

Lemma scenario_valid v s : _scenario_snapshot v = Ok (Some s) -> valid_scenario s.
Proof.
  unfold _scenario_snapshot. destruct v as [| | | | | |d|]; try done. intros H. ok_inv H.
  match goal with Hr : fault_rules _ _ = Ok _ |- _ => apply fault_rules_valid in Hr as [Ha Hl] end.
  unfold valid_scenario. simpl. split_and!; [done|by apply unique_strings_NoDup|lia|done].
Qed.

(** What the middleware, the retry loop and the breaker rely on. *)
Definition valid_reliability (r : ReliabilityConfig) : Prop :=
  Retry.valid_retry (rl_retry r) /\
  (forall b, rl_circuit_breaker r = Some b -> valid_breaker b) /\
  (forall s, rl_scenario r = Some s -> valid_scenario s /\ exists seed, rl_seed r = Some seed) /\
  (forall seed, rl_seed r = Some seed -> 0 <= seed).

Lemma reliability_valid v r : wf_val v -> _reliability v = Ok (Some r) -> valid_reliability r.
Proof.
  intros Hv. unfold _reliability. destruct v as [| | | | | |d|]; try done. intros H. ok_inv H.
  all: unfold valid_reliability; simpl; split_and!;
    [eapply retry_valid; [|eassumption]; by apply wf_get_or
    |intros b ->; by eapply breaker_valid
    |intros s ->; split; [by eapply scenario_valid|eauto]; try done
    |intros ? [=]; subst; lia || done].
Qed.

Lemma pricing_valid v p : _pricing v = Ok (Some p) ->
  _PRICE_PATTERN (pc_input_usd_per_million_tokens p) = true /\
  _PRICE_PATTERN (pc_output_usd_per_million_tokens p) = true.
Proof. unfold _pricing. destruct v as [| | | | | |d|]; try done. intros H. by ok_inv H. Qed.
Lemma range_valid v hi e1 e2 z : validate_range v hi e1 e2 = Ok z -> 1 <= z <= hi.
Proof. unfold validate_range. destruct v; try done. intros H. ok_inv H. lia. Qed.

Lemma either_key_valid target k1 k2 validate o (P : Z -> Prop) :
  (forall v z, validate v = Ok z -> P z) -> either_key target k1 k2 validate = Ok o -> forall z, o = Some z -> P z.
Proof. intros HP. unfold either_key. intros H. ok_inv H; intros ? [=]; subst; eauto. Qed.

Lemma request_fields_valid v reject d :
  validate_request_fields v reject = Ok d ->
  Forall (fun k => k ∉ _RESERVED_REQUEST_FIELDS ++ reject /\ _REQUEST_FIELD_KEY k = true) d.*1 /\
  (length d <= 16)%nat.
Proof.
  unfold validate_request_fields. destruct v as [| | | | | |fields|]; try done.
  { intros [= <-]. split; [constructor|simpl; lia]. }
  intros H. ok_inv H.
  match goal with Hm : mapM_result _ _ = Ok _, Hn : _ <= _ |- _ => split; [|unfold _MAX_REQUEST_FIELDS in *; lia]; revert Hm end.
  clear. intros Hm%mapM_result_Ok. induction Hm as [|[k x] u l us Hk Hm IH]; csimpl; constructor; [|done].
  unfold validate_request_field in Hk. ok_inv Hk. split; [|done].
  intros Hin%list_elem_of_In. match goal with Hb : existsb _ _ = false |- _ => revert Hb end.
  intros Hb. assert (existsb (String.eqb k) (_RESERVED_REQUEST_FIELDS ++ reject) = true); [|congruence].
  apply existsb_exists. exists k. by rewrite String.eqb_refl.
Qed.

Lemma target_valid cr target t : target_config cr target = Ok t ->
  (forall p, tg_pricing t = Some p -> _PRICE_PATTERN (pc_input_usd_per_million_tokens p) = true /\
     _PRICE_PATTERN (pc_output_usd_per_million_tokens p) = true) /\
  (forall n, tg_max_output_tokens t = Some n -> 1 <= n <= 131072) /\
  (forall n, tg_http_retry_attempts t = Some n -> 1 <= n <= 16) /\
  (forall n, tg_http_retry_max_wait_seconds t = Some n -> 1 <= n <= 300) /\
  Forall (fun k => k ∉ _RESERVED_REQUEST_FIELDS ++ ["temperature"; "max_tokens"]) (tg_request_fields t).*1.
Proof.
  unfold target_config. intros H. ok_inv H. simpl. split_and!.
  - intros p ->. by eapply pricing_valid.
  - eapply either_key_valid; [|eassumption]. intros v z. apply range_valid.
  - eapply either_key_valid; [|eassumption]. intros v z. apply range_valid.
  - eapply either_key_valid; [|eassumption]. intros v z. apply range_valid.
  - match goal with Hr : _request_fields _ = Ok _ |- _ => apply request_fields_valid in Hr as [Hr _] end.
    eapply Forall_impl; [eassumption|]. by intros k [? _].
Qed.

Lemma redaction_patterns_valid re_ok i l ps :
  redaction_patterns re_ok i l = Ok ps -> Forall (fun p => re_ok p = true /\ bytelen p <= 256) ps /\ length ps = length l.
Proof.
  revert i ps. induction l as [|v l IH]; intros i ps H; simpl in H; [ok_inv H; done|].
  destruct v; try done. ok_inv H. destruct (IH _ _ ltac:(eassumption)) as [Ha Hl].
  split; [by constructor|simpl; congruence].
Qed.

Lemma telemetry_valid re_ok v t : _telemetry re_ok v = Ok t ->
  tm_content_mode t ∈ ["omit"; "redacted"] /\ (length (td_patterns (tm_redaction t)) <= 20)%nat /\
  Forall (fun p => re_ok p = true) (td_patterns (tm_redaction t)).
Proof.
  unfold _telemetry. intros H. ok_inv H; simpl;
    match goal with Hr : redaction_patterns _ _ _ = Ok _ |- _ => apply redaction_patterns_valid in Hr as [Ha Hl] end.
  all: split_and!; [by apply in_str_set_elem|lia|]; eapply Forall_impl; [exact Ha|]; by intros p [? _].
Qed.

Definition valid_config (re_ok : string -> bool) (c : RunConfig) : Prop :=
  1 <= wl_concurrency (rc_workload c) /\ 1 <= wl_iterations (rc_workload c) /\
  1 <= wl_timeout_seconds (rc_workload c) /\
  (forall r, rc_reliability c = Some r -> valid_reliability r) /\
  (forall p, tg_pricing (rc_target c) = Some p ->
     _PRICE_PATTERN (pc_input_usd_per_million_tokens p) = true /\
     _PRICE_PATTERN (pc_output_usd_per_million_tokens p) = true) /\
  (forall n, tg_max_output_tokens (rc_target c) = Some n -> 1 <= n <= 131072) /\
  (forall n, tg_http_retry_attempts (rc_target c) = Some n -> 1 <= n <= 16) /\
  (forall n, tg_http_retry_max_wait_seconds (rc_target c) = Some n -> 1 <= n <= 300) /\
  Forall (fun k => k ∉ _RESERVED_REQUEST_FIELDS ++ ["temperature"; "max_tokens"]) (tg_request_fields (rc_target c)).*1 /\
  tm_content_mode (rc_telemetry c) ∈ ["omit"; "redacted"] /\
  (length (td_patterns (tm_redaction (rc_telemetry c))) <= 20)%nat /\
  Forall (fun p => re_ok p = true) (td_patterns (tm_redaction (rc_telemetry c))).

(** The part of it the runner's pool needs. *)
Lemma loaded_concurrency re_ok cr nfkc host document c :
  load_run_config re_ok cr nfkc host document = Ok c -> 1 <= wl_concurrency (rc_workload c).
Proof.
  intros H. unfold load_run_config, as_dict in H. destruct document as [| | | | | |raw|]; try done.
  unfold check_config in H. ok_inv H; simpl in *; lia.
Qed.

(** C25.  Every configuration the loader accepts is inside the bounds the rest
    of the worker relies on: a positive workload; retry, breaker and fault
    settings within their ranges, with a seed whenever faults are configured;
    prices of the accepted form; request fields that cannot replace the chat
    contract; redaction patterns that compile. *)
Theorem accepted_config_valid re_ok cr nfkc host text document c :
  JsonParse.loads text = Some document -> load_run_config re_ok cr nfkc host document = Ok c -> valid_config re_ok c.
Proof.
  intros Hw%JsonCodec.loads_json%json_wf H. unfold load_run_config, as_dict in H.
  destruct document as [| | | | | |raw|]; try done. unfold check_config in H. ok_inv H; simpl in *.
  all: repeat match goal with
    | H : target_config _ _ = Ok _ |- _ => apply target_valid in H as (? & ? & ? & ? & ?)
    | H : _telemetry _ _ = Ok _ |- _ => apply telemetry_valid in H as (? & ? & ?)
    end.
  all: unfold valid_config; simpl; split_and!; try done; try lia.
  all: intros r ->; eapply reliability_valid; [|eassumption]; by apply (wf_get_none raw).
Qed.
(** An assertion with the field its evaluator reads. *)
Definition valid_spec (a : AssertionSpec) : Prop :=
  as_type a ∈ assertion_types /\
  (as_type a = "exact" \/ as_type a = "contains" -> is_Some (as_value a)) /\
  (as_type a = "regex" -> is_Some (as_pattern a)) /\
  (as_type a = "json_schema" -> is_none (as_schema a) = false) /\
  (as_type a = "latency" -> is_Some (as_max_ms a)) /\
  (as_type a = "python" -> exists e, as_entrypoint a = Some e /\ valid_entrypoint e = true).

Lemma assertion_spec_valid raw ty loc a : ty ∈ assertion_types -> _assertion_spec raw ty loc = Ok a -> valid_spec a.
Proof.
  unfold _assertion_spec, valid_spec. intros Hty H. pose proof Hty as Hin. unfold assertion_types in Hty.
  rewrite !elem_of_cons in Hty. destruct_or!; [subst ty; cbn in H; ok_inv H..|by apply elem_of_nil in Hty].
  all: simpl; split_and!; try done; try (by intros [|]); eauto.
Qed.

Lemma parse_assertions_valid n i l specs : parse_assertions n i l = Ok specs -> Forall valid_spec specs.
Proof.
  revert i specs. induction l as [|v l IH]; intros i specs H; simpl in H; [ok_inv H; constructor|].
  destruct v; try done. ok_inv H. constructor; [|by eapply IH].
  eapply assertion_spec_valid; [|eassumption]. by apply in_str_set_elem.
Qed.

Lemma assertions_valid v n specs : _assertions v n = Ok specs -> Forall valid_spec specs.
Proof. unfold _assertions. destruct v; try done; [by intros [= <-]; constructor|apply parse_assertions_valid]. Qed.

Definition valid_case (c : TestCase) : Prop :=
  blank (tc_prompt c) = false /\ Forall valid_spec (effective_assertions c) /\ tc_expected_contains c <> Some "".

Lemma parse_case_valid cr n ids raw c :
  parse_case cr n ids raw = Ok c -> valid_case c /\ tc_case_id c ∉ ids.
Proof.
  unfold parse_case. intros H. ok_inv H. split.
  - split_and!; simpl; [done| |].
    + unfold effective_assertions. simpl. apply Forall_app. split; [|by eapply assertions_valid].
      destruct (_optional_string _); constructor; [|constructor]. unfold valid_spec, contains_spec. simpl.
      unfold assertion_types. rewrite !elem_of_cons. split_and!; eauto; done.
    + unfold _optional_string. repeat case_match; try done. bool_simpl. congruence.
  - simpl. intros Hin%list_elem_of_In.
    match goal with Hb : existsb (String.eqb ?x) _ = false |- _ =>
      assert (existsb (String.eqb x) ids = true); [|congruence]; apply existsb_exists; exists x; by rewrite String.eqb_refl end.
Qed.

Lemma parse_lines_valid cr n ids lines cases :
  parse_lines cr n ids lines = Ok cases ->
  Forall valid_case cases /\ NoDup (tc_case_id <$> cases) /\ Forall (fun c => tc_case_id c ∉ ids) cases.
Proof.
  revert n ids cases. induction lines as [|line lines IH]; intros n ids cases H; simpl in H.
  - ok_inv H. split_and!; constructor.
  - destruct (blank line); [by eapply IH|]. ok_inv H.
    destruct (IH _ _ _ ltac:(eassumption)) as (Ha & Hb & Hc).
    destruct (parse_case_valid _ _ _ _ _ ltac:(eassumption)) as [Hv Hid]. split_and!.
    + by constructor.
    + rewrite fmap_cons. constructor; [|done]. intros (x & Hx & Hin)%list_elem_of_fmap.
      eapply Forall_forall in Hc; [|exact Hin]. set_solver.
    + constructor; [done|]. eapply Forall_impl; [exact Hc|]. intros x Hx. set_solver.
Qed.

(** C26.  Every dataset the loader accepts has at least one case, its case ids
    are pairwise distinct, no prompt is blank, and every assertion carries the
    field its evaluator needs. *)
Theorem accepted_dataset_valid cr text cases :
  load_dataset cr text = Ok cases ->
  cases <> [] /\ NoDup (tc_case_id <$> cases) /\ Forall valid_case cases.
Proof.
  unfold load_dataset. intros H. ok_inv H.
  destruct (parse_lines_valid _ _ _ _ _ ltac:(eassumption)) as (Ha & Hb & _). done.
Qed.

(** ** Concrete documents *)

Abbreviation qt := JsonParse.qt.

Definition sample_dataset : string :=
  "{" +:+ qt "input" +:+ ": " +:+ qt "hi" +:+ "}" +:+ String (ascii_of_nat 10) (String (ascii_of_nat 10)
  ("{" +:+ qt "id" +:+ ":" +:+ qt "b" +:+ "," +:+ qt "input" +:+ ":" +:+ qt "yo" +:+ "," +:+ qt "assertions" +:+
   ":[{" +:+ qt "type" +:+ ":" +:+ qt "latency" +:+ "," +:+ qt "max_ms" +:+ ":250}]}")).

Lemma accepted_dataset_valid_witness :
  exists cases, load_dataset (fun _ => "") sample_dataset = Ok cases /\
    tc_case_id <$> cases = ["case-1"; "b"] /\ NoDup (tc_case_id <$> cases).
Proof.
  assert (exists cases, load_dataset (fun _ => "") sample_dataset = Ok cases /\ tc_case_id <$> cases = ["case-1"; "b"])
    as (cases & H & Hi).
  { eexists. split; [vm_compute; reflexivity|reflexivity]. }
  exists cases. split; [exact H|]. split; [exact Hi|].
  exact (proj1 (proj2 (accepted_dataset_valid _ _ _ H))).
Defined.

Definition sample_document : string :=
  "{" +:+ qt "target" +:+ ":{" +:+ qt "pricing" +:+ ":{" +:+ qt "inputUSDPerMillionTokens" +:+ ":" +:+ qt "0.15" +:+
  "," +:+ qt "outputUSDPerMillionTokens" +:+ ":" +:+ qt "0.60" +:+ "}}," +:+ qt "reliability" +:+ ":{" +:+
  qt "retry" +:+ ":{" +:+ qt "maxAttempts" +:+ ":4," +:+ qt "jitterRatio" +:+ ":0.5}}}".

Lemma accepted_config_valid_witness :
  exists document c, JsonParse.loads sample_document = Some document /\
    load_run_config (fun _ => true) (fun _ => "") (fun _ => true) (fun _ => true) document = Ok c /\
    valid_config (fun _ => true) c /\ rt_max_attempts <$> (rl_retry <$> rc_reliability c) = Some 4.
Proof.
  assert (exists document c, JsonParse.loads sample_document = Some document /\
    load_run_config (fun _ => true) (fun _ => "") (fun _ => true) (fun _ => true) document = Ok c /\
    rt_max_attempts <$> (rl_retry <$> rc_reliability c) = Some 4) as (document & c & H1 & H2 & H3).
  { eexists _, _. split; [vm_compute; reflexivity|]. split; [vm_compute; reflexivity|reflexivity]. }
  exists document, c. split; [exact H1|]. split; [exact H2|]. split; [|exact H3].
  exact (accepted_config_valid _ _ _ _ _ _ _ H1 H2).
Defined.
End Config.
