(* ===== verification/Results.v ===== *)
(** * The Result API client ([results.py])

    Requests, payloads and the translation of replies, as pure functions; the
    transport ([urllib]'s opener) is a parameter of the calls built on them in
    [Scheduler.v].  A reply body is decoded text. *)
From S2P Require Import Prelude PyFloat PyStr PyVal PyJson JsonParse PyDecimal.
From S2P Require Import Models Sha256 Retry Circuit Pricing OpenAIValidate Config.
Import PyFloat PyStr PyVal PyJson JsonParse Config.

Module Results.

Record QueueClaim := mkClaim { qc_shard_index : Z; qc_lease_token : string; qc_renew_after_ms : Z }.
Record PermitGrant := mkGrant { pg_permit_id : string; pg_lease_token : string; pg_renew_after_ms : Z }.
Record ResultSinkConfig := mkSink {
  sk_base_url : string;
  sk_write_token : string;
  sk_include_sensitive : bool;
  sk_timeout_seconds : float
}.

Record http_request := mkRequest { rq_method : string; rq_url : string; rq_headers : list (string * string); rq_body : string }.

(** What [self._opener] does with a request. *)
Inductive reply :=
| ROk (status : Z) (body : string)
| RHttpError (code : Z) (body : string)
| RUnavailable.

(** ** Percent encoding *)

Definition is_unreserved (c : ascii) : bool :=
  is_alnum c || Ascii.eqb c "_" || Ascii.eqb c "." || Ascii.eqb c "-" || Ascii.eqb c "~".

Definition hex_digit (n : Z) : ascii :=
  match String.get (Z.to_nat n) "0123456789ABCDEF" with Some c => c | None => "0"%char end.

Definition percent (c : ascii) : string :=
  String "%" (String (hex_digit (byte_of c / 16)) (String (hex_digit (byte_of c mod 16)) "")).

(** [urllib.parse.quote(s, safe="")] and [urllib.parse.quote_plus(s, safe="")] *)
Fixpoint quote_url (s : string) : string :=
  match s with
  | "" => ""
  | String c s' => (if is_unreserved c then String c "" else percent c) +:+ quote_url s'
  end.

Fixpoint quote_plus (s : string) : string :=
  match s with
  | "" => ""
  | String c s' =>
      (if is_unreserved c then String c "" else if Ascii.eqb c " " then "+" else percent c) +:+ quote_plus s'
  end.

(** ** Requests *)

Definition body_of (payload : val) : pyres string := dumps compact payload.

Definition put_request (config : ResultSinkConfig) (path idempotency_key : string) (payload : val)
    (extra_headers : list (string * string)) : pyres http_request :=
  body ← body_of payload;
  Ok (mkRequest "PUT" (sk_base_url config +:+ path)
        ([("Authorization", "Bearer " +:+ sk_write_token config); ("Content-Type", "application/json");
          ("Idempotency-Key", idempotency_key)] ++ extra_headers) body).

Definition post_request (config : ResultSinkConfig) (path : string) (payload : val) : pyres http_request :=
  body ← body_of payload;
  Ok (mkRequest "POST" (sk_base_url config +:+ path)
        [("Authorization", "Bearer " +:+ sk_write_token config); ("Content-Type", "application/json")] body).

Definition unavailable : exn := EResultSink "result API is unavailable".
Definition http_failure (code : Z) : exn := EResultSink ("result API returned HTTP " +:+ str_of_Z code).

(** The reply of a [_put]. *)
Definition put_reply (r : reply) : result exn unit :=
  match r with
  | ROk _ _ => Ok tt
  | RHttpError code _ => Err (http_failure code)
  | RUnavailable => Err unavailable
  end.

Definition or_empty (body : string) : string := if String.eqb body "" then "{}" else body.

Definition py_exn {A} (r : pyres A) : result exn A := match r with Ok a => Ok a | Err e => Err (EPy e) end.

(** [SchedulerBusy(retry_after_ms)] *)
Definition busy_error (retry_after_ms : Z) : exn := ESchedulerBusy (Z.max 1 retry_after_ms).

(** The delay a 429 reply asks for; exceptions other than ValueError and
    TypeError leave the client. *)
Definition retry_after_of (body : string) : result exn Z :=
  match loads (or_empty body) with
  | None => Ok 1000
  | Some (VDict d) =>
      match py_int (get_or d "retry_after_ms" (VInt 1000)) with
      | Ok z => Ok z
      | Err (ValueError _) | Err (TypeError _) => Ok 1000
      | Err e => Err (EPy e)
      end
  | Some _ => Err (EPy (AttributeError "get"))
  end.

(** The reply of a [_post]; [None] is an empty (204) reply. *)
Definition post_reply (r : reply) : result exn (option dict) :=
  match r with
  | ROk status body =>
      if status =? 204 then Ok None
      else match loads (or_empty body) with
           | None => Err (EPy (ValueError "JSONDecodeError"))
           | Some (VDict d) => Ok (Some d)
           | Some _ => Err (EResultSink "result API returned an invalid JSON response")
           end
  | RHttpError code body =>
      if code =? 429 then ms ← retry_after_of body; Err (busy_error ms) else Err (http_failure code)
  | RUnavailable => Err unavailable
  end.

(** [payload[key]] *)
Definition item (d : dict) (key : string) : result exn val :=
  match dict_get d key with Some v => Ok v | None => Err (EPy (KeyError key)) end.

Section Replies.
Context (container_repr : val -> string).

Definition int_item (d : dict) (key : string) : result exn Z := v ← item d key; py_exn (py_int v).
Definition str_item (d : dict) (key : string) : result exn string := v ← item d key; Ok (py_str container_repr v).

Definition claim_reply (payload : option dict) : result exn (option QueueClaim) :=
  match payload with
  | None => Ok None
  | Some d =>
      shard_index ← int_item d "shard_index";
      lease_token ← str_item d "lease_token";
      renew_after_ms ← int_item d "renew_after_ms";
      Ok (Some (mkClaim shard_index lease_token renew_after_ms))
  end.

Definition grant_reply (payload : option dict) : result exn PermitGrant :=
  match payload with
  | None => Err (EResultSink "result API returned an empty permit response")
  | Some d =>
      permit_id ← str_item d "permit_id";
      lease_token ← str_item d "lease_token";
      renew_after_ms ← int_item d "renew_after_ms";
      Ok (mkGrant permit_id lease_token renew_after_ms)
  end.

Definition renew_reply (empty : string) (payload : option dict) : result exn Z :=
  match payload with None => Err (EResultSink empty) | Some d => int_item d "renew_after_ms" end.
End Replies.

Definition run_path (run_id : string) : string := "/v1/runs/" +:+ quote_url run_id.

(** [claim_shard], [renew_shard], [acquire_permit], [renew_permit] and
    [release_permit]: the request of each. *)
Definition claim_request (c : ResultSinkConfig) (run_id worker_id : string) : pyres http_request :=
  post_request c (run_path run_id +:+ "/queue/claims") (VDict [("worker_id", VStr worker_id)]).

Definition renew_shard_request (c : ResultSinkConfig) (run_id : string) (shard_index : Z) (lease_token : string) :
    pyres http_request :=
  post_request c (run_path run_id +:+ "/queue/shards/" +:+ str_of_Z shard_index +:+ "/renew")
    (VDict [("lease_token", VStr lease_token)]).

Definition acquire_request (c : ResultSinkConfig) (run_id request_id worker_id provider : string) : pyres http_request :=
  let request_id := if pylen request_id =? 64 then request_id else Sha256.hexdigest request_id in
  post_request c (run_path run_id +:+ "/permits")
    (VDict [("request_id", VStr request_id); ("worker_id", VStr worker_id); ("provider", VStr provider)]).

Definition permit_request (action : string) (c : ResultSinkConfig) (run_id : string) (grant : PermitGrant) :
    pyres http_request :=
  post_request c (run_path run_id +:+ "/permits/" +:+ pg_permit_id grant +:+ "/" +:+ action)
    (VDict [("lease_token", VStr (pg_lease_token grant))]).
Definition renew_permit_request := permit_request "renew".
Definition release_request := permit_request "release".

Definition mark_terminal (c : ResultSinkConfig) (run_id status reason_code : string) : pyres http_request :=
  guard (String.eqb status "cancelled" || String.eqb status "harness_failed")
    (ValueError "terminal status must be cancelled or harness_failed");;
  put_request c (run_path run_id +:+ "/terminal") ("run/" +:+ run_id +:+ "/terminal/" +:+ status)
    (VDict [("status", VStr status); ("reason_code", VStr reason_code)]) [].
(** ** Payloads *)

(** A field that is left out when its text is empty. *)
Definition text_field (key s : string) : dict := if String.eqb s "" then [] else [(key, VStr s)].
Definition opt_int_val (z : option Z) : val := match z with Some n => VInt n | None => VNone end.
Definition opt_float_val (f : option float) : val := match f with Some x => VFloat x | None => VNone end.
Definition str_list (l : list string) : val := VList (VStr <$> l).
Definition list_field (key : string) (l : list string) : dict :=
  match l with [] => [] | _ => [(key, str_list l)] end.

Definition attempt_payload (a : AttemptResult) : val :=
  VDict ([("number", VInt (at_number a)); ("latency_ms", VFloat (at_latency_ms a));
          ("outcome", VStr (at_outcome a)); ("ambiguous", VBool (at_ambiguous a));
          ("retry_decision", VStr (at_retry_decision a)); ("backoff_ms", VInt (at_backoff_ms a));
          ("input_tokens", VInt (or0 (at_input_tokens a))); ("output_tokens", VInt (or0 (at_output_tokens a)));
          ("usage_complete", VBool (at_usage_complete a));
          ("model_call_count", opt_int_val (at_model_call_count a));
          ("tool_call_count", VInt (at_tool_call_count a))]
         ++ text_field "failure_category" (at_failure_category a)
         ++ text_field "error_code" (at_error_code a)
         ++ text_field "injected_rule" (at_injected_rule a)
         ++ text_field "injected_fault" (at_injected_fault a)
         ++ list_field "circuit_events" (at_circuit_events a)).

Definition assertion_payload (include_sensitive : bool) (o : AssertionOutcome) : val :=
  VDict ([("index", VInt (ao_index o)); ("type", VStr (ao_type o)); ("passed", VBool (ao_passed o));
          ("reason_code", VStr (ao_reason_code o))]
         ++ match ao_message o with
            | Some m => if include_sensitive then [("message", VStr m)] else []
            | None => []
            end).

Definition idempotency_key (run_id case_id : string) (iteration : Z) : string :=
  "run/" +:+ run_id +:+ "/case/" +:+ quote_plus case_id +:+ "/iteration/" +:+ str_of_Z iteration.

Definition _case_payload (config : ResultSinkConfig) (run_id : string) (result : CaseResult) : dict :=
  [("idempotency_key", VStr (idempotency_key run_id (cr_case_id result) (cr_iteration result)));
   ("case_id", VStr (cr_case_id result)); ("iteration", VInt (cr_iteration result));
   ("success", VBool (cr_success result)); ("latency_ms", VFloat (cr_latency_ms result));
   ("input_tokens", VInt (or0 (cr_input_tokens result))); ("output_tokens", VInt (or0 (cr_output_tokens result)));
   ("usage_complete", VBool (cr_usage_complete result));
   ("model_call_count", opt_int_val (cr_model_call_count result));
   ("tool_call_count", VInt (cr_tool_call_count result))]
  ++ text_field "failure_kind" (cr_failure_kind result)
  ++ text_field "failure_category" (cr_failure_category result)
  ++ text_field "error_code" (cr_error_code result)
  ++ match cr_attempts result with [] => [] | l => [("attempts", VList (attempt_payload <$> l))] end
  ++ list_field "tool_path" (cr_tool_path result)
  ++ match cr_assertions result with
     | [] => []
     | l => [("assertions", VList (assertion_payload (sk_include_sensitive config) <$> l))]
     end
  ++ (if sk_include_sensitive config
      then text_field "output" (cr_output result)
           ++ match cr_error result with Some e => text_field "error" e | None => [] end
      else []).

Definition summary_payload (s : RunSummary) : val :=
  VDict [("total", VInt (rs_total s)); ("succeeded", VInt (rs_succeeded s)); ("failed", VInt (rs_failed s));
         ("duration_ms", VFloat (rs_duration_ms s)); ("input_tokens", VInt (rs_input_tokens s));
         ("output_tokens", VInt (rs_output_tokens s)); ("usage_complete", VBool (rs_usage_complete s));
         ("model_call_count", opt_int_val (rs_model_call_count s)); ("tool_call_count", VInt (rs_tool_call_count s))].

Definition shard_payload (config : ResultSinkConfig) (run_id : string) (results : list CaseResult)
    (summary : RunSummary) : val :=
  VDict [("schema_version", VStr "v1alpha1"); ("summary", summary_payload summary);
         ("cases", VList ((fun r => VDict (_case_payload config run_id r)) <$> results))].

Definition upload_shard (config : ResultSinkConfig) (run_id : string) (shard_index : Z) (results : list CaseResult)
    (summary : RunSummary) (lease_token : string) : pyres http_request :=
  put_request config (run_path run_id +:+ "/shards/" +:+ str_of_Z shard_index)
    ("run/" +:+ run_id +:+ "/shard/" +:+ str_of_Z shard_index) (shard_payload config run_id results summary)
    (if String.eqb lease_token "" then [] else [("X-AgentStorm-Queue-Lease", lease_token)]).

Definition rule_payload (r : FaultRuleConfig) : val :=
  VDict ([("name", VStr (fr_name r)); ("fault", VStr (fr_fault r)); ("probability", VFloat (fr_probability r));
          ("attempts", VList (VInt <$> fr_attempts r))]
         ++ list_field "caseIDs" (fr_case_ids r)
         ++ match fr_iterations r with [] => [] | l => [("iterations", VList (VInt <$> l))] end
         ++ match fr_delay_ms r with Some d => [("delayMs", VInt d)] | None => [] end
         ++ match fr_status_code r with Some c => [("statusCode", VInt c)] | None => [] end
         ++ text_field "toolName" (fr_tool_name r)).

Definition scenario_payload (s : FaultScenarioConfig) : val :=
  VDict [("source", VDict [("name", VStr (fs_source_name s)); ("key", VStr (fs_source_key s))]);
         ("digest", VStr (fs_digest s));
         ("document", VDict [("apiVersion", VStr "agentstorm.io/v1alpha1"); ("kind", VStr "FaultScenario");
                             ("rules", VList (rule_payload <$> fs_rules s))])].

Definition _reliability_payload (r : ReliabilityConfig) : val :=
  let retry := rl_retry r in
  VDict ([("retry", VDict [("max_attempts", VInt (rt_max_attempts retry));
             ("initial_backoff_ms", VInt (rt_initial_backoff_ms retry));
             ("max_backoff_ms", VInt (rt_max_backoff_ms retry));
             ("max_cumulative_backoff_ms", VInt (rt_max_cumulative_backoff_ms retry));
             ("jitter_ratio", VFloat (rt_jitter_ratio retry));
             ("allow_ambiguous_retries", VBool (rt_allow_ambiguous_retries retry))])]
         ++ match rl_seed r with Some z => [("seed", VInt z)] | None => [] end
         ++ match rl_circuit_breaker r with
            | Some b => [("circuit_breaker", VDict [("failure_threshold", VInt (cb_failure_threshold b));
                                                    ("open_duration_ms", VInt (cb_open_duration_ms b))])]
            | None => []
            end
         ++ match rl_scenario r with Some s => [("scenario", scenario_payload s)] | None => [] end).

Definition register_payload (config : RunConfig) (expected_shards : Z) : val :=
  let t := rc_target config in
  VDict ([("schema_version", VStr "v1alpha1"); ("expected_shards", VInt expected_shards);
          ("source", VDict [("namespace", VStr (src_namespace (rc_source config)));
                            ("name", VStr (src_name (rc_source config)))]);
          ("target", VDict ([("provider", VStr (tg_provider t)); ("model", VStr (tg_model t))]
             ++ text_field "adapter_entrypoint" (tg_adapter_entrypoint t)
             ++ match tg_pricing t with
                | Some p => [("pricing", VDict
                    [("input_usd_per_million_tokens", VStr (pc_input_usd_per_million_tokens p));
                     ("output_usd_per_million_tokens", VStr (pc_output_usd_per_million_tokens p))])]
                | None => []
                end));
          ("dataset", VDict [("name", VStr (ds_name (rc_dataset config))); ("key", VStr (ds_key (rc_dataset config)))]);
          ("evaluation", VDict [("min_success_rate", opt_float_val (ev_min_success_rate (rc_evaluation config)));
             ("max_failure_rate", opt_float_val (ev_max_error_rate (rc_evaluation config)));
             ("max_p95_ms", opt_int_val (ev_max_p95_latency_ms (rc_evaluation config)))])]
         ++ match rc_reliability config with Some r => [("reliability", _reliability_payload r)] | None => [] end).

Definition register_run (c : ResultSinkConfig) (config : RunConfig) (expected_shards : Z) : pyres http_request :=
  put_request c (run_path (rc_run_id config)) ("run/" +:+ rc_run_id config) (register_payload config expected_shards) [].

(** [_environment_boolean] on the value of the variable. *)
Definition _environment_boolean (name : string) (raw : option string) (default : bool) : pyres bool :=
  match raw with
  | None => Ok default
  | Some s =>
      let normalized := lower (strip s) in
      if String.eqb normalized "true" then Ok true
      else if String.eqb normalized "false" then Ok false
      else Err (ValueError (name +:+ " must be true or false"))
  end.

(** ** Idempotency keys *)

Lemma hex_digit_inj a b : 0 <= a < 16 -> 0 <= b < 16 -> hex_digit a = hex_digit b -> a = b.
Proof.
  intros Ha Hb H.
  assert (forallb (fun x => forallb (fun y => implb (Ascii.eqb (hex_digit x) (hex_digit y)) (x =? y)) (seqZ 0 16))
            (seqZ 0 16) = true) as Hall by (by vm_compute).
  rewrite forallb_forall in Hall. specialize (Hall a). rewrite forallb_forall in Hall.
  specialize (Hall ltac:(apply list_elem_of_In, elem_of_seqZ; lia) b ltac:(apply list_elem_of_In, elem_of_seqZ; lia)).
  rewrite H, Ascii.eqb_refl in Hall. simpl in Hall. by apply Z.eqb_eq.
Qed.

Lemma byte_of_inj c d : byte_of c = byte_of d -> c = d.
Proof.
  unfold byte_of. intros H. rewrite <- (ascii_nat_embedding c), <- (ascii_nat_embedding d). f_equal. lia.
Qed.

Lemma byte_of_range c : 0 <= byte_of c < 256.
Proof. unfold byte_of. pose proof (nat_ascii_bounded c). lia. Qed.

(** The encoding of one character: its first character tells which of the
    three forms it is. *)
Definition enc (c : ascii) : string :=
  if is_unreserved c then String c "" else if Ascii.eqb c " " then "+" else percent c.

Lemma enc_prefix c d s t : enc c +:+ s = enc d +:+ t -> c = d /\ s = t.
Proof.
  unfold enc, percent. intros H.
  destruct (is_unreserved c) eqn:Ec, (is_unreserved d) eqn:Ed; simpl in H.
  - by simplify_eq.
  - destruct (Ascii.eqb d " "); simpl in H; injection H as -> _; done.
  - destruct (Ascii.eqb c " "); simpl in H; injection H as <- _; done.
  - destruct (Ascii.eqb c " ") eqn:E1, (Ascii.eqb d " ") eqn:E2; simpl in H; try done.
    + apply Ascii.eqb_eq in E1, E2. by simplify_eq.
    + injection H as H1 H2 H3. split; [|done]. apply byte_of_inj.
      pose proof (byte_of_range c) as Rc. pose proof (byte_of_range d) as Rd.
      assert (forall x, 0 <= x < 256 -> 0 <= x / 16 < 16 /\ 0 <= x mod 16 < 16) as Hr.
      { intros x Hx. split; [split; [apply Z.div_pos; lia|apply Z.div_lt_upper_bound; lia]|apply Z.mod_pos_bound; lia]. }
      destruct (Hr _ Rc), (Hr _ Rd). apply hex_digit_inj in H1, H2; try done.
      rewrite (Z.div_mod (byte_of c) 16), (Z.div_mod (byte_of d) 16) by lia. congruence.
Qed.

Lemma quote_plus_cons c s : quote_plus (String c s) = enc c +:+ quote_plus s.
Proof. done. Qed.

Lemma enc_nonempty c s : enc c +:+ s <> "".
Proof. unfold enc, percent. repeat case_match; done. Qed.

Lemma enc_no_slash c s t : enc c +:+ s <> String "/" t.
Proof.
  unfold enc, percent. destruct (is_unreserved c) eqn:Ec; simpl; [|destruct (Ascii.eqb c " "); done].
  intros [= -> _]. done.
Qed.

(** An encoded id followed by a slash determines the id and the rest. *)
Lemma quote_plus_delimited s t x y :
  quote_plus s +:+ String "/" x = quote_plus t +:+ String "/" y -> s = t /\ x = y.
Proof.
  revert t. induction s as [|c s IH]; intros [|d t] H.
  - simpl in H. by simplify_eq.
  - exfalso. rewrite quote_plus_cons, app_str_assoc in H. by apply (enc_no_slash _ _ _ (eq_sym H)).
  - exfalso. rewrite quote_plus_cons, app_str_assoc in H. by apply (enc_no_slash _ _ _ H).
  - rewrite !quote_plus_cons, !app_str_assoc in H. apply enc_prefix in H as [-> H].
    apply IH in H as [-> ->]. done.
Qed.

Lemma app_str_inj_l (a b c : string) : a +:+ b = a +:+ c -> b = c.
Proof. induction a as [|x a IH]; simpl; [done|]. intros [= H]. auto. Qed.

(** Within a run, results of different cases or iterations never share an
    idempotency key, whatever characters their case ids hold. *)
Theorem idempotency_key_injective run_id id1 it1 id2 it2 :
  idempotency_key run_id id1 it1 = idempotency_key run_id id2 it2 -> id1 = id2 /\ it1 = it2.
Proof.
  unfold idempotency_key. intros H. do 3 apply app_str_inj_l in H.
  change ("/iteration/" +:+ ?x) with (String "/" ("iteration/" +:+ x)) in H.
  apply quote_plus_delimited in H as [-> H]. apply app_str_inj_l in H.
  split; [done|]. by apply (inj pretty) in H.
Qed.

Lemma idempotency_key_injective_witness :
  idempotency_key "r" "a/b c" 1 = "run/r/case/a%2Fb+c/iteration/1" /\
  (idempotency_key "r" "a/b c" 1 = idempotency_key "r" "a/b c" 1 -> "a/b c" = "a/b c" /\ 1 = 1).
Proof. split; [by vm_compute|]. exact (idempotency_key_injective "r" "a/b c" 1 "a/b c" 1). Defined.
(** ** Sensitive content *)

(** A result without the model output, the error text and the assertion
    messages. *)
Definition without_content (r : CaseResult) : CaseResult :=
  mkCaseResult (cr_case_id r) (cr_iteration r) (cr_success r) (cr_latency_ms r) (cr_failure_kind r)
    (cr_failure_category r) (cr_error_code r) (cr_attempts r) (cr_usage_complete r) "" None
    (cr_input_tokens r) (cr_output_tokens r) (cr_model_call_count r) (cr_tool_call_count r) (cr_tool_path r)
    ((fun o => mkOutcome (ao_index o) (ao_type o) (ao_passed o) (ao_reason_code o) None) <$> cr_assertions r)
    (cr_input_cost_usd r) (cr_output_cost_usd r) (cr_cost_usd r) (cr_provider_error_code r) (cr_in_call_retry_count r).

(** C35.  Unless the sink is configured to include sensitive results, what is
    uploaded for a case does not depend on the model output, the error text or
    the assertion messages: it is the payload of the result without them. *)
Theorem payload_independent_of_content config run_id r :
  sk_include_sensitive config = false ->
  _case_payload config run_id r = _case_payload config run_id (without_content r).
Proof.
  intros Hs. unfold _case_payload. rewrite Hs. simpl.
  assert (assertion_payload false <$> cr_assertions (without_content r) = assertion_payload false <$> cr_assertions r) as Ha.
  { simpl. rewrite <- list_fmap_compose. apply list_fmap_ext. intros i o _. unfold assertion_payload. simpl.
    by destruct (ao_message o). }
  simpl in Ha. destruct (cr_assertions r) as [|o l]; simpl in *; [done|]. by rewrite Ha.
Qed.

Definition sample_sink : ResultSinkConfig := mkSink "https://api" "token" false (of_Z 30).

Definition leaky_result : CaseResult :=
  mkCaseResult "c" 0 false (of_Z 12) "assertion" "evaluation" "assertion_failed" [] true "secret output"
    (Some "failed assertions: exact") (Some 1) (Some 2) (Some 1) 0 []
    [mkOutcome 0 "exact" false "mismatch" (Some "expected secret")] None None None "" 0.

Lemma payload_independent_of_content_witness :
  _case_payload sample_sink "run-1" leaky_result = _case_payload sample_sink "run-1" (without_content leaky_result) /\
  cr_output leaky_result <> "".
Proof. split; [exact (payload_independent_of_content sample_sink "run-1" leaky_result eq_refl)|done]. Defined.

(** ** The registered fault scenario *)

Lemma fault_fields_again p fault d s t d' s' t' q :
  fault_fields p fault d s t = Ok (d', s', t') ->
  fault_fields q fault (opt_int_val d') (opt_int_val s') (VStr t') = Ok (d', s', t').
Proof.
  unfold fault_fields. intros H. destruct (String.eqb fault "latency" || String.eqb fault "timeout") eqn:E1.
  - ok_inv H. simpl. by rewrite (proj2 (Z.ltb_ge _ 0)).
  - destruct (String.eqb fault "http_error").
    + ok_inv H. simpl. by rewrite !(proj2 (Z.leb_le _ _)).
    + destruct (String.eqb fault "tool_error").
      * destruct t; try done. ok_inv H. simpl. by rewrite (proj2 (Z.leb_le _ _)).
      * by ok_inv H.
Qed.

Lemma nonempty_string_again v p n s q : _nonempty_string v p n = Ok s -> _nonempty_string (VStr s) q n = Ok s.
Proof.
  unfold _nonempty_string. destruct v; try done. intros H.
  destruct (blank _ || _) eqn:E; [done|]. injection H as <-. by rewrite E.
Qed.

Lemma mapM_again {A} (f g : val -> pyres A) (inj : A -> val) l ys :
  (forall v y, f v = Ok y -> g (inj y) = Ok y) -> mapM_result f l = Ok ys -> mapM_result g (inj <$> ys) = Ok ys.
Proof.
  intros Hfg H%mapM_result_Ok. apply mapM_result_Ok. induction H as [|x y l ys Hx H IH]; constructor; eauto.
Qed.

Lemma string_selector_again v p l q : _string_selector v p = Ok l -> _string_selector (str_list l) q = Ok l.
Proof.
  unfold _string_selector. destruct v; try done. intros H. ok_inv H. unfold str_list.
  match goal with Hm : mapM_result _ _ = Ok _ |- _ =>
    rewrite (mapM_again _ (fun item => _nonempty_string item q 512) VStr _ _
      (fun v y => nonempty_string_again v p 512 y q) Hm) end.
  match goal with Hu : unique_strings _ = true |- _ => cbn; by rewrite Hu end.
Qed.

Lemma integer_selector_again v p lo l q :
  _integer_selector v p lo = Ok l -> _integer_selector (VList (VInt <$> l)) q lo = Ok l.
Proof.
  unfold _integer_selector. destruct v; try done. intros H. ok_inv H.
  match goal with Hm : mapM_result ?f ?items = Ok ?ys |- _ =>
    rewrite (mapM_again f (fun item => _strict_int item q) VInt items ys) by (done || by intros []) end.
  match goal with Hf : forallb _ _ = true, Hu : unique_ints _ = true |- _ => cbn; rewrite Hf; cbn; by rewrite Hu end.
Qed.
(** The payload of an accepted rule as the parser reads it. *)
Lemma rule_payload_fields r :
  exists d, rule_payload r = VDict d /\ _only_keys d rule_keys "" = Ok tt /\
    (forall path, _only_keys d rule_keys path = Ok tt) /\
    get_none d "name" = VStr (fr_name r) /\ get_none d "fault" = VStr (fr_fault r) /\
    get_none d "probability" = VFloat (fr_probability r) /\
    get_or d "caseIDs" (VList []) = str_list (fr_case_ids r) /\
    get_or d "iterations" (VList []) = VList (VInt <$> fr_iterations r) /\
    get_or d "attempts" (VList [VInt 1]) = VList (VInt <$> fr_attempts r) /\
    get_none d "delayMs" = opt_int_val (fr_delay_ms r) /\
    get_none d "statusCode" = opt_int_val (fr_status_code r) /\
    get_or d "toolName" (VStr "") = VStr (fr_tool_name r).
Proof.
  destruct r as [name fault prob ids its ats delay status tool]. unfold rule_payload, list_field, text_field.
  cbn [fr_name fr_fault fr_probability fr_case_ids fr_iterations fr_attempts fr_delay_ms fr_status_code fr_tool_name].
  destruct ids, its, delay, status; destruct (String.eqb tool "") eqn:Et;
    (eexists; split; [reflexivity|]);
    (repeat split; try (intros; reflexivity)); apply String.eqb_eq in Et; by subst.
Qed.

(** The document of an accepted rule parses back to the same rule. *)
Lemma rule_payload_again v i j r : _fault_rule v i = Ok r -> _fault_rule (rule_payload r) j = Ok r.
Proof.
  intros H. unfold _fault_rule in H. destruct v as [| | | | | |d0|]; try done. ok_inv H.
  match goal with |- _fault_rule (rule_payload ?r) _ = _ => set (r0 := r); destruct (rule_payload_fields r0) as (d & E & Hf) end.
  destruct Hf as (_ & Hk & Hn & Hfa & Hp & Hids & Hits & Hats & Hd & Hs & Ht).
  unfold _fault_rule. rewrite E, Hk. unfold mbind, result_bind. rewrite Hn, Hfa, Hp, Hids, Hits, Hats, Hd, Hs, Ht.
  unfold r0.
  cbn [fr_name fr_fault fr_probability fr_case_ids fr_iterations fr_attempts fr_delay_ms fr_status_code fr_tool_name].
  repeat match goal with
  | H : _nonempty_string _ _ _ = Ok ?x |- context [_nonempty_string (VStr ?x) ?q ?n] =>
      rewrite (nonempty_string_again _ _ _ _ q H); clear H
  | H : _string_selector _ _ = Ok ?l |- context [_string_selector (str_list ?l) ?q] =>
      rewrite (string_selector_again _ _ _ q H); clear H
  | H : _integer_selector _ _ ?lo = Ok ?l |- context [_integer_selector (VList (VInt <$> ?l)) ?q ?lo] =>
      rewrite (integer_selector_again _ _ _ _ q H); clear H
  | H : fault_fields _ ?f _ _ _ = Ok (?d, ?s, ?t) |- context [fault_fields ?q ?f _ _ _] =>
      rewrite (fault_fields_again _ _ _ _ _ _ _ _ q H); clear H
  | H : in_str_set _ _ = Ok true |- _ => rewrite H; clear H
  | H : in_unit _ = true |- _ => cbn [_strict_number]; rewrite H; clear H; cbn [guard]
  | H : forallb _ _ = true |- _ => rewrite H; clear H; cbn [guard]
  end.
  reflexivity.
Qed.

(** ** Malformed replies *)

(** A reply that is not JSON, or a 429 whose body is not an object, leaves the
    client as a plain Python exception and not as a [ResultSinkError]. *)
Theorem malformed_reply_escapes :
  post_reply (ROk 200 "<html>") = Err (EPy (ValueError "JSONDecodeError")) /\
  post_reply (RHttpError 429 "[]") = Err (EPy (AttributeError "get")).
Proof. split; by vm_compute. Qed.
End Results.
