(* ===== verification/Payloads.v ===== *)
(** * What the Result API receives

    Every body the worker sends is the JSON text of a payload built in
    [Results.v].  The payloads hold no key twice and no object the encoder
    refuses, so the requests are always built, and the server that decodes their
    bodies gets the payloads back, floats included. *)
From S2P Require Import Prelude PyFloat PyStr PyVal PyJson JsonParse JsonCodec PyDecimal.
From S2P Require Import Models Sha256 Retry Circuit Pricing OpenAIValidate Config Results.
Import PyFloat PyStr PyVal PyJson JsonParse JsonCodec Config Results.

Module Payloads.

(** The document in a request body. *)
Definition received (rq : http_request) : option val := loads (rq_body rq).

(** ** Dictionaries assembled from optional fields *)

(** The entries are JSON values and their keys are some of [keys], in order. *)
Definition fields (keys : list string) (d : dict) : Prop :=
  d.*1 `sublist_of` keys /\ Forall (fun e => json_val e.2) d.

Lemma fields_nil keys : fields keys [].
Proof. split; [apply sublist_nil_l|constructor]. Qed.

Lemma fields_cons k v keys d : json_val v -> fields keys d -> fields (k :: keys) ((k, v) :: d).
Proof. intros Hv [Hk Hd]. split; [by constructor|by constructor]. Qed.

Lemma fields_app ks1 ks2 d1 d2 : fields ks1 d1 -> fields ks2 d2 -> fields (ks1 ++ ks2) (d1 ++ d2).
Proof. intros [H1 H2] [H3 H4]. split; [rewrite fmap_app; by apply sublist_app|by apply Forall_app]. Qed.

Lemma fields_text k s : fields [k] (text_field k s).
Proof. unfold text_field. destruct (String.eqb s ""); [apply fields_nil|]. apply fields_cons; [constructor|apply fields_nil]. Qed.

Lemma fields_one k v : json_val v -> fields [k] [(k, v)].
Proof. intros. apply fields_cons; [done|apply fields_nil]. Qed.

Lemma json_strs l : json_val (str_list l).
Proof. constructor. apply Forall_fmap, Forall_true. intros. constructor. Qed.

Lemma json_ints l : json_val (VList (VInt <$> l)).
Proof. constructor. apply Forall_fmap, Forall_true. intros. constructor. Qed.

Lemma fields_list k l : fields [k] (list_field k l).
Proof. destruct l as [|x l]; [apply fields_nil|apply fields_one, json_strs]. Qed.

Lemma json_opt_int z : json_val (opt_int_val z).
Proof. destruct z; constructor. Qed.

(** A dictionary whose possible keys are all different. *)
Lemma fields_json keys d : fields keys d -> bool_decide (NoDup keys) = true -> json_val (VDict d).
Proof. intros [Hk Hd] Hnd%bool_decide_eq_true. constructor; [by eapply sublist_NoDup|done]. Qed.

Create HintDb payload.
#[export] Hint Resolve fields_nil fields_cons fields_app fields_text fields_one fields_list json_strs json_ints
  json_opt_int : payload.
#[export] Hint Constructors json_val : payload.

(** ** The floats of a result *)

Definition wf_attempt (a : AttemptResult) : Prop := wf_float (at_latency_ms a).
Definition wf_result (r : CaseResult) : Prop := wf_float (cr_latency_ms r) /\ Forall wf_attempt (cr_attempts r).

Lemma attempt_json a : wf_attempt a -> json_val (attempt_payload a).
Proof.
  intros Ha. eapply fields_json; [unfold attempt_payload; eauto 20 with payload|]. reflexivity.
Qed.
Lemma assertion_json b o : json_val (assertion_payload b o).
Proof.
  eapply fields_json; [unfold assertion_payload; apply fields_app; [eauto 10 with payload|]|].
  - assert (fields ["message"] match ao_message o with
       | Some m => if b then [("message", VStr m)] else [] | None => [] end) as H; [|exact H].
    destruct (ao_message o), b; auto with payload.
  - reflexivity.
Qed.

Lemma fields_nonempty {A} k (f : A -> val) (l : list A) :
  Forall (fun x => json_val (f x)) l -> fields [k] match l with [] => [] | x :: l' => [(k, VList (f <$> x :: l'))] end.
Proof. intros H. destruct l; auto with payload. apply fields_one. constructor. by apply Forall_fmap. Qed.

Lemma fields_opt {A} k (f : A -> val) (x : option A) :
  (forall a, x = Some a -> json_val (f a)) -> fields [k] match x with Some a => [(k, f a)] | None => [] end.
Proof. intros H. destruct x; auto with payload. Qed.

(** The keys a case payload may have. *)
Definition case_keys : list string :=
  ["idempotency_key"; "case_id"; "iteration"; "success"; "latency_ms"; "input_tokens"; "output_tokens"; "usage_complete";
   "model_call_count"; "tool_call_count"; "failure_kind"; "failure_category"; "error_code"; "attempts"; "tool_path";
   "assertions"; "output"; "error"].

Lemma case_fields config run_id r : wf_result r -> fields case_keys (_case_payload config run_id r).
Proof.
  intros [Hl Ha]. change case_keys with
    (take 10 case_keys ++ ["failure_kind"] ++ ["failure_category"] ++ ["error_code"] ++ ["attempts"] ++ ["tool_path"]
     ++ ["assertions"] ++ ["output"; "error"]).
  unfold _case_payload. repeat apply fields_app; try apply fields_text; try apply fields_list.
  - cbn [take case_keys]. eauto 20 with payload.
  - apply (fields_nonempty "attempts" attempt_payload). eapply Forall_impl; [exact Ha|]. apply attempt_json.
  - apply (fields_nonempty "assertions" (assertion_payload (sk_include_sensitive config))), Forall_true. apply assertion_json.
  - assert (fields (["output"] ++ ["error"]) (if sk_include_sensitive config
      then text_field "output" (cr_output r) ++ match cr_error r with Some e => text_field "error" e | None => [] end
      else [])) as H; [|exact H].
    destruct (sk_include_sensitive config); [apply fields_app; [auto with payload|]|auto with payload].
    destruct (cr_error r); auto with payload.
Qed.

Lemma case_json config run_id r : wf_result r -> json_val (VDict (_case_payload config run_id r)).
Proof. intros Hr. eapply fields_json; [by apply case_fields|reflexivity]. Qed.

Lemma shard_json config run_id results summary :
  Forall wf_result results -> wf_float (rs_duration_ms summary) ->
  json_val (shard_payload config run_id results summary).
Proof.
  intros Hr Hd. assert (json_val (summary_payload summary)) as Hs.
  { eapply fields_json; [eauto 20 with payload|]. reflexivity. }
  assert (json_val (VList ((fun r => VDict (_case_payload config run_id r)) <$> results))) as Hc.
  { constructor. apply Forall_fmap. eapply Forall_impl; [exact Hr|]. intros. by apply case_json. }
  eapply fields_json; [eauto 10 with payload|]. reflexivity.
Qed.

(** ** Requests *)

Lemma body_received payload : json_val payload -> exists body, body_of payload = Ok body /\ loads body = Some payload.
Proof.
  intros Hp. destruct (loads_dumps compact compact_json payload eq_refl Hp) as (s & Hs & Hl).
  exists s. split; [done|]. by rewrite <- (canon_false payload).
Qed.

Lemma put_received c path key payload headers : json_val payload ->
  exists rq, put_request c path key payload headers = Ok rq /\ received rq = Some payload.
Proof.
  intros Hp. destruct (body_received payload Hp) as (body & Hb & Hl). unfold put_request. rewrite Hb.
  by eexists.
Qed.

Lemma post_received c path payload : json_val payload ->
  exists rq, post_request c path payload = Ok rq /\ received rq = Some payload.
Proof.
  intros Hp. destruct (body_received payload Hp) as (body & Hb & Hl). unfold post_request. rewrite Hb.
  by eexists.
Qed.

(** ** The registration of a run *)

Lemma py_float_wf v f : wf_val v -> py_float v = Ok f -> wf_float f.
Proof.
  unfold py_float, float_of_int. destruct v as [|b|z|x|s| | |]; try done.
  - intros _ [= <-]. apply of_units_wf. lia.
  - intros _ H. ok_inv H. apply of_units_wf. lia.
  - by intros Hx [= <-].
  - intros _. destruct (float_of_str s) as [x|] eqn:E; [|done]. intros [= <-]. revert E. unfold float_of_str.
    assert (forall (neg : bool) m k, wf_float (if neg then fneg (float_of_decimal m k) else float_of_decimal m k)) as Hd.
    { intros [] m k; [apply fneg_wf|]; apply float_of_decimal_wf. }
    destruct (split_sign _) as [neg body]. destruct (_ || _); [by intros [= <-]; destruct neg|].
    destruct (String.eqb _ _); [by intros [= <-]|]. destruct (split_first _ _) as [ms es].
    destruct (mantissa ms) as [[m k]|]; [|done]. cbn. destruct es as [es'|]; [|intros [= <-]; apply Hd].
    destruct (split_sign es') as [eneg ebody]. destruct (digit_part ebody) as [[e n]|]; [|done]. cbn. intros [= <-]. apply Hd.
Qed.

Lemma first_present_wf d keys v : wf_val (VDict d) -> first_present d keys = Some v -> wf_val v.
Proof.
  intros Hd. induction keys as [|k keys IH]; cbn [first_present]; [done|].
  destruct (dict_get d k) as [x|] eqn:E; [|done]. destruct (is_none x); [done|]. intros [= <-]. by eapply wf_dict_get.
Qed.

Definition wf_evaluation (e : EvaluationConfig) : Prop :=
  (forall f, ev_min_success_rate e = Some f -> wf_float f) /\ (forall f, ev_max_error_rate e = Some f -> wf_float f).

Lemma optional_float_wf d keys x : wf_val (VDict d) -> _optional_float d keys = Ok x -> forall f, x = Some f -> wf_float f.
Proof.
  intros Hd H f ->. unfold _optional_float in H. destruct (first_present d keys) as [v|] eqn:E; [|done].
  ok_inv H. eapply py_float_wf; [|eassumption]. by eapply first_present_wf.
Qed.

Lemma evaluation_wf v e : wf_val v -> evaluation_of v = Ok e -> wf_evaluation e.
Proof.
  intros Hv H. destruct v as [| | | |s|l|d|]; cbn [evaluation_of] in H; try done.
  - destruct (existsb _ _); [done|]. by injection H as <-.
  - destruct (existsb _ _); [done|]. by injection H as <-.
  - unfold evaluation_config in H. ok_inv H.
    split; cbn; (eapply optional_float_wf; [exact Hv|eassumption]).
Qed.

(** A rule of an accepted scenario. *)
Definition accepted_rule (r : FaultRuleConfig) : Prop :=
  wf_float (fr_probability r) /\ exists v i, _fault_rule v i = Ok r.

Lemma fault_rules_accepted i l rules : wf_val (VList l) -> fault_rules i l = Ok rules -> Forall accepted_rule rules.
Proof.
  revert i rules. induction l as [|v l IH]; intros i rules Hw H; cbn [fault_rules] in H; ok_inv H; [constructor|].
  destruct Hw as [Hv Hl]. constructor; [|by eapply IH]. split; [|by eexists _, _].
  match goal with Hr : _fault_rule v _ = Ok _ |- _ => unfold _fault_rule in Hr; destruct v; try done; ok_inv Hr end.
  eapply strict_number_wf; [|eassumption]. by apply wf_get_none.
Qed.

Definition wf_reliability (r : ReliabilityConfig) : Prop :=
  wf_float (rt_jitter_ratio (rl_retry r)) /\ forall s, rl_scenario r = Some s -> Forall accepted_rule (fs_rules s).

Lemma scenario_accepted v s : wf_val v -> _scenario_snapshot v = Ok (Some s) -> Forall accepted_rule (fs_rules s).
Proof.
  intros Hv H. unfold _scenario_snapshot in H. destruct v as [| | | | | |d|]; try done. ok_inv H.
  eapply fault_rules_accepted; [|eassumption].
  match goal with Hs : get_none d "scenario" = VDict ?sc, Hr : get_none ?sc "rules" = _ |- _ =>
    rewrite <- Hr; apply wf_get_none; rewrite <- Hs; by apply wf_get_none end.
Qed.

Lemma reliability_wf v r : wf_val v -> _reliability v = Ok (Some r) -> wf_reliability r.
Proof.
  intros Hv H. pose proof (reliability_valid v r Hv H) as (Hr & _). unfold _reliability in H.
  destruct v as [| | | | | |d|]; try done. split.
  - destruct Hr as (_ & _ & _ & k & -> & Hk & Hr). split; [done|]. pose proof (small_not_huge 1 ltac:(lia)). lia.
  - intros s Hs. ok_inv H; cbn in Hs; subst; (eapply scenario_accepted; [|eassumption]; by apply wf_get_none).
Qed.

Definition wf_run_config (c : RunConfig) : Prop :=
  wf_evaluation (rc_evaluation c) /\ forall r, rc_reliability c = Some r -> wf_reliability r.

Lemma accepted_wf re_ok cr nfkc host text document c :
  loads text = Some document -> load_run_config re_ok cr nfkc host document = Ok c -> wf_run_config c.
Proof.
  intros Hw%loads_json%json_wf H. unfold load_run_config, as_dict in H.
  destruct document as [| | | | | |raw|]; try done. ok_inv H. split; cbn.
  - eapply evaluation_wf; [|eassumption]. by apply wf_get_or.
  - intros r ->. eapply reliability_wf; [|eassumption]. by apply wf_get_none.
Qed.
Lemma rule_json r : wf_float (fr_probability r) -> json_val (rule_payload r).
Proof.
  intros Hp. eapply fields_json.
  - unfold rule_payload. repeat apply fields_app; try apply fields_text; try apply fields_list.
    + eauto 20 with payload.
    + apply (fields_nonempty "iterations" VInt), Forall_true. auto with payload.
    + apply (fields_opt "delayMs" VInt). auto with payload.
    + apply (fields_opt "statusCode" VInt). auto with payload.
  - reflexivity.
Qed.

Lemma scenario_json s : Forall accepted_rule (fs_rules s) -> json_val (scenario_payload s).
Proof.
  intros Hr. assert (json_val (VList (rule_payload <$> fs_rules s))) as Hl.
  { constructor. apply Forall_fmap. eapply Forall_impl; [exact Hr|]. intros r [Hp _]. by apply rule_json. }
  assert (json_val (VDict [("name", VStr (fs_source_name s)); ("key", VStr (fs_source_key s))])) as Hs
    by (eapply fields_json; [eauto 10 with payload|reflexivity]).
  assert (json_val (VDict [("apiVersion", VStr "agentstorm.io/v1alpha1"); ("kind", VStr "FaultScenario");
    ("rules", VList (rule_payload <$> fs_rules s))])) as Hd by (eapply fields_json; [eauto 10 with payload|reflexivity]).
  eapply fields_json; [eauto 10 with payload|reflexivity].
Qed.

Lemma reliability_json r : wf_reliability r -> json_val (_reliability_payload r).
Proof.
  intros [Hj Hs]. eapply fields_json.
  - unfold _reliability_payload. repeat apply fields_app.
    + apply fields_one. eapply fields_json; [eauto 10 with payload|reflexivity].
    + apply (fields_opt "seed" VInt). auto with payload.
    + apply (fields_opt "circuit_breaker" (fun b => VDict [("failure_threshold", VInt (cb_failure_threshold b));
        ("open_duration_ms", VInt (cb_open_duration_ms b))])).
      intros b _. eapply fields_json; [eauto 10 with payload|reflexivity].
    + apply (fields_opt "scenario" scenario_payload). intros s E. by apply scenario_json, Hs.
  - reflexivity.
Qed.

Lemma json_opt_float x : (forall f, x = Some f -> wf_float f) -> json_val (opt_float_val x).
Proof. destruct x; intros H; constructor. auto. Qed.

Lemma register_json c n : wf_run_config c -> json_val (register_payload c n).
Proof.
  intros [[H1 H2] Hr]. apply json_opt_float in H1, H2. eapply fields_json.
  - unfold register_payload. apply fields_app; [repeat apply fields_cons; try apply (fields_nil []); auto with payload|].
    + eapply fields_json; [eauto 10 with payload|reflexivity].
    + eapply fields_json.
      * repeat apply fields_app; [|apply fields_text|].
        -- eauto 10 with payload.
        -- apply (fields_opt "pricing" (fun p => VDict [("input_usd_per_million_tokens", VStr (pc_input_usd_per_million_tokens p));
             ("output_usd_per_million_tokens", VStr (pc_output_usd_per_million_tokens p))])).
           intros p _. eapply fields_json; [eauto 10 with payload|reflexivity].
      * reflexivity.
    + eapply fields_json; [eauto 10 with payload|reflexivity].
    + eapply fields_json; [eauto 10 with payload|reflexivity].
    + apply (fields_opt "reliability" _reliability_payload). intros r E. by apply reliability_json, Hr.
  - reflexivity.
Qed.

(** A path of keys in a document. *)
Fixpoint at_path (v : val) (path : list string) : option val :=
  match path with
  | [] => Some v
  | k :: path' => match v with VDict d => x ← dict_get d k; at_path x path' | _ => None end
  end.

Lemma registered_rules c n r s :
  rc_reliability c = Some r -> rl_scenario r = Some s ->
  at_path (register_payload c n) ["reliability"; "scenario"; "document"; "rules"]
  = Some (VList (rule_payload <$> fs_rules s)).
Proof.
  intros Hr Hs. unfold register_payload, _reliability_payload. rewrite Hr, Hs. cbn [at_path app dict_get].
  cbn. by destruct (rl_seed r), (rl_circuit_breaker r).
Qed.

(** C37.  For every configuration the loader accepts, the registration of the
    run is built and its body decodes to the registered payload; the fault
    rules of the decoded document, read by the same parser, are the rules the
    worker injects. *)
Theorem register_received re_ok cr nfkc host text document config c n :
  loads text = Some document -> load_run_config re_ok cr nfkc host document = Ok config ->
  exists rq, register_run c config n = Ok rq /\ received rq = Some (register_payload config n) /\
    forall r s, rc_reliability config = Some r -> rl_scenario r = Some s ->
      exists rules, at_path (register_payload config n) ["reliability"; "scenario"; "document"; "rules"] = Some (VList rules) /\
        Forall2 (fun v rule => forall j, _fault_rule v j = Ok rule) rules (fs_rules s).
Proof.
  intros Hl Hc. pose proof (accepted_wf _ _ _ _ _ _ _ Hl Hc) as Hw.
  destruct (put_received c (run_path (rc_run_id config)) ("run/" +:+ rc_run_id config) (register_payload config n) []
    (register_json config n Hw)) as (rq & Hq & Hb).
  exists rq. split_and!; [done|done|]. intros r s Hr Hs. exists (rule_payload <$> fs_rules s).
  split; [by eapply registered_rules|]. apply Forall2_fmap_l, Forall_Forall2_diag.
  destruct Hw as [_ Hw]. destruct (Hw r Hr) as [_ Hrules]. eapply Forall_impl; [exact (Hrules s Hs)|].
  intros rule [_ (v & i & Hv)] j. by eapply rule_payload_again.
Qed.
(** ** Concrete requests *)

Definition sample_summary : RunSummary :=
  mkSummary "run/1" 0 1 (of_ratio 1 3) 1 0 1 (Fin 0) (of_Z 1) (of_Z 12) 1 2 true [] (Some 1) 0 None None None None None true.

Definition scenario_document : val :=
  VDict [("reliability", VDict [("seed", VInt 7); ("scenario", VDict
    [("sourceName", VStr "faults"); ("sourceKey", VStr "scenario.json");
     ("digest", VStr ("sha256:" +:+ Sha256.hexdigest "scenario"));
     ("scenario", VDict [("apiVersion", VStr "agentstorm.io/v1alpha1"); ("kind", VStr "FaultScenario");
        ("rules", VList [VDict [("name", VStr "r1"); ("fault", VStr "http_error");
           ("probability", VFloat (of_ratio 1 10)); ("statusCode", VInt 503)]])])])])].

Definition scenario_text : string := match dumps spaced scenario_document with Ok s => s | Err _ => "" end.

Lemma register_received_witness :
  exists document config rq, loads scenario_text = Some document /\
    load_run_config (fun _ => true) (fun _ => "") (fun _ => true) (fun _ => true) document = Ok config /\
    register_run sample_sink config 4 = Ok rq /\ received rq = Some (register_payload config 4) /\
    exists rules, at_path (register_payload config 4) ["reliability"; "scenario"; "document"; "rules"] = Some (VList rules) /\
      length rules = 1%nat.
Proof.
  assert (exists document config, loads scenario_text = Some document /\
    load_run_config (fun _ => true) (fun _ => "") (fun _ => true) (fun _ => true) document = Ok config /\
    exists r s, rc_reliability config = Some r /\ rl_scenario r = Some s /\ length (fs_rules s) = 1%nat)
    as (document & config & Hl & Hc & r & s & Hr & Hs & Hn).
  { eexists _, _. split; [vm_compute; reflexivity|]. split; [vm_compute; reflexivity|].
    eexists _, _. split; [reflexivity|]. split; reflexivity. }
  destruct (register_received (fun _ => true) (fun _ => "") (fun _ => true) (fun _ => true) scenario_text document
    config sample_sink 4 Hl Hc) as (rq & Hq & Hb & Hrules).
  exists document, config, rq. split_and!; [exact Hl|exact Hc|exact Hq|exact Hb|].
  destruct (Hrules r s Hr Hs) as (rules & Hp & Hf). exists rules. split; [exact Hp|].
  apply Forall2_length in Hf. congruence.
Defined.
End Payloads.
