(* ===== verification/UploadAPI.v ===== *)
(** * The upload as the Result API reads it ([internal/results/types.go])

    The structs of a shard upload and the strict decoder the handler runs on a
    request body: unknown names are refused, an absent name or a null gives the
    zero value of the field (nil for a pointer or a slice), numbers must fit.
    Names are compared exactly; Go also takes other spellings of the case, which
    the worker does not send.  The bound on the size of a body is left out.  What
    the worker sends is then what this reader sees, field by field. *)
From S2P Require Import Prelude PyFloat PyStr PyVal PyJson JsonParse JsonCodec PyDecimal.
From S2P Require Import Models Retry Circuit Pricing OpenAIValidate Config Results Payloads.
Import PyFloat PyStr PyVal PyJson JsonParse JsonCodec Results Payloads.

Module UploadAPI.

(** ** [types.go] *)

Record api_assertion := mkApiAssertion {
  pa_index : Z; pa_type : string; pa_passed : bool; pa_reason_code : string; pa_message : option string
}.

Record api_attempt := mkApiAttempt {
  pt_number : Z; pt_latency_ms : float; pt_outcome : string; pt_failure_category : string; pt_error_code : string;
  pt_injected_rule : string; pt_injected_fault : string; pt_ambiguous : bool; pt_retry_decision : string;
  pt_backoff_ms : Z; pt_input_tokens : Z; pt_output_tokens : Z; pt_model_call_count : option Z;
  pt_tool_call_count : Z; pt_usage_complete : option bool; pt_circuit_events : list string
}.

Record api_case := mkApiCase {
  pk_idempotency_key : string; pk_case_id : string; pk_iteration : Z; pk_success : bool; pk_latency_ms : float;
  pk_input_tokens : Z; pk_output_tokens : Z; pk_model_call_count : option Z; pk_tool_call_count : Z;
  pk_failure_kind : string; pk_failure_category : string; pk_error_code : string; pk_attempts : list api_attempt;
  pk_usage_complete : option bool; pk_output : option string; pk_error : option string; pk_tool_path : list string;
  pk_assertions : list api_assertion; pk_input_cost_usd : option string; pk_output_cost_usd : option string;
  pk_cost_usd : option string
}.

Record api_summary := mkApiSummary {
  ps_total : Z; ps_succeeded : Z; ps_failed : Z; ps_duration_ms : float; ps_input_tokens : Z; ps_output_tokens : Z;
  ps_model_call_count : option Z; ps_tool_call_count : Z; ps_usage_complete : option bool
}.

Record api_upload := mkApiUpload {
  pu_schema_version : string; pu_summary : api_summary; pu_cases : list api_case
}.

(** ** Decoding a field: [None] stands for an absent name *)

Definition int64_ok (z : Z) : bool := (- 2 ^ 63 <=? z) && (z <? 2 ^ 63).

Definition go_int (v : option val) : option Z :=
  match v with
  | None | Some VNone => Some 0
  | Some (VInt z) => if int64_ok z then Some z else None
  | _ => None
  end.

Definition go_float (v : option val) : option float :=
  match v with
  | None | Some VNone => Some (Fin 0)
  | Some (VFloat x) => if is_finite x then Some x else None
  | Some (VInt z) => if is_finite (of_Z z) then Some (of_Z z) else None
  | _ => None
  end.

Definition go_string (v : option val) : option string :=
  match v with None | Some VNone => Some "" | Some (VStr s) => Some s | _ => None end.

Definition go_bool (v : option val) : option bool :=
  match v with None | Some VNone => Some false | Some (VBool b) => Some b | _ => None end.

Definition go_pointer {A} (f : option val -> option A) (v : option val) : option (option A) :=
  match v with None | Some VNone => Some None | Some x => Some <$> f (Some x) end.

Definition go_slice {A} (f : option val -> option A) (v : option val) : option (list A) :=
  match v with None | Some VNone => Some [] | Some (VList l) => mapM (fun x => f (Some x)) l | _ => None end.

Definition known (names : list string) (d : dict) : bool := forallb (fun k => bool_decide (k ∈ names)) d.*1.

Definition go_struct {A} (names : list string) (f : (string -> option val) -> option A) (v : option val) : option A :=
  match v with
  | None | Some VNone => f (fun _ => None)
  | Some (VDict d) => if known names d then f (dict_get d) else None
  | _ => None
  end.

(** ** The structs *)

Definition decode_assertion : option val -> option api_assertion :=
  go_struct ["index"; "type"; "passed"; "reason_code"; "message"] (fun field =>
    index ← go_int (field "index"); type ← go_string (field "type"); passed ← go_bool (field "passed");
    reason_code ← go_string (field "reason_code"); message ← go_pointer go_string (field "message");
    Some (mkApiAssertion index type passed reason_code message)).

Definition decode_attempt : option val -> option api_attempt :=
  go_struct ["number"; "latency_ms"; "outcome"; "failure_category"; "error_code"; "injected_rule"; "injected_fault";
    "ambiguous"; "retry_decision"; "backoff_ms"; "input_tokens"; "output_tokens"; "model_call_count"; "tool_call_count";
    "usage_complete"; "circuit_events"] (fun field =>
    number ← go_int (field "number"); latency_ms ← go_float (field "latency_ms"); outcome ← go_string (field "outcome");
    failure_category ← go_string (field "failure_category"); error_code ← go_string (field "error_code");
    injected_rule ← go_string (field "injected_rule"); injected_fault ← go_string (field "injected_fault");
    ambiguous ← go_bool (field "ambiguous"); retry_decision ← go_string (field "retry_decision");
    backoff_ms ← go_int (field "backoff_ms"); input_tokens ← go_int (field "input_tokens");
    output_tokens ← go_int (field "output_tokens"); model_call_count ← go_pointer go_int (field "model_call_count");
    tool_call_count ← go_int (field "tool_call_count"); usage_complete ← go_pointer go_bool (field "usage_complete");
    circuit_events ← go_slice go_string (field "circuit_events");
    Some (mkApiAttempt number latency_ms outcome failure_category error_code injected_rule injected_fault ambiguous
      retry_decision backoff_ms input_tokens output_tokens model_call_count tool_call_count usage_complete circuit_events)).

Definition decode_case : option val -> option api_case :=
  go_struct ["idempotency_key"; "case_id"; "iteration"; "success"; "latency_ms"; "input_tokens"; "output_tokens";
    "model_call_count"; "tool_call_count"; "failure_kind"; "failure_category"; "error_code"; "attempts"; "usage_complete";
    "output"; "error"; "tool_path"; "assertions"; "input_cost_usd"; "output_cost_usd"; "cost_usd"] (fun field =>
    idempotency_key ← go_string (field "idempotency_key"); case_id ← go_string (field "case_id");
    iteration ← go_int (field "iteration"); success ← go_bool (field "success"); latency_ms ← go_float (field "latency_ms");
    input_tokens ← go_int (field "input_tokens"); output_tokens ← go_int (field "output_tokens");
    model_call_count ← go_pointer go_int (field "model_call_count"); tool_call_count ← go_int (field "tool_call_count");
    failure_kind ← go_string (field "failure_kind"); failure_category ← go_string (field "failure_category");
    error_code ← go_string (field "error_code"); attempts ← go_slice decode_attempt (field "attempts");
    usage_complete ← go_pointer go_bool (field "usage_complete"); output ← go_pointer go_string (field "output");
    error ← go_pointer go_string (field "error"); tool_path ← go_slice go_string (field "tool_path");
    assertions ← go_slice decode_assertion (field "assertions"); input_cost ← go_pointer go_string (field "input_cost_usd");
    output_cost ← go_pointer go_string (field "output_cost_usd"); cost ← go_pointer go_string (field "cost_usd");
    Some (mkApiCase idempotency_key case_id iteration success latency_ms input_tokens output_tokens model_call_count
      tool_call_count failure_kind failure_category error_code attempts usage_complete output error tool_path assertions
      input_cost output_cost cost)).

Definition decode_summary : option val -> option api_summary :=
  go_struct ["total"; "succeeded"; "failed"; "duration_ms"; "input_tokens"; "output_tokens"; "model_call_count";
    "tool_call_count"; "usage_complete"] (fun field =>
    total ← go_int (field "total"); succeeded ← go_int (field "succeeded"); failed ← go_int (field "failed");
    duration_ms ← go_float (field "duration_ms"); input_tokens ← go_int (field "input_tokens");
    output_tokens ← go_int (field "output_tokens"); model_call_count ← go_pointer go_int (field "model_call_count");
    tool_call_count ← go_int (field "tool_call_count"); usage_complete ← go_pointer go_bool (field "usage_complete");
    Some (mkApiSummary total succeeded failed duration_ms input_tokens output_tokens model_call_count tool_call_count
      usage_complete)).

Definition decode_upload : val -> option api_upload := fun v =>
  go_struct ["schema_version"; "summary"; "cases"] (fun field =>
    schema_version ← go_string (field "schema_version"); summary ← decode_summary (field "summary");
    cases ← go_slice decode_case (field "cases"); Some (mkApiUpload schema_version summary cases)) (Some v).

(** ** What should be seen *)

Definition some_text (s : string) : option string := if String.eqb s "" then None else Some s.

Definition seen_assertion (sensitive : bool) (o : AssertionOutcome) : api_assertion :=
  mkApiAssertion (ao_index o) (ao_type o) (ao_passed o) (ao_reason_code o) (if sensitive then ao_message o else None).

Definition seen_attempt (a : AttemptResult) : api_attempt :=
  mkApiAttempt (at_number a) (at_latency_ms a) (at_outcome a) (at_failure_category a) (at_error_code a)
    (at_injected_rule a) (at_injected_fault a) (at_ambiguous a) (at_retry_decision a) (at_backoff_ms a)
    (default 0 (at_input_tokens a)) (default 0 (at_output_tokens a)) (at_model_call_count a) (at_tool_call_count a)
    (Some (at_usage_complete a)) (at_circuit_events a).

Definition seen_case (sensitive : bool) (run_id : string) (r : CaseResult) : api_case :=
  mkApiCase (idempotency_key run_id (cr_case_id r) (cr_iteration r)) (cr_case_id r) (cr_iteration r) (cr_success r)
    (cr_latency_ms r) (default 0 (cr_input_tokens r)) (default 0 (cr_output_tokens r)) (cr_model_call_count r)
    (cr_tool_call_count r) (cr_failure_kind r) (cr_failure_category r) (cr_error_code r) (seen_attempt <$> cr_attempts r)
    (Some (cr_usage_complete r)) (if sensitive then some_text (cr_output r) else None)
    (if sensitive then cr_error r ≫= some_text else None) (cr_tool_path r) (seen_assertion sensitive <$> cr_assertions r)
    None None None.

Definition seen_summary (s : RunSummary) : api_summary :=
  mkApiSummary (rs_total s) (rs_succeeded s) (rs_failed s) (rs_duration_ms s) (rs_input_tokens s) (rs_output_tokens s)
    (rs_model_call_count s) (rs_tool_call_count s) (Some (rs_usage_complete s)).

(** The numbers fit the fields of the structs. *)
Definition fits (ints : list Z) (x : float) : bool := forallb int64_ok ints && is_finite x.

Definition attempt_fits (a : AttemptResult) : bool :=
  fits [at_number a; at_backoff_ms a; default 0 (at_input_tokens a); default 0 (at_output_tokens a);
    default 0 (at_model_call_count a); at_tool_call_count a] (at_latency_ms a).

Definition case_fits (r : CaseResult) : bool :=
  fits [cr_iteration r; default 0 (cr_input_tokens r); default 0 (cr_output_tokens r); default 0 (cr_model_call_count r);
    cr_tool_call_count r] (cr_latency_ms r)
  && forallb attempt_fits (cr_attempts r) && forallb (fun o => int64_ok (ao_index o)) (cr_assertions r).

Definition summary_fits (s : RunSummary) : bool :=
  fits [rs_total s; rs_succeeded s; rs_failed s; rs_input_tokens s; rs_output_tokens s; default 0 (rs_model_call_count s);
    rs_tool_call_count s] (rs_duration_ms s).

(** ** Fields of the payloads *)

Lemma get_app d1 d2 k : dict_get (d1 ++ d2) k = match dict_get d1 k with Some v => Some v | None => dict_get d2 k end.
Proof. induction d1 as [|[k' v] d1 IH]; [done|]. cbn [app dict_get]. by destruct (String.eqb k k'). Qed.

Lemma get_text k s k' : dict_get (text_field k s) k' = if String.eqb k' k then VStr <$> some_text s else None.
Proof. unfold text_field, some_text. by destruct (String.eqb s ""); cbn; destruct (String.eqb k' k). Qed.

Lemma get_list k l k' : dict_get (list_field k l) k' =
  if String.eqb k' k then match l with [] => None | _ => Some (str_list l) end else None.
Proof. by destruct l; cbn; destruct (String.eqb k' k). Qed.

Lemma get_nonempty {A} k (f : A -> val) (l : list A) k' :
  dict_get match l with [] => [] | x :: l' => [(k, VList (f <$> x :: l'))] end k' =
  if String.eqb k' k then match l with [] => None | _ => Some (VList (f <$> l)) end else None.
Proof. by destruct l; cbn; destruct (String.eqb k' k). Qed.

Lemma read_text s : go_string (VStr <$> some_text s) = Some s.
Proof. unfold some_text. by destruct (String.eqb_spec s "") as [->|]. Qed.

Lemma read_some_text x : go_pointer go_string (VStr <$> x) = Some x.
Proof. by destruct x. Qed.

Lemma read_opt_int z : int64_ok (default 0 z) = true -> go_pointer go_int (Some (opt_int_val z)) = Some z.
Proof. destruct z as [z|]; [|done]. cbn. by intros ->. Qed.

Lemma read_slice {A B} (f : option val -> option B) (g : A -> val) (h : A -> B) l :
  (forall x, x ∈ l -> f (Some (g x)) = Some (h x)) ->
  go_slice f match l with [] => None | _ => Some (VList (g <$> l)) end = Some (h <$> l).
Proof.
  intros H. assert (mapM (fun x => f (Some x)) (g <$> l) = Some (h <$> l)) as Hm; [|by destruct l].
  induction l as [|x l IH]; [done|]. rewrite !fmap_cons. cbn [mapM]. rewrite (H x) by set_solver. cbn. rewrite IH; [done|].
  set_solver.
Qed.

Lemma read_strings l : go_slice go_string match l with [] => None | _ => Some (str_list l) end = Some l.
Proof. pose proof (read_slice go_string VStr id l) as H. rewrite list_fmap_id in H. by apply H. Qed.

Lemma known_fields keys names d : fields keys d -> forallb (fun k => bool_decide (k ∈ names)) keys = true -> known names d = true.
Proof.
  intros [Hk _] Hn. unfold known. rewrite !forallb_forall in *. intros k Hin. apply Hn.
  apply list_elem_of_In. apply list_elem_of_In in Hin. by eapply elem_of_sublist.
Qed.

Lemma get_if (b : bool) d k : dict_get (if b then d else []) k = if b then dict_get d k else None.
Proof. by destruct b. Qed.

Lemma get_opt_text k e k' : dict_get match e with Some s => text_field k s | None => [] end k' =
  if String.eqb k' k then VStr <$> (e ≫= some_text) else None.
Proof. destruct e as [s|]; [apply get_text|]. by destruct (String.eqb k' k). Qed.

Lemma if_none {A} (b : bool) : (if b then None else None) = None :> option A.
Proof. by destruct b. Qed.

Lemma read_if (b : bool) x : go_pointer go_string (if b then VStr <$> x else None) = Some (if b then x else None).
Proof. by destruct b, x. Qed.

Lemma option_same {A} (x : option A) : match x with Some v => Some v | None => None end = x.
Proof. by destruct x. Qed.

(** Reads the named fields of the payload [d]. *)
Ltac read_fields d :=
  repeat match goal with
  | |- context [dict_get d ?k] =>
      let v := fresh in let E := fresh in
      evar (v : option val); assert (dict_get d k = v) as E;
        [subst d v; rewrite ?get_app, ?get_text, ?get_list, ?get_nonempty, ?get_if, ?get_app, ?get_text, ?get_opt_text; cbn [dict_get String.eqb Ascii.eqb Bool.eqb andb];
         rewrite ?option_same, ?if_none; cbn [andb]; rewrite ?option_same; reflexivity|];
      rewrite E; subst v; clear E
  end; cbn [go_bool go_string].

Ltac fit_ints := unfold fits in *; cbn [forallb] in *; repeat match goal with
  | H : _ && _ = true |- _ => apply andb_prop in H as [? ?] end.

Lemma read_int z : int64_ok z = true -> go_int (Some (VInt z)) = Some z.
Proof. cbn. by intros ->. Qed.

Lemma read_float x : is_finite x = true -> go_float (Some (VFloat x)) = Some x.
Proof. cbn. by intros ->. Qed.

Ltac read_values :=
  repeat first [rewrite option_same | rewrite read_text | rewrite read_strings | rewrite read_int by done
    | rewrite read_float by done | rewrite read_opt_int by done | rewrite read_some_text | rewrite read_if]; cbn [mbind option_bind].

Lemma attempt_seen a : wf_attempt a -> attempt_fits a = true -> decode_attempt (Some (attempt_payload a)) = Some (seen_attempt a).
Proof.
  intros Hw Hf. unfold attempt_fits, wf_attempt in *. fit_ints.
  unfold decode_attempt, attempt_payload, or0. set (d := _ ++ _). cbn [go_struct].
  erewrite known_fields; [|subst d; eauto 20 with payload|reflexivity]. read_fields d. by read_values.
Qed.

Lemma summary_seen s : wf_float (rs_duration_ms s) -> summary_fits s = true ->
  decode_summary (Some (summary_payload s)) = Some (seen_summary s).
Proof.
  intros Hw Hf. unfold summary_fits in *. fit_ints. unfold decode_summary, summary_payload. set (d := ("total", _) :: _). cbn [go_struct].
  erewrite known_fields; [|subst d; eauto 20 with payload|reflexivity]. read_fields d. by read_values.
Qed.

Lemma assertion_seen sensitive o : int64_ok (ao_index o) = true ->
  decode_assertion (Some (assertion_payload sensitive o)) = Some (seen_assertion sensitive o).
Proof.
  intros Hi. unfold decode_assertion, assertion_payload, seen_assertion.
  destruct (ao_message o) as [m|], sensitive; cbn; by rewrite Hi.
Qed.


Lemma case_seen config run_id r : wf_result r -> case_fits r = true ->
  decode_case (Some (VDict (_case_payload config run_id r))) = Some (seen_case (sk_include_sensitive config) run_id r).
Proof.
  intros [Hw Ha] Hf. unfold case_fits in Hf. fit_ints.
  assert (go_slice decode_attempt match cr_attempts r with [] => None | _ => Some (VList (attempt_payload <$> cr_attempts r)) end
    = Some (seen_attempt <$> cr_attempts r)) as Hatt.
  { apply read_slice. intros a Hin. rewrite forallb_forall in *. rewrite Forall_forall in Ha. apply list_elem_of_In in Hin as Hin'.
    apply attempt_seen; auto. }
  assert (go_slice decode_assertion match cr_assertions r with [] => None
    | _ => Some (VList (assertion_payload (sk_include_sensitive config) <$> cr_assertions r)) end
    = Some (seen_assertion (sk_include_sensitive config) <$> cr_assertions r)) as Hass.
  { apply read_slice. intros o Hin. rewrite forallb_forall in *. apply list_elem_of_In in Hin. apply assertion_seen; auto. }
  unfold decode_case. cbn [go_struct]. erewrite known_fields; [|by apply case_fields|reflexivity].
  unfold _case_payload, or0. set (d := [_; _; _; _; _; _; _; _; _; _] ++ _). read_fields d.
  rewrite Hatt, Hass. by read_values.
Qed.

Lemma upload_seen config run_id results summary :
  Forall wf_result results -> wf_float (rs_duration_ms summary) ->
  Forall (fun r => case_fits r = true) results -> summary_fits summary = true ->
  decode_upload (shard_payload config run_id results summary)
  = Some (mkApiUpload "v1alpha1" (seen_summary summary) (seen_case (sk_include_sensitive config) run_id <$> results)).
Proof.
  intros Hr Hd Hf Hs. unfold decode_upload, shard_payload. cbn [go_struct dict_get String.eqb Ascii.eqb Bool.eqb andb].
  change (known _ _) with true. cbn [go_string mbind option_bind]. rewrite (summary_seen summary Hd Hs). cbn [mbind option_bind].
  assert (go_slice decode_case (Some (VList ((fun r => VDict (_case_payload config run_id r)) <$> results)))
    = Some (seen_case (sk_include_sensitive config) run_id <$> results)) as ->; [|done].
  assert (forall x, x ∈ results -> decode_case (Some (VDict (_case_payload config run_id x)))
    = Some (seen_case (sk_include_sensitive config) run_id x)) as Hc.
  { intros r Hin. rewrite Forall_forall in *. by apply case_seen; [apply Hr|apply Hf]. }
  pose proof (read_slice decode_case (fun r => VDict (_case_payload config run_id r)) _ results Hc) as H. by destruct results.
Qed.

(** C36.  What the Result API gets from the upload of a shard (numbers within
    the API's types: integers of 64 bits, finite times).  The request is built:
    a PUT to the address of the shard with the write token, the idempotency key
    of the shard and the queue lease when there is one, and no other header.
    Its body, decoded into the server's own structs, is the summary and, in
    order, every result with all its attempts and assertions, each field where
    it belongs: unknown token counts as 0, an unknown count of model calls as
    null, no costs (the server computes them), and outputs, errors and assertion
    messages only when the sink includes sensitive content.  Nothing a case id,
    an output or a tool name holds can corrupt the document. *)
Theorem upload_received config run_id shard_index results summary lease_token :
  Forall wf_result results -> wf_float (rs_duration_ms summary) ->
  Forall (fun r => case_fits r = true) results -> summary_fits summary = true ->
  exists rq, upload_shard config run_id shard_index results summary lease_token = Ok rq /\
    rq_method rq = "PUT" /\
    rq_url rq = sk_base_url config +:+ "/v1/runs/" +:+ quote_url run_id +:+ "/shards/" +:+ str_of_Z shard_index /\
    rq_headers rq =
      [("Authorization", "Bearer " +:+ sk_write_token config); ("Content-Type", "application/json");
       ("Idempotency-Key", "run/" +:+ run_id +:+ "/shard/" +:+ str_of_Z shard_index)]
      ++ (if decide (lease_token = "") then [] else [("X-AgentStorm-Queue-Lease", lease_token)]) /\
    received rq ≫= decode_upload
    = Some (mkApiUpload "v1alpha1" (seen_summary summary) (seen_case (sk_include_sensitive config) run_id <$> results)).
Proof.
  intros Hr Hd Hf Hs.
  destruct (body_received (shard_payload config run_id results summary) (shard_json config run_id results summary Hr Hd))
    as (body & Hb & Hl).
  unfold upload_shard, put_request. rewrite Hb. eexists. split; [reflexivity|]. cbn [rq_method rq_url rq_headers].
  split_and!; [done|..].
  - unfold run_path. by rewrite !app_str_assoc.
  - f_equal. by destruct (String.eqb_spec lease_token ""), (decide (lease_token = "")).
  - unfold received. cbn [rq_body]. rewrite Hl. by apply upload_seen.
Qed.

(** ** A concrete upload *)

Definition sample_case : CaseResult :=
  mkCaseResult "case/1" 2 false (of_Z 12) "timeout" "timeout" "TARGET_TIMEOUT"
    [mkAttempt 1 (of_Z 12) "failed" "timeout" "TARGET_TIMEOUT" "" "" true "final" 0 (Some 3) None false (Some 1) 0 [] "" 0 ""]
    false "partial" (Some "late") (Some 3) None (Some 1) 0 ["lookup"]
    [mkOutcome 0 "contains" false "not_matched" (Some "missing")] None None None "" 0.

Lemma upload_received_witness :
  exists rq, upload_shard sample_sink "run/1" 0 [sample_case] sample_summary "lease" = Ok rq /\
    rq_url rq = "https://api/v1/runs/run%2F1/shards/0" /\
    pk_output <$> ((received rq ≫= decode_upload) ≫= (fun u => head (pu_cases u))) = Some None /\
    pk_tool_path <$> ((received rq ≫= decode_upload) ≫= (fun u => head (pu_cases u))) = Some ["lookup"].
Proof.
  destruct (upload_received sample_sink "run/1" 0 [sample_case] sample_summary "lease") as (rq & Hq & _ & Hu & _ & Hb).
  - constructor; [|constructor]. split; [apply of_units_wf; lia|]. constructor; [apply of_units_wf; lia|constructor].
  - apply of_units_wf. lia.
  - constructor; [vm_compute; reflexivity|constructor].
  - vm_compute. reflexivity.
  - exists rq. rewrite Hb. split; [exact Hq|]. split; [exact Hu|]. split; reflexivity.
Defined.

End UploadAPI.
