(* ===== verification/LocalFiles.v ===== *)
(** * The local result files ([to_dict] and [write_results])

    [results.jsonl] holds one JSON document per result, [summary.json] the
    indented summary.  The file system is a map from paths to texts; what can
    fail in it (permissions, space) is I/O and is left out. *)
From S2P Require Import Prelude PyFloat PyStr PyVal PyJson JsonParse JsonCodec JsonLines PyDecimal.
From S2P Require Import Models Sha256 Retry Circuit Pricing OpenAIValidate Config Results Payloads.
Import PyFloat PyStr PyVal PyJson JsonParse JsonCodec JsonLines Config Results Payloads.

Module LocalFiles.

(** ** [to_dict]: [dataclasses.asdict], field by field *)

Definition opt_str_val (s : option string) : val := match s with Some t => VStr t | None => VNone end.

Definition attempt_dict (a : AttemptResult) : val :=
  VDict [("number", VInt (at_number a)); ("latency_ms", VFloat (at_latency_ms a)); ("outcome", VStr (at_outcome a));
         ("failure_category", VStr (at_failure_category a)); ("error_code", VStr (at_error_code a));
         ("injected_rule", VStr (at_injected_rule a)); ("injected_fault", VStr (at_injected_fault a));
         ("ambiguous", VBool (at_ambiguous a)); ("retry_decision", VStr (at_retry_decision a));
         ("backoff_ms", VInt (at_backoff_ms a)); ("input_tokens", opt_int_val (at_input_tokens a));
         ("output_tokens", opt_int_val (at_output_tokens a)); ("usage_complete", VBool (at_usage_complete a));
         ("model_call_count", opt_int_val (at_model_call_count a)); ("tool_call_count", VInt (at_tool_call_count a));
         ("circuit_events", str_list (at_circuit_events a));
         ("provider_error_code", VStr (at_provider_error_code a)); ("rate_limit_events", VInt (at_rate_limit_events a));
         ("finish_reason", VStr (at_finish_reason a))].

Definition assertion_dict (o : AssertionOutcome) : val :=
  VDict [("index", VInt (ao_index o)); ("type", VStr (ao_type o)); ("passed", VBool (ao_passed o));
         ("reason_code", VStr (ao_reason_code o)); ("message", opt_str_val (ao_message o))].

(** [CaseResult.to_dict] *)
Definition result_to_dict (r : CaseResult) : val :=
  VDict [("case_id", VStr (cr_case_id r)); ("iteration", VInt (cr_iteration r)); ("success", VBool (cr_success r));
         ("latency_ms", VFloat (cr_latency_ms r)); ("failure_kind", VStr (cr_failure_kind r));
         ("failure_category", VStr (cr_failure_category r)); ("error_code", VStr (cr_error_code r));
         ("attempts", VList (attempt_dict <$> cr_attempts r)); ("usage_complete", VBool (cr_usage_complete r));
         ("output", VStr (cr_output r)); ("error", opt_str_val (cr_error r));
         ("input_tokens", opt_int_val (cr_input_tokens r)); ("output_tokens", opt_int_val (cr_output_tokens r));
         ("model_call_count", opt_int_val (cr_model_call_count r)); ("tool_call_count", VInt (cr_tool_call_count r));
         ("tool_path", str_list (cr_tool_path r)); ("assertions", VList (assertion_dict <$> cr_assertions r));
         ("input_cost_usd", opt_str_val (cr_input_cost_usd r)); ("output_cost_usd", opt_str_val (cr_output_cost_usd r));
         ("cost_usd", opt_str_val (cr_cost_usd r)); ("provider_error_code", VStr (cr_provider_error_code r));
         ("in_call_retry_count", VInt (cr_in_call_retry_count r))].

(** [RunSummary.to_dict] *)
Definition summary_to_dict (s : RunSummary) : val :=
  VDict [("run_id", VStr (rs_run_id s)); ("shard_index", VInt (rs_shard_index s)); ("shard_count", VInt (rs_shard_count s));
         ("duration_ms", VFloat (rs_duration_ms s)); ("total", VInt (rs_total s)); ("succeeded", VInt (rs_succeeded s));
         ("failed", VInt (rs_failed s)); ("success_rate", VFloat (rs_success_rate s));
         ("error_rate", VFloat (rs_error_rate s)); ("p95_latency_ms", VFloat (rs_p95_latency_ms s));
         ("input_tokens", VInt (rs_input_tokens s)); ("output_tokens", VInt (rs_output_tokens s));
         ("thresholds_passed", VBool (rs_thresholds_passed s)); ("threshold_failures", str_list (rs_threshold_failures s));
         ("model_call_count", opt_int_val (rs_model_call_count s)); ("tool_call_count", VInt (rs_tool_call_count s));
         ("model_calls_per_successful_agent", opt_float_val (rs_model_calls_per_successful_agent s));
         ("tool_calls_per_successful_agent", opt_float_val (rs_tool_calls_per_successful_agent s));
         ("input_cost_usd", opt_str_val (rs_input_cost_usd s)); ("output_cost_usd", opt_str_val (rs_output_cost_usd s));
         ("cost_usd", opt_str_val (rs_cost_usd s)); ("usage_complete", VBool (rs_usage_complete s))].

(** ** [write_results] *)

Abbreviation files := (gmap string string).

Definition result_line (r : CaseResult) : pyres string := s ← dumps spaced (result_to_dict r); Ok (s +:+ nl).

Definition results_path (output_dir : string) : string := output_dir +:+ "/results.jsonl".
Definition summary_path (output_dir : string) : string := output_dir +:+ "/summary.json".

Definition write_results (output_dir : string) (results : list CaseResult) (summary : RunSummary) (fs : files) : pyres files :=
  lines ← mapM_result result_line results;
  let fs := <[results_path output_dir := concat_str lines]> fs in
  text ← dumps_indent 0%nat (summary_to_dict summary);
  Ok (<[summary_path output_dir := text +:+ nl]> fs).
(** ** The dictionaries determine the records *)

#[global] Instance opt_str_val_inj : Inj (=) (=) opt_str_val.
Proof. intros [] [] H; by simplify_eq/=. Qed.

#[global] Instance opt_int_val_inj : Inj (=) (=) opt_int_val.
Proof. intros [] [] H; by simplify_eq/=. Qed.

#[global] Instance opt_float_val_inj : Inj (=) (=) opt_float_val.
Proof. intros [] [] H; by simplify_eq/=. Qed.

#[global] Instance VStr_inj : Inj (=) (=) VStr.
Proof. by intros ?? [= ->]. Qed.

#[global] Instance str_list_inj : Inj (=) (=) str_list.
Proof. intros l l' [= H]. by apply (inj (fmap VStr)) in H. Qed.

(** Fields that agree as values agree. *)
Ltac fields_agree :=
  repeat match goal with
  | H : opt_str_val _ = opt_str_val _ |- _ => apply (inj opt_str_val) in H
  | H : opt_int_val _ = opt_int_val _ |- _ => apply (inj opt_int_val) in H
  | H : opt_float_val _ = opt_float_val _ |- _ => apply (inj opt_float_val) in H
  | H : VStr <$> _ = VStr <$> _ |- _ => apply (inj (fmap VStr)) in H
  end.

#[global] Instance attempt_dict_inj : Inj (=) (=) attempt_dict.
Proof. intros [] [] H. unfold attempt_dict in H. simpl in H. injection H. intros. fields_agree. by subst. Qed.

#[global] Instance assertion_dict_inj : Inj (=) (=) assertion_dict.
Proof. intros [] [] H. unfold assertion_dict in H. simpl in H. injection H. intros. fields_agree. by subst. Qed.

#[global] Instance result_to_dict_inj : Inj (=) (=) result_to_dict.
Proof.
  intros [] [] H. unfold result_to_dict in H. simpl in H. injection H. intros. fields_agree.
  match goal with H : attempt_dict <$> _ = _ |- _ => apply (inj (fmap attempt_dict)) in H end.
  match goal with H : assertion_dict <$> _ = _ |- _ => apply (inj (fmap assertion_dict)) in H end. by subst.
Qed.

#[global] Instance summary_to_dict_inj : Inj (=) (=) summary_to_dict.
Proof. intros [] [] H. unfold summary_to_dict in H. simpl in H. injection H. intros. fields_agree. by subst. Qed.

(** ** They are JSON documents *)

Record wf_summary (s : RunSummary) : Prop := {
  ws_duration : wf_float (rs_duration_ms s);
  ws_success : wf_float (rs_success_rate s);
  ws_error : wf_float (rs_error_rate s);
  ws_p95 : wf_float (rs_p95_latency_ms s);
  ws_models : forall f, rs_model_calls_per_successful_agent s = Some f -> wf_float f;
  ws_tools : forall f, rs_tool_calls_per_successful_agent s = Some f -> wf_float f
}.

Lemma json_opt_str s : json_val (opt_str_val s).
Proof. destruct s; constructor. Qed.
#[local] Hint Resolve json_opt_str : payload.

Lemma attempt_dict_json a : wf_attempt a -> json_val (attempt_dict a).
Proof. intros Ha. eapply fields_json; [eauto 30 with payload|reflexivity]. Qed.

Lemma assertion_dict_json o : json_val (assertion_dict o).
Proof. eapply fields_json; [eauto 30 with payload|reflexivity]. Qed.

Lemma result_dict_json r : wf_result r -> json_val (result_to_dict r).
Proof.
  intros [Hl Ha]. assert (json_val (VList (attempt_dict <$> cr_attempts r))) as H1.
  { constructor. apply Forall_fmap. eapply Forall_impl; [exact Ha|]. apply attempt_dict_json. }
  assert (json_val (VList (assertion_dict <$> cr_assertions r))) as H2.
  { constructor. apply Forall_fmap, Forall_true. apply assertion_dict_json. }
  eapply fields_json; [eauto 30 with payload|reflexivity].
Qed.

Lemma summary_dict_json s : wf_summary s -> json_val (summary_to_dict s).
Proof.
  intros [H1 H2 H3 H4 H5%json_opt_float H6%json_opt_float]. eapply fields_json; [eauto 30 with payload|reflexivity].
Qed.

(** ** The files read back *)

Lemma result_line_ok r : wf_result r ->
  exists s, result_line r = Ok (s +:+ nl) /\ one_line s = true /\ loads s = Some (result_to_dict r).
Proof.
  intros Hr%result_dict_json. destruct (loads_dumps spaced spaced_json _ eq_refl Hr) as (s & Hs & Hl).
  exists s. unfold result_line. rewrite Hs. split_and!; [done| |by rewrite <- (canon_false (result_to_dict r))].
  by eapply (dumps_one_line spaced).
Qed.

Lemma result_lines_ok results : Forall wf_result results ->
  exists docs, mapM_result result_line results = Ok ((fun s => s +:+ nl) <$> docs) /\
    Forall (fun s => one_line s = true) docs /\ loads <$> docs = Some <$> (result_to_dict <$> results).
Proof.
  induction 1 as [|r results Hr Hrs (docs & Hm & Ho & Hl)]; [by exists []|].
  destruct (result_line_ok r Hr) as (s & Hs & Hos & Hls). exists (s :: docs). cbn [mapM_result].
  rewrite Hs, Hm. split_and!; [done|by constructor|]. by rewrite !fmap_cons, Hls, Hl.
Qed.

Lemma paths_differ dir : results_path dir <> summary_path dir.
Proof. unfold results_path, summary_path. intros H%app_str_inj_l. done. Qed.

(** The texts of the two files. *)
Lemma write_results_texts dir results summary fs :
  Forall wf_result results -> wf_summary summary ->
  exists fs' docs text, write_results dir results summary fs = Ok fs' /\
    fs' = <[summary_path dir := text]> (<[results_path dir := concat_str ((fun s => s +:+ nl) <$> docs)]> fs) /\
    split_lines (concat_str ((fun s => s +:+ nl) <$> docs)) = docs ++ [""] /\
    loads <$> docs = Some <$> (result_to_dict <$> results) /\ loads text = Some (summary_to_dict summary).
Proof.
  intros Hr Hs. destruct (result_lines_ok results Hr) as (docs & Hm & Ho & Hl).
  destruct (loads_dumps_indent (summary_to_dict summary) nl (summary_dict_json _ Hs) eq_refl) as (s & Hd & Ht).
  unfold write_results. rewrite Hm. unfold mbind, result_bind. cbv zeta. rewrite Hd.
  eexists _, docs, (s +:+ nl). split_and!; [done|done|by apply split_concat|done|done].
Qed.

(** C31.  [write_results] always succeeds on the results of a run; every line of
    [results.jsonl] is one result and [summary.json] is the summary, so the two
    files determine every field of both; no other file changes. *)
Theorem write_results_readable dir results summary fs :
  Forall wf_result results -> wf_summary summary ->
  exists fs', write_results dir results summary fs = Ok fs' /\
    (exists text docs, fs' !! results_path dir = Some text /\ split_lines text = docs ++ [""] /\
       loads <$> docs = Some <$> (result_to_dict <$> results)) /\
    (exists text, fs' !! summary_path dir = Some text /\ loads text = Some (summary_to_dict summary)) /\
    (forall path, path <> results_path dir -> path <> summary_path dir -> fs' !! path = fs !! path) /\
    (forall results2 summary2 fs2 fs2', Forall wf_result results2 -> wf_summary summary2 ->
       write_results dir results2 summary2 fs2 = Ok fs2' ->
       fs2' !! results_path dir = fs' !! results_path dir -> fs2' !! summary_path dir = fs' !! summary_path dir ->
       results2 = results /\ summary2 = summary).
Proof.
  intros Hr Hs. destruct (write_results_texts dir results summary fs Hr Hs) as (fs' & docs & text & Hw & -> & Hd & Hl & Ht).
  pose proof (paths_differ dir) as Hne.
  eexists. split; [exact Hw|]. rewrite lookup_insert_ne, !lookup_insert_eq by done. split_and!.
  - by eexists _, docs.
  - by eexists.
  - intros path H1 H2. by rewrite !lookup_insert_ne.
  - intros results2 summary2 fs2 fs2' Hr2 Hs2 Hw2.
    destruct (write_results_texts dir results2 summary2 fs2 Hr2 Hs2) as (fs3 & docs2 & text2 & Hw3 & -> & Hd2 & Hl2 & Ht2).
    rewrite Hw2 in Hw3. injection Hw3 as ->. rewrite lookup_insert_ne, !lookup_insert_eq by done.
    intros [= E1] [= E2]. rewrite E1, Hd in Hd2. apply app_inj_tail in Hd2 as [-> _]. rewrite Hl in Hl2. subst text2.
    apply (inj (fmap Some)) in Hl2. apply (inj (fmap result_to_dict)) in Hl2.
    split; [done|]. apply (inj summary_to_dict), (inj Some). congruence.
Qed.

Lemma write_results_readable_witness :
  exists fs', write_results "out" [leaky_result] sample_summary ∅ = Ok fs' /\
    exists text, fs' !! summary_path "out" = Some text /\ loads text = Some (summary_to_dict sample_summary).
Proof.
  destruct (write_results_readable "out" [leaky_result] sample_summary ∅) as (fs' & Hw & _ & Hs & _).
  - constructor; [|constructor]. split; [apply of_units_wf; lia|constructor].
  - split; try (apply of_units_wf; lia); try (intros f; discriminate).
    split; [by apply repr53_small|vm_compute; reflexivity].
  - exists fs'. split; [exact Hw|exact Hs].
Defined.
End LocalFiles.
