(* ===== verification/Scheduler.v ===== *)
(** * The distributed limiter ([scheduler.py])

    A provider attempt holds a permit of the Result API: [_wait_for_grant]
    polls until a grant, the deadline or a stop request, and [permit] wraps the
    attempt and releases the grant on every way out.  The renewal task is part
    of the environment: it can mark the permit lost and cancel the attempt at
    any await.  The transport is the parameter [opener]. *)
From S2P Require Import Prelude PyFloat PyStr PyVal PyJson JsonParse Models Sha256 Retry Circuit Effects Interfaces Results.
Import PyFloat PyStr PyVal JsonParse Results.

Module Scheduler.

Section Scheduler.
Context {env : Env} (container_repr : val -> string) (opener : nat -> http_request -> reply).
Context (client : ResultSinkConfig) (run_id worker_id provider : string) (horizon : nat).

(** [await asyncio.to_thread(call)]: the request is sent, then the task
    resumes with the reply. *)
Definition send (request : http_request) : M reply :=
  modify (log_event (THttp (rq_method request) (rq_url request)));;
  index ← get_state w_pos;
  await_point;;
  mret (opener index request).

Definition liftE {A} (r : result exn A) : M A := match r with Ok a => mret a | Err e => raise e end.

Definition _post (request : pyres http_request) : M (option dict) :=
  request ← lift request;
  r ← send request;
  liftE (post_reply r).

Definition acquire_permit (request_id : string) : M PermitGrant :=
  payload ← _post (acquire_request client run_id request_id worker_id provider);
  liftE (grant_reply container_repr payload).

Definition renew_permit (grant : PermitGrant) : M Z :=
  payload ← _post (renew_permit_request client run_id grant);
  liftE (renew_reply "result API returned an empty permit lease response" payload).

Definition release_permit (grant : PermitGrant) : M unit :=
  _post (release_request client run_id grant);; mret tt.

Definition limit_timeout : exn := EExec (exec_error "provider" "distributed_limit_timeout" "provider" false false).
Definition scheduler_unavailable : exn :=
  EExec (exec_error "harness" "distributed_scheduler_unavailable" "harness" false false).
Definition permit_lost : exn := EExec (exec_error "harness" "distributed_permit_lost" "harness" false false).

(** What follows the polling loop. *)
Definition after_loop : M PermitGrant :=
  stopped ← stop_is_set;
  if stopped : bool then raise ECancelled else raise limit_timeout.

(** What the loop does with an attempt to acquire: a grant, or whether to poll
    again. *)
Inductive polled := Granted (g : PermitGrant) | Again | Break.

Definition wait_again (retry_after_ms : Z) (deadline : float) : M polled :=
  now ← perf_counter;
  let remaining := fmax (Fin 0) (fsub deadline now) in
  let delay := fmin (of_ratio retry_after_ms 1000) remaining in
  if fle delay (Fin 0) then mret Break
  else try_with (wait_stop delay;; mret Again)
         (fun e => match e with ETimeout => Some (mret Again) | _ => None end).

Definition poll (request_id : string) (deadline : float) : M polled :=
  try_with (g ← acquire_permit request_id; mret (Granted g))
    (fun e => match e with
              | ESchedulerBusy ms => Some (wait_again ms deadline)
              | EResultSink _ => Some (raise scheduler_unavailable)
              | _ => None
              end).

Fixpoint wait_loop (fuel : nat) (request_id : string) (deadline : float) : M PermitGrant :=
  match fuel with
  | O => diverge
  | S fuel' =>
      stopped ← stop_is_set;
      if stopped : bool then after_loop
      else
        now ← perf_counter;
        if fle deadline now then raise limit_timeout
        else
          p ← poll request_id deadline;
          match p with
          | Granted g => mret g
          | Again => wait_loop fuel' request_id deadline
          | Break => after_loop
          end
  end.

Definition _wait_for_grant : string -> float -> M PermitGrant := wait_loop (S horizon).

(** The renewal tasks: sleep, renew, and take the next delay from the reply,
    until a renewal raises; the task then sets its flags and returns.  One
    renewal per unit of fuel: the task lives as long as what it guards. *)
Fixpoint renewal_loop (fuel : nat) (renewal : M Z) (delay_ms : Z) : M unit :=
  match fuel with
  | O => diverge
  | S fuel' =>
      sleep (of_ratio delay_ms 1000);;
      next ← try_with (ms ← renewal; mret (Some ms)) (fun e => if is_exception e then Some (mret None) else None);
      match next with
      | Some ms => renewal_loop fuel' renewal ms
      | None => mret tt
      end
  end.

(** [renew] of [permit]: when it returns it has set [renewal_failed],
    [lease_lost] and the stop event and cancelled the attempt, which the
    environment shows to the attempt ([sn_permit_lost], [sn_cancel]). *)
Definition renew (fuel : nat) (grant : PermitGrant) : M unit :=
  renewal_loop fuel (renew_permit grant) (pg_renew_after_ms grant).

(** [renewal_failed.is_set()] *)
Definition renewal_failed : M bool := fun w => (Ret (sn_permit_lost (observe (w_pos w))), set_pos S w).

Definition permit_request_id (case_id : string) (iteration attempt : Z) : string :=
  Sha256.hexdigest (nul_join [run_id; worker_id; case_id; str_of_Z iteration; str_of_Z attempt]).

(** The [finally] clause: stop the renewal, give the permit back. *)
Definition release_finally (grant : PermitGrant) : M unit :=
  await_point;;
  try_with (release_permit grant) (fun e => if is_exception e then Some (mret tt) else None).

(** The body of the context manager between the [yield]s. *)
Definition guarded_body (body : M AdapterResponse) : M AdapterResponse :=
  r ← try_with body
        (fun e => match e with
                  | ECancelled =>
                      Some (lost ← renewal_failed; if lost : bool then raise permit_lost else raise ECancelled)
                  | _ => None
                  end);
  lost ← renewal_failed;
  if lost : bool then raise permit_lost else mret r.

Definition permit (case_id : string) (iteration attempt : Z) (deadline : float) (body : M AdapterResponse) :
    M AdapterResponse :=
  grant ← _wait_for_grant (permit_request_id case_id iteration attempt) deadline;
  stopped ← stop_is_set;
  if stopped : bool then raise ECancelled
  else finally (guarded_body body) (release_finally grant).

(** A renewal task gives up only after a failed renewal, and nothing but a
    cancellation is ever raised out of it. *)
Lemma renewal_gives_up_on_failure fuel renewal delay_ms w o w' :
  renewal_loop fuel renewal delay_ms w = (o, w') ->
  match o with
  | Ret _ => exists w1 e w2, renewal w1 = (Raise e, w2) /\ is_exception e = true
  | Raise e => e = ECancelled
  | Diverge => True
  end.
Proof.
  revert delay_ms w. induction fuel as [|fuel IH]; intros delay_ms w; cbn [renewal_loop].
  - by intros [= <- <-].
  - unfold mbind, M_bind, sleep, await_point, try_with. cbv zeta.
    destruct (sn_cancel _); [by intros [= <- <-]|]. destruct (past_deadline _ _); [by intros [= <- <-]|].
    match goal with |- context [renewal ?w0] => destruct (renewal w0) as [[ms|e|] w1] eqn:Er end; cbn.
    + apply IH.
    + destruct (is_exception e) eqn:Ee; cbn; intros [= <- <-]; [eauto 10|by destruct e].
    + by intros [= <- <-].
Qed.

(** ** The interface *)

Lemma total_liftE {A} (r : result exn A) : total (liftE r).
Proof. by destruct r. Qed.

Lemma total_send request : total (send request).
Proof. apply total_bind; [done|intros _]. apply total_bind; [done|intros i]. apply total_bind; [apply total_await|done]. Qed.

Lemma total_post request : total (_post request).
Proof.
  apply total_bind; [apply total_lift|intros r]. apply total_bind; [apply total_send|intros; apply total_liftE].
Qed.

Lemma total_acquire request_id : total (acquire_permit request_id).
Proof. apply total_bind; [apply total_post|intros; apply total_liftE]. Qed.

Lemma total_release grant : total (release_finally grant).
Proof.
  apply total_bind; [apply total_await|intros _]. apply total_try.
  - apply total_bind; [apply total_post|done].
  - intros e k. destruct (is_exception e); [|done]. by intros [= <-].
Qed.

Lemma total_poll request_id deadline : total (poll request_id deadline).
Proof.
  apply total_try; [apply total_bind; [apply total_acquire|done]|].
  intros [] k H; simplify_eq; [done|]. apply total_bind; [done|intros now]. apply total_if; [done|].
  apply total_try; [apply total_bind; [apply total_wait_stop|done]|]. by intros [] k H; simplify_eq.
Qed.

Lemma total_after_loop : total after_loop.
Proof. apply total_bind; [done|]. by intros []. Qed.

(** Observations are never given back. *)
Definition advances {A} (m : M A) : Prop := forall w, (w_pos w <= w_pos (m w).2)%nat.

Lemma advances_bind {A B} (m : M A) (k : A -> M B) : advances m -> (forall a, advances (k a)) -> advances (m ≫= k).
Proof.
  intros Hm Hk w. unfold mbind, M_bind. specialize (Hm w). destruct (m w) as [[a|e|] w1]; simpl in *; [|done..].
  specialize (Hk a w1). lia.
Qed.

Lemma advances_try {A} (m : M A) h : advances m -> (forall e k, h e = Some k -> advances k) -> advances (try_with m h).
Proof.
  intros Hm Hh w. unfold try_with. specialize (Hm w). destruct (m w) as [[a|e|] w1]; simpl in *; [done| |done].
  destruct (h e) as [k|] eqn:E; [|done]. specialize (Hh e k E w1). lia.
Qed.

Lemma advances_ret {A} (a : A) : advances (mret a).
Proof. intros w. simpl. lia. Qed.
Lemma advances_raise {A} e : advances (raise e : M A).
Proof. intros w. simpl. lia. Qed.
Lemma advances_lift {A} (r : pyres A) : advances (lift r).
Proof. destruct r; intros w; simpl; lia. Qed.
Lemma advances_liftE {A} (r : result exn A) : advances (liftE r).
Proof. destruct r; intros w; simpl; lia. Qed.
Lemma advances_perf : advances perf_counter.
Proof. intros w. simpl. lia. Qed.
Lemma advances_await : advances await_point.
Proof. intros w. unfold await_point. repeat case_match; simpl; lia. Qed.
Lemma advances_wait_stop t : advances (wait_stop t).
Proof. intros w. unfold wait_stop. repeat case_match; simpl; lia. Qed.

Lemma advances_poll request_id deadline : advances (poll request_id deadline).
Proof.
  apply advances_try.
  - apply advances_bind; [|intros; apply advances_ret].
    apply advances_bind; [|intros; apply advances_liftE].
    apply advances_bind; [apply advances_lift|intros r]. apply advances_bind; [|intros; apply advances_liftE].
    apply advances_bind; [intros w; simpl; lia|intros _]. apply advances_bind; [intros w; simpl; lia|intros i].
    apply advances_bind; [apply advances_await|intros; apply advances_ret].
  - intros [] k H; simplify_eq; [apply advances_raise|].
    apply advances_bind; [apply advances_perf|intros now]. cbv zeta.
    match goal with |- advances (if ?b then _ else _) => destruct b end; [apply advances_ret|].
    apply advances_try; [apply advances_bind; [apply advances_wait_stop|intros; apply advances_ret]|].
    intros [] k H; simplify_eq. apply advances_ret.
Qed.

(** Polling ends: past the horizon the deadline has passed. *)
Lemma wait_loop_ends fuel request_id deadline w :
  clock_reaches horizon deadline -> (horizon < fuel + w_pos w)%nat -> (0 < fuel)%nat ->
  (wait_loop fuel request_id deadline w).1 <> Diverge.
Proof.
  intros Hc. revert w. induction fuel as [|fuel IH]; intros w Hf H0; [lia|]. cbn [wait_loop].
  rewrite (bind_Ret stop_is_set _ w (sn_stop (observe (w_pos w))) (set_pos S w) eq_refl).
  destruct (sn_stop (observe (w_pos w))).
  { apply total_after_loop. }
  rewrite (bind_Ret perf_counter _ _ _ _ eq_refl). cbn [set_pos w_pos].
  set (w2 := set_pos S (set_pos S w)). destruct (fle deadline _) eqn:E; [done|].
  unfold mbind, M_bind. pose proof (total_poll request_id deadline w2) as Ht.
  pose proof (advances_poll request_id deadline w2) as Ha.
  destruct (poll request_id deadline w2) as [[[g| |]|e|] w3]; simpl in *; try done.
  - apply IH; [lia|]. destruct fuel; [|lia].
    rewrite Hc in E; [done|]. lia.
  - apply total_after_loop.
Qed.
Lemma total_guarded body : total body -> total (guarded_body body).
Proof.
  intros Hb. apply total_bind; [apply total_try; [done|]|].
  - intros [] k H; simplify_eq. apply total_bind; [done|]. by intros [].
  - intros r. apply total_bind; [done|]. by intros [].
Qed.

Lemma permit_ends case_id iteration attempt deadline body :
  clock_reaches horizon deadline -> total body -> total (permit case_id iteration attempt deadline body).
Proof.
  intros Hc Hb w. unfold permit, mbind, M_bind, _wait_for_grant.
  pose proof (wait_loop_ends (S horizon) (permit_request_id case_id iteration attempt) deadline w Hc) as Hw.
  destruct (wait_loop _ _ _ w) as [[g|e|] w1]; simpl in *; [|done|exfalso; apply Hw; [lia|lia|done]].
  destruct (sn_stop _); [done|]. apply (total_finally (guarded_body body) (release_finally g)).
  - by apply total_guarded.
  - apply total_release.
Qed.

Lemma guarded_returns body w r w' : guarded_body body w = (Ret r, w') -> exists w1 w2, body w1 = (Ret r, w2).
Proof.
  unfold guarded_body. intros H. step_ret H. step_ret H. unfold try_with in Hm.
  destruct (body w) as [[x|e|] w3] eqn:E; [|destruct e; try done|done].
  - destruct a0; [done|]. injection H as <- _. injection Hm as <- _. eauto.
  - step_ret Hm. by destruct a1.
Qed.

Lemma permit_body case_id iteration attempt deadline body w r w' :
  permit case_id iteration attempt deadline body w = (Ret r, w') -> exists w1 w2, body w1 = (Ret r, w2).
Proof.
  unfold permit. intros H. step_ret H. step_ret H. destruct a0; [done|].
  apply finally_Ret_inv in H as (w3 & u & H & _). by eapply guarded_returns.
Qed.

(** The limiter the runner is given. *)
#[global] Instance distributed_limiter : Limiter := {|
  limiter_permit := permit;
  limiter_horizon := horizon;
  permit_total := permit_ends;
  permit_returns_body := permit_body
|}.

Definition release_url (grant : PermitGrant) : string :=
  sk_base_url client +:+ (run_path run_id +:+ "/permits/" +:+ pg_permit_id grant +:+ "/release").

Lemma release_request_ok grant :
  exists req, release_request client run_id grant = Ok req /\ rq_method req = "POST" /\ rq_url req = release_url grant.
Proof. eexists. split; [reflexivity|]. by split. Qed.

Lemma liftE_out {A} (r : result exn A) w : exists o, liftE r w = (o, w) /\ o <> Diverge.
Proof. destruct r; eauto. Qed.

Lemma await_trace w o w' : await_point w = (o, w') -> w_trace w' = w_trace w.
Proof. unfold await_point. intros H. repeat case_match; by simplify_eq/=. Qed.

Lemma post_step req w :
  let w1 := log_event (THttp (rq_method req) (rq_url req)) w in
  _post (Ok req) w =
  match await_point w1 with
  | (Ret _, w2) => liftE (post_reply (opener (w_pos w1) req)) w2
  | (Raise e, w2) => (Raise e, w2)
  | (Diverge, w2) => (Diverge, w2)
  end.
Proof.
  cbv zeta. unfold _post. rewrite (bind_Ret (lift (Ok req)) _ w req w eq_refl). unfold send, mbind, M_bind.
  cbn [modify get_state]. by destruct (await_point _) as [[]].
Qed.

(** A request is on the wire whatever becomes of the task. *)
Lemma post_sends req w :
  exists o w', _post (Ok req) w = (o, w') /\ o <> Diverge /\ THttp (rq_method req) (rq_url req) ∈ w_trace w'.
Proof.
  unfold _post. rewrite (bind_Ret (lift (Ok req)) _ w req w eq_refl). unfold send, mbind, M_bind.
  cbn [modify get_state]. set (w1 := log_event _ w).
  destruct (await_point w1) as [[[]|e|] w2] eqn:E.
  - destruct (liftE_out (post_reply (opener (w_pos w1) req)) w2) as (o & Ho & Hd).
    exists o, w2. split; [exact Ho|]. split; [done|]. by rewrite (await_trace _ _ _ E); left.
  - exists (Raise e), w2. split; [done|]. split; [done|]. by rewrite (await_trace _ _ _ E); left.
  - by pose proof (total_await w1) as Ht; rewrite E in Ht.
Qed.

(** The task is cancelled, or an enclosing timeout expires, at the await that
    makes observation [n]. *)
Definition interrupted (n : nat) (w : World) : bool :=
  sn_cancel (observe n) || past_deadline (observe n) (w_deadline w).

Lemma await_interrupted w : exists w', await_point w = (if interrupted (w_pos w) w then Raise ECancelled else Ret tt, w') /\
  w_trace w' = w_trace w /\ w_pos w' = S (w_pos w) /\ w_deadline w' = w_deadline w.
Proof. unfold await_point, interrupted. destruct (sn_cancel _), (past_deadline _ _); by eexists. Qed.

(** Whatever the Result API answers, the reply is an [Exception] or a value. *)
Lemma post_reply_exception r e : post_reply r = Err e -> is_exception e = true.
Proof.
  unfold post_reply. destruct r as [st b|code b|]; [..|by intros [= <-]].
  - destruct (st =? 204); [done|]. destruct (loads (or_empty b)) as [[]|]; intros; by simplify_eq.
  - destruct (code =? 429); [|by intros [= <-]]. unfold mbind, result_bind. destruct (retry_after_of b) as [ms|exc] eqn:E.
    + by intros [= <-].
    + intros [= <-]. clear -E. unfold retry_after_of in E. repeat case_match; by simplify_eq.
Qed.

(** The cleanup sends one release unless it is interrupted at its first await,
    and raises only when it is interrupted. *)
Lemma release_sends grant w :
  exists w', release_finally grant w =
      (if interrupted (w_pos w) w || interrupted (S (w_pos w)) w then Raise ECancelled else Ret tt, w') /\
    w_trace w' = if interrupted (w_pos w) w then w_trace w else THttp "POST" (release_url grant) :: w_trace w.
Proof.
  destruct (await_interrupted w) as (w1 & Hw & Ht & Hp & Hd). unfold release_finally, mbind at 1, M_bind at 1. rewrite Hw.
  destruct (interrupted (w_pos w) w) eqn:E0; [by exists w1|]. cbn [orb].
  unfold release_permit, try_with. destruct (release_request_ok grant) as (req & -> & <- & <-).
  unfold mbind at 1, M_bind at 1. rewrite post_step.
  set (w2 := log_event (THttp (rq_method req) (rq_url req)) w1).
  destruct (await_interrupted w2) as (w3 & Hw3 & Ht3 & _ & _). rewrite Hw3.
  assert (interrupted (w_pos w2) w2 = interrupted (S (w_pos w)) w) as -> by (unfold interrupted; cbn; by rewrite Hp, Hd).
  exists w3. rewrite Ht3. cbn [w_trace log_event w2]. rewrite Ht.
  destruct (interrupted (S (w_pos w)) w); [done|]. unfold liftE.
  destruct (post_reply _) as [x|e] eqn:Er; [done|]. unfold raise. by rewrite (post_reply_exception _ _ Er).
Qed.

(** C32.  What becomes of a granted permit.  A stop request that is seen right
    after the grant leaves at once: the attempt does not run, and no release is
    sent, the permit expires.  Otherwise, whatever the attempt ends with (a
    response, an error, a cancellation, a lost lease), exactly one release is
    sent, unless the cleanup is cancelled at its first await; the outcome is the
    attempt's, whatever the Result API answers, unless the cleanup is
    cancelled. *)
Theorem permit_releases_grant case_id iteration attempt deadline body w g w1 :
  _wait_for_grant (permit_request_id case_id iteration attempt) deadline w = (Ret g, w1) ->
  if sn_stop (observe (w_pos w1))
  then exists w', permit case_id iteration attempt deadline body w = (Raise ECancelled, w') /\ w_trace w' = w_trace w1
  else forall o w2, guarded_body body (set_pos S w1) = (o, w2) -> o <> Diverge ->
    exists w', permit case_id iteration attempt deadline body w =
        (if interrupted (w_pos w2) w2 || interrupted (S (w_pos w2)) w2 then Raise ECancelled else o, w') /\
      w_trace w' = if interrupted (w_pos w2) w2 then w_trace w2 else THttp "POST" (release_url g) :: w_trace w2.
Proof.
  intros Hg. unfold permit. rewrite (bind_Ret _ _ _ _ _ Hg), (bind_Ret stop_is_set _ w1 _ _ eq_refl).
  destruct (sn_stop (observe (w_pos w1))); [by eexists|]. intros o w2 Hb Ho. unfold finally. rewrite Hb.
  destruct (release_sends g w2) as (w' & Hr & Ht). rewrite Hr. exists w'. split; [|done].
  destruct o as [r|e|]; [| |done]; by destruct (interrupted _ _ || interrupted _ _)%bool.
Qed.
End Scheduler.

(** ** The limiter object *)

(** [DistributedLimiter], with its [lease_lost] event. *)
Record DistributedLimiter := mkDistributed {
  dl_client : ResultSinkConfig;
  dl_run_id : string;
  dl_worker_id : string;
  dl_provider : string;
  dl_lease_lost : bool
}.

Definition new_limiter (client : ResultSinkConfig) (run_id worker_id provider : string) : DistributedLimiter :=
  mkDistributed client run_id worker_id provider false.

(** The interface the runner uses of it. *)
Definition limiter_of {env : Env} (container_repr : val -> string) (opener : nat -> http_request -> reply) (horizon : nat)
    (l : DistributedLimiter) : Limiter :=
  distributed_limiter container_repr opener (dl_client l) (dl_run_id l) (dl_worker_id l) (dl_provider l) horizon.

(** ** A grant, a body and a release on concrete inputs *)

Definition grant_body : string :=
  "{" +:+ qt "permit_id" +:+ ":" +:+ qt "p1" +:+ "," +:+ qt "lease_token" +:+ ":" +:+ qt "t" +:+ "," +:+
  qt "renew_after_ms" +:+ ":1000}".

Definition granting (index : nat) (r : http_request) : reply := ROk 200 grant_body.

Definition calm : Env := fun _ => mkSnapshot (Fin 0) false false (fun c => c) false.
Definition start_task : World := mkTask 0 None false (Circuit.circuit_init None) [] 0 [] [] false None false.
Definition ok_response : AdapterResponse := mkResponse "ok" (Some 1) (Some 1) (Some 1) None [].

Lemma permit_releases_grant_witness :
  exists w', @permit calm (fun _ => "") granting sample_sink "run-1" "w1" "fake" 3 "c" 0 1 (of_Z 10)
      (mret ok_response) start_task = (Ret ok_response, w') /\
    w_trace w' = [THttp "POST" "https://api/v1/runs/run-1/permits/p1/release"; THttp "POST" "https://api/v1/runs/run-1/permits"].
Proof.
  assert (exists w1, @_wait_for_grant calm (fun _ => "") granting sample_sink "run-1" "w1" "fake" 3
    (permit_request_id "run-1" "w1" "c" 0 1) (of_Z 10) start_task = (Ret (mkGrant "p1" "t" 1000), w1) /\
    w_trace w1 = [THttp "POST" "https://api/v1/runs/run-1/permits"] /\ w_deadline w1 = None) as (w1 & Hg & Ht & Hd).
  { eexists. split; [vm_compute; reflexivity|]. split; reflexivity. }
  assert (@guarded_body calm (mret ok_response) (set_pos S w1) = (Ret ok_response, set_pos S (set_pos S w1))) as Hb.
  { unfold guarded_body, mbind, M_bind, try_with, renewal_failed. cbn. reflexivity. }
  destruct (@permit_releases_grant calm (fun _ => "") granting sample_sink "run-1" "w1" "fake" 3 "c" 0 1 (of_Z 10)
    (mret ok_response) start_task (mkGrant "p1" "t" 1000) w1 Hg (Ret ok_response) _ Hb
    ltac:(discriminate)) as (w' & Hp & Hw).
  assert (forall n, @interrupted calm n (set_pos S (set_pos S w1)) = false) as Hi
    by (intros n; unfold interrupted; cbn; rewrite Hd; reflexivity).
  rewrite Hi, Hi in Hp. rewrite Hi in Hw. exists w'. split; [exact Hp|]. etransitivity; [exact Hw|].
  etransitivity; [|exact (f_equal (cons _) Ht)]. reflexivity.
Defined.
End Scheduler.
