(* ===== verification/Lease.v ===== *)
(** * A permit and its renewal task, interleaved ([DistributedLimiter.permit])

    The attempt and the renewal task share [renewal_failed], [lease_lost] and
    the stop event; the renewal task cancels the attempt.  A step is what one
    task does between two suspension points, or what the pool does to the
    attempt from outside.  [Scheduler.v] has the code of the attempt as a
    sequential program whose environment shows it the flags; here the flags are
    written by the other task.  Both leave the guarded block by [exit_outcome]. *)
From S2P Require Import Prelude PyFloat PyStr PyVal JsonParse Models Sha256 Retry Circuit Effects Interfaces Results Scheduler.
Import PyFloat PyStr PyVal Results Scheduler.

Module Lease.

(** How the guarded block is left, from how the body ended and from
    [renewal_failed]. *)
Definition exit_outcome (o : outcome AdapterResponse) (renewal_failed : bool) : outcome AdapterResponse :=
  match o with
  | Ret r => if renewal_failed then Raise permit_lost else Ret r
  | Raise ECancelled => if renewal_failed then Raise permit_lost else Raise ECancelled
  | Raise e => Raise e
  | Diverge => Diverge
  end.

(** The sequential code computes it. *)
Lemma guarded_body_exit {env : Env} body w o w1 :
  body w = (o, w1) -> o <> Diverge ->
  exists lost, (guarded_body body w).1 = exit_outcome o lost.
Proof.
  intros Hb Hd. unfold guarded_body, mbind, M_bind, try_with. rewrite Hb.
  exists (sn_permit_lost (observe (w_pos w1))). destruct o as [r|e|]; [| |done]; unfold renewal_failed; cbn.
  - by destruct (sn_permit_lost (observe (w_pos w1))).
  - destruct e; try done. by destruct (sn_permit_lost (observe (w_pos w1))).
Qed.

(** The attempt: in the block, in the [finally] clause, or done. *)
Inductive owner := Body | Closing (o : outcome AdapterResponse) | Done (o : outcome AdapterResponse).

(** The renewal task: sleeping, in the call, returned after a failure, cancelled. *)
Inductive renewer := Sleeping | Calling | GaveUp | Stopped.

Record state := mkState {
  st_owner : owner;
  st_renewer : renewer;
  st_renewal_failed : bool;
  st_lease_lost : bool;
  st_stop : bool;
  st_cancel : bool;        (* [owner.cancel()] was called and is not delivered *)
  st_released : nat        (* release requests sent *)
}.

(** Just after [create_task(renew())]. *)
Definition start : state := mkState Body Sleeping false false false false 0.

(** [renew_task.cancel()]; nothing happens to a task that has returned. *)
Definition cancel_renewal (r : renewer) : renewer := match r with GaveUp => GaveUp | _ => Stopped end.

Definition leave (o : outcome AdapterResponse) (s : state) : state :=
  mkState (Closing (exit_outcome o (st_renewal_failed s))) (cancel_renewal (st_renewer s)) (st_renewal_failed s)
    (st_lease_lost s) (st_stop s) (st_cancel s) (st_released s).

Inductive step : state -> state -> Prop :=
| SWake s : st_renewer s = Sleeping ->
    step s (mkState (st_owner s) Calling (st_renewal_failed s) (st_lease_lost s) (st_stop s) (st_cancel s) (st_released s))
| SRenewed s : st_renewer s = Calling ->
    step s (mkState (st_owner s) Sleeping (st_renewal_failed s) (st_lease_lost s) (st_stop s) (st_cancel s) (st_released s))
| SRenewalFails s : st_renewer s = Calling ->
    step s (mkState (st_owner s) GaveUp true true true true (st_released s))
| SStop s : st_stop s = false ->
    step s (mkState (st_owner s) (st_renewer s) (st_renewal_failed s) (st_lease_lost s) true (st_cancel s) (st_released s))
| SPoolCancels s : st_stop s = true -> st_cancel s = false -> (forall o, st_owner s <> Done o) ->
    step s (mkState (st_owner s) (st_renewer s) (st_renewal_failed s) (st_lease_lost s) (st_stop s) true (st_released s))
| SReturns s r : st_owner s = Body -> step s (leave (Ret r) s)
| SRaises s e : st_owner s = Body -> e <> ECancelled -> step s (leave (Raise e) s)
| SCancelled s : st_owner s = Body -> st_cancel s = true ->
    step s (leave (Raise ECancelled)
      (mkState Body (st_renewer s) (st_renewal_failed s) (st_lease_lost s) (st_stop s) false (st_released s)))
| SReleases s o : st_owner s = Closing o ->
    step s (mkState (Done o) (st_renewer s) (st_renewal_failed s) (st_lease_lost s) (st_stop s) (st_cancel s)
              (S (st_released s)))
| SCancelledInRelease s o : st_owner s = Closing o -> st_cancel s = true ->
    step s (mkState (Done (Raise ECancelled)) (st_renewer s) (st_renewal_failed s) (st_lease_lost s) (st_stop s) false
              (S (st_released s)))
| SCancelledInGather s o : st_owner s = Closing o -> st_cancel s = true ->
    step s (mkState (Done (Raise ECancelled)) (st_renewer s) (st_renewal_failed s) (st_lease_lost s) (st_stop s) false
              (st_released s)).

(** What every reachable state satisfies. *)
Record lease_inv (s : state) : Prop := {
  li_failed : st_renewal_failed s = true <-> st_renewer s = GaveUp;
  li_lost : st_lease_lost s = st_renewal_failed s;
  li_stop : st_renewal_failed s = true -> st_stop s = true;
  li_cancel : st_cancel s = true -> st_stop s = true;
  li_body : st_owner s = Body -> st_released s = 0%nat /\ st_renewer s <> Stopped;
  li_closing o : st_owner s = Closing o -> st_released s = 0%nat /\ (st_renewer s = GaveUp \/ st_renewer s = Stopped);
  li_done o : st_owner s = Done o -> (st_renewer s = GaveUp \/ st_renewer s = Stopped) /\
    (st_released s = 1%nat \/ st_released s = 0%nat /\ o = Raise ECancelled);
  li_result r : st_owner s = Closing (Ret r) \/ st_owner s = Done (Ret r) -> st_renewal_failed s = false
}.

Lemma start_inv : lease_inv start.
Proof. by split. Qed.

Lemma exit_returns o b r : exit_outcome o b = Ret r -> b = false.
Proof. destruct o as [x|e|]; [by destruct b|destruct e; by destruct b|done]. Qed.

Lemma leave_inv o s : lease_inv s -> st_owner s = Body -> lease_inv (leave o s).
Proof.
  intros Hi Hb. destruct (li_body _ Hi Hb) as [H0 Hr]. pose proof (li_failed _ Hi) as Hf. split; cbn; try apply Hi; try done.
  - rewrite Hf. by destruct (st_renewer s).
  - intros o' _. split; [done|]. destruct (st_renewer s); cbn; auto.
  - intros r [[= E]|]; [|done]. by eapply exit_returns.
Qed.

(** While the renewal task runs, the attempt is in its block and nothing is lost. *)
Lemma renewing s : lease_inv s -> st_renewer s = Sleeping \/ st_renewer s = Calling ->
  st_owner s = Body /\ st_renewal_failed s = false /\ st_released s = 0%nat.
Proof.
  intros Hi Hr. assert (st_owner s = Body) as Hb.
  { destruct (st_owner s) as [|o|o] eqn:E; [done|..].
    - destruct (li_closing _ Hi _ E) as [_ [H|H]]; rewrite H in Hr; by destruct Hr.
    - destruct (li_done _ Hi _ E) as [[H|H] _]; rewrite H in Hr; by destruct Hr. }
  split_and!; [done| |by apply (li_body _ Hi Hb)].
  destruct (st_renewal_failed s) eqn:E; [|done]. apply (li_failed _ Hi) in E. rewrite E in Hr. by destruct Hr.
Qed.

Lemma body_inv r b s : lease_inv s -> st_owner s = Body -> st_released s = 0%nat ->
  (b = true <-> r = GaveUp) -> r <> Stopped ->
  (b = false -> st_renewal_failed s = false) ->
  lease_inv (mkState Body r b b (b || st_stop s) (b || st_cancel s) (st_released s)).
Proof.
  intros Hi Hb H0 Hf Hr Hs. split; cbn; try done.
  - by intros ->.
  - destruct b; [done|]. cbn. apply Hi.
  - by intros r' [|].
Qed.

Lemma done_inv s o o' c n : lease_inv s -> st_owner s = Closing o -> (c = true -> st_stop s = true) ->
  (n = 1%nat /\ o' = o \/ o' = Raise ECancelled /\ (n <= 1)%nat) ->
  lease_inv (mkState (Done o') (st_renewer s) (st_renewal_failed s) (st_lease_lost s) (st_stop s) c n).
Proof.
  intros Hi Ho Hc Hn. destruct (li_closing _ Hi _ Ho) as [_ Hr]. split; cbn; try apply Hi; try done.
  - intros o'' [= <-]. split; [done|]. destruct Hn as [[-> _]|[-> Hn]]; [by left|]. destruct n as [|[|]]; [by right|by left|lia].
  - intros r [|[= ->]]; [done|]. destruct Hn as [[_ <-]|[? _]]; [|done]. by apply (li_result _ Hi r); left.
Qed.

Lemma flags_inv s stop cancel : lease_inv s ->
  (st_stop s = true -> stop = true) -> (cancel = true -> stop = true) ->
  lease_inv (mkState (st_owner s) (st_renewer s) (st_renewal_failed s) (st_lease_lost s) stop cancel (st_released s)).
Proof. intros Hi Hst Hc. split; cbn; try apply Hi; try done. intros H. by apply Hst, Hi. Qed.

Lemma step_inv s s' : lease_inv s -> step s s' -> lease_inv s'.
Proof.
  intros Hi Hs. destruct Hs as [s Hr|s Hr|s Hr|s Hst|s Hst _ Hd|s r Hb|s e Hb He|s Hb Hc|s o Ho|s o Ho Hc|s o Ho Hc].
  - destruct (renewing s Hi) as (Hb & Hf & H0); [by left|]. rewrite (li_lost _ Hi), Hb, Hf. by apply (body_inv Calling false).
  - destruct (renewing s Hi) as (Hb & Hf & H0); [by right|]. rewrite (li_lost _ Hi), Hb, Hf. by apply (body_inv Sleeping false).
  - destruct (renewing s Hi) as (Hb & Hf & H0); [by right|]. rewrite Hb. by apply (body_inv GaveUp true).
  - by apply flags_inv.
  - by apply flags_inv.
  - by apply leave_inv.
  - by apply leave_inv.
  - apply leave_inv; [|done]. rewrite <- Hb. apply flags_inv; done.
  - eapply done_inv; [done|done|apply Hi|]. left. by destruct (li_closing _ Hi _ Ho) as [-> _].
  - eapply done_inv; [done|done|done|]. right. destruct (li_closing _ Hi _ Ho) as [-> _]. split; [done|lia].
  - eapply done_inv; [done|done|done|]. right. destruct (li_closing _ Hi _ Ho) as [-> _]. split; [done|lia].
Qed.

Lemma reachable_lease s : star step start s -> lease_inv s.
Proof. intros H. eapply (star_invariant _ lease_inv); [|exact H|apply start_inv]. intros. by eapply step_inv. Qed.

Definition closing_or_done (s : state) : Prop := exists o, st_owner s = Closing o \/ st_owner s = Done o.

Definition cleanup (s : state) : nat :=
  (if st_stop s then 0 else 2) + (if st_cancel s then 0 else 1) + match st_owner s with Closing _ => 2 | _ => 0 end.

(** Once the attempt has left its block, it gets to the end of the [finally] clause. *)
Lemma cleanup_ends s o : lease_inv s -> st_owner s = Closing o -> eventually step (fun s' => exists o', st_owner s' = Done o') s.
Proof.
  intros Hi Ho.
  apply (eventually_measure _ _ (fun s => lease_inv s /\ closing_or_done s) cleanup); [|by split; [|exists o; left]].
  clear s o Hi Ho. intros s [Hi (o & [Ho|Ho])]; [|by left; exists o]. right. split; [eexists; by apply (SReleases s o)|].
  destruct (li_closing _ Hi _ Ho) as [_ Hr].
  intros s' Hs. split; [split; [by eapply step_inv|]|]; unfold closing_or_done, cleanup;
    destruct Hs as [s Hr'|s Hr'|s Hr'|s Hst|s Hst Hc Hd|s r Hb|s e Hb He|s Hb Hc|s o' Ho'|s o' Ho' Hc|s o' Ho' Hc]; cbn in *;
    try congruence; try (rewrite Hr' in Hr; by destruct Hr); rewrite ?Ho, ?Hst, ?Hc; eauto; try lia.
  all: destruct (st_stop s), (st_cancel s); lia.
Qed.

(** C33.  However the renewals of a permit interleave with the attempt it guards:
    a failed renewal is always visible as a lost lease and a stop request; the
    attempt then never returns a response; the renewal task has ended when the
    attempt is done; the permit is released once, or not at all when the cleanup
    itself was cancelled; and an attempt that has left its block always reaches
    the end of its cleanup. *)
Theorem permit_lifecycle s :
  star step start s ->
  st_lease_lost s = st_renewal_failed s /\ (st_renewal_failed s = true -> st_stop s = true) /\
  (forall o, st_owner s = Done o ->
     (st_renewal_failed s = true -> forall r, o <> Ret r) /\
     (st_renewer s = GaveUp \/ st_renewer s = Stopped) /\
     (st_released s = 1%nat \/ st_released s = 0%nat /\ o = Raise ECancelled)) /\
  (forall o, st_owner s = Closing o -> eventually step (fun s' => exists o', st_owner s' = Done o') s).
Proof.
  intros Hi%reachable_lease. split_and!; [apply Hi..| |].
  - intros o Ho. destruct (li_done _ Hi _ Ho) as [Hr Hn]. split_and!; [|done|done].
    intros Hf r ->. rewrite (li_result _ Hi r) in Hf; [done|by right].
  - intros o Ho. by eapply cleanup_ends.
Qed.

(** A renewal fails while the attempt runs: the attempt is cancelled, its result
    is the lost permit, and the permit is released. *)
Definition lost_end : state := mkState (Done (Raise permit_lost)) GaveUp true true true false 1.

Lemma lost_reach : star step start lost_end.
Proof.
  eapply star_next; [by apply SWake|]. eapply star_next; [by apply SRenewalFails|].
  eapply star_next; [by apply SCancelled|]. apply star_one. by apply SReleases.
Qed.

Lemma permit_lifecycle_witness :
  st_stop lost_end = true /\ (forall r, (Raise permit_lost : outcome AdapterResponse) <> Ret r) /\ st_released lost_end = 1%nat.
Proof.
  destruct (permit_lifecycle lost_end lost_reach) as (_ & H1 & H2 & _).
  destruct (H2 (Raise permit_lost) eq_refl) as (H3 & _ & _).
  split; [exact (H1 eq_refl)|]. split; [exact (H3 eq_refl)|reflexivity].
Defined.
End Lease.
