(* ===== verification/Evaluators.v ===== *)
(** * Assertions ([evaluators.py])

    The registry compiles the regular expressions, schemas and Python entry
    points of a dataset once; [evaluate] runs the effective assertions of a case
    in order and turns every exception of an assertion into a failed outcome.
    Parameters: the regular expression engine, the JSON Schema validator (which
    may raise something else than a [ValidationError], for instance on a
    reference it cannot resolve), what [json.loads] raises beside
    [JSONDecodeError] (the recursion and digit limits of the interpreter), and
    the Python functions of the dataset author. *)
From S2P Require Import Prelude PyFloat PyStr PyVal PyJson JsonParse PyDecimal Models.
From S2P Require Import Retry Circuit Effects Interfaces Pricing OpenAIValidate Config.
Import PyFloat PyStr PyVal PyJson JsonParse Config.

Module Evaluators.

Abbreviation rkey := (string * Z)%type.

Record EvaluatorRegistry := mkRegistry {
  er_regexes : list (rkey * string);
  er_schemas : list (rkey * val);
  er_python : list (rkey * string)
}.

Definition rkey_eqb (a b : rkey) : bool := String.eqb a.1 b.1 && (a.2 =? b.2).

(** [d[key]] *)
Fixpoint reg_get {A} (l : list (rkey * A)) (key : rkey) : option A :=
  match l with
  | [] => None
  | (k, a) :: l' => if rkey_eqb key k then Some a else reg_get l' key
  end.

(** [d[key] = a]: keys are prepared once each. *)
Definition reg_set {A} (l : list (rkey * A)) (key : rkey) (a : A) : list (rkey * A) := (key, a) :: l.

Section Evaluators.
Context {env : Env}.
Context (re_ok : string -> bool) (re_search : string -> string -> bool).
(** [validate schema value]: the message of a [ValidationError], or another exception. *)
Context (schema_ok : val -> bool) (validate : val -> val -> result exn (option string)).
(** An exception of [json.loads] that is no [JSONDecodeError]. *)
Context (json_raises : string -> option exn).
(** [callable(getattr(import_module(module), function, None))]: the import may raise. *)
Context (is_callable : string -> result exn bool) (call_python : string -> val -> val -> nat -> result exn val).
Context (exn_text : exn -> string) (json_error : string -> string).

Definition _prepare (reg : EvaluatorRegistry) (case_id : string) (index : Z) (a : AssertionSpec) :
    result exn EvaluatorRegistry :=
  let key := (case_id, index) in
  if String.eqb (as_type a) "regex" then
    match as_pattern a with
    | None => Err (EPy AssertionError)
    | Some p => if re_ok p then Ok (mkRegistry (reg_set (er_regexes reg) key p) (er_schemas reg) (er_python reg))
                else Err (EPy ReError)
    end
  else if String.eqb (as_type a) "json_schema" then
    if is_none (as_schema a) then Err (EPy AssertionError)
    else if schema_ok (as_schema a)
         then Ok (mkRegistry (er_regexes reg) (reg_set (er_schemas reg) key (as_schema a)) (er_python reg))
         else Err (EOther "SchemaError")
  else if String.eqb (as_type a) "python" then
    match as_entrypoint a with
    | None => Err (EPy AssertionError)
    | Some e =>
        match is_callable e with
        | Err exc => Err exc
        | Ok true => Ok (mkRegistry (er_regexes reg) (er_schemas reg) (reg_set (er_python reg) key e))
        | Ok false => Err (EPy (ValueError ("python assertion entrypoint '" +:+ e +:+ "' is not callable")))
        end
    end
  else Ok reg.

Fixpoint prepare_case (reg : EvaluatorRegistry) (case_id : string) (index : Z) (l : list AssertionSpec) :
    result exn EvaluatorRegistry :=
  match l with
  | [] => Ok reg
  | a :: l' => reg' ← _prepare reg case_id index a; prepare_case reg' case_id (index + 1) l'
  end.

Fixpoint prepare_all (reg : EvaluatorRegistry) (cases : list TestCase) : result exn EvaluatorRegistry :=
  match cases with
  | [] => Ok reg
  | c :: cases' => reg' ← prepare_case reg (tc_case_id c) 0 (effective_assertions c); prepare_all reg' cases'
  end.

(** [EvaluatorRegistry(cases)] *)
Definition new_registry (cases : list TestCase) : result exn EvaluatorRegistry := prepare_all (mkRegistry [] [] []) cases.

Definition verdict_of (passed : bool) (reason : string) : bool * string * option string :=
  (passed, if passed then "passed" else reason, None).

(** [context.to_dict()] *)
Definition context_dict (c : EvaluationContext) : val :=
  VDict [("case_id", VStr (ec_case_id c)); ("prompt", VStr (ec_prompt c)); ("output", VStr (ec_output c));
         ("latency_ms", VFloat (ec_latency_ms c)); ("tool_path", VList (VStr <$> ec_tool_path c));
         ("metadata", VDict (ec_metadata c))].

(** What a Python assertion may return. *)
Definition python_verdict (raw : val) : result exn (bool * string * option string) :=
  match raw with
  | VBool b => Ok (verdict_of b "mismatch")
  | VDict d =>
      match get_none d "passed", get_none d "message" with
      | VBool b, VNone => Ok (verdict_of b "mismatch")
      | VBool b, VStr m => Ok (b, if b then "passed" else "mismatch", Some m)
      | VBool _, _ => Err (EPy (TypeError "python assertion message must be a string"))
      | _, _ => Err (EPy (TypeError "python assertion must return bool or a passed/message object"))
      end
  | _ => Err (EPy (TypeError "python assertion must return bool or a passed/message object"))
  end.

Definition of_result {A} (r : result exn A) : M A := match r with Ok a => mret a | Err e => raise e end.

Definition _invoke (reg : EvaluatorRegistry) (key : rkey) (a : AssertionSpec) (ctx : EvaluationContext) :
    M (bool * string * option string) :=
  let ty := as_type a in
  if String.eqb ty "exact" then
    mret (verdict_of (match as_value a with Some v => String.eqb (ec_output ctx) v | None => false end) "mismatch")
  else if String.eqb ty "contains" then
    match as_value a with
    | None => raise (EPy AssertionError)
    | Some v => mret (verdict_of (contains v (ec_output ctx)) "mismatch")
    end
  else if String.eqb ty "regex" then
    match reg_get (er_regexes reg) key with
    | None => raise (EPy (KeyError key.1))
    | Some p => mret (verdict_of (re_search p (ec_output ctx)) "mismatch")
    end
  else if String.eqb ty "json_schema" then
    match json_raises (ec_output ctx), loads (ec_output ctx) with
    | Some exc, _ => raise exc
    | None, None => mret (false, "invalid_json", Some (json_error (ec_output ctx)))
    | None, Some value =>
        match reg_get (er_schemas reg) key with
        | None => raise (EPy (KeyError key.1))
        | Some schema =>
            match validate schema value with
            | Err exc => raise exc
            | Ok (Some m) => mret (false, "schema_violation", Some m)
            | Ok None => mret (true, "passed", None)
            end
        end
    end
  else if String.eqb ty "tool_path" then
    mret (verdict_of (bool_decide (ec_tool_path ctx = as_path a)) "path_mismatch")
  else if String.eqb ty "latency" then
    match as_max_ms a with
    | None => raise (EPy AssertionError)
    | Some m => mret (verdict_of (fle (ec_latency_ms ctx) m) "latency_exceeded")
    end
  else if String.eqb ty "python" then
    match reg_get (er_python reg) key with
    | None => raise (EPy (KeyError key.1))
    | Some f =>
        index ← get_state w_pos;
        await_point;;
        raw ← of_result (call_python f (context_dict ctx) (VDict (as_config a)) index);
        of_result (python_verdict raw)
    end
  else raise (EPy (ValueError ("unsupported assertion type '" +:+ ty +:+ "'"))).

Definition _evaluate_one (reg : EvaluatorRegistry) (case_id : string) (index : Z) (a : AssertionSpec)
    (ctx : EvaluationContext) : M AssertionOutcome :=
  try_with
    ('(passed, reason_code, message) ← _invoke reg (case_id, index) a ctx;
     mret (mkOutcome index (as_type a) passed reason_code message))
    (fun exc => if is_exception exc
                then Some (mret (mkOutcome index (as_type a) false "exception"
                                   (Some (exn_name exc +:+ ": " +:+ exn_text exc))))
                else None).

Fixpoint evaluate_from (reg : EvaluatorRegistry) (case_id : string) (index : Z) (l : list AssertionSpec)
    (ctx : EvaluationContext) : M (list AssertionOutcome) :=
  match l with
  | [] => mret []
  | a :: l' =>
      o ← _evaluate_one reg case_id index a ctx;
      os ← evaluate_from reg case_id (index + 1) l' ctx;
      mret (o :: os)
  end.

Definition evaluate (reg : EvaluatorRegistry) (case : TestCase) (ctx : EvaluationContext) : M (list AssertionOutcome) :=
  evaluate_from reg (tc_case_id case) 0 (effective_assertions case) ctx.

(** ** The interface *)

Lemma invoke_total reg key a ctx : total (_invoke reg key a ctx).
Proof.
  unfold _invoke. repeat (apply total_if; [by repeat case_match|]). apply total_if; [|done].
  destruct (reg_get _ _); [|done]. apply total_bind; [done|intros i]. apply total_bind; [apply total_await|intros _].
  apply total_bind; [by destruct (call_python _ _ _ _)|intros raw]. by destruct (python_verdict raw).
Qed.

Lemma evaluate_one_total reg id i a ctx : total (_evaluate_one reg id i a ctx).
Proof.
  apply total_try; [apply total_bind; [apply invoke_total|by intros [[? ?] ?]]|].
  intros e k. destruct (is_exception e); [|done]. by intros [= <-].
Qed.

Lemma evaluate_from_total reg id i l ctx : total (evaluate_from reg id i l ctx).
Proof.
  revert i. induction l as [|a l IH]; intros i; [done|]. apply total_bind; [apply evaluate_one_total|intros o].
  apply total_bind; [apply IH|done].
Qed.

Lemma evaluate_from_length reg id i l ctx : post (evaluate_from reg id i l ctx) (fun os => length os = length l).
Proof.
  revert i. induction l as [|a l IH]; intros i; [by apply post_ret|]. apply post_seq. intros o.
  eapply post_bind; [apply IH|]. intros os Hos. apply post_ret. simpl. congruence.
Qed.

(** The registry the runner is given. *)
#[global] Instance registry_evaluators (reg : EvaluatorRegistry) : Interfaces.Evaluators := {|
  Interfaces.evaluate := evaluate reg;
  Interfaces.evaluate_total := fun case ctx => evaluate_from_total reg (tc_case_id case) 0 (effective_assertions case) ctx;
  Interfaces.evaluate_length := fun case ctx =>
    evaluate_from_length reg (tc_case_id case) 0 (effective_assertions case) ctx
|}.
(** ** What the deterministic assertions decide *)

(** What becomes of the output under a schema. *)
Inductive schema_end := SRaised (exc : exn) | SNotJson | SViolated | SValid.

Definition schema_judges (schema : val) (output : string) : schema_end :=
  match json_raises output with
  | Some exc => SRaised exc
  | None =>
      match loads output with
      | None => SNotJson
      | Some v => match validate schema v with Err exc => SRaised exc | Ok (Some _) => SViolated | Ok None => SValid end
      end
  end.

Definition assertion_holds (a : AssertionSpec) (ctx : EvaluationContext) : bool :=
  let ty := as_type a in
  if String.eqb ty "exact" then match as_value a with Some v => String.eqb (ec_output ctx) v | None => false end
  else if String.eqb ty "contains" then match as_value a with Some v => contains v (ec_output ctx) | None => false end
  else if String.eqb ty "regex" then match as_pattern a with Some p => re_search p (ec_output ctx) | None => false end
  else if String.eqb ty "json_schema" then
    match schema_judges (as_schema a) (ec_output ctx) with SValid => true | _ => false end
  else if String.eqb ty "tool_path" then bool_decide (ec_tool_path ctx = as_path a)
  else match as_max_ms a with Some m => fle (ec_latency_ms ctx) m | None => false end.

(** Why an assertion that does not hold failed. *)
Definition failure_reason (a : AssertionSpec) (ctx : EvaluationContext) : string :=
  if String.eqb (as_type a) "json_schema" then
    match schema_judges (as_schema a) (ec_output ctx) with
    | SRaised _ => "exception" | SNotJson => "invalid_json" | _ => "schema_violation"
    end
  else if String.eqb (as_type a) "tool_path" then "path_mismatch"
  else if String.eqb (as_type a) "latency" then "latency_exceeded"
  else "mismatch".

Definition reason_of (a : AssertionSpec) (ctx : EvaluationContext) : string :=
  if assertion_holds a ctx then "passed" else failure_reason a ctx.

(** The entries an assertion needs are in the registry. *)
Definition prepared (reg : EvaluatorRegistry) (id : string) (i : Z) (a : AssertionSpec) : Prop :=
  (as_type a = "regex" -> is_Some (as_pattern a) /\ reg_get (er_regexes reg) (id, i) = as_pattern a) /\
  (as_type a = "json_schema" -> reg_get (er_schemas reg) (id, i) = Some (as_schema a)).

Lemma rkey_eqb_refl k : rkey_eqb k k = true.
Proof. unfold rkey_eqb. by rewrite String.eqb_refl, Z.eqb_refl. Qed.

Lemma rkey_eqb_ne (k k' : rkey) : k <> k' -> rkey_eqb k k' = false.
Proof.
  intros Hne. unfold rkey_eqb. destruct (String.eqb k.1 k'.1) eqn:E1; [|done].
  destruct (k.2 =? k'.2) eqn:E2; [|done]. bool_simpl. exfalso. apply Hne. destruct k, k'. simpl in *. congruence.
Qed.

Lemma prepare_here reg id i a reg' : _prepare reg id i a = Ok reg' -> prepared reg' id i a.
Proof.
  unfold _prepare, prepared. intros H. split; intros Ht; rewrite Ht in H; simpl in H.
  - destruct (as_pattern a) as [p|]; [|done]. destruct (re_ok p); [|done]. injection H as <-. simpl.
    rewrite rkey_eqb_refl. split; [eauto|done].
  - destruct (is_none (as_schema a)); [done|]. destruct (schema_ok _); [|done]. injection H as <-. simpl.
    by rewrite rkey_eqb_refl.
Qed.

Lemma prepare_other reg id i a reg' id' i' a' :
  _prepare reg id i a = Ok reg' -> (id', i') <> (id, i) -> prepared reg id' i' a' -> prepared reg' id' i' a'.
Proof.
  unfold _prepare. intros H Hne Hp. unfold prepared in *. repeat case_match; simplify_eq/=; try done;
    rewrite ?(rkey_eqb_ne _ _ Hne); done.
Qed.

Lemma prepare_case_spec reg id k l reg' :
  prepare_case reg id k l = Ok reg' ->
  (forall j a, l !! j = Some a -> prepared reg' id (k + Z.of_nat j) a) /\
  (forall id' i' a', (id' <> id \/ i' < k) -> prepared reg id' i' a' -> prepared reg' id' i' a').
Proof.
  revert reg k. induction l as [|a l IH]; intros reg k H; simpl in H; [injection H as <-; done|].
  unfold mbind, result_bind in H. destruct (_prepare reg id k a) as [reg1|] eqn:E; [|done].
  destruct (IH _ _ H) as [H1 H2]. split.
  - intros [|j] b Hj; simpl in Hj.
    + injection Hj as <-. apply H2; [right; lia|]. rewrite Z.add_0_r. by eapply prepare_here.
    + replace (k + Z.of_nat (S j)) with (k + 1 + Z.of_nat j) by lia. auto.
  - intros id' i' a' Hd Hp. apply H2; [destruct Hd; [auto|right; lia]|].
    eapply prepare_other; [exact E| |exact Hp]. intros [= -> ->]. destruct Hd; [done|lia].
Qed.

Lemma prepare_all_spec reg cases reg' :
  prepare_all reg cases = Ok reg' -> NoDup (tc_case_id <$> cases) ->
  (forall c j a, c ∈ cases -> effective_assertions c !! j = Some a -> prepared reg' (tc_case_id c) (Z.of_nat j) a) /\
  (forall id' i' a', id' ∉ tc_case_id <$> cases -> prepared reg id' i' a' -> prepared reg' id' i' a').
Proof.
  revert reg. induction cases as [|c cases IH]; intros reg H Hnd; simpl in H.
  { injection H as <-. split; [|done]. by intros ? ? ? ?%elem_of_nil. }
  unfold mbind, result_bind in H. destruct (prepare_case _ _ _ _) as [reg1|] eqn:E; [|done].
  rewrite fmap_cons in Hnd. inversion Hnd as [|? ? Hc Hnd']; subst. destruct (IH _ H Hnd') as [H1 H2].
  destruct (prepare_case_spec _ _ _ _ _ E) as [H3 H4]. split.
  - intros c' j a [->|Hin]%elem_of_cons Hj; [|by eapply H1]. apply H2; [done|]. by apply H3 in Hj.
  - intros id' i' a' Hid Hp. rewrite fmap_cons, not_elem_of_cons in Hid. apply H2; [apply Hid|].
    apply H4; [left; apply Hid|done].
Qed.

(** An assertion that is no Python function either gives its verdict or, for a
    schema, lets the exception of the parser or the validator through. *)
Lemma invoke_deterministic reg id i a ctx w :
  valid_spec a -> as_type a <> "python" -> prepared reg id i a ->
  (exists message, _invoke reg (id, i) a ctx w = (Ret (assertion_holds a ctx, reason_of a ctx, message), w)) \/
  (exists exc, _invoke reg (id, i) a ctx w = (Raise exc, w) /\ assertion_holds a ctx = false /\
     reason_of a ctx = "exception").
Proof.
  intros (Hty & Hv & Hp & Hs & Hm & _) Hpy (Hre & Hsc). unfold _invoke, reason_of, failure_reason, assertion_holds, assertion_types in *.
  rewrite !elem_of_cons in Hty. destruct Hty as [T|[T|[T|[T|[T|[T|[T|T]]]]]]]; try done; rewrite ?T in *; simpl.
  - left. by eexists.
  - destruct Hv as [v ->]; [auto|]. left. by eexists.
  - destruct Hre as [[p Hpp] Hg]; [done|]. rewrite Hg, Hpp. left. by eexists.
  - unfold schema_judges. destruct (json_raises (ec_output ctx)) as [exc|]; [right; by exists exc|].
    destruct (loads (ec_output ctx)); [|left; by eexists]. rewrite (Hsc eq_refl).
    destruct (validate _ _) as [[m|]|exc]; [left; by eexists|left; by eexists|right; by exists exc].
  - left. by eexists.
  - destruct Hm as [m ->]; [done|]. left. by eexists.
  - by apply elem_of_nil in T.
Qed.

(** The outcome of one assertion that returns. *)
Lemma evaluate_one_spec reg id i a ctx w o w' :
  valid_spec a -> as_type a <> "python" -> prepared reg id i a ->
  _evaluate_one reg id i a ctx w = (Ret o, w') ->
  ao_index o = i /\ ao_type o = as_type a /\ ao_passed o = assertion_holds a ctx /\ ao_reason_code o = reason_of a ctx.
Proof.
  intros Hv Hpy Hp H. unfold _evaluate_one, try_with, mbind, M_bind in H.
  destruct (invoke_deterministic reg id i a ctx w Hv Hpy Hp) as [(m & Hi)|(exc & Hi & Hh & Hr)]; rewrite Hi in H.
  - injection H as <- <-. done.
  - destruct (is_exception exc); [|done]. injection H as <- <-. by rewrite Hh, Hr.
Qed.

Lemma reason_passed a ctx : reason_of a ctx = "passed" <-> assertion_holds a ctx = true.
Proof. unfold reason_of, failure_reason. destruct (assertion_holds a ctx); [done|]. by repeat case_match. Qed.

Lemma reason_exception a ctx : reason_of a ctx = "exception" <->
  as_type a = "json_schema" /\ exists exc, schema_judges (as_schema a) (ec_output ctx) = SRaised exc.
Proof.
  unfold reason_of, failure_reason, assertion_holds. split.
  - destruct (String.eqb_spec (as_type a) "json_schema") as [->|]; [|by repeat case_match]. simpl.
    destruct (schema_judges _ _); try done. eauto.
  - intros [-> [exc E]]. simpl. by rewrite E.
Qed.

Lemma evaluate_from_spec reg id i l ctx w os w' :
  evaluate_from reg id i l ctx w = (Ret os, w') ->
  Forall valid_spec l -> (forall j a, l !! j = Some a -> prepared reg id (i + Z.of_nat j) a) ->
  forall j a o, l !! j = Some a -> os !! j = Some o -> as_type a <> "python" ->
  ao_index o = i + Z.of_nat j /\ ao_type o = as_type a /\ ao_passed o = assertion_holds a ctx /\
  ao_reason_code o = reason_of a ctx.
Proof.
  revert i w os. induction l as [|b l IH]; intros i w os H Hv Hp [|j] a o Hj Ho Hpy; simpl in Hj; try done;
    inversion Hv; subst; cbn [evaluate_from] in H; step_ret H; step_ret H; injection H as <- <-; simpl in Ho.
  - injection Hj as ->. injection Ho as ->. specialize (Hp 0%nat a eq_refl). rewrite Z.add_0_r in *.
    by eapply evaluate_one_spec.
  - replace (i + Z.of_nat (S j)) with (i + 1 + Z.of_nat j) by lia. eapply IH; eauto.
    intros j' a' Hj'. specialize (Hp (S j') a' Hj'). replace (i + 1 + Z.of_nat j') with (i + Z.of_nat (S j')) by lia.
    done.
Qed.

(** C34.  For every case of a loaded dataset, the outcome of each assertion that
    is not a Python function has the assertion's index and type, and it passed
    exactly when the assertion holds of the output, the tool path and the
    latency.  The reason says which: [passed], the reason of the assertion's
    type, and [exception] exactly for a schema assertion on which the JSON
    parser or the validator raised something else than its own error. *)
Theorem assertions_decide reg cases case ctx w os w' :
  new_registry cases = Ok reg -> NoDup (tc_case_id <$> cases) -> Forall valid_case cases -> case ∈ cases ->
  evaluate reg case ctx w = (Ret os, w') ->
  length os = length (effective_assertions case) /\
  forall j a o, effective_assertions case !! j = Some a -> os !! j = Some o -> as_type a <> "python" ->
    ao_index o = Z.of_nat j /\ ao_type o = as_type a /\ ao_passed o = assertion_holds a ctx /\
    ao_reason_code o = reason_of a ctx /\ (ao_reason_code o = "passed" <-> ao_passed o = true) /\
    (ao_reason_code o = "exception" <->
       as_type a = "json_schema" /\ exists exc, schema_judges (as_schema a) (ec_output ctx) = SRaised exc).
Proof.
  intros Hr Hnd Hv Hin H. split; [by apply evaluate_from_length in H|].
  intros j a o Hj Ho Hpy. destruct (prepare_all_spec _ _ _ Hr Hnd) as [Hp _].
  eapply Forall_forall in Hv as (_ & Hspec & _); [|exact Hin].
  eapply evaluate_from_spec in H as (H1 & H2 & H3 & H4); [|done| |exact Hj|exact Ho|exact Hpy]; [|intros j' a' Hj'; by apply Hp].
  rewrite H3, H4. split_and!; [done..|apply reason_passed|apply reason_exception].
Qed.
End Evaluators.

(** ** A case whose schema has a reference that cannot be resolved *)

Definition sample_specs : list AssertionSpec :=
  [mkAssertionSpec "regex" None (Some "^o") VNone [] None None [];
   mkAssertionSpec "latency" None None VNone [] (Some (of_Z 100)) None [];
   mkAssertionSpec "json_schema" None None (VDict [("$ref", VStr "https://gone/schema")]) [] None None []].

Definition sample_case : TestCase := mkTestCase "c1" "hi" (Some "1") sample_specs [].
Definition sample_ctx : EvaluationContext := mkContext "c1" "hi" "12" (of_Z 250) [] [].
Definition still : Env := fun _ => mkSnapshot (Fin 0) false false (fun c => c) false.
Definition task1 : World := mkTask 0 None false (Circuit.circuit_init None) [] 0 [] [] false None false.

(** A validator that raises on every reference. *)
Definition no_refs (schema _ : val) : result exn (option string) :=
  match schema with VDict [("$ref", _)] => Err (EOther "_WrappedReferencingError") | _ => Ok None end.

Abbreviation eval_sample := (fun reg => @evaluate still (fun _ _ => true) no_refs (fun _ => None)
  (fun _ _ _ _ => Ok (VBool true)) (fun _ => "") (fun _ => "") reg sample_case sample_ctx task1).

Lemma assertions_decide_witness :
  exists reg os w' o, new_registry (fun _ => true) (fun _ => true) (fun _ => Ok true) [sample_case] = Ok reg /\
    eval_sample reg = (Ret os, w') /\ ao_passed <$> os = [true; true; false; false] /\
    os !! 3%nat = Some o /\ ao_reason_code o = "exception".
Proof.
  assert (exists reg os w' o, new_registry (fun _ => true) (fun _ => true) (fun _ => Ok true) [sample_case] = Ok reg /\
    eval_sample reg = (Ret os, w') /\ ao_passed <$> os = [true; true; false; false] /\ os !! 3%nat = Some o)
    as (reg & os & w' & o & Hr & He & Hp & Ho).
  { eexists _, _, _, _. split; [reflexivity|]. split; [vm_compute; reflexivity|]. split; reflexivity. }
  exists reg, os, w', o. split; [exact Hr|]. split; [exact He|]. split; [exact Hp|]. split; [exact Ho|].
  assert (Forall valid_case [sample_case]) as Hv.
  { constructor; [|constructor]. split; [by vm_compute|]. split; [|discriminate].
    repeat apply Forall_cons_2; try apply Forall_nil_2.
    all: split; [apply (bool_decide_unpack _); vm_compute; exact I|].
    all: split_and!; simpl; try discriminate; eauto.
    all: intros [|]; discriminate. }
  destruct (@assertions_decide still _ _ _ _ _ _ _ _ _ reg [sample_case] sample_case sample_ctx task1 os w' Hr
    ltac:(apply NoDup_singleton) Hv ltac:(apply list_elem_of_singleton; reflexivity) He) as [_ Hall].
  destruct (Hall 3%nat _ o eq_refl Ho ltac:(discriminate)) as (_ & _ & _ & _ & _ & Hx).
  apply Hx. split; [reflexivity|]. eexists. reflexivity.
Defined.
End Evaluators.
