(* ===== verification/OpenAICompat.v ===== *)
(** * The OpenAI-compatible adapter ([adapters/openai_compatible.py])

    The chat-completions tool loop: one HTTP call per model turn with retries on
    429 only, a ledger of measured and assumed usage, tool execution with its
    lifecycle callbacks, and the mapping of HTTP outcomes to execution errors.
    Parameters: the transport, the clock difference of an HTTP date in a
    [Retry-After] header, and the handlers of the local tools. *)
From S2P Require Import Prelude PyFloat PyStr PyVal PyJson JsonParse Models Circuit Effects OpenAIValidate.
Import PyFloat PyStr PyVal PyJson JsonParse OpenAIValidate.

Module OpenAICompat.

Definition _MAX_RESPONSE_BYTES : Z := 2000000.
Definition UNKNOWN_CALL_OUTPUT_TOKENS : Z := 8192.
Definition PROVIDER_ERROR_CODE_KEY : string := "agentstorm.provider.error_code".
Definition FINISH_REASON_KEY : string := "agentstorm.provider.finish_reason".
Definition RATE_LIMIT_EVENTS_KEY : string := "agentstorm.provider.rate_limit_events".
Definition RATE_LIMIT_CODES_KEY : string := "agentstorm.provider.rate_limit_codes".

(** ** Allowlisted codes *)

(** [^[A-Za-z0-9_.-]{1,32}$] *)
Definition _PROVIDER_CODE (s : string) : bool :=
  negb (String.eqb s "") && (bytelen s <=? 32) && all_chars is_token_char s.

Definition allowlisted_provider_code (body : option dict) (secret : string) : string :=
  match body with
  | None => ""
  | Some b =>
      match get_none b "error" with
      | VDict error =>
          let keep text :=
            if negb (_PROVIDER_CODE text) then ""
            else if negb (String.eqb secret "") &&
                    (String.eqb text secret || ((8 <=? pylen secret) && contains secret text)) then ""
            else text in
          match get_none error "code" with
          | VInt z => keep (str_of_Z z)
          | VStr s => keep s
          | _ => ""
          end
      | _ => ""
      end
  end.

Definition _allowlisted_token (value : string) : string := if _PROVIDER_CODE value then value else "".

(** ** Retry delays *)

Section RetryAfter.
(** [(parsedate_to_datetime(text) - now).total_seconds()] *)
Context (http_date_delta : string -> option float).

Definition retry_after_seconds (header : option string) : option float :=
  match header with
  | None => None
  | Some raw =>
      let text := strip raw in
      if String.eqb text "" then None
      else
        let by_date := fmax (Fin 0) <$> http_date_delta text in
        match float_of_str text with
        | Some delta => if is_finite delta then Some (fmax (Fin 0) delta) else by_date
        | None => by_date
        end
  end.
End RetryAfter.

Definition retry_delay_seconds (failed_attempts : Z) (retry_after : option float) (initial maximum : float) : float :=
  let fallback := fmin maximum (fmul initial (of_Z (2 ^ Z.max 0 (failed_attempts - 1)))) in
  match retry_after with
  | None => fallback
  | Some r => fmin maximum (fmax (Fin 0) r)
  end.

(** ** The ledger *)

(** [_RateLimitEvent] *)
Record RateLimitEvent := mkRateLimit { re_status : Z; re_code : string }.

Record Ledger := mkLedger {
  lg_model_calls : Z;
  lg_input_tokens : Z;
  lg_output_tokens : Z;
  lg_usage_known : bool;
  lg_unknown_calls : Z;
  lg_rate_limit_events : list RateLimitEvent
}.

Definition new_ledger : Ledger := mkLedger 0 0 0 true 0 [].

Definition note_retryable (l : Ledger) (status : Z) (code : string) : Ledger :=
  mkLedger (lg_model_calls l) (lg_input_tokens l) (lg_output_tokens l) (lg_usage_known l) (lg_unknown_calls l)
    (lg_rate_limit_events l ++ [mkRateLimit status code]).

Definition add_usage (l : Ledger) (usage : option (Z * Z)) : Ledger :=
  match usage with
  | None => mkLedger (lg_model_calls l) (lg_input_tokens l) (lg_output_tokens l) false (lg_unknown_calls l)
              (lg_rate_limit_events l)
  | Some (i, o) => mkLedger (lg_model_calls l) (lg_input_tokens l + i) (lg_output_tokens l + o) (lg_usage_known l)
                     (lg_unknown_calls l) (lg_rate_limit_events l)
  end.

Definition add_model_call (l : Ledger) : Ledger :=
  mkLedger (lg_model_calls l + 1) (lg_input_tokens l) (lg_output_tokens l) (lg_usage_known l) (lg_unknown_calls l)
    (lg_rate_limit_events l).

Definition forget_usage (l : Ledger) : Ledger := add_usage l None.

Definition charge_unknown_call (l : Ledger) (input_tokens output_tokens : Z) : Ledger * bool :=
  let l' := mkLedger (lg_model_calls l) (lg_input_tokens l) (lg_output_tokens l) (lg_usage_known l)
              (lg_unknown_calls l + 1) (lg_rate_limit_events l) in
  if negb (lg_usage_known l) then (l', false)
  else (mkLedger (lg_model_calls l) (lg_input_tokens l + input_tokens) (lg_output_tokens l + output_tokens) true
          (lg_unknown_calls l + 1) (lg_rate_limit_events l), true).

Definition ledger_metadata (l : Ledger) : dict :=
  (if lg_unknown_calls l =? 0 then [] else [("agentstorm.usage.unknown_calls", VInt (lg_unknown_calls l))])
  ++ match lg_rate_limit_events l with
     | [] => []
     | events =>
         let codes := List.filter (fun c => negb (String.eqb c "")) (re_code <$> events) in
         [(RATE_LIMIT_EVENTS_KEY, VInt (Z.of_nat (length events)))]
         ++ match codes with [] => [] | _ => [(RATE_LIMIT_CODES_KEY, VList (VStr <$> codes))] end
     end.

Definition ledger_response (l : Ledger) (output : string) : AdapterResponse :=
  mkResponse output
    (if lg_usage_known l then Some (lg_input_tokens l) else None)
    (if lg_usage_known l then Some (lg_output_tokens l) else None)
    (Some (lg_model_calls l)) None (ledger_metadata l).

(** ** Errors *)

Definition with_metadata (r : AdapterResponse) (metadata : dict) : AdapterResponse :=
  match metadata with
  | [] => r
  | _ => mkResponse (ar_output r) (ar_input_tokens r) (ar_output_tokens r) (ar_model_call_count r)
           (ar_tool_call_count r) (dict_update (ar_metadata r) metadata)
  end.

Definition _error (category code failure_kind : string) (ambiguous safe_to_retry : bool) (l : Ledger)
    (usage_complete : bool) (metadata : dict) : ExecutionError :=
  mkExecutionError category code failure_kind ambiguous safe_to_retry
    (Some (with_metadata (ledger_response l "") metadata)) "" "" usage_complete [].

Definition _priced_unknown (l : Ledger) (code : string) (input_allowance output_allowance : Z) (failure_kind : string)
    (metadata : dict) : ExecutionError :=
  let '(l', usage_complete) := charge_unknown_call l input_allowance output_allowance in
  _error "provider" code failure_kind true false l' usage_complete metadata.

Definition _status_error (status : Z) (l : Ledger) (input_allowance output_allowance : Z) (body : option dict)
    (api_key : string) : ExecutionError :=
  let provider_code := allowlisted_provider_code body api_key in
  let metadata := if String.eqb provider_code "" then [] else [(PROVIDER_ERROR_CODE_KEY, VStr provider_code)] in
  if status =? 429 then _error "provider" "rate_limited" "provider" false true l (lg_usage_known l) metadata
  else if status =? 408 then _priced_unknown l "timeout" input_allowance output_allowance "timeout" metadata
  else if (300 <=? status) && (status <? 400) then
    _priced_unknown l "http_redirect" input_allowance output_allowance "provider" metadata
  else if (500 <=? status) && (status <=? 599) then
    _priced_unknown l "http_5xx" input_allowance output_allowance "provider" metadata
  else if (400 <=? status) && (status <=? 499) then
    _error "provider" "http_4xx" "provider" false false l (lg_usage_known l) metadata
  else _priced_unknown l "unknown_error" input_allowance output_allowance "provider" metadata.

Definition _output_allowance (fields : dict) : Z :=
  match get_or fields "max_tokens" (VInt UNKNOWN_CALL_OUTPUT_TOKENS) with
  | VInt z => if z <? 1 then UNKNOWN_CALL_OUTPUT_TOKENS else z
  | _ => UNKNOWN_CALL_OUTPUT_TOKENS
  end.

(** ** Parsing a completion *)

Definition _token_count (value : val) : option Z :=
  match value with
  | VInt z => if 0 <=? z then Some z else None
  | VFloat f =>
      if is_integer f && fle (Fin 0) f && fle f (of_Z (2 ^ 53)) then ftrunc f else None
  | _ => None
  end.

Definition _usage (value : val) : option (Z * Z) :=
  match value with
  | VDict d =>
      i ← _token_count (get_or d "prompt_tokens" (get_none d "input_tokens"));
      o ← _token_count (get_or d "completion_tokens" (get_none d "output_tokens"));
      Some (i, o)
  | _ => None
  end.

Fixpoint text_parts (l : list val) : option string :=
  match l with
  | [] => Some ""
  | VStr s :: l' => t ← text_parts l'; Some (s +:+ t)
  | VDict d :: l' =>
      match get_none d "text" with VStr s => t ← text_parts l'; Some (s +:+ t) | _ => None end
  | _ :: _ => None
  end.

Definition _message_text (value : val) : option string :=
  match value with VStr s => Some s | VList l => text_parts l | _ => None end.

(** The assistant message, its usage and its finish reason; [None] is the
    ValueError of a malformed completion. *)
Definition _parse_completion (body : option dict) : option (dict * option (Z * Z) * string) :=
  b ← body;
  match get_none b "choices" with
  | VList (VDict choice :: _) =>
      match get_none choice "message" with
      | VDict message =>
          finish ← match get_none choice "finish_reason" with
                   | VNone => Some ""
                   | VStr s => Some s
                   | _ => None
                   end;
          let assistant := [("role", VStr "assistant"); ("content", get_none message "content")] in
          match get_none message "tool_calls" with
          | VNone => Some (assistant, _usage (get_none b "usage"), finish)
          | VList calls => Some (assistant ++ [("tool_calls", VList calls)], _usage (get_none b "usage"), finish)
          | _ => None
          end
      | _ => None
      end
  | _ => None
  end.

Definition _parse_tool_call (call : val) : option (string * dict * string) :=
  match call with
  | VDict c =>
      match get_none c "function" with
      | VDict function =>
          match get_none function "name", get_none c "id" with
          | VStr name, VStr call_id =>
              if String.eqb name "" || String.eqb call_id "" then None
              else
                match get_or function "arguments" (VStr "{}") with
                | VStr s =>
                    match (if String.eqb s "" then Some (VDict []) else loads s) with
                    | Some (VDict arguments) => Some (name, arguments, call_id)
                    | _ => None
                    end
                | VDict arguments => Some (name, arguments, call_id)
                | _ => None
                end
          | _, _ => None
          end
      | _ => None
      end
  | _ => None
  end.
(** ** The adapter *)

Definition RETRYABLE_HTTP_STATUSES : list Z := [429].
Definition DEFAULT_HTTP_RETRY_ATTEMPTS : Z := 3.
Definition DEFAULT_HTTP_RETRY_INITIAL_SECONDS : float := of_ratio 1 2.
Definition DEFAULT_HTTP_RETRY_MAX_SECONDS : float := of_Z 8.
Definition UNKNOWN_CALL_INPUT_TOKENS : Z := 8192.

Record ChatTool := mkTool {
  ct_name : string;
  ct_description : string;
  ct_parameters : dict;
  ct_handler : dict -> M val
}.

Definition schema (t : ChatTool) : val :=
  VDict [("type", VStr "function");
         ("function", VDict [("name", VStr (ct_name t)); ("description", VStr (ct_description t));
                             ("parameters", VDict (ct_parameters t))])].

Record OpenAICompatibleAdapter := mkAdapter {
  oa_model : string;
  oa_url : string;
  oa_instructions : string;
  oa_tools : list ChatTool;
  oa_api_key : option string;
  oa_max_model_calls : Z;
  oa_extra : dict;
  oa_agent_name : string;
  oa_unknown_input_tokens : Z;
  oa_unknown_output_tokens : Z;
  oa_max_http_attempts : Z;
  oa_retry_initial : float;
  oa_retry_max : float
}.

Definition chat_completions_url (base_url : string) : string := rstrip_ascii "/" base_url +:+ "/chat/completions".

(** A value that [isinstance(v, (int, float))] accepts and that is not a bool. *)
Definition number_of (v : val) : option float :=
  match v with VInt z => Some (of_Z z) | VFloat f => Some f | _ => None end.

Definition bad_backoff : pyexn := ValueError "retry backoff must be non-negative and capped".

Definition retry_window (initial maximum : val) : pyres (float * float) :=
  match number_of initial, number_of maximum with
  | Some i, Some m =>
      if flt i (Fin 0) || flt m i || flt (of_Z MAX_HTTP_RETRY_WAIT_SECONDS) m then Err bad_backoff else Ok (i, m)
  | _, _ => Err bad_backoff
  end.

Definition valid_tool_names (tools : list ChatTool) : bool :=
  bool_decide (NoDup (ct_name <$> tools)) && forallb (fun t => negb (String.eqb (ct_name t) "")) tools.

Section Construct.
Context (netloc_nfkc_ok bracketed_host_ok : string -> bool).

(** [OpenAICompatibleAdapter.__init__] *)
Definition new_adapter (model base_url instructions : string) (tools : list ChatTool) (api_key : option string)
    (max_model_calls : Z) (request_timeout_seconds : float) (request_fields : val) (agent_name : string)
    (unknown_input_tokens max_http_attempts retry_initial retry_max : val) : pyres OpenAICompatibleAdapter :=
  validate_pinned_model model;;
  validate_base_url netloc_nfkc_ok bracketed_host_ok base_url;;
  guard (negb ((max_model_calls <? 1) || (32 <? max_model_calls)))
    (ValueError "max_model_calls must be between 1 and 32");;
  guard (negb (fle request_timeout_seconds (Fin 0))) (ValueError "request_timeout_seconds must be positive");;
  unknown ← match unknown_input_tokens with
            | VInt z => if z <? 1 then Err (ValueError "unknown_input_tokens must be a positive integer") else Ok z
            | _ => Err (ValueError "unknown_input_tokens must be a positive integer")
            end;
  attempts ← match max_http_attempts with
             | VInt z => if (1 <=? z) && (z <=? MAX_HTTP_RETRY_ATTEMPTS) then Ok z
                         else Err (ValueError "max_http_attempts must be between 1 and 16")
             | _ => Err (ValueError "max_http_attempts must be between 1 and 16")
             end;
  window ← retry_window retry_initial retry_max;
  extra ← validate_request_fields request_fields [];
  guard (valid_tool_names tools) (ValueError "tool names must be unique and non-empty");;
  Ok (mkAdapter model (chat_completions_url base_url) instructions tools api_key max_model_calls extra agent_name
        unknown (_output_allowance extra) attempts window.1 window.2).
End Construct.

(** ** One HTTP call *)

Record chat_request := mkChat { cq_url : string; cq_headers : list (string * string); cq_body : string }.

(** What the opener does with a request: a response (or an HTTPError, redirects
    included) with the [Retry-After] header and the bytes that were read, a
    timeout, or another failure of the connection. *)
Inductive http_outcome :=
| HResponse (status : Z) (retry_after : option string) (downloaded : string)
| HTimeout
| HFailure.

(** The body of a response, [None] when it is empty, too long, not UTF-8 or not
    a JSON object. *)
Definition decode_body (downloaded : string) : option dict :=
  if (_MAX_RESPONSE_BYTES <? bytelen downloaded) || String.eqb downloaded "" then None
  else if negb (String.eqb (decode_ignore downloaded) downloaded) then None
  else match loads downloaded with Some (VDict d) => Some d | _ => None end.

Section Adapter.
Context {env : Env} (transport : nat -> chat_request -> http_outcome) (http_date_delta : nat -> string -> option float).
Context (environ_key : string) (self : OpenAICompatibleAdapter).

Definition chat_headers (api_key : string) : list (string * string) :=
  [("Accept", "application/json"); ("Content-Type", "application/json"); ("User-Agent", "agentstorm-worker")]
  ++ (if String.eqb api_key "" then [] else [("Authorization", "Bearer " +:+ api_key)]).

Definition _unpriced (code : string) (ledger : Ledger) (failure_kind : string) : ExecutionError :=
  _priced_unknown ledger code (oa_unknown_input_tokens self) (oa_unknown_output_tokens self) failure_kind [].

(** [await asyncio.to_thread(self._post, ...)] *)
Definition _post (payload : dict) (api_key : string) (ledger : Ledger) : M (Z * option dict * option string) :=
  raw ← lift (dumps spaced (VDict payload));
  modify (log_event (THttp "POST" (oa_url self)));;
  index ← get_state w_pos;
  await_point;;
  match transport index (mkChat (oa_url self) (chat_headers api_key) raw) with
  | HResponse status retry_after downloaded => mret (status, decode_body downloaded, retry_after)
  | HTimeout => raise (EExec (_unpriced "timeout" ledger "timeout"))
  | HFailure => raise (EExec (_unpriced "connection_error" ledger "provider"))
  end.

Definition retryable (status : Z) : bool := existsb (Z.eqb status) RETRYABLE_HTTP_STATUSES.

Fixpoint post_loop (fuel : nat) (tries : Z) (payload : dict) (api_key : string) (ledger : Ledger) :
    M (Z * option dict * Ledger) :=
  match fuel with
  | O => diverge
  | S fuel' =>
      let tries := tries + 1 in
      '(status, body, headers) ← _post payload api_key ledger;
      if negb (retryable status) then mret (status, body, ledger)
      else
        let ledger := note_retryable ledger status (allowlisted_provider_code body api_key) in
        if oa_max_http_attempts self <=? tries then mret (status, body, ledger)
        else
          now ← get_state w_pos;
          sleep (retry_delay_seconds tries (retry_after_seconds (http_date_delta now) headers)
                   (oa_retry_initial self) (oa_retry_max self));;
          post_loop fuel' tries payload api_key ledger
  end.

(** The loop makes one try per round, at most [max_http_attempts] of them. *)
Definition _post_with_retry : dict -> string -> Ledger -> M (Z * option dict * Ledger) :=
  post_loop (Z.to_nat (oa_max_http_attempts self)) 0.

(** ** Tools *)

Definition model_behavior (ledger : Ledger) : exn :=
  EExec (_error "provider" "model_behavior" "provider" true false ledger (lg_usage_known ledger) []).

Definition tool_error (ledger : Ledger) : exn :=
  EExec (mkExecutionError "tool" "tool_error" "tool" false false (Some (ledger_response ledger "")) "" ""
           (lg_usage_known ledger) []).

Definition notify (lifecycle : option AgentLifecycle) (f : AgentLifecycle -> M unit) : M unit :=
  match lifecycle with Some lc => f lc | None => mret tt end.

(** [replace(event, result=result)] *)
Definition with_result (event : ToolLifecycleEvent) (result : val) : ToolLifecycleEvent :=
  mkToolEvent (te_invocation_id event) (te_name event) (te_tool_type event) (te_call_id event)
    (te_agent_name event) (te_arguments event) result.

Definition tool_json : dump_opts := mkDump "," ":" true true.

(** What the code does with an exception of the handler or of [json.dumps]:
    the error type it reports and the exception it raises. *)
Definition tool_failure (ledger : Ledger) (e : exn) : option (string * exn) :=
  match e with
  | EExec err => Some (ee_code err, e)
  | EPy (TypeError _) => Some ("model_behavior", model_behavior ledger)
  | ECancelled => None
  | _ => Some ("tool_error", tool_error ledger)
  end.

Definition call_tool (tool : ChatTool) (event : ToolLifecycleEvent) (arguments : dict)
    (lifecycle : option AgentLifecycle) (ledger : Ledger) : M (val * string) :=
  try_with (result ← ct_handler tool arguments;
            content ← lift (dumps tool_json result);
            mret (result, content))
    (fun e => match tool_failure ledger e with
              | Some (error_type, e') =>
                  Some (notify lifecycle (fun lc => tool_finished lc (with_result event VNone) error_type);; raise e')
              | None => None
              end).

Definition find_tool (name : string) : option ChatTool :=
  List.find (fun t => String.eqb (ct_name t) name) (oa_tools self).

Definition execute_one (call : val) (lifecycle : option AgentLifecycle) (ledger : Ledger) : M val :=
  match _parse_tool_call call with
  | None => raise (model_behavior ledger)
  | Some (name, arguments, call_id) =>
      match find_tool name with
      | None => raise (model_behavior ledger)
      | Some tool =>
          let event := mkToolEvent call_id name "function" (Some call_id) (Some (oa_agent_name self))
                         (VDict arguments) VNone in
          notify lifecycle (fun lc => tool_started lc event);;
          '(result, content) ← call_tool tool event arguments lifecycle ledger;
          notify lifecycle (fun lc => tool_finished lc (with_result event result) "");;
          mret (VDict [("role", VStr "tool"); ("tool_call_id", VStr call_id); ("content", VStr content)])
      end
  end.

(** The messages with one tool message per call, and the number of calls. *)
Fixpoint _execute_tools (tool_calls messages : list val) (lifecycle : option AgentLifecycle) (ledger : Ledger) :
    M (Z * list val) :=
  match tool_calls with
  | [] => mret (0, messages)
  | call :: calls =>
      message ← execute_one call lifecycle ledger;
      '(executed, messages) ← _execute_tools calls (messages ++ [message]) lifecycle ledger;
      mret (executed + 1, messages)
  end.

(** ** The tool loop *)

Definition chat_payload (messages : list val) : dict :=
  let payload := dict_update [("model", VStr (oa_model self)); ("messages", VList messages); ("stream", VBool false)]
                   (oa_extra self) in
  match oa_tools self with
  | [] => payload
  | tools => dict_set (dict_set payload "tools" (VList (schema <$> tools))) "tool_choice" (VStr "auto")
  end.

Definition max_turns_exceeded (ledger : Ledger) : exn :=
  EExec (_error "evaluation" "max_turns_exceeded" "assertion" false false ledger (lg_usage_known ledger) []).

(** The end of a run: the final message as a response or an error. *)
Definition final_response (message : dict) (finish : string) (ledger : Ledger) (tool_count : Z) : result exn AdapterResponse :=
  let content := _message_text (get_none message "content") in
  if String.eqb finish "length" && String.eqb (strip (default "" content)) "" then
    Err (EExec (_error "provider" "output_truncated" "provider" false false ledger (lg_usage_known ledger)
                  [(FINISH_REASON_KEY, VStr finish)]))
  else
    match content with
    | None => Err (model_behavior ledger)
    | Some text =>
        let r := ledger_response ledger text in
        let metadata := if String.eqb finish "" then ar_metadata r
                        else dict_set (ar_metadata r) FINISH_REASON_KEY (VStr finish) in
        Ok (mkResponse text (ar_input_tokens r) (ar_output_tokens r) (ar_model_call_count r) (Some tool_count) metadata)
    end.

Definition tool_calls_of (message : dict) : list val :=
  match get_none message "tool_calls" with VList l => l | _ => [] end.

Definition malformed_response (ledger : Ledger) : exn :=
  EExec (_error "provider" "malformed_response" "provider" true false (forget_usage ledger) false []).

Definition resolved_key : string := strip (default environ_key (oa_api_key self)).

Fixpoint run_loop (fuel : nat) (messages : list val) (ledger : Ledger) (tool_count : Z)
    (lifecycle : option AgentLifecycle) : M AdapterResponse :=
  match fuel with
  | O => diverge
  | S fuel' =>
      if negb (lg_model_calls ledger <? oa_max_model_calls self) then raise (max_turns_exceeded ledger)
      else
        '(status, body, ledger) ← _post_with_retry (chat_payload messages) resolved_key ledger;
        if negb (status =? 200) then
          raise (EExec (_status_error status ledger (oa_unknown_input_tokens self) (oa_unknown_output_tokens self)
                          body resolved_key))
        else
          let ledger := add_model_call ledger in
          match _parse_completion body with
          | None => raise (malformed_response ledger)
          | Some (message, usage, finish_reason) =>
              let ledger := add_usage ledger usage in
              let finish := _allowlisted_token finish_reason in
              match tool_calls_of message with
              | [] => match final_response message finish ledger tool_count with Ok r => mret r | Err e => raise e end
              | calls =>
                  if oa_max_model_calls self <=? lg_model_calls ledger then raise (max_turns_exceeded ledger)
                  else
                    '(executed, messages) ← _execute_tools calls (messages ++ [VDict message]) lifecycle ledger;
                    run_loop fuel' messages ledger (tool_count + executed) lifecycle
              end
          end
  end.

Definition first_messages (case : TestCase) : list val :=
  (if String.eqb (oa_instructions self) "" then []
   else [VDict [("role", VStr "system"); ("content", VStr (oa_instructions self))]])
  ++ [VDict [("role", VStr "user"); ("content", VStr (tc_prompt case))]].

(** Every round counts one model call, and there are at most
    [max_model_calls]: the fuel is one more. *)
Definition run (case : TestCase) (lifecycle : option AgentLifecycle) : M AdapterResponse :=
  run_loop (S (Z.to_nat (oa_max_model_calls self))) (first_messages case) new_ledger 0 lifecycle.
End Adapter.
(** ** Requests made and outcomes

    [spends m Q]: from every state [m] sends some number [n] of chat requests
    and ends with an outcome [o] such that [Q o n]. *)
Section Spends.
Context (url : string).

Definition is_chat_call (e : tevent) : bool :=
  match e with THttp method u => String.eqb method "POST" && String.eqb u url | _ => false end.

Definition requests (w : World) : nat := length (List.filter is_chat_call (w_trace w)).

Definition spends {A} (m : M A) (Q : outcome A -> nat -> Prop) : Prop :=
  forall w, exists n, requests (m w).2 = (requests w + n)%nat /\ Q (m w).1 n.

(** Ends and sends no chat request. *)
Definition quiet {A} (m : M A) : Prop := spends m (fun o n => o <> Diverge /\ n = 0%nat).

Lemma spends_mono {A} (m : M A) (P Q : outcome A -> nat -> Prop) :
  spends m P -> (forall o n, P o n -> Q o n) -> spends m Q.
Proof. intros Hm H w. destruct (Hm w) as (n & ? & ?). eauto. Qed.

Lemma spends_bind {A B} (m : M A) (k : A -> M B) (P : outcome A -> nat -> Prop) (Q : outcome B -> nat -> Prop) :
  spends m P -> (forall n, P Diverge n -> Q Diverge n) -> (forall e n, P (Raise e) n -> Q (Raise e) n) ->
  (forall a n, P (Ret a) n -> spends (k a) (fun o n' => Q o (n + n')%nat)) -> spends (m ≫= k) Q.
Proof.
  intros Hm Hd He Hk w. destruct (Hm w) as (n & Hn & HP). unfold mbind, M_bind.
  destruct (m w) as [[a|e|] w1]; simpl in *; [|eauto..].
  destruct (Hk a n HP w1) as (n' & Hn' & HQ). exists (n + n')%nat. split; [lia|done].
Qed.

Lemma quiet_ret {A} (a : A) : quiet (mret a).
Proof. intros w. exists 0%nat. split; [simpl; lia|done]. Qed.

Lemma quiet_raise {A} e : quiet (raise e : M A).
Proof. intros w. exists 0%nat. split; [simpl; lia|done]. Qed.

Lemma quiet_lift {A} (r : pyres A) : quiet (lift r).
Proof. destruct r; [apply quiet_ret|apply quiet_raise]. Qed.

Lemma quiet_get {A} (f : World -> A) : quiet (get_state f).
Proof. intros w. exists 0%nat. split; [simpl; lia|done]. Qed.

Lemma quiet_await {env : Env} : quiet await_point.
Proof.
  intros w. exists 0%nat. unfold await_point. cbv zeta. destruct (sn_cancel _); [by split; [simpl; unfold requests; simpl; lia|]|].
  destruct (past_deadline _ _); (split; [unfold requests; simpl; lia|done]).
Qed.

Lemma quiet_bind {A B} (m : M A) (k : A -> M B) : quiet m -> (forall a, quiet (k a)) -> quiet (m ≫= k).
Proof.
  intros Hm Hk. eapply spends_bind; [exact Hm|by intros ? []|by intros ? ? [_ ->]|].
  intros a n [_ ->]. apply Hk.
Qed.

Lemma quiet_try {A} (m : M A) h : quiet m -> (forall e k, h e = Some k -> quiet k) -> quiet (try_with m h).
Proof.
  intros Hm Hh w. destruct (Hm w) as (n & Hn & Hd & ->). unfold try_with.
  destruct (m w) as [[a|e|] w1]; simpl in *; [by exists 0%nat| |done].
  destruct (h e) as [k|] eqn:E; [|by exists 0%nat].
  destruct (Hh e k E w1) as (n & Hn' & Hd' & ->). exists 0%nat. split; [lia|done].
Qed.

(** A step that spends nothing, in front of the rest. *)
Lemma spends_quiet {A B} (m : M A) (k : A -> M B) (Q : outcome B -> nat -> Prop) :
  quiet m -> (forall e, Q (Raise e) 0%nat) -> (forall a, spends (k a) Q) -> spends (m ≫= k) Q.
Proof.
  intros Hm He Hk. eapply spends_bind; [exact Hm|by intros ? []| |].
  - intros e n [_ ->]. apply He.
  - intros a n [_ ->]. apply Hk.
Qed.

Lemma spends_ret {A} (a : A) (Q : outcome A -> nat -> Prop) : Q (Ret a) 0%nat -> spends (mret a) Q.
Proof. intros H w. exists 0%nat. split; [simpl; lia|done]. Qed.

Lemma spends_raise {A} e (Q : outcome A -> nat -> Prop) : Q (Raise e) 0%nat -> spends (raise e) Q.
Proof. intros H w. exists 0%nat. split; [simpl; lia|done]. Qed.
End Spends.

#[export] Hint Resolve quiet_ret quiet_raise quiet_lift quiet_get quiet_await : effects.

Section Budget.
Context {env : Env} (transport : nat -> chat_request -> http_outcome) (http_date_delta : nat -> string -> option float).
Context (environ_key : string) (self : OpenAICompatibleAdapter).

Abbreviation url := (oa_url self).
Abbreviation attempts := (Z.to_nat (oa_max_http_attempts self)).

(** One POST is one request, unless the payload cannot be encoded. *)
Lemma post_spends payload key ledger :
  spends url (_post transport self payload key ledger)
    (fun o n => o <> Diverge /\ (n <= 1)%nat /\ (forall a, o = Ret a -> n = 1%nat)).
Proof.
  unfold _post. apply spends_quiet; [apply quiet_lift|by intros e; split_and!; try lia|intros raw].
  eapply (spends_bind _ _ _ (fun o n => o = Ret tt /\ n = 1%nat)).
  - intros w. exists 1%nat. split; [|done]. unfold requests. simpl. rewrite String.eqb_refl. simpl. lia.
  - by intros n [].
  - by intros e n [].
  - intros [] n [_ ->]. apply spends_quiet; [apply quiet_get|by intros e; split_and!|intros i].
    apply spends_quiet; [apply quiet_await|by intros e; split_and!|intros _].
    destruct (transport _ _); [apply spends_ret|apply spends_raise..]; by split_and!.
Qed.

(** What a sequence of tries does to the ledger: it records the rate limits. *)
Definition only_rate_limits (l l' : Ledger) (k : nat) : Prop :=
  exists events, length events = k /\ Forall (fun ev => re_status ev = 429) events /\
    l' = mkLedger (lg_model_calls l) (lg_input_tokens l) (lg_output_tokens l) (lg_usage_known l) (lg_unknown_calls l)
           (lg_rate_limit_events l ++ events).

Lemma only_rate_limits_refl l : only_rate_limits l l 0.
Proof. exists []. split_and!; [done|constructor|]. rewrite app_nil_r. by destruct l. Qed.

Lemma only_rate_limits_note l code l' k :
  only_rate_limits (note_retryable l 429 code) l' k -> only_rate_limits l l' (S k).
Proof.
  intros (ev & <- & Hf & ->). exists (mkRateLimit 429 code :: ev). split_and!; [done|by constructor|].
  unfold note_retryable. simpl. by rewrite <- app_assoc.
Qed.

Lemma retryable_429 status : retryable status = (status =? 429).
Proof. unfold retryable, RETRYABLE_HTTP_STATUSES. simpl. by rewrite orb_false_r. Qed.

Lemma post_loop_spends fuel tries payload key ledger :
  (0 < fuel)%nat -> oa_max_http_attempts self = tries + Z.of_nat fuel ->
  spends url (post_loop transport http_date_delta self fuel tries payload key ledger)
    (fun o n => o <> Diverge /\ (n <= fuel)%nat /\
       (forall status body ledger', o = Ret (status, body, ledger') ->
          (0 < n)%nat /\
          if status =? 429 then n = fuel /\ only_rate_limits ledger ledger' n
          else only_rate_limits ledger ledger' (n - 1))).
Proof.
  revert tries ledger. induction fuel as [|fuel IH]; intros tries ledger H0 Hm; [lia|]. cbn [post_loop]. cbv zeta.
  eapply spends_bind; [apply post_spends|by intros n []|intros e n (_ & ? & _); split_and!; [done|lia|done]|].
  intros [[status body] headers] n (_ & _ & Hn). rewrite (Hn _ eq_refl), retryable_429. clear n Hn.
  destruct (status =? 429) eqn:Es; simpl.
  - apply Z.eqb_eq in Es as ->. destruct (oa_max_http_attempts self <=? tries + 1) eqn:E.
    + apply spends_ret. split_and!; [done|lia|]. intros ? ? ? [= <- <- <-]. bool_simpl. simpl.
      split_and!; [lia|lia|]. eapply only_rate_limits_note, only_rate_limits_refl.
    + bool_simpl. apply spends_quiet; [apply quiet_get|intros e; split_and!; [done|lia|done]|intros now].
      apply spends_quiet; [apply quiet_await|intros e; split_and!; [done|lia|done]|intros _].
      eapply spends_mono; [apply (IH (tries + 1)); lia|].
      intros o n (Hd & Hle & Hr). split_and!; [done|lia|]. intros st b l' ->.
      destruct (Hr _ _ _ eq_refl) as [Hpos Hst]. split; [lia|].
      destruct (st =? 429).
      * destruct Hst as [-> Hl]. split; [lia|]. by apply only_rate_limits_note in Hl.
      * apply only_rate_limits_note in Hst. by replace (n - 0)%nat with (S (n - 1)) by lia.
  - apply spends_ret. split_and!; [done|lia|]. intros ? ? ? [= <- <- <-]. rewrite Es.
    split; [lia|]. apply only_rate_limits_refl.
Qed.

(** C13.  One chat call always ends; it sends at most [max_http_attempts]
    requests, and at least one when it returns.  It is given up on a 429 only when every allowed
    try was answered 429; any other status ends it at once.  The ledger changes
    only by one rate-limit event per 429: no model call and no token is
    counted for a retried request. *)
Theorem chat_call_retries payload key ledger :
  1 <= oa_max_http_attempts self ->
  spends url (_post_with_retry transport http_date_delta self payload key ledger)
    (fun o n => o <> Diverge /\ (n <= attempts)%nat /\
       (forall status body ledger', o = Ret (status, body, ledger') ->
          (0 < n)%nat /\
          if status =? 429 then n = attempts /\ only_rate_limits ledger ledger' n
          else only_rate_limits ledger ledger' (n - 1))).
Proof. intros H. apply post_loop_spends; lia. Qed.
(** ** The tool loop *)

(** The lifecycle callbacks and the tool handlers end and do not call the
    provider themselves. *)
Definition quiet_lifecycle (lc : AgentLifecycle) : Prop :=
  (forall e, quiet url (tool_started lc e)) /\ (forall e t, quiet url (tool_finished lc e t)).

Definition quiet_tools : Prop := Forall (fun t => forall arguments, quiet url (ct_handler t arguments)) (oa_tools self).

Section Quiet.
Context (lifecycle : option AgentLifecycle).
Hypothesis lifecycle_quiet : forall lc, lifecycle = Some lc -> quiet_lifecycle lc.
Hypothesis tools_quiet : quiet_tools.

Lemma quiet_notify f : (forall lc, quiet_lifecycle lc -> quiet url (f lc)) -> quiet url (notify lifecycle f).
Proof. intros H. destruct lifecycle as [lc|]; simpl; [by apply H, lifecycle_quiet|apply quiet_ret]. Qed.

Lemma find_tool_quiet name t : find_tool self name = Some t -> forall arguments, quiet url (ct_handler t arguments).
Proof.
  intros H. apply find_some in H as [H _]. apply list_elem_of_In in H.
  exact (proj1 (Forall_forall _ _) tools_quiet t H).
Qed.

Lemma quiet_execute_one call ledger : quiet url (execute_one self call lifecycle ledger).
Proof.
  unfold execute_one. destruct (_parse_tool_call call) as [[[name arguments] id]|]; [|apply quiet_raise].
  destruct (find_tool self name) as [t|] eqn:Et; [|apply quiet_raise]. cbv zeta.
  apply quiet_bind; [apply quiet_notify; intros lc [H _]; apply H|intros _].
  apply quiet_bind.
  - apply quiet_try.
    + apply quiet_bind; [by eapply find_tool_quiet|intros r]. apply quiet_bind; [apply quiet_lift|intros; apply quiet_ret].
    + intros e k. destruct (tool_failure ledger e) as [[ty e']|]; [|done]. intros [= <-].
      apply quiet_bind; [apply quiet_notify; intros lc [_ H]; apply H|intros; apply quiet_raise].
  - intros [r c]. apply quiet_bind; [apply quiet_notify; intros lc [_ H]; apply H|intros; apply quiet_ret].
Qed.

Lemma quiet_execute_tools calls messages ledger : quiet url (_execute_tools self calls messages lifecycle ledger).
Proof.
  revert messages. induction calls as [|c calls IH]; intros messages; simpl; [apply quiet_ret|].
  apply quiet_bind; [apply quiet_execute_one|intros m]. apply quiet_bind; [apply IH|intros []; apply quiet_ret].
Qed.

(** The outcome of a run that starts with [calls] counted model calls. *)
Definition run_bound (calls : Z) (o : outcome AdapterResponse) (n : nat) : Prop :=
  o <> Diverge /\ Z.of_nat n <= (oa_max_model_calls self - calls) * oa_max_http_attempts self /\
  (forall r, o = Ret r -> exists k, ar_model_call_count r = Some k /\
     calls < k <= oa_max_model_calls self /\ k - calls <= Z.of_nat n).

Lemma run_bound_raise calls e n :
  Z.of_nat n <= (oa_max_model_calls self - calls) * oa_max_http_attempts self -> run_bound calls (Raise e) n.
Proof. intros H. split; [done|]. by split. Qed.

Lemma final_response_calls message finish ledger tools r :
  final_response message finish ledger tools = Ok r -> ar_model_call_count r = Some (lg_model_calls ledger).
Proof. unfold final_response. repeat case_match; intros H'; by simplify_eq/=. Qed.

Lemma run_loop_bound fuel messages ledger tools :
  1 <= oa_max_http_attempts self -> lg_model_calls ledger <= oa_max_model_calls self ->
  oa_max_model_calls self - lg_model_calls ledger < Z.of_nat fuel ->
  spends url (run_loop transport http_date_delta environ_key self fuel messages ledger tools lifecycle)
    (run_bound (lg_model_calls ledger)).
Proof.
  intros Ha. revert messages ledger tools. induction fuel as [|fuel IH]; intros messages ledger tools Hc Hf; [lia|].
  cbn [run_loop]. destruct (lg_model_calls ledger <? oa_max_model_calls self) eqn:El; simpl; bool_simpl;
    [|apply spends_raise, run_bound_raise; nia].
  eapply spends_bind; [apply post_loop_spends; lia|by intros n []| |].
  { intros e n (_ & Hn & _). apply run_bound_raise. nia. }
  intros [[status body] l'] n (_ & Hn & Hr). destruct (Hr _ _ _ eq_refl) as [Hpos Hl].
  assert (lg_model_calls l' = lg_model_calls ledger) as Hcalls.
  { destruct (status =? 429); [destruct Hl as [_ Hl]|]; destruct Hl as (ev & _ & _ & ->); done. }
  destruct (status =? 200); simpl; [|apply spends_raise, run_bound_raise; nia].
  destruct (_parse_completion body) as [[[message usage] reason]|]; [|apply spends_raise, run_bound_raise; nia].
  cbv zeta. set (l2 := add_usage (add_model_call l') usage).
  assert (lg_model_calls l2 = lg_model_calls ledger + 1) as H2.
  { subst l2. destruct usage as [[]|]; simpl; lia. }
  destruct (tool_calls_of message) as [|call calls].
  - destruct (final_response _ _ _ _) as [r|e] eqn:Er; [|apply spends_raise, run_bound_raise; nia].
    apply spends_ret. split_and!; [done|nia|]. intros r' [= <-]. apply final_response_calls in Er.
    exists (lg_model_calls l2). split_and!; [done|lia|lia|lia].
  - destruct (oa_max_model_calls self <=? lg_model_calls l2) eqn:Em; [apply spends_raise, run_bound_raise; nia|].
    apply Z.leb_gt in Em. apply spends_quiet; [exact (quiet_execute_tools (call :: calls) _ l2)|intros e; apply run_bound_raise; nia|].
    intros [executed messages']. eapply spends_mono; [apply IH; lia|]. rewrite H2.
    intros o n' (Hd & Hn' & Ho). split_and!; [done|nia|].
    intros r Hret. destruct (Ho r Hret) as (k & ? & ? & ?). exists k. split_and!; [done|lia|lia|lia].
Qed.
End Quiet.

(** C12.  A run of the adapter always ends.  It sends at most
    [max_model_calls * max_http_attempts] requests, whatever the provider
    answers; and the model-call count of a response is at least one, at most
    [max_model_calls] and never more than the requests that were sent. *)
Theorem run_within_budget case lifecycle :
  1 <= oa_max_http_attempts self -> 0 <= oa_max_model_calls self ->
  (forall lc, lifecycle = Some lc -> quiet_lifecycle lc) -> quiet_tools ->
  spends url (run transport http_date_delta environ_key self case lifecycle) (run_bound 0).
Proof. intros. apply (run_loop_bound lifecycle); simpl; try done; lia. Qed.
End Budget.
(** ** What an error keeps *)

(** Statuses after which the provider may have executed the request. *)
Definition maybe_executed (status : Z) : bool :=
  negb ((400 <=? status) && (status <=? 499)) || (status =? 408).

(** An error of the adapter, seen from the ledger it is built from. *)
Definition carries (e : ExecutionError) (l : Ledger) : Prop :=
  exists r, ee_response e = Some r /\ ar_model_call_count r = Some (lg_model_calls l) /\
    ar_input_tokens r = (if lg_usage_known l then Some (lg_input_tokens l) else None) /\
    ar_output_tokens r = (if lg_usage_known l then Some (lg_output_tokens l) else None) /\
    dict_get (ar_metadata r) "agentstorm.usage.unknown_calls" =
      (if lg_unknown_calls l =? 0 then None else Some (VInt (lg_unknown_calls l))).

Lemma dict_set_other d k k' v : k <> k' -> dict_get (dict_set d k v) k' = dict_get d k'.
Proof.
  intros Hk. induction d as [|[k0 v0] d IH]; simpl.
  - destruct (String.eqb_spec k' k); [congruence|done].
  - destruct (String.eqb_spec k k0) as [<-|]; simpl; [|by rewrite IH].
    destruct (String.eqb_spec k' k); [congruence|done].
Qed.

Lemma ledger_unknown l :
  dict_get (ledger_metadata l) "agentstorm.usage.unknown_calls" =
  (if lg_unknown_calls l =? 0 then None else Some (VInt (lg_unknown_calls l))).
Proof. unfold ledger_metadata. repeat case_match; done. Qed.

Lemma error_carries category code kind amb safe l complete metadata :
  metadata = [] \/ (exists v, metadata = [(PROVIDER_ERROR_CODE_KEY, v)]) ->
  carries (_error category code kind amb safe l complete metadata) l.
Proof.
  intros [->|[v ->]]; eexists; (split; [reflexivity|]); split_and!; try done; simpl.
  - apply ledger_unknown.
  - unfold dict_update. simpl. rewrite dict_set_other by done. apply ledger_unknown.
Qed.

(** The ledger after a request whose fate is unknown. *)
Definition charged (l : Ledger) (input output : Z) : Ledger := (charge_unknown_call l input output).1.

Lemma priced_unknown_eq l code input output kind metadata :
  _priced_unknown l code input output kind metadata =
  _error "provider" code kind true false (charged l input output) (lg_usage_known l) metadata.
Proof. unfold _priced_unknown, charged, charge_unknown_call. by destruct (lg_usage_known l). Qed.

(** C14.  Pricing of an HTTP status.  Only a 429 is safe to retry.  An error is
    ambiguous exactly when the provider may have executed the request (not a
    4xx, or 408); then, and only then, the call is charged: one more unknown
    call and, unless an earlier call reported no usage, the two allowances on
    top of the measured tokens.  The failed request is never counted as a
    model call. *)
Theorem status_error_pricing status l input output body key :
  let e := _status_error status l input output body key in
  let l' := if maybe_executed status then charged l input output else l in
  ee_category e = "provider" /\ ee_safe_to_retry e = (status =? 429) /\
  ee_ambiguous e = maybe_executed status /\ ee_usage_complete e = lg_usage_known l /\
  carries e l' /\ lg_model_calls l' = lg_model_calls l /\
  lg_unknown_calls (charged l input output) = lg_unknown_calls l + 1 /\
  (lg_usage_known l = true -> lg_input_tokens (charged l input output) = lg_input_tokens l + input /\
     lg_output_tokens (charged l input output) = lg_output_tokens l + output).
Proof.
  cbv zeta.
  assert (lg_model_calls (charged l input output) = lg_model_calls l /\
    lg_unknown_calls (charged l input output) = lg_unknown_calls l + 1 /\
    (lg_usage_known l = true -> lg_input_tokens (charged l input output) = lg_input_tokens l + input /\
     lg_output_tokens (charged l input output) = lg_output_tokens l + output)) as (Hm & Hu & Ht).
  { unfold charged, charge_unknown_call. destruct (lg_usage_known l); simpl; done. }
  set (metadata := if String.eqb (allowlisted_provider_code body key) "" then []
                   else [(PROVIDER_ERROR_CODE_KEY, VStr (allowlisted_provider_code body key))]).
  assert (metadata = [] \/ exists v, metadata = [(PROVIDER_ERROR_CODE_KEY, v)]) as Hd
    by (subst metadata; case_match; eauto).
  unfold _status_error. fold metadata. rewrite !priced_unknown_eq.
  assert (maybe_executed status = negb ((status =? 429) || (negb (status =? 408) &&
            negb ((300 <=? status) && (status <? 400)) && negb ((500 <=? status) && (status <=? 599)) &&
            ((400 <=? status) && (status <=? 499))))) as Hx.
  { unfold maybe_executed. repeat case_match; bool_simpl; simpl; try done; lia. }
  rewrite Hx. repeat case_match; simpl; split_and!; try done; try (by apply error_carries).
Qed.

(** ** The wait before a retry *)

Lemma fmax0 x : fle (Fin 0) (fmax (Fin 0) x) = true.
Proof. by apply fmax_ge_l. Qed.

Lemma fmax0_id r : fle (Fin 0) r = true -> fmax (Fin 0) r = r.
Proof.
  unfold fmax. destruct (flt (Fin 0) r) eqn:E; [done|]. destruct r as [k| | |]; simpl in *; try done.
  intros. bool_simpl. f_equal. lia.
Qed.

Lemma not_nan_le x y : fle x y = true -> x <> NaN /\ y <> NaN.
Proof. by destruct x, y. Qed.

(** [min(maximum, x)] stays in the window for every [x] that is not negative. *)
Lemma fmin_window m x :
  fle (Fin 0) m = true -> (x = NaN \/ fle (Fin 0) x = true) ->
  fle (Fin 0) (fmin m x) = true /\ fle (fmin m x) m = true.
Proof.
  intros Hm Hx. destruct (not_nan_le _ _ Hm) as [_ Hn]. split; [|by apply fmin_fle_l].
  unfold fmin. destruct (flt x m) eqn:E; [|done]. destruct Hx as [->|]; [done|done].
Qed.

Lemma of_units_nonneg n d : 0 < d -> 0 <= n -> fle (Fin 0) (of_units n d) = true.
Proof.
  intros Hd Hn. rewrite <- (of_units_exact 0 d); [|done|by apply repr53_small|done]. apply of_units_mono; nia.
Qed.

Lemma fmul_nonneg x y : fle (Fin 0) x = true -> fle (Fin 0) y = true -> fmul x y = NaN \/ fle (Fin 0) (fmul x y) = true.
Proof.
  destruct x as [a| | |], y as [b| | |]; simpl; intros Hx Hy; try done; bool_simpl; auto.
  - right. apply of_units_nonneg; [apply one_k_pos|nia].
  - unfold inf_of_sign. repeat case_match; bool_simpl; auto; lia.
  - unfold inf_of_sign. repeat case_match; bool_simpl; auto; lia.
Qed.

Lemma retry_after_nonneg delta header r : retry_after_seconds delta header = Some r -> fle (Fin 0) r = true.
Proof.
  unfold retry_after_seconds. destruct header as [raw|]; [|done]. case_match; [done|].
  assert (forall s r', fmax (Fin 0) <$> delta s = Some r' -> fle (Fin 0) r' = true) as Hdate.
  { intros s r' H'. destruct (delta s); simplify_eq/=. apply fmax0. }
  destruct (float_of_str _) as [f|]; [destruct (is_finite f)|]; [|apply Hdate..].
  intros [= <-]. apply fmax0.
Qed.

(** The wait before a retry is never negative and never above the
    configured maximum, which the constructor keeps at 300 seconds or less; a
    [Retry-After] up to the maximum is honoured exactly. *)
Theorem retry_delay_bounded tries delta header initial maximum i m :
  retry_window initial maximum = Ok (i, m) -> i <> NaN -> m <> NaN ->
  let d := retry_delay_seconds tries (retry_after_seconds delta header) i m in
  fle (Fin 0) d = true /\ fle d m = true /\ fle d (of_Z 300) = true /\
  (forall r, retry_after_seconds delta header = Some r -> fle r m = true -> fle d r = true /\ fle r d = true).
Proof.
  intros Hw Hi Hm d. unfold retry_window in Hw.
  destruct (number_of initial), (number_of maximum); simplify_eq/=. case_match; simplify_eq/=. bool_simpl.
  assert (fle (Fin 0) i = true) as Hi0 by (by apply flt_total).
  assert (fle i m = true) as Him by (by apply flt_total).
  assert (fle m (of_Z 300) = true) as Hm300.
  { apply flt_total; [apply of_units_not_nan|done|done]. }
  pose proof (fle_trans _ _ _ Hi0 Him) as Hm0.
  assert (fle (Fin 0) d = true /\ fle d m = true) as [Hd Hdm].
  { subst d. unfold retry_delay_seconds. destruct (retry_after_seconds delta header) as [r|] eqn:Er.
    - apply fmin_window; [done|right; apply fmax0].
    - apply fmin_window; [done|]. apply fmul_nonneg; [done|]. 
      pose proof one_k_pos. pose proof (pow2_pos (Z.max 0 (tries - 1)) ltac:(lia)). apply of_units_nonneg; nia. }
  split_and!; [done|done|by eapply fle_trans|].
  intros r Hr Hrm. subst d. rewrite Hr. unfold retry_delay_seconds. apply retry_after_nonneg in Hr.
  destruct (not_nan_le _ _ Hrm) as [Hrn _].
  rewrite (fmax0_id r Hr). unfold fmin. destruct (flt r m) eqn:E; [by split; apply fle_refl|].
  split; [by apply flt_total|done].
Qed.

(** ** Codes of the provider *)

Lemma contains_empty p : p <> "" -> contains p "" = false.
Proof. by destruct p. Qed.

Lemma pylen_empty : pylen "" = 0.
Proof. done. Qed.

(** What is kept of a provider's error code is a short token, and it never
    shows the API key: it is not the key, and it does not contain a key of
    eight or more characters. *)
Theorem provider_code_safe body secret :
  let code := allowlisted_provider_code body secret in
  all_chars is_token_char code = true /\ bytelen code <= 32 /\
  (secret = "" \/ code <> secret) /\ (pylen secret < 8 \/ contains secret code = false).
Proof.
  cbv zeta.
  assert (forall text, let keep := if negb (_PROVIDER_CODE text) then ""
            else if negb (String.eqb secret "") &&
                    (String.eqb text secret || ((8 <=? pylen secret) && contains secret text)) then ""
            else text in
    all_chars is_token_char keep = true /\ bytelen keep <= 32 /\
    (secret = "" \/ keep <> secret) /\ (pylen secret < 8 \/ contains secret keep = false)) as Hkeep.
  { assert (all_chars is_token_char "" = true /\ bytelen "" <= 32 /\
      (secret = "" \/ "" <> secret) /\ (pylen secret < 8 \/ contains secret "" = false)) as Hempty.
    { split_and!; [done|done|..].
      - destruct secret; auto.
      - destruct secret; [left; by rewrite pylen_empty|by right]. }
    intros text. cbv zeta. destruct (_PROVIDER_CODE text) eqn:Ec; [|exact Hempty]. simpl negb. cbv iota.
    destruct (negb (String.eqb secret "") && _)%bool eqn:Es; [exact Hempty|].
    unfold _PROVIDER_CODE in Ec. bool_simpl.
    split_and!; [done|done|..]; apply andb_false_iff in Es as [Es|Es]; bool_simpl.
    - by left.
    - right. done.
    - left. subst secret. by rewrite pylen_empty.
    - match goal with H : (_ && _)%bool = false |- _ => apply andb_false_iff in H as [H|H] end; bool_simpl; auto. }
  unfold allowlisted_provider_code. destruct body as [b|]; [|exact (Hkeep "")].
  destruct (get_none b "error"); try exact (Hkeep ""). 
  destruct (get_none d "code"); try exact (Hkeep ""); apply Hkeep.
Qed.
(** ** The adapter as the runner sees it *)

Section Instance.
Context {env : Env} (transport : nat -> chat_request -> http_outcome) (http_date_delta : nat -> string -> option float).
Context (environ_key : string) (self : OpenAICompatibleAdapter).
Hypothesis handlers_total : Forall (fun t => forall arguments, total (ct_handler t arguments)) (oa_tools self).
Hypothesis attempts_positive : 1 <= oa_max_http_attempts self.
Hypothesis calls_nonneg : 0 <= oa_max_model_calls self.

Lemma total_notify lifecycle f :
  (forall lc, lifecycle = Some lc -> total (f lc)) -> total (notify lifecycle f).
Proof. intros H. destruct lifecycle as [lc|]; simpl; [by apply H|done]. Qed.

Lemma total_execute_tools lifecycle ledger calls messages :
  (forall lc, lifecycle = Some lc -> lifecycle_total lc) ->
  total (_execute_tools self calls messages lifecycle ledger).
Proof.
  intros Hlc. revert messages. induction calls as [|c calls IH]; intros messages; simpl; [done|].
  apply total_bind; [|intros m; apply total_bind; [apply IH|by intros []]].
  unfold execute_one. destruct (_parse_tool_call c) as [[[name arguments] id]|]; [|done].
  destruct (find_tool self name) as [t|] eqn:Et; [|done]. cbv zeta.
  apply total_bind; [apply total_notify; intros lc H; apply (Hlc lc H)|intros _].
  apply total_bind; [|intros [r txt]; apply total_bind; [apply total_notify; intros lc H; apply (Hlc lc H)|done]].
  apply total_try.
  - apply total_bind; [|intros r; apply total_bind; [apply total_lift|done]].
    apply find_some in Et as [Et _]. apply list_elem_of_In in Et.
    by apply (proj1 (Forall_forall _ _) handlers_total t Et).
  - intros e k. destruct (tool_failure ledger e) as [[ty e']|]; [|done]. intros [= <-].
    apply total_bind; [apply total_notify; intros lc H; apply (Hlc lc H)|done].
Qed.

(** A chat call ends and leaves the number of model calls alone. *)
Lemma chat_call_ends payload key ledger :
  total (_post_with_retry transport http_date_delta self payload key ledger) /\
  post (_post_with_retry transport http_date_delta self payload key ledger)
    (fun r => lg_model_calls r.2 = lg_model_calls ledger).
Proof.
  pose proof (post_loop_spends transport http_date_delta self (Z.to_nat (oa_max_http_attempts self)) 0
    payload key ledger ltac:(lia) ltac:(lia)) as H.
  split.
  - intros w. destruct (H w) as (n & _ & Hd & _). exact Hd.
  - intros w [[status body] l'] w' Hr. destruct (H w) as (n & _ & _ & _ & Hl).
    unfold _post_with_retry in Hr. rewrite Hr in Hl. destruct (Hl _ _ _ eq_refl) as [_ Hs]. simpl.
    destruct (status =? 429); [destruct Hs as [_ Hs]|]; destruct Hs as (ev & _ & _ & ->); done.
Qed.

Lemma total_run_loop fuel messages ledger tools lifecycle :
  (forall lc, lifecycle = Some lc -> lifecycle_total lc) ->
  oa_max_model_calls self - lg_model_calls ledger < Z.of_nat fuel -> (0 < fuel)%nat ->
  total (run_loop transport http_date_delta environ_key self fuel messages ledger tools lifecycle).
Proof.
  intros Hlc. revert messages ledger tools. induction fuel as [|fuel IH]; intros messages ledger tools Hf H0; [lia|].
  cbn [run_loop]. destruct (lg_model_calls ledger <? oa_max_model_calls self) eqn:El; [|done]. cbn [negb].
  apply Z.ltb_lt in El.
  destruct (chat_call_ends (chat_payload self messages) (resolved_key environ_key self) ledger) as [Ht Hp].
  eapply total_bind_post; [exact Ht|exact Hp|]. intros [[status body] l'] Hl. cbn [snd] in Hl.
  destruct (negb (status =? 200)); [done|].
  destruct (_parse_completion body) as [[[message usage] reason]|]; [|done]. cbv zeta.
  set (l2 := add_usage (add_model_call l') usage).
  assert (lg_model_calls l2 = lg_model_calls ledger + 1) by (subst l2; destruct usage as [[]|]; simpl; lia).
  destruct (tool_calls_of message) as [|call calls]; [by destruct (final_response _ _ _ _)|].
  destruct (oa_max_model_calls self <=? lg_model_calls l2) eqn:Em; [done|]. apply Z.leb_gt in Em.
  apply total_bind; [by apply total_execute_tools|]. intros [executed messages']. apply IH; lia.
Qed.

Lemma chat_run_total case lifecycle :
  (forall lc, lifecycle = Some lc -> lifecycle_total lc) ->
  total (run transport http_date_delta environ_key self case lifecycle).
Proof. intros H. apply total_run_loop; [done| |]; simpl; lia. Qed.

#[global] Instance openai_compatible_adapter : AgentAdapter := {|
  adapter_run := run transport http_date_delta environ_key self;
  adapter_total := chat_run_total
|}.
End Instance.

(** ** A tool turn and a rate limit on concrete inputs *)

Definition sample_tool : ChatTool := mkTool "lookup" "Looks up a key" [] (fun arguments => mret (VDict arguments)).

Definition sample_adapter : OpenAICompatibleAdapter :=
  mkAdapter "model-1" "https://llm/v1/chat/completions" "" [sample_tool] (Some "secret-key") 2 [] "agent" 8192 8192
    3 (of_ratio 1 2) (of_Z 8).

Definition ja (k v : string) : string := qt k +:+ ":" +:+ v.

Definition tool_turn : string :=
  "{" +:+ ja "choices" ("[{" +:+ ja "message" ("{" +:+ ja "tool_calls" ("[{" +:+ ja "id" (qt "c1") +:+ "," +:+
  ja "function" ("{" +:+ ja "name" (qt "lookup") +:+ "}") +:+ "}]") +:+ "}") +:+ "}]") +:+ "," +:+
  ja "usage" ("{" +:+ ja "prompt_tokens" "10" +:+ "," +:+ ja "completion_tokens" "4" +:+ "}") +:+ "}".

Definition final_turn : string :=
  "{" +:+ ja "choices" ("[{" +:+ ja "message" ("{" +:+ ja "content" (qt "done") +:+ "}") +:+ "}]") +:+ "," +:+
  ja "usage" ("{" +:+ ja "prompt_tokens" "20" +:+ "," +:+ ja "completion_tokens" "5" +:+ "}") +:+ "}".

(** The first request is rate limited, the second asks for a tool, the rest are final. *)
Definition sample_transport (index : nat) (r : chat_request) : http_outcome :=
  match index with
  | 0%nat => HResponse 429 (Some "1") "{}"
  | 1%nat | 2%nat => HResponse 200 None tool_turn
  | _ => HResponse 200 None final_turn
  end.

Definition calm : Env := fun _ => mkSnapshot (Fin 0) false false (fun c => c) false.
Definition start_task : World := mkTask 0 None false (Circuit.circuit_init None) [] 0 [] [] false None false.
Definition sample_case : TestCase := mkTestCase "case-1" "hello" None [] [].

Example sample_run :
  (@run calm sample_transport (fun _ _ => None) "" sample_adapter sample_case None start_task).1 =
  Ret (mkResponse "done" (Some 30) (Some 9) (Some 2) (Some 1)
         [("agentstorm.provider.rate_limit_events", VInt 1)]).
Proof. vm_compute. reflexivity. Qed.

Lemma chat_call_retries_witness :
  exists n, requests (oa_url sample_adapter)
      (@_post_with_retry calm sample_transport (fun _ _ => None) sample_adapter [] "secret-key" new_ledger start_task).2
      = n /\ (n <= 3)%nat.
Proof.
  destruct (@chat_call_retries calm sample_transport (fun _ _ => None) sample_adapter [] "secret-key" new_ledger
    ltac:(simpl; lia) start_task) as (n & Hn & _ & Hle & _).
  exists n. split; [exact Hn|exact Hle].
Defined.

Lemma run_within_budget_witness :
  exists n, requests (oa_url sample_adapter)
      (@run calm sample_transport (fun _ _ => None) "" sample_adapter sample_case None start_task).2 = n /\
    Z.of_nat n <= 6.
Proof.
  destruct (@run_within_budget calm sample_transport (fun _ _ => None) "" sample_adapter sample_case None
    ltac:(simpl; lia) ltac:(simpl; lia) ltac:(intros lc H; discriminate H)
    ltac:(constructor; [intros arguments; apply quiet_ret|constructor]) start_task) as (n & Hn & _ & Hle & _).
  exists n. split; [exact Hn|simpl in Hle; lia].
Defined.

Lemma retry_delay_bounded_witness :
  let d := retry_delay_seconds 2 (retry_after_seconds (fun _ => None) (Some "1")) (of_ratio 1 2) (of_Z 8) in
  fle (Fin 0) d = true /\ fle d (of_Z 8) = true.
Proof.
  destruct (retry_delay_bounded 2 (fun _ => None) (Some "1") (VFloat (of_ratio 1 2)) (VInt 8) (of_ratio 1 2) (of_Z 8))
    as (H1 & H2 & _); [vm_compute; reflexivity|apply of_units_not_nan|apply of_units_not_nan|].
  split; [exact H1|exact H2].
Defined.
End OpenAICompat.
