(* ===== verification/Adapters.v ===== *)
(** * The adapter factory and the fake adapter ([adapters/__init__.py], [adapters/fake.py])

    [create_adapter] turns an accepted target configuration into an adapter.
    What importing a plugin or the Agents SDK does is a parameter. *)
From S2P Require Import Prelude PyFloat PyStr PyVal PyJson PyDecimal Models Circuit Effects OpenAIValidate Config OpenAICompat.
Import PyFloat PyStr PyVal PyJson PyDecimal OpenAIValidate OpenAICompat.

Module Adapters.

(** ** [FakeAdapter] *)

Definition fake_tool_event (case : TestCase) (result : val) : ToolLifecycleEvent :=
  mkToolEvent "fake-echo" "fake.echo" "function" None (Some "fake-router") (VDict [("text", VStr (tc_prompt case))]) result.

Definition fake_run {env : Env} (delay_seconds : float) (case : TestCase) (lifecycle : option AgentLifecycle) :
    M AdapterResponse :=
  notify lifecycle (fun lc => tool_started lc (fake_tool_event case VNone));;
  sleep delay_seconds;;
  let output := "fake response: " +:+ tc_prompt case in
  notify lifecycle (fun lc =>
    tool_finished lc (fake_tool_event case (VDict [("text", VStr output)])) "";;
    handed_off lc (mkHandoff "fake-router" "fake-responder"));;
  mret (mkResponse output (Some 11) (Some 7) (Some 1) (Some 1) []).

Lemma fake_run_total {env : Env} delay case lifecycle :
  (forall lc, lifecycle = Some lc -> lifecycle_total lc) -> total (fake_run delay case lifecycle).
Proof.
  intros H. unfold fake_run. cbv zeta.
  apply total_bind; [apply total_notify; intros lc Hlc; apply (H lc Hlc)|intros _].
  apply total_bind; [apply total_await|intros _]. apply total_bind; [|done].
  apply total_notify. intros lc Hlc. destruct (H lc Hlc) as (_ & Hf & Hh). apply total_bind; auto.
Qed.

(** The default delay is a millisecond. *)
#[global] Instance fake_adapter {env : Env} : AgentAdapter := {|
  adapter_run := fake_run (of_ratio 1 1000);
  adapter_total := fake_run_total (of_ratio 1 1000)
|}.

(** ** [create_adapter] *)

(** What importing the module, getting the factory and calling it does. *)
Inductive plugin_load :=
| PImportFailed
| PNotCallable
| PFactoryFailed
| PBuilt (has_async_run : bool).

Inductive adapter :=
| AFake
| AOpenAICompatible (a : OpenAICompatibleAdapter)
| AOpenAIAgents (model base_url : string)
| APlugin (module_name function_name : string).

Section Factory.
Context (netloc_nfkc_ok bracketed_host_ok : string -> bool).
Context (plugin : string -> string -> plugin_load) (agents_installed : bool).

Definition _create_plugin_adapter (entrypoint : string) : result exn adapter :=
  match split_first ":" entrypoint with
  | (_, None) => Err (EAdapterPlugin "adapter plugin import failed")
  | (m, Some f) =>
      match plugin m f with
      | PImportFailed => Err (EAdapterPlugin "adapter plugin import failed")
      | PNotCallable => Err (EAdapterPlugin "adapter plugin factory is not callable")
      | PFactoryFailed => Err (EAdapterPlugin "adapter plugin factory failed")
      | PBuilt true => Ok (APlugin m f)
      | PBuilt false => Err (EAdapterPlugin "adapter plugin factory returned an invalid adapter")
      end
  end.

(** The keyword arguments for the number of tries and the longest wait, with
    the constructor's defaults where the configuration sets none. *)
Definition http_retry_adapter_kwargs (attempts max_wait_seconds : option Z) : pyres (val * val) :=
  a ← match attempts with
      | Some n => z ← validate_http_retry_attempts (VInt n); Ok (VInt z)
      | None => Ok (VInt DEFAULT_HTTP_RETRY_ATTEMPTS)
      end;
  m ← match max_wait_seconds with
      | Some n => z ← validate_http_retry_max_wait_seconds (VInt n); Ok (VFloat (of_Z z))
      | None => Ok (VFloat DEFAULT_HTTP_RETRY_MAX_SECONDS)
      end;
  Ok (a, m).

Definition py {A} (r : pyres A) : result exn A := match r with Ok a => Ok a | Err e => Err (EPy e) end.

Definition openai_compatible_of (t : TargetConfig) : pyres OpenAICompatibleAdapter :=
  fields ← validate_request_fields (VDict (tg_request_fields t)) ["temperature"; "max_tokens"];
  fields ← match tg_max_output_tokens t with
           | Some n => z ← validate_max_output_tokens (VInt n); Ok (dict_set fields "max_tokens" (VInt z))
           | None => Ok fields
           end;
  kwargs ← http_retry_adapter_kwargs (tg_http_retry_attempts t) (tg_http_retry_max_wait_seconds t);
  new_adapter netloc_nfkc_ok bracketed_host_ok (tg_model t) (tg_base_url t) "" [] None 8 (of_Z 120) (VDict fields)
    "openai-compatible" (VInt UNKNOWN_CALL_INPUT_TOKENS) kwargs.1 (VFloat DEFAULT_HTTP_RETRY_INITIAL_SECONDS) kwargs.2.

Definition create_adapter (t : TargetConfig) : result exn adapter :=
  if negb (String.eqb (tg_adapter_entrypoint t) "") then _create_plugin_adapter (tg_adapter_entrypoint t)
  else if String.eqb (tg_provider t) "fake" then Ok AFake
  else if String.eqb (tg_provider t) "openai-compatible" then py (a ← openai_compatible_of t; Ok (AOpenAICompatible a))
  else if String.eqb (tg_provider t) "openai-agents" then
    if String.eqb (tg_model t) "" then Err (EPy (ValueError "target.model is required for provider openai-agents"))
    else if agents_installed then Ok (AOpenAIAgents (tg_model t) (tg_base_url t))
    else Err (EPy (RuntimeError "openai-agents is not installed; install agentstorm-worker[openai]"))
  else Err (EPy (ValueError ("unsupported provider: " +:+ tg_provider t))).

(** ** From an accepted configuration to an adapter *)

Lemma request_field_weaken blocked blocked' kv :
  (forall k, k ∈ blocked' -> k ∈ blocked) ->
  validate_request_field blocked kv = Ok tt -> validate_request_field blocked' kv = Ok tt.
Proof.
  intros Hsub. destruct kv as [k v]. unfold validate_request_field, mbind, result_bind.
  destruct (guard (_REQUEST_FIELD_KEY k) _); [|done].
  destruct (existsb (String.eqb k) blocked') eqn:E'; destruct (existsb (String.eqb k) blocked) eqn:E; try done.
  apply existsb_exists in E' as (k' & Hin & Heq). apply String.eqb_eq in Heq as <-.
  assert (existsb (String.eqb k) blocked = true); [|congruence].
  apply existsb_exists. exists k. split; [|apply String.eqb_refl].
  apply list_elem_of_In, Hsub. by apply list_elem_of_In.
Qed.

Lemma dict_set_new d k v : k ∉ d.*1 -> dict_set d k v = d ++ [(k, v)].
Proof.
  induction d as [|[k0 v0] d IH]; intros Hk; simpl; [done|]. csimpl in Hk. apply not_elem_of_cons in Hk as [H1 H2].
  destruct (String.eqb_spec k k0); [done|]. by rewrite IH.
Qed.

(** The token cap is itself an acceptable request field. *)
Lemma max_tokens_field n : 1 <= n <= 131072 ->
  validate_request_field (_RESERVED_REQUEST_FIELDS ++ []) ("max_tokens", VInt n) = Ok tt.
Proof.
  intros Hn. unfold validate_request_field. simpl.
  destruct (str_of_Z_digits n) as (_ & _ & _ & Hl); [lia|]. unfold mbind, result_bind, guard. simpl.
  assert (bytelen (str_of_Z n) <=? _MAX_REQUEST_FIELD_BYTES = true) as ->; [|done].
  apply Z.leb_le. specialize (Hl 6). unfold _MAX_REQUEST_FIELD_BYTES. lia.
Qed.

Lemma fields_revalidate fields :
  validate_request_fields (VDict fields) ["temperature"; "max_tokens"] = Ok fields ->
  mapM_result (validate_request_field (_RESERVED_REQUEST_FIELDS ++ [])) fields = Ok (replicate (length fields) tt) /\
  "max_tokens" ∉ fields.*1 /\ (length fields <= 16)%nat.
Proof.
  intros H. pose proof (Config.request_fields_valid _ _ _ H) as [Hk Hlen]. split_and!; [| |done].
  - unfold validate_request_fields in H. Config.ok_inv H. apply mapM_result_Ok.
    match goal with Hm : mapM_result _ _ = Ok _ |- _ => apply mapM_result_Ok in Hm; revert Hm end. clear.
    induction 1 as [|kv [] l us Hkv Hm IH]; constructor; [|done].
    eapply request_field_weaken; [|exact Hkv]. intros k. rewrite app_nil_r, elem_of_app. auto.
  - intros Hin. rewrite Forall_forall in Hk. destruct (Hk _ Hin) as [Hn _]. apply Hn.
    rewrite elem_of_app, !elem_of_cons. auto.
Qed.
Lemma request_fields_idem v reject d :
  validate_request_fields v reject = Ok d -> validate_request_fields (VDict d) reject = Ok d.
Proof.
  intros H. destruct v as [| | | | | |d'|]; try done; [by injection H as <-|].
  pose proof H as H'. unfold validate_request_fields in H'. Config.ok_inv H'. exact H.
Qed.

(** What the configuration loader has checked of an OpenAI-compatible target. *)
Definition checked_target (t : TargetConfig) : Prop :=
  validate_pinned_model (tg_model t) = Ok tt /\
  validate_base_url netloc_nfkc_ok bracketed_host_ok (tg_base_url t) = Ok tt /\
  validate_request_fields (VDict (tg_request_fields t)) ["temperature"; "max_tokens"] = Ok (tg_request_fields t) /\
  (forall n, tg_max_output_tokens t = Some n -> 1 <= n <= 131072) /\
  (forall n, tg_http_retry_attempts t = Some n -> 1 <= n <= 16) /\
  (forall n, tg_http_retry_max_wait_seconds t = Some n -> 1 <= n <= 300).

Lemma loaded_target re_ok cr document c :
  Config.load_run_config re_ok cr netloc_nfkc_ok bracketed_host_ok document = Ok c ->
  tg_provider (rc_target c) = "openai-compatible" -> checked_target (rc_target c).
Proof.
  unfold Config.load_run_config, as_dict. intros H Hp. destruct document as [| | | | | |raw|]; try done.
  unfold mbind at 1, result_bind at 1 in H. unfold Config.check_config in H. Config.ok_inv H; cbn [rc_target] in *; try done.
  match goal with Ht : Config.target_config _ _ = Ok _ |- _ =>
    pose proof (Config.target_valid _ _ _ Ht) as (_ & Hm & Ha & Hw & _); unfold Config.target_config in Ht;
    Config.ok_inv Ht; cbn [tg_request_fields] end.
  match goal with Hr : Config._request_fields _ = Ok _ |- _ => apply request_fields_idem in Hr end.
  repeat match goal with u : unit |- _ => destruct u end.
  unfold checked_target, validate_pinned_model in *. by split_and!.
Qed.

Lemma half_exact : of_ratio 1 2 = Fin (2 ^ 1073).
Proof. vm_compute. reflexivity. Qed.

Lemma window_ok z : 1 <= z <= 300 ->
  retry_window (VFloat DEFAULT_HTTP_RETRY_INITIAL_SECONDS) (VFloat (of_Z z)) = Ok (DEFAULT_HTTP_RETRY_INITIAL_SECONDS, of_Z z).
Proof.
  intros Hz. unfold retry_window, DEFAULT_HTTP_RETRY_INITIAL_SECONDS, MAX_HTTP_RETRY_WAIT_SECONDS. cbn [number_of].
  rewrite half_exact, (of_Z_exact z), (of_Z_exact 300) by lia. cbn [flt].
  assert (one_k = 2 * 2 ^ 1073) as E by (apply Z.eqb_eq; vm_compute; reflexivity).
  pose proof (pow2_pos 1073 ltac:(lia)) as Hp. rewrite E. generalize dependent (2 ^ 1073). intros p _ Hp.
  rewrite (proj2 (Z.ltb_ge p 0)), (proj2 (Z.ltb_ge (z * (2 * p)) p)), (proj2 (Z.ltb_ge (300 * (2 * p)) (z * (2 * p)))) by nia.
  done.
Qed.

Lemma kwargs_ok attempts wait :
  (forall n, attempts = Some n -> 1 <= n <= 16) -> (forall n, wait = Some n -> 1 <= n <= 300) ->
  http_retry_adapter_kwargs attempts wait = Ok (VInt (default 3 attempts), VFloat (of_Z (default 8 wait))) /\
  1 <= default 3 attempts <= 16 /\ 1 <= default 8 wait <= 300.
Proof.
  intros Ha Hw. split_and!.
  2-5: destruct attempts as [a|]; destruct wait as [z|]; simpl; try specialize (Ha _ eq_refl); try specialize (Hw _ eq_refl); lia.
  unfold http_retry_adapter_kwargs, validate_http_retry_attempts, validate_http_retry_max_wait_seconds, validate_range,
    MAX_HTTP_RETRY_ATTEMPTS, MAX_HTTP_RETRY_WAIT_SECONDS.
  destruct attempts as [a|]; [destruct (Ha a eq_refl); rewrite (proj2 (Z.leb_le 1 a)), (proj2 (Z.leb_le a 16)) by lia|];
    (destruct wait as [z|]; [destruct (Hw z eq_refl); rewrite (proj2 (Z.leb_le 1 z)), (proj2 (Z.leb_le z 300)) by lia|]); done.
Qed.
Definition full_fields (t : TargetConfig) : bool :=
  is_some (tg_max_output_tokens t) && (length (tg_request_fields t) =? 16)%nat.

(** The fields the constructor receives. *)
Definition sent_fields (t : TargetConfig) : dict :=
  tg_request_fields t ++ match tg_max_output_tokens t with Some n => [("max_tokens", VInt n)] | None => [] end.

Lemma dict_get_absent d k : k ∉ d.*1 -> dict_get d k = None.
Proof.
  induction d as [|[k0 v0] d IH]; intros Hk; simpl; [done|]. csimpl in Hk. apply not_elem_of_cons in Hk as [H1 H2].
  destruct (String.eqb_spec k k0); [done|auto].
Qed.

Lemma sent_allowance t : checked_target t ->
  _output_allowance (sent_fields t) = default UNKNOWN_CALL_OUTPUT_TOKENS (tg_max_output_tokens t).
Proof.
  intros (_ & _ & Hf & Hm & _). apply fields_revalidate in Hf as (_ & Hn & _).
  assert (forall e, dict_get (tg_request_fields t ++ e) "max_tokens" = dict_get e "max_tokens") as Hget.
  { revert Hn. clear. induction (tg_request_fields t) as [|[k v] d IH]; intros Hn e; cbn [app dict_get]; [done|].
    csimpl in Hn. apply not_elem_of_cons in Hn as [H1 H2].
    destruct (String.eqb_spec "max_tokens" k); [done|auto]. }
  unfold _output_allowance, sent_fields, get_or. rewrite Hget.
  destruct (tg_max_output_tokens t) as [n|]; cbn; [|done].
  specialize (Hm n eq_refl). destruct (n <? 1) eqn:E; [bool_simpl; lia|done].
Qed.

Lemma sent_validates t : checked_target t ->
  validate_request_fields (VDict (sent_fields t)) [] =
  if full_fields t then Err (ValueError "target.requestFields must contain at most 16 entries") else Ok (sent_fields t).
Proof.
  intros (_ & _ & Hf & Hm & _). apply fields_revalidate in Hf as (Hv & _ & Hlen).
  assert (mapM_result (validate_request_field (_RESERVED_REQUEST_FIELDS ++ [])) (sent_fields t) =
          Ok (replicate (length (sent_fields t)) tt)) as Hs.
  { unfold sent_fields. rewrite length_app, replicate_add. apply mapM_result_Ok, Forall2_app; [by apply mapM_result_Ok|].
    destruct (tg_max_output_tokens t) as [n|]; [|constructor]. constructor; [apply max_tokens_field; auto|constructor]. }
  unfold validate_request_fields, mbind, result_bind, guard, _MAX_REQUEST_FIELDS. rewrite Hs.
  assert ((Z.of_nat (length (sent_fields t)) <=? 16) = negb (full_fields t)) as ->; [|by destruct (full_fields t)].
  unfold full_fields, sent_fields. rewrite length_app. destruct (tg_max_output_tokens t) as [n|]; simpl.
  - destruct (Nat.eqb_spec (length (tg_request_fields t)) 16); simpl; [apply Z.leb_gt|apply Z.leb_le]; lia.
  - apply Z.leb_le. lia.
Qed.

Lemma built_fields t : checked_target t ->
  (fields ← validate_request_fields (VDict (tg_request_fields t)) ["temperature"; "max_tokens"];
   match tg_max_output_tokens t with
   | Some n => z ← validate_max_output_tokens (VInt n); Ok (dict_set fields "max_tokens" (VInt z))
   | None => Ok fields
   end) = Ok (sent_fields t).
Proof.
  intros (_ & _ & Hf & Hm & _). rewrite Hf. apply fields_revalidate in Hf as (_ & Hn & _).
  unfold mbind, result_bind, sent_fields. destruct (tg_max_output_tokens t) as [n|]; [|by rewrite app_nil_r].
  specialize (Hm n eq_refl). unfold validate_max_output_tokens, validate_range, _MAX_OUTPUT_TOKENS.
  rewrite (proj2 (Z.leb_le 1 n)), (proj2 (Z.leb_le n 131072)) by lia. cbn [andb]. by rewrite dict_set_new.
Qed.

(** The adapter of a checked target. *)
Definition built (t : TargetConfig) (a z : Z) : OpenAICompatibleAdapter :=
  mkAdapter (tg_model t) (chat_completions_url (tg_base_url t)) "" [] None 8 (sent_fields t) "openai-compatible" 8192
    (default UNKNOWN_CALL_OUTPUT_TOKENS (tg_max_output_tokens t)) a DEFAULT_HTTP_RETRY_INITIAL_SECONDS (of_Z z).

Lemma constructor_ok t a z : checked_target t -> 1 <= a <= 16 -> 1 <= z <= 300 ->
  new_adapter netloc_nfkc_ok bracketed_host_ok (tg_model t) (tg_base_url t) "" [] None 8 (of_Z 120)
    (VDict (sent_fields t)) "openai-compatible" (VInt UNKNOWN_CALL_INPUT_TOKENS) (VInt a)
    (VFloat DEFAULT_HTTP_RETRY_INITIAL_SECONDS) (VFloat (of_Z z)) =
  if full_fields t then Err (ValueError "target.requestFields must contain at most 16 entries") else Ok (built t a z).
Proof.
  intros Hc Ha Hz. pose proof (sent_validates t Hc) as Hs. pose proof (sent_allowance t Hc) as Ho.
  destruct Hc as (Hm & Hb & _). unfold new_adapter. rewrite Hm, Hb, Hs, window_ok by done.
  rewrite (of_Z_exact 120) by lia. unfold mbind, result_bind, guard, MAX_HTTP_RETRY_ATTEMPTS.
  rewrite (proj2 (Z.leb_le 1 a)), (proj2 (Z.leb_le a 16)) by lia.
  pose proof one_k_pos. cbn [fle]. rewrite (proj2 (Z.leb_gt (120 * one_k) 0)) by lia.
  destruct (full_fields t); [done|]. cbn -[of_Z one_k sent_fields _output_allowance]. rewrite Ho. done.
Qed.

End Factory.
(** ** Concrete targets *)

Definition target_document (fields : dict) : val :=
  VDict [("target", VDict [("provider", VStr "openai-compatible"); ("model", VStr "m-1");
                           ("baseURL", VStr "https://llm.example/v1"); ("maxTokens", VInt 512); ("httpRetryAttempts", VInt 5);
                           ("requestFields", VDict fields)])].

Definition sixteen_fields : dict :=
  (fun s => (s, VInt 1)) <$> ["a"; "b"; "c"; "d"; "e"; "f"; "g"; "h"; "i"; "j"; "k"; "l"; "m"; "n"; "o"; "p"].

Definition yes (_ : string) : bool := true.
Definition load (fields : dict) : pyres RunConfig :=
  Config.load_run_config yes (fun _ => "") yes yes (target_document fields).

Definition create (c : RunConfig) : result exn adapter := create_adapter yes yes (fun _ _ => PImportFailed) false (rc_target c).


(** The refused case is reachable: the loader accepts this document. *)
Lemma sixteen_fields_refused :
  exists c, load sixteen_fields = Ok c /\
    create c = Err (EPy (ValueError "target.requestFields must contain at most 16 entries")).
Proof. eexists. split; [vm_compute; reflexivity|]. vm_compute. reflexivity. Qed.
End Adapters.
