(* ===== verification/AgentsSDK.v ===== *)
(** * The OpenAI Agents adapter ([adapters/openai_agents.py])

    The Agents SDK is a parameter: one run of it is a finite sequence of hook
    calls with awaits between them and an end, a result or an exception.
    Modelled are the lifecycle hooks, the adapter's [run] and its constructor
    with the options it hands to the SDK. *)
From S2P Require Import Prelude PyFloat PyStr PyVal Models Circuit Effects.
Import PyFloat PyStr PyVal.

Module AgentsSDK.

(** An object of the SDK: its identity, its [name] attribute (None when it has
    none), the name of its class and, for a context, its [tool_call_id]. *)
Record sdk_object := mkObject { ob_id : nat; ob_name : val; ob_class : string; ob_tool_call_id : val }.

Definition _optional_string (value : val) : option string :=
  match value with VStr s => if String.eqb s "" then None else Some s | _ => None end.

Definition _named (value : sdk_object) : string := default (ob_class value) (_optional_string (ob_name value)).

(** ** The lifecycle hooks *)

(** [self._sequence] (the next number) and [self._tools]. *)
Record hooks := mkHooks { hk_sequence : Z; hk_tools : list (nat * nat * ToolLifecycleEvent) }.

Definition new_hooks : hooks := mkHooks 1 [].

(** A call on the lifecycle. *)
Inductive action :=
| Started (e : ToolLifecycleEvent)
| Finished (e : ToolLifecycleEvent)
| HandedOff (e : HandoffLifecycleEvent).

(** The event of a tool, which may take the next number of the sequence. *)
Definition tool_event (sequence : Z) (context agent tool : sdk_object) : ToolLifecycleEvent * Z :=
  let call_id := _optional_string (ob_tool_call_id context) in
  let '(invocation_id, sequence) :=
    match call_id with
    | Some id => (id, sequence)
    | None => ("local-tool-" +:+ str_of_Z sequence, sequence + 1)
    end in
  (mkToolEvent invocation_id (_named tool) "function" call_id (Some (_named agent)) VNone VNone, sequence).

Definition key_of (context tool : sdk_object) : nat * nat := (ob_id context, ob_id tool).

Definition drop_key (key : nat * nat) (tools : list (nat * nat * ToolLifecycleEvent)) :=
  filter (fun kv => kv.1 <> key) tools.

Definition find_key (key : nat * nat) (tools : list (nat * nat * ToolLifecycleEvent)) : option ToolLifecycleEvent :=
  snd <$> List.find (fun kv => bool_decide (kv.1 = key)) tools.

Definition on_tool_start (h : hooks) (context agent tool : sdk_object) : hooks * list action :=
  let '(event, sequence) := tool_event (hk_sequence h) context agent tool in
  (mkHooks sequence ((key_of context tool, event) :: drop_key (key_of context tool) (hk_tools h)), [Started event]).

Definition with_result (event : ToolLifecycleEvent) (result : val) : ToolLifecycleEvent :=
  mkToolEvent (te_invocation_id event) (te_name event) (te_tool_type event) (te_call_id event) (te_agent_name event)
    (te_arguments event) result.

Definition on_tool_end (h : hooks) (context agent tool : sdk_object) (result : val) : hooks * list action :=
  let key := key_of context tool in
  match find_key key (hk_tools h) with
  | Some event => (mkHooks (hk_sequence h) (drop_key key (hk_tools h)), [Finished (with_result event result)])
  | None =>
      let '(event, sequence) := tool_event (hk_sequence h) context agent tool in
      (mkHooks sequence (hk_tools h), [Started event; Finished (with_result event result)])
  end.

Definition on_handoff (h : hooks) (from_agent to_agent : sdk_object) : hooks * list action :=
  (h, [HandedOff (mkHandoff (_named from_agent) (_named to_agent))]).

(** What the SDK does during a run. *)
Inductive sdk_call :=
| CallToolStart (context agent tool : sdk_object)
| CallToolEnd (context agent tool : sdk_object) (result : val)
| CallHandoff (from_agent to_agent : sdk_object).

Definition hook (h : hooks) (call : sdk_call) : hooks * list action :=
  match call with
  | CallToolStart context agent tool => on_tool_start h context agent tool
  | CallToolEnd context agent tool result => on_tool_end h context agent tool result
  | CallHandoff from_agent to_agent => on_handoff h from_agent to_agent
  end.

Fixpoint hook_actions (h : hooks) (calls : list sdk_call) : list action :=
  match calls with
  | [] => []
  | call :: rest => let '(h', actions) := hook h call in actions ++ hook_actions h' rest
  end.

(** ** [OpenAIAgentsAdapter] *)

Record sdk_result := mkSdkResult {
  sr_final_output : val;
  sr_input_tokens : val;
  sr_output_tokens : val;
  sr_requests : val          (* None when the usage has no such attribute *)
}.

Section Adapter.
Context {env : Env} (agents_installed openai_installed : bool).
(** The SDK: the hook calls of a run and its end. *)
Context (sdk_calls : TestCase -> list sdk_call) (sdk_end : TestCase -> result exn sdk_result).
Context (serialize_output : val -> pyres string).

(** [OpenAIAgentsAdapter(model, base_url, ...)]: the keyword arguments handed to
    the SDK's constructors [Agent], [OpenAIProvider] and [RunConfig].  Tools,
    output type and settings are objects of the SDK; the provider is the value
    of the parameter [provider_of]. *)
Record OpenAIAgentsAdapter := mkAgents { aa_agent : dict; aa_run_config : dict }.

Definition default_instructions : string :=
  "Complete the supplied task accurately. Use concise answers and do not invent tool results.".

Definition opt_field (key : string) (v : option val) : dict := match v with Some x => [(key, x)] | None => [] end.

Definition agent_options (model name instructions : string) (tools output_type model_settings : option val) : dict :=
  [("name", VStr name); ("instructions", VStr (if String.eqb instructions "" then default_instructions else instructions));
   ("model", VStr model)]
  ++ opt_field "tools" tools ++ opt_field "output_type" output_type ++ opt_field "model_settings" model_settings.

Definition run_config_options (provider_of : string -> val) (base_url : string) : dict :=
  [("trace_include_sensitive_data", VBool false)]
  ++ (if String.eqb base_url "" then [] else [("model_provider", provider_of base_url)]).

Definition new_adapter (provider_of : string -> val) (model base_url name instructions : string)
    (tools output_type model_settings : option val) : pyres OpenAIAgentsAdapter :=
  guard (negb (String.eqb model "")) (ValueError "target.model is required for provider openai-agents");;
  guard agents_installed (RuntimeError "openai-agents is not installed; install agentstorm-worker[openai]");;
  Ok (mkAgents (agent_options model name instructions tools output_type model_settings)
        (run_config_options provider_of base_url)).

(** Whatever the target, the SDK is told to keep sensitive data out of its own
    traces, the agent runs the configured model and never without instructions. *)
Lemma new_adapter_options provider_of model base_url name instructions tools output_type settings a :
  new_adapter provider_of model base_url name instructions tools output_type settings = Ok a ->
  dict_get (aa_run_config a) "trace_include_sensitive_data" = Some (VBool false) /\
  dict_get (aa_agent a) "model" = Some (VStr model) /\ model <> "" /\
  exists text, dict_get (aa_agent a) "instructions" = Some (VStr text) /\ text <> "".
Proof.
  unfold new_adapter, guard, mbind, result_bind. destruct (String.eqb model "") eqn:Em; [done|]. cbn.
  destruct agents_installed; [|done]. intros [= <-]. bool_simpl. split_and!; [done|done|done|].
  cbn. eexists. split; [done|]. destruct (String.eqb instructions "") eqn:E; bool_simpl; done.
Qed.

Definition perform (lifecycle : AgentLifecycle) (a : action) : M unit :=
  match a with
  | Started e => tool_started lifecycle e
  | Finished e => tool_finished lifecycle e ""
  | HandedOff e => handed_off lifecycle e
  end.

Fixpoint perform_all (lifecycle : AgentLifecycle) (actions : list action) : M unit :=
  match actions with
  | [] => mret tt
  | a :: rest => perform lifecycle a;; perform_all lifecycle rest
  end.

(** [Runner.run(agent, prompt, hooks=hooks)]: an await before every hook and
    before the end; an exception of a hook ends the run. *)
Fixpoint drive (lifecycle : option AgentLifecycle) (h : hooks) (calls : list sdk_call) (fin : result exn sdk_result) :
    M sdk_result :=
  match calls with
  | [] => await_point;; match fin with Ok r => mret r | Err e => raise e end
  | call :: rest =>
      await_point;;
      match lifecycle with
      | Some lc =>
          let '(h', actions) := hook h call in
          perform_all lc actions;; drive lifecycle h' rest fin
      | None => drive lifecycle h rest fin
      end
  end.

Definition run (case : TestCase) (lifecycle : option AgentLifecycle) : M AdapterResponse :=
  result ← try_with (drive lifecycle new_hooks (sdk_calls case) (sdk_end case))
             (fun e => if is_exception e
                       then Some (raise (EExec (classify_adapter_exception agents_installed openai_installed e)))
                       else None);
  output ← lift (serialize_output (sr_final_output result));
  input_tokens ← lift (py_int (sr_input_tokens result));
  output_tokens ← lift (py_int (sr_output_tokens result));
  let requests := match sr_requests result with
                  | VInt z => Some z
                  | VBool b => Some (if b then 1 else 0)
                  | _ => None
                  end in
  mret (mkResponse output (Some input_tokens) (Some output_tokens) requests None []).

Lemma total_perform_all lc actions : lifecycle_total lc -> total (perform_all lc actions).
Proof.
  intros (Hs & Hf & Hh). induction actions as [|a actions IH]; [done|]. cbn [perform_all].
  apply total_bind; [|intros _; exact IH]. destruct a; cbn [perform]; auto.
Qed.

Lemma agents_run_total case lifecycle :
  (forall lc, lifecycle = Some lc -> lifecycle_total lc) -> total (run case lifecycle).
Proof.
  intros Hlc. unfold run.
  apply total_bind; [|intros r; repeat (apply total_bind; [apply total_lift|intros ?]); done].
  apply total_try; [|intros e k; destruct (is_exception e); [|done]; by intros [= <-]].
  generalize new_hooks as h. induction (sdk_calls case) as [|call calls IH]; intros h; cbn [drive];
    (apply total_bind; [apply total_await|intros _]).
  - by destruct (sdk_end case).
  - destruct lifecycle as [lc|]; [|auto]. destruct (hook h call) as [h' actions].
    apply total_bind; [by apply total_perform_all, Hlc|intros _; apply IH].
Qed.

#[global] Instance agents_adapter : AgentAdapter := {| adapter_run := run; adapter_total := agents_run_total |}.

Lemma drive_returns lifecycle h calls fin : post (drive lifecycle h calls fin) (fun r => fin = Ok r).
Proof.
  revert h. induction calls as [|call calls IH]; intros h; cbn [drive]; apply post_seq; intros _.
  - destruct fin; [by apply post_ret|apply post_raise].
  - destruct lifecycle as [lc|]; [|apply IH]. destruct (hook h call). apply post_seq. intros _. apply IH.
Qed.

(** The parts of a result the adapter reads. *)
Definition readable (r : sdk_result) : Prop :=
  is_ok (serialize_output (sr_final_output r)) = true /\
  is_ok (py_int (sr_input_tokens r)) = true /\ is_ok (py_int (sr_output_tokens r)) = true.

(** Every failure of a run whose result is readable, of the SDK or of a
    callback, leaves the adapter as a classified execution error; the only
    other exception is a cancellation. *)
Lemma agents_errors_classified case lifecycle w e w' :
  (forall r, sdk_end case = Ok r -> readable r) ->
  run case lifecycle w = (Raise e, w') -> e = ECancelled \/ exists err, e = EExec err.
Proof.
  intros Hok H. unfold run in H. apply bind_Raise_inv in H as [H|(r & w1 & Hr & H)].
  - unfold try_with in H. destruct (drive _ _ _ _ w) as [[r|e0|] w1]; [done| |done].
    destruct (is_exception e0) eqn:Ee; [injection H as <- _; eauto|]. destruct e0; try done. injection H as <- _. by left.
  - exfalso. unfold try_with in Hr. destruct (drive lifecycle new_hooks (sdk_calls case) (sdk_end case) w) as [[r0|e0|] w0] eqn:Ed;
      [|by destruct (is_exception e0)|done]. injection Hr as <- <-.
    destruct (Hok _ (drive_returns _ _ _ _ _ _ _ Ed)) as (H1 & H2 & H3). revert H. unfold mbind, M_bind.
    destruct (serialize_output _); [|done]. destruct (py_int (sr_input_tokens r0)); [|done].
    by destruct (py_int (sr_output_tokens r0)).
Qed.
End Adapter.

(** ** What the lifecycle sees *)

Definition is_started (a : action) : bool := match a with Started _ => true | _ => false end.
Definition is_finished (a : action) : bool := match a with Finished _ => true | _ => false end.

(** Every finished event of [actions] belongs to a started one, of [before]
    or earlier in [actions]. *)
Fixpoint announced (before : list ToolLifecycleEvent) (actions : list action) : Prop :=
  match actions with
  | [] => True
  | Started e :: rest => announced (e :: before) rest
  | Finished e :: rest => (exists e0, e0 ∈ before /\ e = with_result e0 (te_result e)) /\ announced before rest
  | HandedOff _ :: rest => announced before rest
  end.

Lemma announced_hooks h calls before :
  (forall kv, kv ∈ hk_tools h -> kv.2 ∈ before) -> announced before (hook_actions h calls).
Proof.
  revert h before. induction calls as [|call calls IH]; intros h before Hb; [done|]. cbn [hook_actions].
  destruct call as [c a t|c a t r|f t]; cbn [hook].
  - unfold on_tool_start. destruct (tool_event _ c a t) as [e n]. cbn. apply IH. cbn.
    intros kv [->|Hin]%elem_of_cons; [set_solver|]. apply list_elem_of_filter in Hin as [_ Hin]. set_solver.
  - unfold on_tool_end. cbv zeta. destruct (find_key _ _) as [e|] eqn:Ef.
    + cbn. split.
      * exists e. split; [|done]. unfold find_key in Ef.
        destruct (List.find _ (hk_tools h)) as [kv|] eqn:El; [|done]. injection Ef as <-.
        apply find_some in El as [El _]. by apply Hb, list_elem_of_In.
      * apply IH. cbn. intros kv Hin. apply list_elem_of_filter in Hin as [_ Hin]. auto.
    + destruct (tool_event _ c a t) as [e n]. cbn. split; [exists e; split; [set_solver|done]|].
      apply IH. cbn. intros kv Hin. specialize (Hb _ Hin). set_solver.
  - cbn. by apply IH.
Qed.

Lemma drop_key_length key tools e : find_key key tools = Some e -> (length (drop_key key tools) < length tools)%nat.
Proof.
  unfold find_key, drop_key. destruct (List.find _ tools) as [kv|] eqn:El; [|done]. intros _.
  apply find_some in El as [Hin Hk]. apply bool_decide_eq_true in Hk.
  induction tools as [|kv' tools IH]; [done|]. rewrite filter_cons. destruct Hin as [->|Hin].
  - rewrite decide_False by naive_solver. pose proof (length_filter (fun kv0 => kv0.1 <> key) tools). simpl. lia.
  - specialize (IH Hin). case_decide; simpl; lia.
Qed.

Lemma balanced_hooks h calls :
  let acts := hook_actions h calls in
  (length (List.filter is_finished acts) <= length (hk_tools h) + length (List.filter is_started acts))%nat.
Proof.
  cbv zeta. revert h. induction calls as [|call calls IH]; intros h; cbn [hook_actions]; [simpl; lia|].
  destruct call as [c a t|c a t r|f t]; cbn [hook].
  - unfold on_tool_start. destruct (tool_event _ c a t) as [e n]. simpl.
    specialize (IH (mkHooks n ((key_of c t, e) :: drop_key (key_of c t) (hk_tools h)))). simpl in IH.
    pose proof (length_filter (fun kv => kv.1 <> key_of c t) (hk_tools h)). unfold drop_key in *. lia.
  - unfold on_tool_end. cbv zeta. destruct (find_key _ _) as [e|] eqn:Ef.
    + simpl. specialize (IH (mkHooks (hk_sequence h) (drop_key (key_of c t) (hk_tools h)))). simpl in IH.
      apply drop_key_length in Ef. lia.
    + destruct (tool_event _ c a t) as [e n]. simpl. specialize (IH (mkHooks n (hk_tools h))). simpl in IH. lia.
  - simpl. apply IH.
Qed.

(** Whatever sequence of hooks the SDK calls, a finished tool was announced
    before with the same event, and there are at most as many finished tools
    as started ones. *)
Theorem hooks_balanced calls :
  announced [] (hook_actions new_hooks calls) /\
  (length (List.filter is_finished (hook_actions new_hooks calls)) <=
   length (List.filter is_started (hook_actions new_hooks calls)))%nat.
Proof. split; [apply announced_hooks; cbn; set_solver|]. exact (balanced_hooks new_hooks calls). Qed.

(** The invocation id of a tool the SDK gave no call id. *)
Definition local_id (a : action) : option string :=
  match a with
  | Started e => match te_call_id e with None => Some (te_invocation_id e) | Some _ => None end
  | _ => None
  end.

Definition local_name (n : Z) : string := "local-tool-" +:+ str_of_Z n.

Lemma tool_event_local sequence c a t e n :
  tool_event sequence c a t = (e, n) ->
  (te_call_id e = None /\ te_invocation_id e = local_name sequence /\ n = sequence + 1) \/
  (te_call_id e <> None /\ n = sequence).
Proof.
  unfold tool_event. destruct (_optional_string (ob_tool_call_id c)); intros [= <- <-]; [by right|by left].
Qed.

(** Tools without a call id are numbered from one without gaps, so that they
    are never confused. *)
Theorem local_ids_numbered calls :
  exists k, omap local_id (hook_actions new_hooks calls) = local_name <$> seqZ 1 k.
Proof.
  assert (forall h, exists k, 0 <= k /\ omap local_id (hook_actions h calls) = local_name <$> seqZ (hk_sequence h) k) as H.
  2: { destruct (H new_hooks) as (k & _ & Hk). by exists k. }
  induction calls as [|call calls IH]; intros h; [by exists 0|]. cbn [hook_actions].
  assert (forall c a t e n tools rest, tool_event (hk_sequence h) c a t = (e, n) ->
    omap local_id rest = [] ->
    exists k, 0 <= k /\ omap local_id ((Started e :: rest) ++ hook_actions (mkHooks n tools) calls) =
      local_name <$> seqZ (hk_sequence h) k) as Hev.
  { intros c a t e n tools rest He Hrest. destruct (IH (mkHooks n tools)) as (k & Hk & Hrec). cbn [hk_sequence] in Hrec.
    change (Started e :: rest) with ([Started e] ++ rest). rewrite !omap_app, Hrest, app_nil_r. csimpl.
    apply tool_event_local in He as [(Hc & Hi & ->)|(Hc & ->)].
    - exists (k + 1). split; [lia|]. rewrite Hc, Hi, (seqZ_cons _ (k + 1)) by lia. csimpl. rewrite Hrec. unfold Z.succ, Z.pred. do 3 f_equal. lia.
    - exists k. split; [done|]. destruct (te_call_id e); [|done]. exact Hrec. }
  destruct call as [c a t|c a t r|f t]; cbn [hook].
  - unfold on_tool_start. destruct (tool_event _ c a t) as [e n] eqn:He. by eapply (Hev c a t e n _ []).
  - unfold on_tool_end. cbv zeta. destruct (find_key _ _).
    + destruct (IH (mkHooks (hk_sequence h) (drop_key (key_of c t) (hk_tools h)))) as (k & Hk & Hrec). by exists k.
    + destruct (tool_event _ c a t) as [e n] eqn:He. by eapply (Hev c a t e n _ [_]).
  - apply IH.
Qed.

(** Two tools run side by side in one context; the second has no call id. *)
Example hooks_side_by_side :
  let ctx := mkObject 0 VNone "ToolContext" (VStr "call-7") in
  let ctx2 := mkObject 1 VNone "ToolContext" VNone in
  let agent := mkObject 2 (VStr "triage") "Agent" VNone in
  let tool := mkObject 3 (VStr "search") "FunctionTool" VNone in
  let acts := hook_actions new_hooks [CallToolStart ctx agent tool; CallToolStart ctx2 agent tool;
                                      CallToolEnd ctx agent tool (VStr "x"); CallToolEnd ctx2 agent tool (VStr "y")] in
  (fun a => match a with Started e | Finished e => (te_invocation_id e, te_result e) | HandedOff _ => ("", VNone) end) <$> acts =
  [("call-7", VNone); ("local-tool-1", VNone); ("call-7", VStr "x"); ("local-tool-1", VStr "y")].
Proof. reflexivity. Qed.
End AgentsSDK.
