(* ===== verification/Execute.v ===== *)
(** * The execution of a shard ([WorkloadRunner.execute] as the worker calls it)

    [Pool.v] describes the workers as a step relation.  Here the method is a
    program: which worker moves next, and what each case observes while it
    runs, is a schedule, and the program plays it, running [_execute_case] with
    the adapter the factory built, the registry of the cases and the limiter.
    Every schedule is a sequence of steps of the pool, so what [Pool.v] shows of
    a finished pool holds of the value the method returns.

    Code outside the repository (the HTTP transports, the Agents SDK, plugin
    adapters, the validators behind the evaluators) is collected in
    [services]. *)
From S2P Require Import Prelude PyFloat PyStr PyVal Models Circuit Effects Telemetry Interfaces.
From S2P Require Import Runner Summary Pool OpenAIValidate Config Results Scheduler Evaluators OpenAICompat AgentsSDK Adapters.
Import PyFloat PyStr PyVal Runner Summary Pool OpenAIValidate Results OpenAICompat Adapters.

Module Execute.

Record services := mkServices {
  sv_re_search : string -> string -> bool;
  sv_schema_ok : val -> bool;
  sv_validate : val -> val -> result exn (option string);
  sv_json_raises : string -> option exn;
  sv_is_callable : string -> result exn bool;
  sv_call_python : string -> val -> val -> nat -> result exn val;
  sv_exn_text : exn -> string;
  sv_json_error : string -> string;
  sv_transport : nat -> chat_request -> http_outcome;
  sv_http_date_delta : nat -> string -> option float;
  sv_environ_key : string;
  sv_openai_installed : bool;
  sv_sdk_calls : TestCase -> list AgentsSDK.sdk_call;
  sv_sdk_end : TestCase -> result exn AgentsSDK.sdk_result;
  sv_serialize_output : val -> pyres string;
  sv_plugin_adapter : string -> string -> AgentAdapter;
  sv_horizon : nat
}.

(** ** The adapter objects the factory returns *)

(** An adapter without tools, which tries at least once. *)
Definition plain (a : OpenAICompatibleAdapter) : Prop := oa_tools a = [] /\ 1 <= oa_max_http_attempts a.

#[global] Instance plain_dec a : Decision (plain a).
Proof.
  refine (match oa_tools a as l return oa_tools a = l -> Decision (plain a) with
          | [] => fun H => cast_if (decide (1 <= oa_max_http_attempts a))
          | _ => fun H => right _ end eq_refl); unfold plain; rewrite H; naive_solver.
Defined.

Lemma plain_handlers a : plain a ->
  Forall (fun t => forall arguments, total (ct_handler t arguments)) (oa_tools a).
Proof. by intros [-> _]. Qed.

#[program] Definition no_adapter : AgentAdapter := {| adapter_run _ _ := raise (EOther "no adapter") |}.
Next Obligation. done. Qed.

(** What [run] of an adapter object does.  The factory passes no tools, so the
    second branch is never taken ([factory_plain]). *)
Definition agent_of {env : Env} (sv : services) (agents_installed : bool) (ad : adapter) : AgentAdapter :=
  match ad with
  | AFake => fake_adapter
  | AOpenAICompatible a =>
      match decide (plain a) with
      | left H => @openai_compatible_adapter env (sv_transport sv) (sv_http_date_delta sv) (sv_environ_key sv) a
                    (plain_handlers a H) (proj2 H)
      | right _ => no_adapter
      end
  | AOpenAIAgents _ _ =>
      @AgentsSDK.agents_adapter env agents_installed (sv_openai_installed sv) (sv_sdk_calls sv) (sv_sdk_end sv) (sv_serialize_output sv)
  | APlugin m f => sv_plugin_adapter sv m f
  end.

Lemma new_adapter_plain nfkc host model url instructions key calls timeout fields name unknown attempts initial longest a :
  OpenAICompat.new_adapter nfkc host model url instructions [] key calls timeout fields name unknown attempts initial longest
    = Ok a -> plain a.
Proof.
  unfold OpenAICompat.new_adapter, mbind, result_bind, guard.
  destruct (validate_pinned_model model); [|done]. destruct (validate_base_url nfkc host url); [|done].
  destruct (negb (_ || _)); [|done]. destruct (negb (fle _ _)); [|done].
  destruct unknown as [| |u| | | | |]; try done. destruct (u <? 1); [done|].
  destruct attempts as [| |n| | | | |]; try done. destruct (1 <=? n) eqn:E; [|done]. destruct (n <=? _); [|done]. cbn [andb].
  destruct (retry_window initial longest) as [[]|]; [|done]. destruct (validate_request_fields fields []); [|done].
  destruct (valid_tool_names []); [|done]. intros [= <-]. apply Z.leb_le in E. by split.
Qed.

Lemma factory_plain nfkc host plugin agents t a :
  create_adapter nfkc host plugin agents t = Ok (AOpenAICompatible a) -> plain a.
Proof.
  unfold create_adapter. destruct (negb (String.eqb (tg_adapter_entrypoint t) "")).
  { unfold _create_plugin_adapter. destruct (split_first _ _) as [m [f|]]; [|done]. by destruct (plugin m f) as [| | |[]]. }
  destruct (String.eqb (tg_provider t) "fake"); [done|]. destruct (String.eqb (tg_provider t) "openai-compatible").
  2: { destruct (String.eqb (tg_provider t) "openai-agents"); [|done]. destruct (String.eqb (tg_model t) ""); [done|]. by destruct agents. }
  unfold py. destruct (openai_compatible_of nfkc host t) as [a'|] eqn:E; [|done]. cbn. intros [= ->].
  revert E. unfold openai_compatible_of, mbind, result_bind. destruct (validate_request_fields _ _) as [fields|]; [|done].
  destruct (match tg_max_output_tokens t with Some n => _ | None => _ end) as [fields'|]; [|done].
  destruct (http_retry_adapter_kwargs _ _) as [kwargs|]; [|done]. apply new_adapter_plain.
Qed.

(** ** Playing a schedule *)

(** What happens next: the stop event is set; an idle worker sees it, finds no
    work left, or takes the next item; the case of a busy worker ends, having
    seen the observations [env] from the state [task]. *)
Inductive choice :=
| Stop
| Exits (w : nat)
| Drains (w : nat)
| Takes (w : nat)
| Ends (w : nat) (env : Env) (task : World).

Section Play.
Context (run_case : Env -> TestCase * Z -> World -> outcome CaseResult * World) (work : list (TestCase * Z)).

(** The case of worker [w] on item [i] has ended: its result is appended, or
    the exception ends the worker; only a stop cancels a worker. *)
Definition case_ends (w i : nat) (o : outcome CaseResult) (p : pool) : option (pool * option exn) :=
  match o with
  | Ret r => Some (mkPool (pl_next p) (<[w := Idle]> (pl_workers p)) (pl_results p ++ [r]) (pl_done p ++ [i])
                     (pl_lost p) (pl_stop p), None)
  | Raise ECancelled =>
      if pl_stop p then Some (mkPool (pl_next p) (<[w := Exited]> (pl_workers p)) (pl_results p) (pl_done p)
                                (pl_lost p ++ [i]) (pl_stop p), None)
      else None
  | Raise e => Some (mkPool (pl_next p) (<[w := Failed]> (pl_workers p)) (pl_results p) (pl_done p)
                       (pl_lost p ++ [i]) (pl_stop p), Some e)
  | Diverge => None
  end.

(** A choice that is possible, and the exception it raises in a worker. *)
Definition choose (c : choice) (p : pool) : option (pool * option exn) :=
  match c with
  | Stop => if pl_stop p then None
            else Some (mkPool (pl_next p) (pl_workers p) (pl_results p) (pl_done p) (pl_lost p) true, None)
  | Exits w => match pl_workers p !! w with
               | Some Idle => if pl_stop p then Some (set_worker w Exited p, None) else None
               | _ => None
               end
  | Drains w => match pl_workers p !! w with
                | Some Idle => if (length work <=? pl_next p)%nat then Some (set_worker w Exited p, None) else None
                | _ => None
                end
  | Takes w => match pl_workers p !! w with
               | Some Idle =>
                   if negb (pl_stop p) && (pl_next p <? length work)%nat
                   then Some (mkPool (S (pl_next p)) (<[w := Busy (pl_next p)]> (pl_workers p)) (pl_results p)
                                (pl_done p) (pl_lost p) (pl_stop p), None)
                   else None
               | _ => None
               end
  | Ends w env task => match pl_workers p !! w with
                       | Some (Busy i) => item ← work !! i; case_ends w i (run_case env item task).1 p
                       | _ => None
                       end
  end.

(** The whole schedule; a choice that is not possible is passed over.  The
    exception is the first one, which [asyncio.gather] raises. *)
Fixpoint play (schedule : list choice) (p : pool) (first : option exn) : pool * option exn :=
  match schedule with
  | [] => (p, first)
  | c :: rest =>
      match choose c p with
      | Some (p', e) => play rest p' (match first with Some e0 => Some e0 | None => e end)
      | None => play rest p first
      end
  end.

(** A result the case can return. *)
Definition case_runs (item : TestCase * Z) (r : CaseResult) : Prop :=
  exists env task w', run_case env item task = (Ret r, w').

Lemma case_ends_step w i item env task p p' e :
  pl_workers p !! w = Some (Busy i) -> work !! i = Some item ->
  case_ends w i (run_case env item task).1 p = Some (p', e) -> pstep case_runs work p p'.
Proof.
  intros Hw Hi. destruct (run_case env item task) as [o w'] eqn:Er. cbn [fst].
  destruct o as [r|x|]; cbn [case_ends]; [| |done].
  - intros [= <- _]. eapply PFinish; [done..|]. by exists env, task, w'.
  - destruct x; try (intros [= <- _]; by apply PFail). destruct (pl_stop p) eqn:E; [|done]. intros [= <- _].
    rewrite <- E. by apply PCancel.
Qed.

Lemma choose_step c p p' e : choose c p = Some (p', e) -> pstep case_runs work p p'.
Proof.
  destruct c as [|w|w|w|w env task]; cbn [choose].
  - destruct (pl_stop p) eqn:E; [done|]. intros [= <- _]. by apply PStop.
  - destruct (pl_workers p !! w) as [[]|] eqn:Hw; try done. destruct (pl_stop p) eqn:E; [|done].
    intros [= <- _]. by apply PExit.
  - destruct (pl_workers p !! w) as [[]|] eqn:Hw; try done. destruct (Nat.leb_spec (length work) (pl_next p)); [|done].
    intros [= <- _]. by apply PDrain.
  - destruct (pl_workers p !! w) as [[]|] eqn:Hw; try done. destruct (pl_stop p) eqn:E; [done|]. cbn [negb andb].
    destruct (Nat.ltb_spec (pl_next p) (length work)); [|done]. intros [= <- _]. rewrite <- E. by apply PTake.
  - destruct (pl_workers p !! w) as [[]|] eqn:Hw; try done. destruct (work !! i) as [item|] eqn:Hi; [|done]. cbn.
    by apply case_ends_step.
Qed.

Lemma play_steps schedule p first p' e :
  play schedule p first = (p', e) -> star (pstep case_runs work) p p'.
Proof.
  revert p first. induction schedule as [|c rest IH]; intros p first; cbn [play].
  - intros [= <- _]. constructor.
  - destruct (choose c p) as [[p1 e1]|] eqn:Hc; [|apply IH]. intros H. eapply star_next; [by eapply choose_step|by eapply IH].
Qed.
End Play.

(** ** [execute] *)

Definition exited (s : wstate) : bool := match s with Exited => true | _ => false end.
Definition over (s : wstate) : bool := match s with Exited | Failed => true | _ => false end.

Section Method.
Context {env : Env} (re_sub : string -> string -> string) (container_repr : val -> string) (agents_installed : bool).
Context (re_ok : string -> bool) (opener : nat -> http_request -> reply) (sv : services).
(** The schedule of the workers, from the observation at which they start. *)
Context (schedule : nat -> list choice).

(** Who asks for permits: the client and the identity of the worker. *)
Record permits := mkPermits { pm_client : ResultSinkConfig; pm_worker_id : string }.

Definition limiter_of (config : RunConfig) (limiter : option permits) (e : Env) : option (@Limiter e) :=
  l ← limiter;
  Some (@Scheduler.distributed_limiter e container_repr opener (pm_client l) (rc_run_id config) (pm_worker_id l)
          (tg_provider (rc_target config)) (sv_horizon sv)).

Definition evaluators_of (reg : Evaluators.EvaluatorRegistry) (e : Env) : Interfaces.Evaluators :=
  @Evaluators.registry_evaluators e (sv_re_search sv) (sv_validate sv) (sv_json_raises sv) (sv_call_python sv)
    (sv_exn_text sv) (sv_json_error sv) reg.

(** [self._execute_case(case, iteration, stop)] in the environment [e]. *)
Definition run_case (config : RunConfig) (ad : adapter) (limiter : option permits) (reg : Evaluators.EvaluatorRegistry)
    (e : Env) (item : TestCase * Z) : M CaseResult :=
  @_execute_case e re_sub container_repr agents_installed (sv_openai_installed sv) config
    (@agent_of e sv agents_installed ad) (limiter_of config limiter e) (evaluators_of reg e) item.1 item.2.

(** The tasks, from their creation to the end of the last [await]: the wait for
    the tasks or the stop event; the cancelled tasks and [gathered] when the
    event is set, the exception of [gathered] when not; then [stop_waiter].  A
    schedule that ends before the tasks do, or sets the event when the
    environment does not, is no execution. *)
Definition run_tasks (run : Env -> TestCase * Z -> M CaseResult) (work : list (TestCase * Z)) (concurrency : Z) : M pool :=
  played ← get_state (fun w => play run work (schedule (w_pos w)) (pool_init work concurrency) None);
  let '(p, first) := played in
  await_point;;
  stopped ← stop_is_set;
  if negb (Bool.eqb stopped (pl_stop p)) then diverge
  else
    (if stopped : bool then if forallb over (pl_workers p) then await_point;; await_point else diverge
     else match first with
          | Some e => raise e
          | None => if forallb exited (pl_workers p) then mret tt else diverge
          end);;
    await_point;;
    mret p.

Definition execute (config : RunConfig) (ad : adapter) (limiter : option permits) (shard_index shard_count : Z)
    (cases : list TestCase) : M (list CaseResult * RunSummary) :=
  reg ← Scheduler.liftE (Evaluators.new_registry re_ok (sv_schema_ok sv) (sv_is_callable sv) cases);
  started ← perf_counter;
  let work := shard_work config shard_index shard_count cases in
  let concurrency := wl_concurrency (rc_workload config) in
  p ← if (worker_count work concurrency =? 0)%nat then mret (pool_init work concurrency)
      else run_tasks (run_case config ad limiter reg) work concurrency;
  now ← perf_counter;
  lift (execute_value config shard_index shard_count (fmul (fsub now started) (of_Z 1000)) p).

(** ** What the method returns *)

Lemma await_pos w a w' : await_point w = (Ret a, w') -> w_pos w' = S (w_pos w).
Proof.
  unfold await_point. destruct (sn_cancel _); [done|]. destruct (past_deadline _ _); [done|]. by intros [= _ <-].
Qed.

(** The pool that [run_tasks] returns was played, and is complete unless the
    stop event was seen. *)
Lemma run_tasks_spec run work concurrency w p w' :
  run_tasks run work concurrency w = (Ret p, w') ->
  star (pstep (case_runs run) work) (pool_init work concurrency) p /\
  exists n, (w_pos w <= n < w_pos w')%nat /\ sn_stop (observe n) = pl_stop p /\ (pl_stop p = false -> all_exited p).
Proof.
  intros H. unfold run_tasks in H. apply bind_Ret_inv in H as ([p0 first] & w1 & H1 & H). injection H1 as Hplay <-.
  apply bind_Ret_inv in H as ([] & w2 & Ha & H). apply await_pos in Ha.
  apply bind_Ret_inv in H as (stopped & w3 & Hs & H). injection Hs as Hstop <-.
  destruct (Bool.eqb_spec stopped (pl_stop p0)) as [Hp|]; [|done]. cbn [negb] in H.
  apply bind_Ret_inv in H as ([] & w4 & Hb & H). apply bind_Ret_inv in H as ([] & w5 & Ha2 & H). injection H as <- <-.
  apply await_pos in Ha2. split; [by eapply play_steps|]. exists (w_pos w2).
  assert (S (w_pos w2) <= w_pos w4)%nat as Hle.
  { destruct stopped.
    - destruct (forallb over _); [|done]. apply bind_Ret_inv in Hb as ([] & w6 & Hb1 & Hb2).
      apply await_pos in Hb1, Hb2. cbn in Hb1. lia.
    - destruct first; [done|]. destruct (forallb exited _); [|done]. injection Hb as <-. cbn. lia. }
  split_and!; [lia|lia|congruence|]. intros Hf. rewrite Hf in Hp. subst stopped. rewrite Hp in Hb.
  destruct first; [done|]. destruct (forallb exited (pl_workers p0)) eqn:Ex; [|done].
  apply Forall_forall. intros s Hin. rewrite forallb_forall in Ex. apply list_elem_of_In in Hin. specialize (Ex s Hin).
  by destruct s.
Qed.

Definition run_returns (config : RunConfig) (ad : adapter) (limiter : option permits) (reg : Evaluators.EvaluatorRegistry) :=
  case_runs (run_case config ad limiter reg).

(** The value of [execute]: the summary is that of the results, and when the
    stop event was not set up to the end there is exactly one sound result for
    every case and iteration of the shard. *)
Lemma execute_returns config ad limiter shard_index shard_count cases w results summary w' :
  1 <= wl_concurrency (rc_workload config) ->
  execute config ad limiter shard_index shard_count cases w = (Ret (results, summary), w') ->
  (exists duration_ms, summarize (rc_run_id config) shard_index shard_count results (rc_evaluation config) duration_ms = Ok summary) /\
  ((forall n, (n < w_pos w')%nat -> sn_stop (observe n) = false) ->
   result_key <$> results ≡ₚ item_key <$> shard_work config shard_index shard_count cases /\
   Forall (fun r => disciplined config (cr_attempts r) /\ accounted config r /\
     exists case, case ∈ selected shard_index shard_count cases /\ verdict case r) results).
Proof.
  intros Hc H. unfold execute in H. apply bind_Ret_inv in H as (reg & w1 & _ & H).
  apply bind_Ret_inv in H as (started & w2 & Hs & H). cbv zeta in H.
  apply bind_Ret_inv in H as (p & w3 & Hp & H). apply bind_Ret_inv in H as (now & w4 & Hn & H). injection Hn as _ <-.
  unfold lift in H. destruct (execute_value _ _ _ _ _) as [[rs sm]|] eqn:Ev; [|done]. injection H as <- <- <-.
  unfold execute_value in Ev. destruct (summarize _ _ _ _ _ _) as [s|] eqn:Es; cbn in Ev; [|done]. injection Ev as <- <-.
  split; [by eexists|]. intros Hquiet.
  set (work := shard_work config shard_index shard_count cases) in *.
  assert (exists R, star (pstep R work) (pool_init work (wl_concurrency (rc_workload config))) p /\ all_exited p /\ pl_stop p = false /\
    forall item r, R item r -> exists l, disciplined config l /\ finished config item.1 item.2 l r)
    as (R & Hstar & Hx & Hstop & HR).
  { exists (run_returns config ad limiter reg). split_and!.
    4: { intros item r (e & task & wx & Hr). unfold run_case in Hr. by apply execute_case_post in Hr. }
    all: destruct (worker_count work _ =? 0)%nat eqn:E0.
    all: try (injection Hp as <- <-).
    all: try (apply run_tasks_spec in Hp as (Hstar & n & Hn & Hso & Hall); pose proof (Hquiet n ltac:(cbn; lia)) as Hq;
      rewrite Hso in Hq; auto; fail).
    - constructor.
    - unfold all_exited, pool_init. apply Nat.eqb_eq in E0. cbn. rewrite E0. constructor.
    - done. }
  destruct (completed_results config R HR work _ p Hc Hstar Hx Hstop) as (items & Hperm & Hall).
  split; [|by eapply results_sound]. rewrite <- Hperm. by apply (results_keys config (fun item => item ∈ work)).
Qed.

End Method.

End Execute.
