(* ===== verification/Worker.v ===== *)
(** * The worker process ([__main__.py])

    The command line and [execute]: load, authorise spending, register or
    claim, run the shard, upload, shut down, and turn what happened into an
    exit code.  The shard runs as in [Execute.v].  Parameters: the environment
    variables, the transport of the Result API, the Standard Library checks the
    loaders take, the services and the schedule of the run, whether writing the
    local files works, and whether a lease was lost.  The stop event is what the
    environment shows of it: the signal handlers and the lease task, which set
    it, run outside this task (the lease task itself is [lease_task]).  Printing
    is not modelled. *)
From S2P Require Import Prelude PyFloat PyStr PyVal JsonParse Models Circuit Effects.
From S2P Require Import Telemetry OpenAIValidate Config Summary Pool Results Scheduler OpenAICompat Adapters Runner Execute.
Import PyFloat PyStr PyVal JsonParse OpenAIValidate Results Adapters.

Module Worker.

Section Worker.
Context {env : Env} (getenv : string -> option string) (opener : nat -> http_request -> reply).
Context (re_ok : string -> bool) (re_sub : string -> string -> string) (container_repr : val -> string) (netloc_nfkc_ok bracketed_host_ok : string -> bool).
Context (plugin : string -> string -> plugin_load) (agents_installed otel_installed : bool).
Context (files_writable queue_lease_lost permit_lease_lost : nat -> bool).
Context (sv : Execute.services) (schedule : nat -> list Execute.choice).

Definition env_or (name dflt : string) : string := default dflt (getenv name).
Definition env_boolean (name : string) : pyres bool := Results._environment_boolean name (getenv name) false.

(** [_environment_boolean] of [__main__.py]; [results.py] has a copy. *)
Definition _environment_boolean (name : string) (default : bool) : pyres bool :=
  match getenv name with
  | None => Ok default
  | Some raw =>
      let normalized := lower (strip raw) in
      if String.eqb normalized "true" then Ok true
      else if String.eqb normalized "false" then Ok false
      else Err (ValueError (name +:+ " must be true or false"))
  end.

(** ** The command line

    [options] is what the command line gives; a command that does not exist, or
    an option the command does not have, ends [argparse] with status 2. *)
Record Namespace := mkNamespace { ns_command : string; ns_config : string; ns_dataset : string; ns_output : string }.

Definition option_of (options : string -> option string) (flag variable dflt : string) : string :=
  match options flag with Some v => v | None => env_or variable dflt end.

Definition build_parser (command : string) (options : string -> option string) : option Namespace :=
  let config := option_of options "--config" "AGENTSTORM_RUN_CONFIG" "run.json" in
  let dataset := option_of options "--dataset" "AGENTSTORM_DATASET" "cases.jsonl" in
  if String.eqb command "run" then
    Some (mkNamespace command config dataset (option_of options "--output" "AGENTSTORM_OUTPUT_DIR" "out"))
  else if String.eqb command "validate" then
    match options "--output" with Some _ => None | None => Some (mkNamespace command config dataset "") end
  else None.

(** [ResultClient.__init__] *)
Definition new_client (config : ResultSinkConfig) : pyres ResultSinkConfig :=
  parsed ← urlsplit netloc_nfkc_ok bracketed_host_ok (remove_breaks (lstrip_c0 (sk_base_url config)));
  guard ((String.eqb (sp_scheme parsed) "http" || String.eqb (sp_scheme parsed) "https") &&
         negb (String.eqb (sp_netloc parsed) ""))
    (ValueError "AGENTSTORM_RESULT_API_URL must be an HTTP(S) URL");;
  guard (negb (nonempty_opt (userinfo parsed).1 || nonempty_opt (userinfo parsed).2 ||
               negb (String.eqb (sp_query parsed) "") || negb (String.eqb (sp_fragment parsed) "")))
    (ValueError "AGENTSTORM_RESULT_API_URL must not contain credentials, query, or fragment");;
  guard (negb (blank (sk_write_token config)))
    (ValueError "AGENTSTORM_RESULT_WRITE_TOKEN is required when the result sink is enabled");;
  guard (negb (fle (sk_timeout_seconds config) (Fin 0)))
    (ValueError "AGENTSTORM_RESULT_TIMEOUT_SECONDS must be positive");;
  Ok (mkSink (rstrip_ascii "/" (sk_base_url config)) (sk_write_token config) (sk_include_sensitive config)
        (sk_timeout_seconds config)).

(** [ResultClient.from_environment] *)
Definition from_environment : pyres (option ResultSinkConfig) :=
  let base_url := strip (env_or "AGENTSTORM_RESULT_API_URL" "") in
  if String.eqb base_url "" then Ok None
  else
    include_sensitive ← env_boolean "AGENTSTORM_INCLUDE_SENSITIVE_RESULTS";
    timeout_seconds ← py_float (VStr (env_or "AGENTSTORM_RESULT_TIMEOUT_SECONDS" "30"));
    c ← new_client (mkSink base_url (env_or "AGENTSTORM_RESULT_WRITE_TOKEN" "") include_sensitive timeout_seconds);
    Ok (Some c).

Definition provider_spend_allowed (provider : string) : bool :=
  if negb (String.eqb provider "openai-compatible" || String.eqb provider "openai-agents") then true
  else match getenv "AGENTSTORM_ALLOW_PROVIDER_SPEND" with Some v => String.eqb v "1" | None => false end.

(** [telemetry_from_environment], as far as it can fail. *)
Definition telemetry_ready (config : TelemetryConfig) : pyres unit :=
  enabled ← (let value := env_or "AGENTSTORM_OTEL_ENABLED" "" in
             if String.eqb value "" then Ok false
             else Results._environment_boolean "AGENTSTORM_OTEL_ENABLED" (Some value) false);
  if enabled : bool then
    guard otel_installed (RuntimeError "OpenTelemetry is enabled but telemetry dependencies are not installed; install agentstorm-worker[telemetry]")
  else guard (negb (String.eqb (tm_content_mode config) "redacted"))
         (RuntimeError "redacted telemetry requires OpenTelemetry to be enabled").

(** ** Calls to the Result API and to the file system *)

(** [await asyncio.to_thread(client.<put>, ...)] *)
Definition put (request : pyres http_request) : M unit :=
  request ← lift request;
  r ← Scheduler.send opener request;
  Scheduler.liftE (put_reply r).

Definition claim_shard (client : ResultSinkConfig) (run_id worker_id : string) : M (option QueueClaim) :=
  payload ← Scheduler._post opener (claim_request client run_id worker_id);
  Scheduler.liftE (claim_reply container_repr payload).

Definition renew_shard (client : ResultSinkConfig) (run_id : string) (claim : QueueClaim) : M Z :=
  payload ← Scheduler._post opener (renew_shard_request client run_id (qc_shard_index claim) (qc_lease_token claim));
  Scheduler.liftE (renew_reply "result API returned an empty lease response" payload).

(** The lease task of a queued shard, [renew_shard] in [execute]: it returns
    when it has set [lease_lost] and the stop event. *)
Definition lease_task (fuel : nat) (client : ResultSinkConfig) (run_id : string) (claim : QueueClaim) : M unit :=
  Scheduler.renewal_loop fuel (renew_shard client run_id claim) (qc_renew_after_ms claim).

Definition write_results : M unit := fun w =>
  if files_writable (w_pos w) then (Ret tt, set_pos S w) else (Raise (EOther "OSError"), set_pos S w).

(** [try: m except Exception: print(...)] *)
Definition swallow (m : M unit) : M unit := try_with m (fun e => if is_exception e then Some (mret tt) else None).

Definition observed (f : nat -> bool) : M bool := fun w => (Ret (f (w_pos w)), set_pos S w).

Definition on_client (client : option ResultSinkConfig) (f : ResultSinkConfig -> M unit) : M unit :=
  match client with Some c => f c | None => mret tt end.

(** ** [_finish_cancelled] *)

Definition flush (client : option ResultSinkConfig) (run_id : string) (shard_index : Z) (results : list CaseResult)
    (summary : RunSummary) (lease_token : string) : M unit :=
  on_client client (fun c => swallow (put (mark_terminal c run_id "cancelled" "cancellation_requested")));;
  swallow write_results;;
  on_client client (fun c => swallow (put (upload_shard c run_id shard_index results summary lease_token))).

Definition _finish_cancelled (client : option ResultSinkConfig) (run_id : string) (shard_index : Z)
    (results : list CaseResult) (summary : RunSummary) (lease_token : string) : M unit :=
  swallow (wait_for (flush client run_id shard_index results summary lease_token) (of_Z 10)).
(** ** [execute] *)

(** What the [except] clause knows: the client, [registered], [queue_mode]. *)
Record harness := mkHarness { hs_client : option ResultSinkConfig; hs_registered : bool; hs_queue_mode : bool }.

Definition is_sink_error (e : exn) : bool :=
  match e with EResultSink _ | ESchedulerBusy _ => true | _ => false end.

Definition harness_reason (e : exn) : string :=
  match e with EAdapterPlugin _ => "adapter_plugin_invalid" | _ => "worker_harness_failure" end.

(** The [except Exception] clause. *)
Definition harness_failure (policy : val -> val) (run_id : string) (run_span : nat) (h : harness) (e : exn) : M Z :=
  span_set_error run_span (exn_name e);;
  let queue_sink_failure := hs_queue_mode h && is_sink_error e in
  (if hs_registered h && negb queue_sink_failure then
     on_client (hs_client h) (fun c =>
       swallow (wait_for (put (mark_terminal c run_id "harness_failed" (harness_reason e))) (of_Z 10)))
   else mret tt);;
  mret 3.

(** One statement of the [try] body: its exceptions go to the [except] clause,
    its value to the rest. *)
Definition attempt {A} (m : M A) : M (result exn A) :=
  try_with (a ← m; mret (Ok a)) (fun e => if is_exception e then Some (mret (Err e)) else None).

Definition guarded {A} (policy : val -> val) (run_id : string) (run_span : nat) (h : harness) (m : M A) (k : A -> M Z) : M Z :=
  r ← attempt m;
  match r with Ok a => k a | Err e => harness_failure policy run_id run_span h e end.

Definition set_attributes (policy : val -> val) (run_span : nat) (attrs : dict) : M unit :=
  foldr (fun kv rest => span_set_attribute policy run_span kv.1 kv.2;; rest) (mret tt) attrs.

Definition summary_attributes (s : RunSummary) : dict :=
  [("agentstorm.run.total", VInt (rs_total s)); ("agentstorm.run.succeeded", VInt (rs_succeeded s));
   ("agentstorm.run.failed", VInt (rs_failed s)); ("agentstorm.run.thresholds_passed", VBool (rs_thresholds_passed s));
   ("gen_ai.usage.input_tokens", VInt (rs_input_tokens s)); ("gen_ai.usage.output_tokens", VInt (rs_output_tokens s));
   ("agentstorm.agent.tool_call_count", VInt (rs_tool_call_count s))]
  ++ match rs_model_call_count s with Some n => [("agentstorm.agent.model_call_count", VInt n)] | None => [] end.

(** The shard is done: what is reported, and the exit code. *)
Definition report (policy : val -> val) (config : RunConfig) (client : option ResultSinkConfig) (limited : bool)
    (run_span : nat) (shard_index : Z) (lease_token : string) (results : list CaseResult) (summary : RunSummary) : M Z :=
  let run_id := rc_run_id config in
  queue_lost ← observed queue_lease_lost;
  permit_lost ← observed permit_lease_lost;
  if queue_lost || (limited && permit_lost) then
    (if negb queue_lost then
       on_client client (fun c => swallow (put (mark_terminal c run_id "harness_failed" "distributed_permit_lost")))
     else mret tt);;
    mret 3
  else
    stopped ← stop_is_set;
    if stopped : bool then
      _finish_cancelled client run_id shard_index results summary lease_token;;
      span_set_attribute policy run_span "agentstorm.run.cancelled" (VBool true);;
      mret 130
    else
      write_results;;
      on_client client (fun c => put (upload_shard c run_id shard_index results summary lease_token));;
      set_attributes policy run_span (summary_attributes summary);;
      mret (if rs_thresholds_passed summary then 0 else 2).

(** [WorkloadRunner(...)] and its [execute]. *)
Definition run_shard (config : RunConfig) (ad : adapter) (limiter : option Execute.permits) (shard_index shard_count : Z)
    (cases : list TestCase) : M (list CaseResult * RunSummary) :=
  lift (Pool.new_runner re_sub config (Execute.agent_of sv agents_installed ad) shard_index shard_count
          (Execute.limiter_of container_repr opener sv config limiter _));;
  Execute.execute re_sub container_repr agents_installed re_ok opener sv schedule config ad limiter shard_index
    shard_count cases.

Definition worker_id : string := env_or "AGENTSTORM_WORKER_ID" "local-worker".

(** From the adapter to the report. *)
Definition run_and_report (policy : val -> val) (config : RunConfig) (cases : list TestCase)
    (client : option ResultSinkConfig) (run_span : nat) (shard_index shard_count : Z) (lease_token : string) : M Z :=
  adapter ← Scheduler.liftE (create_adapter netloc_nfkc_ok bracketed_host_ok plugin agents_installed (rc_target config));
  limiter ← match client with
            | Some c =>
                limited ← lift (_environment_boolean "AGENTSTORM_DISTRIBUTED_LIMITS" false);
                mret (if limited : bool then Some (Execute.mkPermits c worker_id) else None)
            | None => mret None
            end;
  '(results, summary) ← run_shard config adapter limiter shard_index shard_count cases;
  report policy config client (is_some limiter) run_span shard_index lease_token results summary.

Definition register (config : RunConfig) (client : option ResultSinkConfig) (shard_count : Z) : M unit :=
  let pre_registered := String.eqb (lower (env_or "AGENTSTORM_RESULT_PRE_REGISTERED" "false")) "true" in
  on_client client (fun c => if pre_registered then mret tt else put (register_run c config shard_count)).

(** Static sharding, or a claim of the queue. *)
Definition scheduled (policy : val -> val) (config : RunConfig) (cases : list TestCase)
    (client : option ResultSinkConfig) (run_span : nat) (shard_index shard_count : Z) (queue_mode : bool) : M Z :=
  if queue_mode then
    match client with
    | None => raise (EPy (RuntimeError "queued scheduling requires the Result API"))
    | Some c =>
        claim ← claim_shard c (rc_run_id config) worker_id;
        match claim with
        | None => mret 0
        | Some q =>
            span_set_attribute policy run_span "agentstorm.shard.index" (VInt (qc_shard_index q));;
            modify (set_lease_task true);;
            run_and_report policy config cases client run_span (qc_shard_index q) shard_count (qc_lease_token q)
        end
    end
  else run_and_report policy config cases client run_span shard_index shard_count "".

Definition run_attributes (config : RunConfig) (shard_index shard_count : Z) : dict :=
  [("agentstorm.run.id", VStr (rc_run_id config)); ("agentstorm.run.namespace", VStr (src_namespace (rc_source config)));
   ("agentstorm.run.name", VStr (src_name (rc_source config))); ("agentstorm.shard.index", VInt shard_index);
   ("agentstorm.shard.count", VInt shard_count); ("gen_ai.provider.name", VStr (tg_provider (rc_target config)))]
  ++ (if String.eqb (tg_model (rc_target config)) "" then []
      else [("gen_ai.request.model", VStr (tg_model (rc_target config)))]).

(** The body of the [with telemetry.start_span(...)]. *)
Definition supervised (policy : val -> val) (config : RunConfig) (cases : list TestCase) (shard_index shard_count : Z)
    (run_span : nat) : M Z :=
  let on {A} := @guarded A policy (rc_run_id config) run_span in
  on (mkHarness None false false) (lift from_environment) (fun client =>
  on (mkHarness client false false) (register config client shard_count) (fun _ =>
  on (mkHarness client (is_some client) false) (lift (_environment_boolean "AGENTSTORM_QUEUE_MODE" false)) (fun queue_mode =>
  on (mkHarness client (is_some client) queue_mode)
     (scheduled policy config cases client run_span shard_index shard_count queue_mode) mret))).

Definition int_env (name : string) (dflt : Z) : pyres Z :=
  match getenv name with None => Ok dflt | Some s => py_int (VStr s) end.

(** The [finally] clause: the lease task is cancelled and awaited, the exporter
    shut down.  (What is removed with the signal handlers is nothing this task
    can observe.) *)
Definition shutdown : M unit :=
  leased ← get_state w_lease_task;
  (if leased : bool then await_point else mret tt);;
  modify (log_event TShutdown).

Definition execute (command config_text dataset_text : string) : M Z :=
  config ← lift (match loads config_text with
                 | Some document => Config.load_run_config re_ok container_repr netloc_nfkc_ok bracketed_host_ok document
                 | None => Err (ValueError "JSONDecodeError")
                 end);
  cases ← lift (Config.load_dataset container_repr dataset_text);
  if String.eqb command "validate" then mret 0
  else if negb (provider_spend_allowed (tg_provider (rc_target config))) then mret 3
  else
    shard_count ← lift (int_env "AGENTSTORM_SHARD_COUNT" 1);
    shard_index ← lift (int_env "AGENTSTORM_SHARD_INDEX" 0);
    lift (telemetry_ready (rc_telemetry config));;
    let policy := Telemetry.policy_of re_sub (rc_telemetry config) in
    modify (set_lease_task false);;
    finally (with_span policy "agentstorm.run" (run_attributes config shard_index shard_count)
               (supervised policy config cases shard_index shard_count))
            shutdown.

(** The exit code of the process. *)
Definition main (command config_text dataset_text : string) : M Z :=
  try_with (execute command config_text dataset_text) (fun e => if is_exception e then Some (mret 3) else None).

(** The process: the command line, the files it names, and [main]. *)
Definition process (command : string) (options : string -> option string) (read_text : string -> option string) : M Z :=
  match build_parser command options with
  | None => mret 2
  | Some ns =>
      match read_text (ns_config ns), read_text (ns_dataset ns) with
      | Some config_text, Some dataset_text => main (ns_command ns) config_text dataset_text
      | _, _ => mret 3
      end
  end.

(** The two readers of boolean variables agree. *)
Lemma environment_booleans_agree name : env_boolean name = _environment_boolean name false.
Proof. done. Qed.

(** ** What an exit code means *)

Lemma post_put request :
  post (put request) (fun _ => exists index req status body, request = Ok req /\ opener index req = ROk status body).
Proof.
  unfold put. destruct request as [req|e]; [|by intros w a w' H].
  eapply post_bind; [apply (post_lift (Ok req) (fun r => r = req)); by intros r [= <-]|]. intros r ->.
  apply (post_bind _ _ (fun rep => exists index, rep = opener index req)).
  - unfold Scheduler.send. apply post_seq. intros _. apply post_seq. intros index. apply post_seq. intros _.
    apply post_ret. eauto.
  - intros rep [index ->]. destruct (opener index req) as [st b| |] eqn:E; simpl; [|apply post_raise..].
    apply post_ret. eauto 10.
Qed.

(** The report of a run that ended at the observation [pos]: the first test
    there is for a lost lease, then for the stop event. *)
Definition reported (config : RunConfig) (client : option ResultSinkConfig) (limited : bool) (shard_index : Z)
    (lease_token : string) (results : list CaseResult) (summary : RunSummary) (pos : nat) (code : Z) : Prop :=
  if queue_lease_lost pos || (limited && permit_lease_lost (S pos)) then code = 3
  else if sn_stop (observe (S (S pos))) then code = 130
  else code = (if rs_thresholds_passed summary then 0 else 2) /\
    forall c, client = Some c -> exists index req status body,
      upload_shard c (rc_run_id config) shard_index results summary lease_token = Ok req /\ opener index req = ROk status body.

Lemma report_ends policy config client limited span si lease results summary w code w' :
  report policy config client limited span si lease results summary w = (Ret code, w') ->
  reported config client limited si lease results summary (w_pos w) code.
Proof.
  unfold report, reported. cbv zeta. intros H. apply bind_Ret_inv in H as (q & w1 & Hq & H). injection Hq as <- <-.
  apply bind_Ret_inv in H as (p & w2 & Hp & H). injection Hp as <- <-. cbn [w_pos set_pos] in H.
  destruct (queue_lease_lost (w_pos w) || _); [by apply bind_Ret_inv in H as (? & ? & _ & [= <- _])|].
  apply bind_Ret_inv in H as (stopped & w3 & Hs & H). injection Hs as <- <-. cbn [w_pos set_pos] in H.
  destruct (sn_stop _).
  { apply bind_Ret_inv in H as (? & ? & _ & H). by apply bind_Ret_inv in H as (? & ? & _ & [= <- _]). }
  apply bind_Ret_inv in H as (? & w4 & _ & H). apply bind_Ret_inv in H as (? & w5 & Hup & H).
  apply bind_Ret_inv in H as (? & ? & _ & [= <- _]). split; [done|]. intros c ->. cbn [on_client] in Hup.
  apply post_put in Hup as (index & req & st & b & H1 & H2). eauto 10.
Qed.

(** The limiter of the run. *)
Definition limiter_chosen (client : option ResultSinkConfig) (limiter : option Execute.permits) : Prop :=
  match client with
  | Some c => exists limited, _environment_boolean "AGENTSTORM_DISTRIBUTED_LIMITS" false = Ok limited /\
                limiter = if limited : bool then Some (Execute.mkPermits c worker_id) else None
  | None => limiter = None
  end.

(** One sound result for every case and iteration of the shard. *)
Definition complete (config : RunConfig) (cases : list TestCase) (shard_index shard_count : Z) (results : list CaseResult) : Prop :=
  Pool.result_key <$> results ≡ₚ Pool.item_key <$> Pool.shard_work config shard_index shard_count cases /\
  Forall (fun r => Runner.disciplined config (cr_attempts r) /\ Runner.accounted config r /\
    exists case, case ∈ Pool.selected shard_index shard_count cases /\ Runner.verdict case r) results.

(** The run of the shard returned, and what it returned was reported. *)
Definition shard_reported (config : RunConfig) (cases : list TestCase) (client : option ResultSinkConfig)
    (shard_index shard_count : Z) (lease_token : string) (code : Z) : Prop :=
  exists ad limiter w1 results summary w2,
    create_adapter netloc_nfkc_ok bracketed_host_ok plugin agents_installed (rc_target config) = Ok ad /\
    limiter_chosen client limiter /\
    run_shard config ad limiter shard_index shard_count cases w1 = (Ret (results, summary), w2) /\
    (exists duration_ms, Summary.summarize (rc_run_id config) shard_index shard_count results (rc_evaluation config) duration_ms
       = Ok summary) /\
    reported config client (is_some limiter) shard_index lease_token results summary (w_pos w2) code /\
    (code = 0 \/ code = 2 -> complete config cases shard_index shard_count results).

(** The stop event is never cleared. *)
Definition stop_persists : Prop :=
  forall n m, (n <= m)%nat -> sn_stop (observe n) = true -> sn_stop (observe m) = true.

Lemma run_and_report_ends policy config cases client span si sc lease :
  stop_persists -> 1 <= wl_concurrency (rc_workload config) ->
  post (run_and_report policy config cases client span si sc lease) (shard_reported config cases client si sc lease).
Proof.
  intros Hstop Hc w code w' H. unfold run_and_report in H.
  apply bind_Ret_inv in H as (ad & w1 & Had & H). apply bind_Ret_inv in H as (limiter & w2 & Hlim & H).
  apply bind_Ret_inv in H as ([results summary] & w3 & Hrun & H). apply report_ends in H.
  pose proof Hrun as Hex. unfold run_shard in Hex. apply bind_Ret_inv in Hex as (rn & w4 & _ & Hex).
  destruct (Execute.execute_returns _ _ _ _ _ _ _ _ _ _ _ _ _ _ _ _ _ Hc Hex) as [Hsum Hall].
  exists ad, limiter, w2, results, summary, w3. split_and!; [..|exact Hrun|exact Hsum|exact H|].
  - unfold Scheduler.liftE in Had. by destruct (create_adapter _ _ _ _ _); [injection Had as <- _|].
  - destruct client as [c|]; cbn; [|by injection Hlim as <-]. apply bind_Ret_inv in Hlim as (b & w5 & Hb & Hl).
    injection Hl as <- _. exists b. split; [|done]. unfold lift in Hb.
    by destruct (_environment_boolean _ _); [injection Hb as <- _|].
  - intros Hcode. apply Hall. intros n Hn. unfold reported in H. destruct (_ || _); [lia|].
    destruct (sn_stop (observe (S (S (w_pos w3))))) eqn:Es; [lia|]. apply not_true_is_false. intros Ht.
    rewrite (Hstop n (S (S (w_pos w3))) ltac:(lia) Ht) in Es. done.
Qed.

(** The answer of the queue. *)
Definition queue_answer (c : ResultSinkConfig) (config : RunConfig) (claim : option QueueClaim) : Prop :=
  exists index req status body payload,
    claim_request c (rc_run_id config) worker_id = Ok req /\ opener index req = ROk status body /\
    post_reply (ROk status body) = Ok payload /\ claim_reply container_repr payload = Ok claim.

Lemma liftE_Ret {A} (r : result exn A) w a w' : Scheduler.liftE r w = (Ret a, w') -> r = Ok a.
Proof. destruct r; [by intros [= <- _]|done]. Qed.

Lemma claim_answered c config : post (claim_shard c (rc_run_id config) worker_id) (queue_answer c config).
Proof.
  intros w claim w' H. unfold claim_shard in H. apply bind_Ret_inv in H as (payload & w1 & Hp & H%liftE_Ret).
  unfold Scheduler._post in Hp. apply bind_Ret_inv in Hp as (req & w2 & Hr & Hp). unfold lift in Hr.
  destruct (claim_request _ _ _) as [req'|] eqn:Er; [|done]. injection Hr as <- _.
  apply bind_Ret_inv in Hp as (rep & w3 & Hs & Hp%liftE_Ret).
  assert (exists index, rep = opener index req') as [index ->].
  { revert Hs. unfold Scheduler.send. intros Hs. apply bind_Ret_inv in Hs as (? & ? & _ & Hs).
    apply bind_Ret_inv in Hs as (index & ? & _ & Hs). apply bind_Ret_inv in Hs as (? & ? & _ & Hs).
    injection Hs as <- _. eauto. }
  destruct (opener index req') as [st b|code b|] eqn:Eo; [|cbn in Hp; by destruct (code =? 429); [destruct (retry_after_of b)|]|done].
  by exists index, req', st, b, payload.
Qed.

Lemma post_guarded {A} policy run_id span h (m : M A) k (P : A -> Prop) (Q : Z -> Prop) :
  post m P -> Q 3 -> (forall a, P a -> post (k a) Q) -> post (guarded policy run_id span h m k) Q.
Proof.
  intros Hm H3 Hk. unfold guarded, attempt.
  apply (post_bind _ _ (fun r => match r with Ok a => P a | Err _ => True end)).
  - apply post_try; [eapply post_bind; [exact Hm|intros a Ha; by apply post_ret]|].
    intros e k'. destruct (is_exception e); [|done]. intros [= <-]. by apply post_ret.
  - intros [a|e] Hr; [by apply Hk|]. unfold harness_failure. apply post_seq. intros _. apply post_seq. intros _.
    by apply post_ret.
Qed.

(** C15.  The exit code of the run command never overstates what happened (the
    stop event, once set, stays set).  A code other than 3 (a harness failure,
    spending not allowed) is about the configuration and the cases loaded from
    the given texts and about the shard of this worker: the index of the
    environment, or the index and lease the queue answered.  It is 0 when the
    queue was empty; otherwise the shard was run by [WorkloadRunner.execute]
    with the factory's adapter and the chosen limiter, its summary is the
    summary of its results, and the code is 3 when a lease was then found lost,
    130 when not but the stop event was set, and 0 or 2, by the thresholds, only
    when neither: then there is exactly one sound result for every case and
    iteration of the shard and, with a Result API, the upload of exactly these
    results was accepted. *)
Theorem exit_code_reports config_text dataset_text w code w' :
  stop_persists ->
  execute "run" config_text dataset_text w = (Ret code, w') ->
  code = 3 \/
  exists document config cases client shard_count,
    loads config_text = Some document /\
    Config.load_run_config re_ok container_repr netloc_nfkc_ok bracketed_host_ok document = Ok config /\
    Config.load_dataset container_repr dataset_text = Ok cases /\ from_environment = Ok client /\
    int_env "AGENTSTORM_SHARD_COUNT" 1 = Ok shard_count /\
    ((_environment_boolean "AGENTSTORM_QUEUE_MODE" false = Ok false /\
      exists shard_index, int_env "AGENTSTORM_SHARD_INDEX" 0 = Ok shard_index /\
        shard_reported config cases client shard_index shard_count "" code) \/
     (_environment_boolean "AGENTSTORM_QUEUE_MODE" false = Ok true /\
      exists c claim, client = Some c /\ queue_answer c config claim /\
        match claim with
        | None => code = 0
        | Some q => shard_reported config cases client (qc_shard_index q) shard_count (qc_lease_token q) code
        end)).
Proof.
  intros Hstop. revert w code w'.
  match goal with |- forall w code w', _ -> @?P code => change (post (execute "run" config_text dataset_text) P) end. cbv beta.
  unfold execute. destruct (loads config_text) as [document|] eqn:Ed; [|apply post_raise].
  eapply post_bind; [apply post_lift; intros config Hconfig; exact Hconfig|]. intros config Hconfig.
  eapply post_bind; [apply post_lift; intros cases Hcases; exact Hcases|]. intros cases Hcases.
  change (String.eqb "run" "validate") with false. cbv iota.
  destruct (negb (provider_spend_allowed _)); [apply post_ret; auto|].
  eapply post_bind; [apply post_lift; intros sc Hsc; exact Hsc|]. intros sc Hsc.
  eapply post_bind; [apply post_lift; intros si Hsi; exact Hsi|]. intros si Hsi.
  apply post_seq. intros _. apply post_seq. intros _. apply post_finally, post_with_span. intros span.
  unfold supervised. eapply post_guarded; [apply post_lift; intros client Hclient; exact Hclient|auto|].
  intros client Hclient. eapply post_guarded; [apply post_true|auto|]. intros _ _.
  eapply post_guarded; [apply post_lift; intros q Hq; exact Hq|auto|]. intros queue_mode Hq.
  pose proof (Config.loaded_concurrency _ _ _ _ _ _ Hconfig) as Hc.
  eapply (post_guarded _ _ _ _ _ _ (fun code => if queue_mode then exists c claim, client = Some c /\ queue_answer c config claim /\
      match claim with None => code = 0 | Some q => shard_reported config cases client (qc_shard_index q) sc (qc_lease_token q) code end
    else shard_reported config cases client si sc "" code)); [|auto|].
  2: { intros code Hcode. apply post_ret. right. exists document, config, cases, client, sc. split_and!; [done..|].
       destruct queue_mode; [right; by split|left]. split; [done|]. by exists si. }
  unfold scheduled. destruct queue_mode.
  - destruct client as [c|]; [|apply post_raise]. eapply post_bind; [apply claim_answered|]. intros [q|] Ha.
    + apply post_seq. intros _. apply post_seq. intros _. eapply post_mono; [by apply run_and_report_ends|].
      intros code Hcode. by exists c, (Some q).
    + apply post_ret. by exists c, None.
  - by apply run_and_report_ends.
Qed.
(** ** Failures *)

Definition terminal_url (c : ResultSinkConfig) (run_id : string) : string := sk_base_url c +:+ (run_path run_id +:+ "/terminal").

(** A request is on the wire whatever becomes of the task. *)
Lemma put_sends req w :
  exists o w', put (Ok req) w = (o, w') /\ o <> Diverge /\ THttp (rq_method req) (rq_url req) ∈ w_trace w'.
Proof.
  unfold put. rewrite (bind_Ret (lift (Ok req)) _ w req w eq_refl). unfold Scheduler.send, mbind, M_bind.
  cbn [modify get_state]. set (w1 := log_event _ w).
  destruct (await_point w1) as [[[]|e|] w2] eqn:E.
  - destruct (Scheduler.liftE_out (put_reply (opener (w_pos w1) req)) w2) as (o & Ho & Hd).
    exists o, w2. split; [exact Ho|]. split; [done|]. by rewrite (Scheduler.await_trace _ _ _ E); left.
  - exists (Raise e), w2. split; [done|]. split; [done|]. by rewrite (Scheduler.await_trace _ _ _ E); left.
  - by pose proof (total_await w1) as Ht; rewrite E in Ht.
Qed.

Lemma wait_for_trace {A} (p : M A) t w (P : list tevent -> Prop) :
  flt (Fin 0) t = true -> (forall w0, exists o w', p w0 = (o, w') /\ o <> Diverge /\ P (w_trace w')) ->
  exists o w', wait_for p t w = (o, w') /\ o <> Diverge /\ P (w_trace w').
Proof.
  intros Ht Hp. unfold wait_for. rewrite Ht. cbn [negb]. cbv zeta.
  match goal with |- context [p ?w0] => destruct (Hp w0) as (o & w' & -> & Hd & HP) end.
  destruct o as [a|e|]; [eexists _, _; split; [done|]; by split| |done].
  destruct e; try (eexists _, _; split; [done|]; by split).
  destruct (w_expired w'); eexists _, _; (split; [done|]); by split.
Qed.

Lemma swallow_out (m : M unit) w (P : list tevent -> Prop) :
  (exists o w', m w = (o, w') /\ o <> Diverge /\ P (w_trace w')) ->
  exists o w', swallow m w = (o, w') /\ (o = Ret tt \/ o = Raise ECancelled) /\ P (w_trace w').
Proof.
  intros (o & w' & H & Hd & HP). unfold swallow, try_with. rewrite H. destruct o as [[]|e|]; [eauto 10| |done].
  destruct (is_exception e) eqn:E; [by exists (Ret tt), w'; auto|]. destruct e; try done. eauto 10.
Qed.

(** C16.  Which failures end the run.  A failure of the Result API in queue
    mode and a lost queue lease are local to the shard: the worker exits with
    3 and sends nothing more, so the lease expires and the shard is retried.
    Every other harness failure of a registered worker asks the Result API to
    mark the run as failed, and the exit code is 3 whatever the API answers. *)
Theorem failure_scope policy run_id span h c e w :
  hs_client h = Some c -> hs_registered h = true ->
  (forall config limited si lease results summary w0, queue_lease_lost (w_pos w0) = true ->
     report policy config (Some c) limited span si lease results summary w0 = (Ret 3, set_pos S (set_pos S w0))) /\
  if hs_queue_mode h && is_sink_error e
  then harness_failure policy run_id span h e w = (Ret 3, log_event (TError span (exn_name e)) w)
  else exists o w', harness_failure policy run_id span h e w = (o, w') /\ (o = Ret 3 \/ o = Raise ECancelled) /\
         THttp "PUT" (terminal_url c run_id) ∈ w_trace w'.
Proof.
  intros Hc Hr. split.
  - intros config limited si lease results summary w0 Hl. unfold report, observed, mbind, M_bind. by rewrite Hl.
  - unfold harness_failure. rewrite Hc, Hr. cbn [andb on_client].
    destruct (hs_queue_mode h && is_sink_error e)%bool; [done|]. cbn [negb].
    unfold span_set_error. rewrite (bind_Ret (modify _) _ w tt _ eq_refl).
    set (w1 := log_event _ w).
    destruct (swallow_out (wait_for (put (mark_terminal c run_id "harness_failed" (harness_reason e))) (of_Z 10)) w1
      (fun t => THttp "PUT" (terminal_url c run_id) ∈ t)) as (o & w' & Ho & Hd & HP).
    { apply wait_for_trace; [rewrite (of_Z_exact 10) by lia; simpl; apply Z.ltb_lt; pose proof one_k_pos; lia|].
      intros w0. apply (put_sends (mkRequest "PUT" (terminal_url c run_id) _ _)). }
    unfold mbind, M_bind. rewrite Ho. destruct Hd as [->| ->]; eauto 10.
Qed.

(** ** Termination *)

Lemma total_put request : total (put request).
Proof.
  unfold put. apply total_bind; [apply total_lift|intros r].
  apply total_bind; [apply Scheduler.total_send|intros; apply Scheduler.total_liftE].
Qed.

Lemma total_swallow m : total m -> total (swallow m).
Proof. intros H. apply total_try; [done|]. intros e k. destruct (is_exception e); [|done]. by intros [= <-]. Qed.

Lemma total_on_client client f : (forall c, total (f c)) -> total (on_client client f).
Proof. intros H. destruct client as [c|]; [apply H|apply total_ret]. Qed.

Lemma total_write : total write_results.
Proof. intros w. unfold write_results. by destruct (files_writable _). Qed.

Lemma total_observed f : total (observed f).
Proof. done. Qed.

Lemma total_report policy config client limited span si lease results summary :
  total (report policy config client limited span si lease results summary).
Proof.
  unfold report. cbv zeta. apply total_bind; [apply total_observed|intros q]. apply total_bind; [apply total_observed|intros p].
  apply total_if.
  { apply total_bind; [apply total_if; [apply total_on_client; intros; apply total_swallow, total_put|done]|done]. }
  apply total_bind; [apply total_stop_is_set|intros stopped]. apply total_if.
  - apply total_bind; [|intros; by apply total_bind].
    apply total_swallow, total_wait_for. unfold flush.
    apply total_bind; [apply total_on_client; intros; apply total_swallow, total_put|intros _].
    apply total_bind; [apply total_swallow, total_write|intros _].
    apply total_on_client. intros. apply total_swallow, total_put.
  - apply total_bind; [apply total_write|intros _]. apply total_bind; [apply total_on_client; intros; apply total_put|intros _].
    apply total_bind; [|done]. unfold set_attributes. generalize (summary_attributes summary).
    induction l as [|kv l IH]; simpl; [done|]. by apply total_bind.
Qed.

Lemma total_guarded_step {A} policy run_id span h (m : M A) k :
  total m -> (forall a, total (k a)) -> total (guarded policy run_id span h m k).
Proof.
  intros Hm Hk. unfold guarded, attempt. apply total_bind.
  - apply total_try; [apply total_bind; [exact Hm|done]|]. intros e k'. destruct (is_exception e); [|done]. by intros [= <-].
  - intros [a|e]; [done|]. unfold harness_failure. apply total_bind; [done|intros _]. apply total_bind; [|done].
    apply total_if; [|done]. apply total_on_client. intros c. apply total_swallow, total_wait_for, total_put.
Qed.

(** The worker ends when the execution of its shard does. *)
Lemma main_ends command config_text dataset_text :
  (forall config ad limiter si sc cases, total (Execute.execute re_sub container_repr agents_installed re_ok opener sv schedule
     config ad limiter si sc cases)) ->
  total (main command config_text dataset_text).
Proof.
  intros Hrun. apply total_try; [|intros e k; destruct (is_exception e); [|done]; by intros [= <-]].
  unfold execute. apply total_bind; [apply total_lift|intros config]. apply total_bind; [apply total_lift|intros cases].
  apply total_if; [done|]. apply total_if; [done|].
  apply total_bind; [apply total_lift|intros sc]. apply total_bind; [apply total_lift|intros si].
  apply total_bind; [apply total_lift|intros _]. cbv zeta. apply total_bind; [done|intros _].
  apply total_finally; [apply total_with_span; intros span|
    apply total_bind; [done|intros leased]; apply total_bind; [apply total_if; [apply total_await|done]|done]].
  assert (forall client si' lease, total (run_and_report (Telemetry.policy_of re_sub (rc_telemetry config)) config cases
            client span si' sc lease)) as Hrr.
  { intros client si' lease. unfold run_and_report. apply total_bind; [apply Scheduler.total_liftE|intros ad].
    apply total_bind; [destruct client; [apply total_bind; [apply total_lift|done]|done]|intros limiter].
    apply total_bind; [apply total_bind; [apply total_lift|intros _; apply Hrun]|intros []; apply total_report]. }
  unfold supervised. apply total_guarded_step; [apply total_lift|intros client].
  apply total_guarded_step; [apply total_on_client; intros c; apply total_if; [done|apply total_put]|intros _].
  apply total_guarded_step; [apply total_lift|intros q]. apply total_guarded_step; [|done].
  unfold scheduled. apply total_if; [|apply Hrr]. destruct client as [c|]; [|done].
  apply total_bind; [apply total_bind; [apply Scheduler.total_post|intros; apply Scheduler.total_liftE]|].
  intros [q'|]; [|done]. apply total_bind; [done|intros _]. apply total_bind; [done|intros _; apply Hrr].
Qed.
End Worker.
(** ** A local run on concrete inputs *)

Definition calm : Env := fun _ => mkSnapshot (Fin 0) false false (fun c => c) false.
Definition start_task : World := mkTask 0 None false (Circuit.circuit_init None) [] 0 [] [] false None false.

Definition sample_line : string := "{" +:+ qt "input" +:+ ":" +:+ qt "hi" +:+ "}".
Definition yes (_ : string) : bool := true.
Definition never (_ : nat) : bool := false.
Definition always (_ : nat) : bool := true.

(** No service is reached by a run of the fake adapter without assertions. *)
Definition no_services : Execute.services := {|
  Execute.sv_re_search := fun _ _ => false; Execute.sv_schema_ok := fun _ => true;
  Execute.sv_validate := fun _ _ => Ok None; Execute.sv_json_raises := fun _ => None;
  Execute.sv_is_callable := fun _ => Ok false; Execute.sv_call_python := fun _ _ _ _ => Err (EOther "ImportError");
  Execute.sv_exn_text := fun _ => ""; Execute.sv_json_error := fun s => s;
  Execute.sv_transport := fun _ _ => OpenAICompat.HFailure; Execute.sv_http_date_delta := fun _ _ => None;
  Execute.sv_environ_key := ""; Execute.sv_openai_installed := false; Execute.sv_sdk_calls := fun _ => [];
  Execute.sv_sdk_end := fun _ => Err (EOther "ImportError"); Execute.sv_serialize_output := fun _ => Ok "";
  Execute.sv_plugin_adapter := fun _ _ => Execute.no_adapter; Execute.sv_horizon := 0 |}.

(** The only worker takes the only item, its case ends, and it finds no more. *)
Definition sample_schedule (_ : nat) : list Execute.choice :=
  [Execute.Takes 0; Execute.Ends 0 calm start_task; Execute.Drains 0].

Definition sample_execute : M Z :=
  @execute calm (fun _ => None) (fun _ _ => RUnavailable) yes (fun _ s => s) (fun _ => "") yes yes
    (fun _ _ => PImportFailed) false false always never never no_services sample_schedule "run" "{}" sample_line.

Lemma exit_code_reports_witness :
  (sample_execute start_task).1 = Ret 0 /\
  exists config cases results, Config.load_dataset (fun _ => "") sample_line = Ok cases /\
    length cases = 1%nat /\ complete config cases 0 1 results.
Proof.
  assert ((sample_execute start_task).1 = Ret 0) as Hc by (vm_compute; reflexivity).
  split; [exact Hc|].
  destruct (@exit_code_reports calm (fun _ => None) (fun _ _ => RUnavailable) yes (fun _ s => s) (fun _ => "") yes yes
    (fun _ _ => PImportFailed) false false always never never no_services sample_schedule "{}" sample_line start_task 0
    (sample_execute start_task).2) as [H|(document & config & cases & client & sc & _ & _ & Hd & _ & Hsc & [H|H])].
  - intros n m _ H. discriminate H.
  - rewrite <- Hc. apply surjective_pairing.
  - discriminate H.
  - destruct H as (_ & si & Hsi & (ad & lim & w1 & results & summary & w2 & _ & _ & _ & _ & _ & Hall)).
    exists config, cases, results. split; [exact Hd|]. split; [vm_compute in Hd; injection Hd as <-; reflexivity|].
    injection Hsc as <-. injection Hsi as <-. apply Hall. by left.
  - destruct H as [H _]. discriminate H.
Defined.

Lemma failure_scope_witness :
  exists o w', @harness_failure calm (fun _ _ => RUnavailable) (fun v => v) "run-1" 0
      (mkHarness (Some sample_sink) true false) (EOther "OSError") start_task = (o, w') /\
    (o = Ret 3 \/ o = Raise ECancelled) /\ THttp "PUT" "https://api/v1/runs/run-1/terminal" ∈ w_trace w'.
Proof.
  exact (proj2 (@failure_scope calm (fun _ _ => RUnavailable) always never never (fun v => v) "run-1" 0
    (mkHarness (Some sample_sink) true false) sample_sink (EOther "OSError") start_task eq_refl eq_refl)).
Defined.
End Worker.
