(* ===== verification/Replay.v ===== *)
(** * The replay client ([integrations/promptfoo/client.py])

    A client that reads a finished run back from the Result API.  What the
    server answers is a parameter: a function of the requests sent so far and
    of the request at hand, so that the server may change its mind between two
    requests.  A reply body is decoded text; [repr] is the text of [repr(v)]. *)
From S2P Require Import Prelude PyFloat PyStr PyVal PyJson JsonParse.
From S2P Require Import Models OpenAIValidate Results.
Import PyFloat PyStr PyVal PyJson JsonParse OpenAIValidate.

Module Replay.

(** ** Code that talks to the Result API *)

Inductive api_exn :=
| ResultAPIError (msg : string)
| PyError (e : pyexn)             (* an exception of the language *)
| OSError                         (* a file that cannot be read or written *)
| TransportError (type_name : string).   (* any other exception of the transport *)

Inductive ending (A : Type) :=
| Done (a : A)
| Failed (e : api_exn)
| OutOfFuel.
Arguments Done {A} a.
Arguments Failed {A} e.
Arguments OutOfFuel {A}.

Record http_get := mkGet { gt_url : string; gt_headers : list (string * string); gt_timeout : float }.

(** What [urlopen] and the reading of the body do with a request. *)
Inductive get_reply :=
| GBody (text : string)
| GHttpError (code : Z)
| GFailed                         (* URLError, TimeoutError or another OSError *)
| GAborted (type_name : string).  (* an exception the client does not catch *)

(** The results of one run, by case id and iteration. *)
Abbreviation index := (list (string * Z * dict)).

Record session := mkSession {
  sn_sent : list http_get;                                   (* newest first *)
  sn_cache : list (string * string * string * index)         (* the provider's _CASE_CACHE *)
}.

Definition R (A : Type) : Type := session -> ending A * session.

#[global] Instance R_ret : MRet R := fun A a s => (Done a, s).

#[global] Instance R_bind : MBind R := fun A B k m s =>
  match m s with
  | (Done a, s') => k a s'
  | (Failed e, s') => (Failed e, s')
  | (OutOfFuel, s') => (OutOfFuel, s')
  end.

Definition fail {A} (e : api_exn) : R A := fun s => (Failed e, s).
Definition api_error {A} (msg : string) : R A := fail (ResultAPIError msg).
Definition out_of_fuel {A} : R A := fun s => (OutOfFuel, s).

(** Pure code that may raise. *)
Definition pure {A} (r : result api_exn A) : R A :=
  match r with Ok a => mret a | Err e => fail e end.

Definition READ_TOKEN_ENV : string := "AGENTSTORM_RESULT_READ_TOKEN".

(** [os.environ.get(READ_TOKEN_ENV, "")], with the variable's value. *)
Definition read_token_from_environment (value : option string) : result api_exn string :=
  let token := default "" value in
  if String.eqb token "" then Err (ResultAPIError (READ_TOKEN_ENV +:+ " is required")) else Ok token.

Section BaseURL.
Context (netloc_nfkc_ok bracketed_host_ok : string -> bool).

(** [urlunsplit((scheme, netloc, path, "", ""))] of a non-empty location. *)
Definition urlunsplit (scheme netloc path : string) : string :=
  let path := if String.eqb path "" || startswith "/" path then path else "/" +:+ path in
  scheme +:+ "://" +:+ netloc +:+ path.

Definition normalize_base_url (value : string) : result api_exn string :=
  match urlsplit netloc_nfkc_ok bracketed_host_ok (remove_breaks (lstrip_c0 value)) with
  | Err e => Err (PyError e)
  | Ok parsed =>
      guard ((String.eqb (sp_scheme parsed) "http" || String.eqb (sp_scheme parsed) "https") &&
             negb (String.eqb (sp_netloc parsed) ""))
        (ResultAPIError "Result API URL must be an absolute HTTP(S) URL");;
      guard (negb (nonempty_opt (userinfo parsed).1 || nonempty_opt (userinfo parsed).2 ||
                   negb (String.eqb (sp_query parsed) "") || negb (String.eqb (sp_fragment parsed) "")))
        (ResultAPIError "Result API URL must not contain credentials, a query, or a fragment");;
      Ok (urlunsplit (sp_scheme parsed) (sp_netloc parsed) (rstrip_ascii "/" (sp_path parsed)))
  end.

Record ResultAPIClient := mkClient { cl_base_url : string; cl_token : string; cl_timeout_seconds : float }.

(** [ResultAPIClient(base_url, token)] *)
Definition new_client (base_url token : string) : result api_exn ResultAPIClient :=
  url ← normalize_base_url base_url;
  guard (negb (String.eqb token "")) (ResultAPIError "Result API read token is required");;
  Ok (mkClient url token (of_Z 15)).
End BaseURL.

Definition quote_run_id (run_id : string) : result api_exn string :=
  guard (negb (String.eqb run_id "")) (ResultAPIError "run ID is required");;
  Ok (Results.quote_url run_id).

(** A list whose items are all dictionaries. *)
Fixpoint all_dicts (l : list val) : option (list dict) :=
  match l with
  | [] => Some []
  | VDict d :: l' => ds ← all_dicts l'; Some (d :: ds)
  | _ => None
  end.

(** [urlencode({"limit": 500, "cursor": cursor})], without an empty cursor. *)
Definition cases_query (cursor : string) : string :=
  "limit=500" +:+ (if String.eqb cursor "" then "" else "&cursor=" +:+ Results.quote_plus cursor).

Section Client.
Context (repr : val -> string).
Context (server : list http_get -> http_get -> get_reply).

(** [urlopen(request)] *)
Definition urlopen (request : http_get) : R get_reply := fun s =>
  (Done (server (sn_sent s) request), mkSession (request :: sn_sent s) (sn_cache s)).

Definition get_request (c : ResultAPIClient) (path : string) : http_get :=
  mkGet (cl_base_url c +:+ path)
    [("Accept", "application/json"); ("Authorization", "Bearer " +:+ cl_token c)] (cl_timeout_seconds c).

(** What [_get] makes of a reply. *)
Definition read_reply (reply : get_reply) : result api_exn dict :=
  match reply with
  | GBody text =>
      match loads text with
      | None => Err (ResultAPIError "Result API request failed")
      | Some (VDict payload) => Ok payload
      | Some _ => Err (ResultAPIError "Result API returned a non-object response")
      end
  | GHttpError code => Err (ResultAPIError ("Result API request failed with HTTP " +:+ str_of_Z code))
  | GFailed => Err (ResultAPIError "Result API request failed")
  | GAborted name => Err (TransportError name)
  end.

Definition _get (c : ResultAPIClient) (path : string) : R dict :=
  reply ← urlopen (get_request c path); pure (read_reply reply).

Definition get_run (c : ResultAPIClient) (run_id : string) : R dict :=
  quoted ← pure (quote_run_id run_id);
  _get c ("/v1/runs/" +:+ quoted).

(** What one page adds, and the cursor of the next page if there is one. *)
Definition read_page (page : dict) (seen_cursors : list string) : result api_exn (list dict * option string) :=
  cases ← match get_none page "cases" with
          | VList raw_cases =>
              match all_dicts raw_cases with
              | Some ds => Ok ds
              | None => Err (ResultAPIError "Result API case page contains an invalid case")
              end
          | _ => Err (ResultAPIError "Result API case page is missing a cases array")
          end;
  match get_none page "next_cursor" with
  | VNone => Ok (cases, None)
  | VStr next_cursor =>
      if String.eqb next_cursor "" then Ok (cases, None)
      else if existsb (String.eqb next_cursor) seen_cursors
      then Err (ResultAPIError "Result API repeated a pagination cursor")
      else Ok (cases, Some next_cursor)
  | VList _ => Err (PyError (TypeError "unhashable type: 'list'"))
  | VDict _ => Err (PyError (TypeError "unhashable type: 'dict'"))
  | _ => Err (ResultAPIError "Result API returned an invalid pagination cursor")
  end.

Definition cases_path (quoted cursor : string) : string :=
  "/v1/runs/" +:+ quoted +:+ "/cases?" +:+ cases_query cursor.

(** The [while True] of [list_all_cases], one page per unit of fuel. *)
Fixpoint page_loop (fuel : nat) (c : ResultAPIClient) (run_id : string) (cases : list dict) (cursor : string)
    (seen_cursors : list string) : R (list dict) :=
  match fuel with
  | O => out_of_fuel
  | S fuel' =>
      quoted ← pure (quote_run_id run_id);
      page ← _get c (cases_path quoted cursor);
      '(raw_cases, next) ← pure (read_page page seen_cursors);
      let cases := cases ++ raw_cases in
      match next with
      | None => mret cases
      | Some next_cursor => page_loop fuel' c run_id cases next_cursor (next_cursor :: seen_cursors)
      end
  end.

Definition list_all_cases (fuel : nat) (c : ResultAPIClient) (run_id : string) : R (list dict) :=
  page_loop fuel c run_id [] "" [].

Definition case_identity (case : dict) : string :=
  py_str repr (get_or case "case_id" (VStr "<unknown>")) +:+ "#" +:+
  py_str repr (get_or case "iteration" (VStr "<unknown>")).

Definition has_output (case : dict) : bool :=
  match get_none case "output" with VStr _ => true | _ => false end.

Definition completed_replay (fuel : nat) (c : ResultAPIClient) (run_id : string) : R (dict * list dict) :=
  run ← get_run c run_id;
  if negb (eq_str (get_none run "status") "complete")
  then api_error ("run " +:+ repr (VStr run_id) +:+ " is not complete")
  else
    cases ← list_all_cases fuel c run_id;
    match cases with
    | [] => api_error ("run " +:+ repr (VStr run_id) +:+ " has no durable cases")
    | _ =>
        match case_identity <$> List.filter (fun case => negb (has_output case)) cases with
        | [] => mret (run, cases)
        | missing =>
            api_error ("durable output is unavailable for run " +:+ repr (VStr run_id) +:+
              "; enable sensitive durable results before execution (missing: " +:+
              join ", " (take 3 missing) +:+ ")")
        end
    end.
End Client.
(** ** Pagination *)

Section Pagination.
Context (server : list http_get -> http_get -> get_reply) (c : ResultAPIClient) (run_id : string).
Hypothesis run_id_given : run_id <> "".

(** The request for the page at a cursor. *)
Definition page_request (cursor : string) : http_get :=
  get_request c (cases_path (Results.quote_url run_id) cursor).

Definition sending (req : http_get) (s : session) : session := mkSession (req :: sn_sent s) (sn_cache s).

Lemma page_loop_step fuel cases cursor seen s :
  page_loop server (S fuel) c run_id cases cursor seen s =
  let req := page_request cursor in
  match (d ← read_reply (server (sn_sent s) req); read_page d seen) with
  | Err e => (Failed e, sending req s)
  | Ok (raw, None) => (Done (cases ++ raw), sending req s)
  | Ok (raw, Some k) => page_loop server fuel c run_id (cases ++ raw) k (k :: seen) (sending req s)
  end.
Proof.
  cbn [page_loop]. unfold quote_run_id. rewrite (proj2 (String.eqb_neq _ _) run_id_given).
  unfold _get, urlopen, pure, page_request, sending, mbind, R_bind, result_bind, mret, R_ret. cbn.
  destruct (read_reply _) as [d|e]; [|done]. by destruct (read_page d seen) as [[raw [k|]]|e].
Qed.

(** A reply of the server names [k] as the next page. *)
Definition page_cursor (k : string) : Prop :=
  exists h req text page, server h req = GBody text /\ loads text = Some (VDict page) /\
    get_none page "next_cursor" = VStr k.

Lemma read_page_next reply seen raw k :
  (d ← read_reply reply; read_page d seen) = Ok (raw, Some k) ->
  k <> "" /\ k ∉ seen /\ exists text page, reply = GBody text /\ loads text = Some (VDict page) /\
    get_none page "next_cursor" = VStr k.
Proof.
  unfold mbind, result_bind, read_reply, read_page, mbind, result_bind. intros H.
  destruct reply as [text| | |]; try done. destruct (loads text) as [[| | | | | |page|]|] eqn:El; try done.
  destruct (get_none page "cases"); try done. destruct (all_dicts _) as [ds|]; try done.
  destruct (get_none page "next_cursor") as [| | | |k'| | |] eqn:Ek; try done.
  destruct (String.eqb_spec k' ""); [done|]. destruct (existsb (String.eqb k') seen) eqn:Es; [done|].
  injection H as <- <-. split_and!; [done| |eauto].
  intros Hin. assert (existsb (String.eqb k') seen = true); [|congruence].
  apply existsb_exists. exists k'. split; [by apply list_elem_of_In|apply String.eqb_refl].
Qed.

(** The pages a run of the loop asks for: the first cursor, then cursors the
    server has named, none of them twice. *)
Lemma page_loop_requests fuel cases cursor seen s o s' :
  cursor = "" \/ cursor ∈ seen ->
  page_loop server fuel c run_id cases cursor seen s = (o, s') ->
  exists ks, sn_sent s' = rev (page_request <$> ks) ++ sn_sent s /\ sn_cache s' = sn_cache s /\ NoDup ks /\
    (forall k, k ∈ ks -> k = cursor \/ k <> "" /\ k ∉ seen /\ page_cursor k) /\
    (o = OutOfFuel -> length ks = fuel).
Proof.
  revert cases cursor seen s. induction fuel as [|fuel IH]; intros cases cursor seen s Hc H.
  - injection H as <- <-. exists []. split_and!; [done..|constructor|set_solver|done].
  - rewrite page_loop_step in H. cbv zeta in H.
    set (req := page_request cursor) in *.
    assert (forall o0, o0 <> OutOfFuel -> (o0, sending req s) = (o, s') -> exists ks,
      sn_sent s' = rev (page_request <$> ks) ++ sn_sent s /\ sn_cache s' = sn_cache s /\ NoDup ks /\
      (forall k, k ∈ ks -> k = cursor \/ k <> "" /\ k ∉ seen /\ page_cursor k) /\
      (o = OutOfFuel -> length ks = S fuel)) as Hlast.
    { intros o0 Ho [= -> <-]. exists [cursor]. split_and!; [done..|apply NoDup_singleton|set_solver|done]. }
    destruct (d ← _; _) as [[raw [k|]]|e] eqn:Er; [|by refine (Hlast _ _ H)..].
    apply read_page_next in Er as (Hk1 & Hk2 & text & page & Hp).
    apply IH in H as (ks & Hs & Hca & Hnd & Hks & Hf); [|set_solver].
    exists (cursor :: ks). split_and!.
    + rewrite Hs. csimpl. rewrite <- app_assoc. done.
    + by rewrite Hca.
    + constructor; [|done]. intros Hin. apply Hks in Hin. set_solver.
    + assert (page_cursor k) by (unfold page_cursor; naive_solver).
      intros k' [->|Hin]%elem_of_cons; [by left|]. apply Hks in Hin. set_solver.
    + intros Ho. simpl. by rewrite Hf.
Qed.

Lemma quote_plus_inj s t : Results.quote_plus s = Results.quote_plus t -> s = t.
Proof.
  intros H. assert (Results.quote_plus s +:+ "/" = Results.quote_plus t +:+ "/") as H' by (by rewrite H).
  by apply Results.quote_plus_delimited in H' as [-> _].
Qed.

Lemma page_url_inj k1 k2 : gt_url (page_request k1) = gt_url (page_request k2) -> k1 = k2.
Proof.
  unfold page_request, get_request, cases_path, cases_query. cbn [gt_url]. intros H.
  do 5 apply Results.app_str_inj_l in H.
  destruct (String.eqb_spec k1 ""), (String.eqb_spec k2 ""); subst; try done.
  apply Results.app_str_inj_l in H. by apply quote_plus_inj.
Qed.

(** C40.  Reading the cases of a run never asks for a page twice, whatever
    the server answers; and when the server names cursors from a finite set
    [L] only, it ends within [length L + 1] requests. *)
Theorem pagination_ends fuel s o s' :
  list_all_cases server fuel c run_id s = (o, s') ->
  exists reqs, sn_sent s' = reqs ++ sn_sent s /\ NoDup (gt_url <$> reqs) /\
    forall L, (forall k, page_cursor k -> k ∈ L) ->
      (length reqs <= S (length L))%nat /\ ((S (length L) < fuel)%nat -> o <> OutOfFuel).
Proof.
  intros H. apply page_loop_requests in H as (ks & Hs & _ & Hnd & Hks & Hf); [|by left].
  exists (rev (page_request <$> ks)). split_and!; [done| |].
  - rewrite <- map_rev, <- list_fmap_compose. apply NoDup_fmap_2_strong; [|apply NoDup_ListNoDup, List.NoDup_rev; by apply NoDup_ListNoDup].
    intros k1 k2 _ _. apply page_url_inj.
  - intros L HL. assert (length ks <= S (length L))%nat as Hlen.
    { apply (NoDup_incl_length (l' := "" :: L)); [by apply NoDup_ListNoDup|]. intros k Hk%list_elem_of_In.
      apply Hks in Hk as [->|(_ & _ & Hk)]; [by left|]. right. by apply list_elem_of_In, HL. }
    rewrite length_rev, length_fmap. split; [done|]. intros Hfu Ho. specialize (Hf Ho). lia.
Qed.

(** The server holds the cases [all] in pages at the cursors [cursor :: ks]:
    at every moment it answers the request for a page with its cases and the
    cursor of the next one. *)
Definition answers (cursor : string) (page : dict) : Prop :=
  forall h, exists text, server h (page_request cursor) = GBody text /\ loads text = Some (VDict page).

Inductive serves : string -> list string -> list dict -> Prop :=
| serves_last cursor page cases :
    answers cursor page -> get_none page "cases" = VList (VDict <$> cases) ->
    get_none page "next_cursor" = VNone \/ get_none page "next_cursor" = VStr "" ->
    serves cursor [] cases
| serves_more cursor page cases next ks rest :
    answers cursor page -> get_none page "cases" = VList (VDict <$> cases) ->
    get_none page "next_cursor" = VStr next -> next <> "" -> serves next ks rest ->
    serves cursor (next :: ks) (cases ++ rest).

Lemma all_dicts_dicts ds : all_dicts (VDict <$> ds) = Some ds.
Proof. induction ds as [|d ds IH]; [done|]. csimpl. by rewrite IH. Qed.

Lemma page_loop_serves cursor ks all :
  serves cursor ks all -> forall fuel cases seen s,
  NoDup ks -> (forall k, k ∈ ks -> k ∉ seen) -> (length ks < fuel)%nat ->
  page_loop server fuel c run_id cases cursor seen s =
  (Done (cases ++ all), mkSession (rev (page_request <$> cursor :: ks) ++ sn_sent s) (sn_cache s)).
Proof.
  induction 1 as [cursor page cs Ha Hcs Hn|cursor page cs next ks rest Ha Hcs Hn Hne Hr IH];
    intros [|fuel] cases seen s Hnd Hseen Hf; [simpl in Hf; lia| |simpl in Hf; lia|];
    rewrite page_loop_step; cbv zeta; destruct (Ha (sn_sent s)) as (text & -> & Hl); cbn [read_reply]; rewrite Hl;
    unfold mbind, result_bind, read_page, mbind, result_bind; rewrite Hcs, all_dicts_dicts.
  - by destruct Hn as [-> | ->].
  - rewrite Hn, (proj2 (String.eqb_neq _ _) Hne). apply NoDup_cons in Hnd as [Hnk Hnd].
    destruct (existsb (String.eqb next) seen) eqn:E.
    { apply existsb_exists in E as (k & Hk & ->%String.eqb_eq). apply list_elem_of_In in Hk. set_solver. }
    rewrite IH; [|done|set_solver|simpl in Hf; lia]. unfold sending. cbn [sn_sent sn_cache].
    rewrite <- app_assoc. do 2 f_equal. csimpl. by rewrite <- !app_assoc.
Qed.

(** Reading a paginated run back gives all its cases in the order of
    the pages, with one request per page. *)
Theorem pagination_complete ks all fuel s :
  serves "" ks all -> NoDup ks -> (length ks < fuel)%nat ->
  list_all_cases server fuel c run_id s =
  (Done all, mkSession (rev (page_request <$> "" :: ks) ++ sn_sent s) (sn_cache s)).
Proof. intros Hs Hnd Hf. apply (page_loop_serves _ _ _ Hs); [done|set_solver|done]. Qed.
End Pagination.
(** ** Completed runs *)

Section Completed.
Context (repr : val -> string) (server : list http_get -> http_get -> get_reply) (c : ResultAPIClient) (run_id : string).

Definition run_request : http_get := get_request c ("/v1/runs/" +:+ Results.quote_url run_id).

Lemma filter_none {A} (f : A -> bool) l : List.filter f l = [] -> Forall (fun x => f x = false) l.
Proof. induction l as [|x l IH]; simpl; [done|]. destruct (f x) eqn:E; [done|]. auto. Qed.

(** What is replayed is a complete run whose cases all have their output. *)
Lemma completed_replay_sound fuel s run cases s' :
  completed_replay repr server fuel c run_id s = (Done (run, cases), s') ->
  get_none run "status" = VStr "complete" /\ cases <> [] /\
  Forall (fun case => exists out, get_none case "output" = VStr out) cases /\
  exists s1, list_all_cases server fuel c run_id s1 = (Done cases, s').
Proof.
  unfold completed_replay, mbind, R_bind. destruct (get_run _ _ _ s) as [[run0| |] s1]; try done.
  destruct (eq_str (get_none run0 "status") "complete") eqn:Est; [|done]. simpl.
  destruct (list_all_cases _ _ _ _ s1) as [[cases0| |] s2] eqn:El; try done.
  destruct cases0 as [|c0 cs0]; [done|].
  destruct (case_identity repr <$> List.filter _ (c0 :: cs0)) eqn:Em; [|done]. intros [= <- <- <-].
  apply fmap_nil_inv, filter_none in Em. split_and!; [|done| |eauto].
  - unfold eq_str in Est. destruct (get_none run0 "status"); try done. bool_simpl. congruence.
  - eapply Forall_impl; [exact Em|]. intros d Hd. unfold has_output in Hd. simpl in Hd.
    destruct (get_none d "output"); try done. eauto.
Qed.

(** A server with a complete paginated run: the client gets all of it. *)
Lemma completed_replay_reads run ks cases fuel s :
  run_id <> "" -> (forall h, exists text, server h run_request = GBody text /\ loads text = Some (VDict run)) ->
  get_none run "status" = VStr "complete" -> serves server c run_id "" ks cases -> NoDup ks ->
  (length ks < fuel)%nat -> cases <> [] -> Forall (fun case => has_output case = true) cases ->
  completed_replay repr server fuel c run_id s =
  (Done (run, cases),
   mkSession (rev (page_request c run_id <$> "" :: ks) ++ run_request :: sn_sent s) (sn_cache s)).
Proof.
  intros Hid Hrun Hst Hsv Hnd Hf Hne Hout. destruct (Hrun (sn_sent s)) as (text & Hg & Hl).
  assert (get_run server c run_id s = (Done run, mkSession (run_request :: sn_sent s) (sn_cache s))) as Hr.
  { unfold get_run, quote_run_id. rewrite (proj2 (String.eqb_neq _ _) Hid).
    unfold _get, urlopen, pure, mbind, R_bind, result_bind. cbn. fold run_request. rewrite Hg. cbn [read_reply]. by rewrite Hl. }
  unfold completed_replay, mbind, R_bind. rewrite Hr, Hst. cbn [eq_str negb]. rewrite String.eqb_refl. cbn [negb].
  unfold list_all_cases. rewrite (page_loop_serves _ _ _ Hid _ _ _ Hsv); [|done|set_solver|done]. cbn [app].
  assert (List.filter (fun case => negb (has_output case)) cases = []) as ->.
  { clear -Hout. induction Hout as [|x l Hx _ IH]; [done|]. simpl. by rewrite Hx. }
  by destruct cases.
Qed.
End Completed.

(** ** A concrete run of two pages *)

Definition sample_client : ResultAPIClient := mkClient "http://api" "t" (of_Z 15).

Definition sample_result (case_id : string) (iteration : Z) (output : string) : dict :=
  [("case_id", VStr case_id); ("iteration", VInt iteration); ("output", VStr output);
   ("input_tokens", VInt 3); ("output_tokens", VInt 4); ("latency_ms", VInt 12)].

Definition sample_results : list dict :=
  [sample_result "a" 0 "one"; sample_result "b" 0 "two"; sample_result "a" 1 "three"].

Definition json_text (v : val) : string := match dumps compact v with Ok s => s | Err _ => "" end.

Definition sample_run : dict := [("status", VStr "complete")].
Definition sample_page1 : dict :=
  [("cases", VList (VDict <$> take 2 sample_results)); ("next_cursor", VStr "c/2")].
Definition sample_page2 : dict := [("cases", VList (VDict <$> drop 2 sample_results))].

Definition sample_server (h : list http_get) (req : http_get) : get_reply :=
  let url := gt_url req in
  if String.eqb url "http://api/v1/runs/r1/cases?limit=500" then GBody (json_text (VDict sample_page1))
  else if String.eqb url "http://api/v1/runs/r1/cases?limit=500&cursor=c%2F2" then GBody (json_text (VDict sample_page2))
  else if String.eqb url "http://api/v1/runs/r1" then GBody (json_text (VDict sample_run))
  else GHttpError 404.

Lemma sample_serves : serves sample_server sample_client "r1" "" ["c/2"] sample_results.
Proof.
  apply (serves_more _ _ _ "" sample_page1 (take 2 sample_results) "c/2" [] (drop 2 sample_results)); try done.
  - intros h. exists (json_text (VDict sample_page1)). split; vm_compute; reflexivity.
  - apply (serves_last _ _ _ "c/2" sample_page2); [|done|by left]. intros h. exists (json_text (VDict sample_page2)). split; vm_compute; reflexivity.
Qed.

Lemma pagination_complete_witness :
  (list_all_cases sample_server 2 sample_client "r1" (mkSession [] [])).1 = Done sample_results.
Proof.
  rewrite (pagination_complete sample_server sample_client "r1" ltac:(done) ["c/2"] sample_results 2 (mkSession [] [])
    sample_serves (NoDup_singleton _) ltac:(simpl; lia)). reflexivity.
Defined.

Lemma pagination_ends_witness :
  exists reqs, sn_sent (list_all_cases sample_server 9 sample_client "r1" (mkSession [] [])).2 = reqs ++ [] /\
    length reqs = 2%nat /\ NoDup (gt_url <$> reqs).
Proof.
  destruct (list_all_cases sample_server 9 sample_client "r1" (mkSession [] [])) as [o s'] eqn:E.
  destruct (pagination_ends sample_server sample_client "r1" ltac:(done) 9 _ o s' E) as (reqs & Hs & Hnd & _).
  exists reqs. cbn [snd]. split; [exact Hs|]. split; [|exact Hnd].
  assert (sn_sent s' = sn_sent (list_all_cases sample_server 9 sample_client "r1" (mkSession [] [])).2) as Hx by (by rewrite E).
  rewrite Hs in Hx. cbn [sn_sent] in Hx. rewrite app_nil_r in Hx. rewrite Hx. vm_compute. reflexivity.
Defined.

(** A server that names a fresh cursor on every page keeps the client
    reading: no amount of fuel is enough. *)
Definition endless_server (h : list http_get) (req : http_get) : get_reply :=
  GBody (json_text (VDict [("cases", VList []); ("next_cursor", VStr (str_of_Z (Z.of_nat (length h))))])).

Example endless_pages :
  (list_all_cases endless_server 40 sample_client "r1" (mkSession [] [])).1 = OutOfFuel.
Proof. vm_compute. reflexivity. Qed.

(** A cursor that is neither text nor null leaves the client as TypeError. *)
Example cursor_escapes :
  (list_all_cases (fun _ _ => GBody (json_text (VDict [("cases", VList []); ("next_cursor", VList [])]))) 3
     sample_client "r1" (mkSession [] [])).1 = Failed (PyError (TypeError "unhashable type: 'list'")).
Proof. vm_compute. reflexivity. Qed.

Definition normalized (url : string) : result api_exn string := normalize_base_url (fun _ => true) (fun _ => true) url.

Example base_urls :
  normalized "HTTP://api:8080/root//" = Ok "http://api:8080/root" /\
  normalized "ftp://api" = Err (ResultAPIError "Result API URL must be an absolute HTTP(S) URL") /\
  normalized "https://u:p@api" = Err (ResultAPIError "Result API URL must not contain credentials, a query, or a fragment").
Proof. split_and!; vm_compute; reflexivity. Qed.
End Replay.
