(* ===== verification/Promptfoo.v ===== *)
(** * Promptfoo replay ([integrations/promptfoo/provider.py] and [generate.py])

    The provider answers a Promptfoo test from the durable results of a
    completed run, which it reads once per process; the generator builds the
    Promptfoo configuration, one test per durable result ([Generate.v] has the
    file it is written to).  The location of
    the provider file and the text of the dataset file are parameters. *)
From S2P Require Import Prelude PyFloat PyStr PyVal PyJson JsonParse PyDecimal.
From S2P Require Import Models Sha256 OpenAIValidate Config Results Replay.
Import PyFloat PyStr PyVal PyJson JsonParse PyDecimal Replay.

Module Promptfoo.

(** ** provider.py *)

Definition non_negative_int (value : val) (field : string) : result api_exn Z :=
  match value with
  | VInt z => if z <? 0 then Err (ResultAPIError ("durable result " +:+ field +:+ " is invalid")) else Ok z
  | _ => Err (ResultAPIError ("durable result " +:+ field +:+ " is invalid"))
  end.

Definition safe_fields (outcome : dict) : dict :=
  [("index", get_none outcome "index"); ("type", get_none outcome "type");
   ("passed", get_none outcome "passed"); ("reason_code", get_none outcome "reason_code")].

Definition dicts_of (l : list val) : list dict :=
  omap (fun v => match v with VDict d => Some d | _ => None end) l.

(** [safe_outcomes] of provider.py. *)
Definition safe_outcomes (case : dict) : list val :=
  match get_or case "assertions" (VList []) with
  | VList outcomes => (fun d => VDict (safe_fields d)) <$> dicts_of outcomes
  | _ => []
  end.

(** [round(latency_ms)] of a number. *)
Definition latency_field (v : val) : result api_exn dict :=
  match v with
  | VInt z => Ok [("latencyMs", VInt z)]
  | VFloat f =>
      match fround f with
      | Some z => Ok [("latencyMs", VInt z)]
      | None =>
          match f with
          | NaN => Err (PyError (ValueError "cannot convert float NaN to integer"))
          | _ => Err (PyError OverflowError)
          end
      end
  | _ => Ok []
  end.

Section Provider.
Context (repr : val -> string).

Definition bad_cost : api_exn := ResultAPIError "durable result cost_usd is invalid".

(** [Decimal(str(cost_usd))]; a NaN or an infinity is refused like text that
    is no number. *)
Definition cost_field (v : val) : result api_exn dict :=
  match v with
  | VNone => Ok []
  | _ =>
      match dec_of_str (py_str repr v) with
      | Err _ => Err bad_cost
      | Ok cost =>
          if signed cost <? 0 then Err bad_cost
          else Ok [("cost", VFloat (float_of_decimal (signed cost) (d_exp cost)))]
      end
  end.

Definition replay_response (run_id : string) (result : dict) : Prelude.result api_exn dict :=
  output ← match get_none result "output" with
           | VStr s => Ok s
           | _ => Err (ResultAPIError "durable result output must be a string")
           end;
  input_tokens ← non_negative_int (get_none result "input_tokens") "input_tokens";
  output_tokens ← non_negative_int (get_none result "output_tokens") "output_tokens";
  let response :=
    [("output", VStr output);
     ("tokenUsage", VDict [("prompt", VInt input_tokens); ("completion", VInt output_tokens);
                           ("total", VInt (input_tokens + output_tokens)); ("numRequests", VInt 0)]);
     ("metadata", VDict [("agentstorm", VDict
        [("replay", VBool true); ("run_id", VStr run_id); ("case_id", get_none result "case_id");
         ("iteration", get_none result "iteration"); ("tool_path", get_or result "tool_path" (VList []));
         ("assertions", VList (safe_outcomes result)); ("cost_usd", get_none result "cost_usd")])])] in
  latency ← latency_field (get_none result "latency_ms");
  cost ← cost_field (get_none result "cost_usd");
  Ok (response ++ latency ++ cost).

(** [isinstance(case_id, str) and isinstance(iteration, int)], no boolean. *)
Definition identity (result : dict) : option (string * Z) :=
  match get_none result "case_id", get_none result "iteration" with
  | VStr case_id, VInt iteration => Some (case_id, iteration)
  | _, _ => None
  end.

Definition repeated (id : string * Z) : api_exn :=
  ResultAPIError ("durable results repeat " +:+ repr (VStr id.1) +:+ " iteration " +:+ str_of_Z id.2).

Definition identity_eqb (a b : string * Z) : bool := String.eqb a.1 b.1 && (a.2 =? b.2).

(** [indexed.get(identity)] *)
Fixpoint index_get (indexed : index) (id : string * Z) : option dict :=
  match indexed with
  | [] => None
  | (id', result) :: rest => if identity_eqb id id' then Some result else index_get rest id
  end.

(** The [for result in results] of [_cached_cases]. *)
Fixpoint index_results (indexed : index) (results : list dict) : Prelude.result api_exn index :=
  match results with
  | [] => Ok indexed
  | result :: rest =>
      match identity result with
      | None => Err (ResultAPIError "durable result has an invalid case identity")
      | Some id =>
          if is_some (index_get indexed id) then Err (repeated id)
          else index_results (indexed ++ [(id, result)]) rest
      end
  end.

Context (netloc_nfkc_ok bracketed_host_ok : string -> bool).
Context (server : list http_get -> http_get -> get_reply).

Abbreviation cache_key := (string * string * string)%type.

Definition key_eqb (a b : cache_key) : bool :=
  String.eqb a.1.1 b.1.1 && String.eqb a.1.2 b.1.2 && String.eqb a.2 b.2.

Fixpoint cache_get (cache : list (cache_key * index)) (key : cache_key) : option index :=
  match cache with
  | [] => None
  | (key', indexed) :: rest => if key_eqb key key' then Some indexed else cache_get rest key
  end.

Definition cache_key_of (result_api_url run_id token : string) : cache_key :=
  (result_api_url, run_id, Sha256.hexdigest token).

Definition store (key : cache_key) (indexed : index) : R unit := fun s =>
  (Done tt, mkSession (sn_sent s) ((key, indexed) :: sn_cache s)).

Definition _cached_cases (fuel : nat) (result_api_url run_id token : string) : R index :=
  let key := cache_key_of result_api_url run_id token in
  cached ← (fun s => (Done (cache_get (sn_cache s) key), s));
  match cached with
  | Some indexed => mret indexed
  | None =>
      client ← pure (new_client netloc_nfkc_ok bracketed_host_ok result_api_url token);
      '(_, results) ← completed_replay repr server fuel client run_id;
      indexed ← pure (index_results [] results);
      store key indexed;;
      mret indexed
  end.

(** The provider's answer when a [ResultAPIError] was raised. *)
Definition error_response (msg : string) : dict := [("output", VStr ""); ("error", VStr msg)].

Definition answer (fuel : nat) (token_env : option string) (options context : dict) : R dict :=
  config ← pure (match get_or options "config" (VDict []) with
                 | VDict d => Ok d
                 | _ => Err (ResultAPIError "Promptfoo provider config must be an object")
                 end);
  '(result_api_url, run_id) ←
    pure (match get_none config "resultApiUrl", get_none config "runId" with
          | VStr u, VStr r => Ok (u, r)
          | _, _ => Err (ResultAPIError "Promptfoo provider requires resultApiUrl and runId")
          end);
  variables ← pure (match get_or context "vars" (VDict []) with
                    | VDict d => Ok d
                    | _ => Err (ResultAPIError "Promptfoo context vars must be an object")
                    end);
  id ← pure (match get_none variables "agentstorm_case_id", get_none variables "agentstorm_iteration" with
             | VStr c, VInt i => Ok (c, i)
             | _, _ => Err (ResultAPIError "Promptfoo test requires case ID and integer iteration vars")
             end);
  token ← pure (read_token_from_environment token_env);
  cases ← _cached_cases fuel result_api_url run_id token;
  match index_get cases id with
  | None =>
      api_error ("run " +:+ repr (VStr run_id) +:+ " has no result for " +:+ repr (VStr id.1) +:+
                 " iteration " +:+ str_of_Z id.2)
  | Some result => pure (replay_response run_id result)
  end.

(** [call_api(prompt, options, context)]: only [ResultAPIError] is turned
    into an answer. *)
Definition call_api (fuel : nat) (token_env : option string) (options context : dict) : R dict := fun s =>
  match answer fuel token_env options context s with
  | (Failed (ResultAPIError msg), s') => (Done (error_response msg), s')
  | r => r
  end.

Definition clear_cache : R unit := fun s => (Done tt, mkSession (sn_sent s) []).
End Provider.

(** ** generate.py *)

Section Generate.
Context (repr : val -> string).

(** The loop over [enumerate(text.splitlines(), 1)]; the dictionary of the
    cases by id keeps the order of the lines. *)
Fixpoint dataset_loop (line_number : Z) (cases : list (string * dict)) (lines : list string) :
    result api_exn (list (string * dict)) :=
  match lines with
  | [] => Ok cases
  | line :: rest =>
      if blank line then dataset_loop (line_number + 1) cases rest
      else
        match loads line with
        | None => Err (ResultAPIError ("invalid dataset JSONL at line " +:+ str_of_Z line_number))
        | Some (VDict case) =>
            let case_id := py_str repr (py_or (get_none case "id") (VStr ("case-" +:+ str_of_Z line_number))) in
            if existsb (String.eqb case_id) cases.*1
            then Err (ResultAPIError ("duplicate dataset case ID " +:+ repr (VStr case_id)))
            else dataset_loop (line_number + 1) (cases ++ [(case_id, case)]) rest
        | Some _ => Err (ResultAPIError ("dataset line " +:+ str_of_Z line_number +:+ " must be an object"))
        end
  end.

Definition load_dataset (text : string) : result api_exn (list (string * dict)) :=
  cases ← dataset_loop 1 [] (Config.splitlines text);
  match cases with [] => Err (ResultAPIError "dataset contains no cases") | _ => Ok cases end.

(** [dataset.get(case_id)] *)
Fixpoint dataset_get (dataset : list (string * dict)) (case_id : string) : option dict :=
  match dataset with
  | [] => None
  | (k, case) :: rest => if String.eqb case_id k then Some case else dataset_get rest case_id
  end.

Definition effective_assertions (case : dict) : result api_exn (list dict) :=
  legacy ← match get_none case "expected_contains" with
           | VNone => Ok []
           | VStr s => Ok [[("type", VStr "contains"); ("value", VStr s)]]
           | _ => Err (ResultAPIError "expected_contains must be a string")
           end;
  let bad := ResultAPIError "assertions must be an array of objects" in
  declared ← match get_or case "assertions" (VList []) with
             | VList items => match all_dicts items with Some ds => Ok ds | None => Err bad end
             | _ => Err bad
             end;
  Ok (legacy ++ declared).

Definition promptfoo_assertion (assertion : dict) : option dict :=
  let assertion_type := get_none assertion "type" in
  if eq_str assertion_type "exact" then Some [("type", VStr "equals"); ("value", get_none assertion "value")]
  else if eq_str assertion_type "contains" then Some [("type", VStr "contains"); ("value", get_none assertion "value")]
  else if eq_str assertion_type "regex" then Some [("type", VStr "regex"); ("value", get_none assertion "pattern")]
  else if eq_str assertion_type "json_schema" then Some [("type", VStr "is-json"); ("value", get_none assertion "schema")]
  else None.

Definition mapped (assertions : list dict) : list val := VDict <$> omap promptfoo_assertion assertions.

Definition promptfoo_assertions (case : dict) : result api_exn (list val) := mapped <$> effective_assertions case.

(** [safe_outcomes] of generate.py, its loop item by item. *)
Fixpoint safe_loop (outcomes safe : list val) : list val :=
  match outcomes with
  | [] => safe
  | VDict outcome :: rest => safe_loop rest (safe ++ [VDict (safe_fields outcome)])
  | _ :: rest => safe_loop rest safe
  end.

Definition generate_safe_outcomes (case : dict) : list val :=
  match get_or case "assertions" (VList []) with VList outcomes => safe_loop outcomes [] | _ => [] end.

(** One element of [tests]. *)
Definition test_of (run_id : string) (id : string * Z) (asserts : list val) (result : dict) : val :=
  VDict [("vars", VDict [("agentstorm_case_id", VStr id.1); ("agentstorm_iteration", VInt id.2)]);
         ("assert", VList asserts);
         ("metadata", VDict [("agentstorm", VDict
            [("run_id", VStr run_id); ("case_id", VStr id.1); ("iteration", VInt id.2);
             ("latency_ms", get_none result "latency_ms");
             ("tool_path", get_or result "tool_path" (VList []));
             ("assertions", VList (generate_safe_outcomes result))])])].

Fixpoint build_tests (run_id : string) (dataset : list (string * dict)) (seen : list (string * Z))
    (results : list dict) : Prelude.result api_exn (list val) :=
  match results with
  | [] => Ok []
  | result :: rest =>
      match identity result with
      | None => Err (ResultAPIError "durable result has an invalid case identity")
      | Some id =>
          if existsb (identity_eqb id) seen then Err (repeated repr id)
          else
            match dataset_get dataset id.1 with
            | None =>
                Err (ResultAPIError ("durable result references unknown dataset case " +:+ repr (VStr id.1)))
            | Some source =>
                asserts ← promptfoo_assertions source;
                tests ← build_tests run_id dataset (id :: seen) rest;
                Ok (test_of run_id id asserts result :: tests)
            end
      end
  end.

Definition build_config (provider_path result_api_url run_id : string) (dataset : list (string * dict))
    (result_cases : list dict) : result api_exn dict :=
  tests ← build_tests run_id dataset [] result_cases;
  Ok [("description", VStr ("AgentStorm durable replay for " +:+ run_id));
      ("prompts", VList [VStr "AgentStorm replay {{agentstorm_case_id}}#{{agentstorm_iteration}}"]);
      ("providers", VList [VDict [("id", VStr provider_path); ("label", VStr "AgentStorm replay");
         ("config", VDict [("resultApiUrl", VStr result_api_url); ("runId", VStr run_id)])]]);
      ("tests", VList tests)].

Context (netloc_nfkc_ok bracketed_host_ok : string -> bool).
Context (server : list http_get -> http_get -> get_reply).

(** [generate] up to the writing of the file: the configuration it writes.
    [dataset_text] is what reading the dataset file gives. *)
Definition generated_config (fuel : nat) (token_env : option string) (provider_path result_api_url run_id : string)
    (dataset_text : result api_exn string) : R dict :=
  token ← pure (read_token_from_environment token_env);
  client ← pure (new_client netloc_nfkc_ok bracketed_host_ok result_api_url token);
  '(_, cases) ← completed_replay repr server fuel client run_id;
  text ← pure dataset_text;
  dataset ← pure (load_dataset text);
  pure (build_config provider_path result_api_url run_id dataset cases).
End Generate.

Lemma safe_loop_app outcomes safe : safe_loop outcomes safe = safe ++ ((fun d => VDict (safe_fields d)) <$> dicts_of outcomes).
Proof.
  revert safe. induction outcomes as [|v l IH]; intros safe; cbn [safe_loop]; [by rewrite app_nil_r|].
  destruct v; rewrite IH; try done. unfold dicts_of. csimpl. by rewrite <- app_assoc.
Qed.

(** Both files keep the same fields of the verdicts. *)
Lemma safe_outcomes_agree case : generate_safe_outcomes case = safe_outcomes case.
Proof. unfold generate_safe_outcomes, safe_outcomes. destruct (get_or _ _ _); try done. apply safe_loop_app. Qed.

(** ** The index of the durable results *)

Lemma identity_eqb_spec a b : reflect (a = b) (identity_eqb a b).
Proof.
  destruct a as [a1 a2], b as [b1 b2]. unfold identity_eqb. simpl.
  destruct (String.eqb_spec a1 b1), (Z.eqb_spec a2 b2); constructor; congruence.
Qed.

Lemma index_get_None (idx : index) id : index_get idx id = None <-> id ∉ idx.*1.
Proof.
  induction idx as [|[id' r] idx IH]; csimpl; [set_solver|].
  destruct (identity_eqb_spec id id'); set_solver.
Qed.

Definition identified (r : dict) (id : string * Z) : Prop := identity r = Some id.

Lemma index_results_Ok repr acc results idx :
  index_results repr acc results = Ok idx <->
  exists ids, Forall2 identified results ids /\ idx = acc ++ zip ids results /\
    NoDup ids /\ (forall id, id ∈ ids -> id ∉ acc.*1).
Proof.
  revert acc. induction results as [|r results IH]; intros acc; cbn [index_results].
  - split.
    + intros [= <-]. exists []. split_and!; [constructor| |constructor|set_solver]. by rewrite app_nil_r.
    + intros (ids & Hf & -> & _). inversion Hf; subst. by rewrite app_nil_r.
  - destruct (identity r) as [id|] eqn:Er.
    2: { split; [done|]. intros (ids & Hf & _). inversion Hf as [|? ? ? ? Hi]; subst. unfold identified in Hi. congruence. }
    destruct (index_get acc id) as [r'|] eqn:Eg; cbn [is_some].
    + split; [done|]. intros (ids & Hf & _ & _ & Hd). inversion Hf as [|? id' ? ids' Hi]; subst.
      unfold identified in Hi. assert (id' = id) as -> by congruence.
      exfalso. apply (Hd id); [set_solver|]. destruct (decide (id ∈ acc.*1)) as [|Hn]; [done|].
      apply index_get_None in Hn. congruence.
    + apply index_get_None in Eg. rewrite IH. split.
      * intros (ids & Hf & -> & Hnd & Hd). exists (id :: ids). split_and!.
        -- by constructor.
        -- by rewrite <- app_assoc.
        -- constructor; [|done]. intros Hin. apply (Hd _ Hin). rewrite fmap_app. set_solver.
        -- intros id' [->|Hin]%elem_of_cons; [done|]. specialize (Hd _ Hin). rewrite fmap_app in Hd. set_solver.
      * intros (ids & Hf & -> & Hnd & Hd). inversion Hf as [|? id' ? ids' Hi Hf']; subst.
        unfold identified in Hi. assert (id' = id) as -> by congruence. apply NoDup_cons in Hnd as [Hn1 Hnd].
        exists ids'. split_and!; [done|by rewrite <- app_assoc|done|].
        intros id' Hin. rewrite fmap_app. csimpl. specialize (Hd id'). set_solver.
Qed.

(** Looking up the identity of the [i]-th result finds that result. *)
Lemma index_get_zip ids results i id r :
  NoDup ids -> ids !! i = Some id -> results !! i = Some r -> index_get (zip ids results) id = Some r.
Proof.
  revert ids i. induction results as [|r0 results IH]; intros [|id0 ids] [|i]; csimpl; try done.
  - intros _ [= ->] [= ->]. by destruct (identity_eqb_spec id id).
  - intros Hnd Hi Hr. apply NoDup_cons in Hnd as [Hn Hnd]. destruct (identity_eqb_spec id id0) as [->|]; [|eauto].
    exfalso. apply Hn. by eapply list_elem_of_lookup_2.
Qed.

(** ** The generated tests *)

Lemma build_tests_Ok repr run_id dataset seen results tests :
  build_tests repr run_id dataset seen results = Ok tests ->
  exists ids asserts, Forall2 identified results ids /\ NoDup ids /\ (forall id, id ∈ ids -> id ∉ seen) /\
    Forall2 (fun id a => exists d, dataset_get dataset id.1 = Some d /\ promptfoo_assertions d = Ok a) ids asserts /\
    tests = zip_with (fun '(id, a) r => test_of run_id id a r) (zip ids asserts) results.
Proof.
  revert seen tests. induction results as [|r results IH]; intros seen tests H; cbn [build_tests] in H.
  - injection H as <-. exists [], []. split_and!; try constructor. set_solver.
  - destruct (identity r) as [id|] eqn:Er; [|done]. destruct (existsb (identity_eqb id) seen) eqn:Es; [done|].
    destruct (dataset_get dataset id.1) as [d|] eqn:Ed; [|done]. unfold mbind, result_bind in H.
    destruct (promptfoo_assertions d) as [a|] eqn:Ea; [|done].
    destruct (build_tests repr run_id dataset (id :: seen) results) as [ts|] eqn:Et; [|done]. injection H as <-.
    apply IH in Et as (ids & asserts & Hf & Hnd & Hs & Ha & ->). exists (id :: ids), (a :: asserts). split_and!.
    + by constructor.
    + constructor; [|done]. intros Hin. specialize (Hs _ Hin). set_solver.
    + intros id' [->|Hin]%elem_of_cons.
      * intros Hin. assert (existsb (identity_eqb id) seen = true); [|congruence].
        apply existsb_exists. exists id. split; [by apply list_elem_of_In|]. by destruct (identity_eqb_spec id id).
      * specialize (Hs _ Hin). set_solver.
    + constructor; eauto.
    + done.
Qed.

(** What the generator may see of a durable result: identity, latency, tool
    path and the verdicts of the assertions. *)
Definition visible (result : dict) : dict :=
  [("case_id", get_none result "case_id"); ("iteration", get_none result "iteration");
   ("latency_ms", get_none result "latency_ms"); ("tool_path", get_or result "tool_path" (VList []));
   ("assertions", VList (safe_outcomes result))].

Lemma dicts_of_fmap (f : dict -> dict) l : dicts_of ((fun d => VDict (f d)) <$> l) = f <$> l.
Proof. induction l as [|d l IH]; [done|]. unfold dicts_of in *. csimpl. by rewrite IH. Qed.

Lemma safe_outcomes_visible r : safe_outcomes (visible r) = safe_outcomes r.
Proof.
  unfold safe_outcomes at 1. unfold get_or at 1. cbn [visible dict_get String.eqb Ascii.eqb Bool.eqb default].
  unfold safe_outcomes. destruct (get_or r "assertions" (VList [])) as [| | | | |l| |]; try done.
  cbn [id]. rewrite dicts_of_fmap, <- list_fmap_compose. done.
Qed.

(** The generated configuration does not depend on the model outputs,
    the error texts, the assertion messages or anything else of the durable
    results but identity, latency, tool path and verdicts. *)
Theorem config_independent_of_output repr provider_path url run_id dataset results :
  build_config repr provider_path url run_id dataset (visible <$> results) =
  build_config repr provider_path url run_id dataset results.
Proof.
  unfold build_config. assert (forall seen, build_tests repr run_id dataset seen (visible <$> results) =
                                            build_tests repr run_id dataset seen results) as E; [|by rewrite E].
  induction results as [|r results IH]; intros seen; [done|]. csimpl.
  assert (identity (visible r) = identity r) as -> by done. destruct (identity r) as [id|]; [|done].
  destruct (existsb _ seen); [done|]. destruct (dataset_get dataset id.1) as [d|]; [|done].
  unfold mbind, result_bind. destruct (promptfoo_assertions d); [|done]. rewrite IH.
  assert (forall a, test_of run_id id a (visible r) = test_of run_id id a r) as E; [|by rewrite E].
  intros asserts. unfold test_of. by rewrite !safe_outcomes_agree, safe_outcomes_visible.
Qed.
(** ** From a generated test back to the durable output *)

Section EndToEnd.
Context (repr : val -> string) (netloc_nfkc_ok bracketed_host_ok : string -> bool).
Context (server : list http_get -> http_get -> get_reply).
Context (url run_id token : string) (c : ResultAPIClient) (run : dict) (ks : list string) (cases : list dict).

(** The Result API holds the complete run, in pages at the cursors [ks]. *)
Record holds_run : Prop := {
  hr_client : new_client netloc_nfkc_ok bracketed_host_ok url token = Ok c;
  hr_id : run_id <> "";
  hr_run : forall h, exists text, server h (run_request c run_id) = GBody text /\ loads text = Some (VDict run);
  hr_complete : get_none run "status" = VStr "complete";
  hr_pages : serves server c run_id "" ks cases;
  hr_cursors : NoDup ks;
  hr_cases : cases <> [];
  hr_outputs : Forall (fun case => has_output case = true) cases
}.

(** The requests of one replay, newest first. *)
Definition replay_requests : list http_get := rev (page_request c run_id <$> "" :: ks) ++ [run_request c run_id].

Lemma replay_reads fuel s : holds_run -> (length ks < fuel)%nat ->
  completed_replay repr server fuel c run_id s =
  (Done (run, cases), mkSession (replay_requests ++ sn_sent s) (sn_cache s)).
Proof.
  intros [] Hf. unfold replay_requests. rewrite <- app_assoc. by apply completed_replay_reads.
Qed.

Lemma token_read : holds_run -> read_token_from_environment (Some token) = Ok token.
Proof.
  intros []. unfold read_token_from_environment. simpl. unfold new_client, mbind, result_bind, guard in *.
  destruct (normalize_base_url _ _ _); [|done]. by destruct (String.eqb token "").
Qed.

Definition options : dict := [("config", VDict [("resultApiUrl", VStr url); ("runId", VStr run_id)])].
Definition vars_of (id : string * Z) : dict := [("agentstorm_case_id", VStr id.1); ("agentstorm_iteration", VInt id.2)].

(** The provider's answer for one durable result. *)
Definition replayed (result : dict) : ending dict :=
  match replay_response repr run_id result with
  | Ok response => Done response
  | Err (ResultAPIError msg) => Done (error_response msg)
  | Err e => Failed e
  end.

(** The cache holds nothing for the run, or the index of its cases. *)
Definition cache_for (s : session) : Prop :=
  let key := cache_key_of url run_id token in
  cache_get (sn_cache s) key = None \/
  exists ids, Forall2 identified cases ids /\ NoDup ids /\ cache_get (sn_cache s) key = Some (zip ids cases).

Lemma key_eqb_refl key : key_eqb key key = true.
Proof. unfold key_eqb. by rewrite !String.eqb_refl. Qed.

Lemma cached_cases_Ok fuel ids s : holds_run -> (length ks < fuel)%nat ->
  Forall2 identified cases ids -> NoDup ids -> cache_for s ->
  exists s', _cached_cases repr netloc_nfkc_ok bracketed_host_ok server fuel url run_id token s = (Done (zip ids cases), s') /\
    cache_get (sn_cache s') (cache_key_of url run_id token) = Some (zip ids cases) /\
    (sn_sent s' = sn_sent s \/ cache_get (sn_cache s) (cache_key_of url run_id token) = None /\
       sn_sent s' = replay_requests ++ sn_sent s).
Proof.
  intros Hh Hf Hids Hnd Hc. unfold _cached_cases, mbind, R_bind.
  destruct Hc as [Hc|(ids' & Hids' & Hnd' & Hc)]; rewrite Hc.
  - assert (index_results repr [] cases = Ok (zip ids cases)) as Hi.
    { apply index_results_Ok. exists ids. split_and!; [done..|set_solver]. }
    rewrite (hr_client Hh). cbn [pure mret R_ret]. rewrite (replay_reads fuel s Hh Hf), Hi. cbn.
    eexists. split; [done|]. cbn. rewrite key_eqb_refl. split; [done|]. by right.
  - assert (ids' = ids) as ->.
    { clear -Hids Hids'. revert ids' Hids'. induction Hids as [|r id rs ids Hr _ IH]; intros ids' H'; inversion H'; subst; [done|].
      unfold identified in *. f_equal; [congruence|auto]. }
    eexists. split; [done|]. auto.
Qed.

(** C17.  Round trip of a replay.  When the Result API holds a complete run
    and the generator accepts it, the configuration has one test per durable
    result, in order, under distinct identities, and the provider, configured
    and called with that test's variables, answers with that very result (its
    saved output, or the error its malformed fields cause), reading the run
    once at the first call and nothing at later ones. *)
Theorem replay_end_to_end fuel provider_path text s config s1 :
  holds_run -> (length ks < fuel)%nat ->
  generated_config repr netloc_nfkc_ok bracketed_host_ok server fuel (Some token) provider_path url run_id (Ok text) s = (Done config, s1) ->
  exists tests ids, get_none config "tests" = VList tests /\ length tests = length cases /\ NoDup ids /\
    forall i test result, tests !! i = Some test -> cases !! i = Some result ->
      exists id fields, ids !! i = Some id /\ test = VDict fields /\ get_none fields "vars" = VDict (vars_of id) /\
        forall s2, cache_for s2 -> exists s3,
          call_api repr netloc_nfkc_ok bracketed_host_ok server fuel (Some token) options [("vars", VDict (vars_of id))] s2 =
            (replayed result, s3) /\ cache_for s3 /\
          (sn_sent s3 = sn_sent s2 \/ cache_get (sn_cache s2) (cache_key_of url run_id token) = None /\
             sn_sent s3 = replay_requests ++ sn_sent s2).
Proof.
  intros Hh Hf. unfold generated_config, mbind, R_bind. rewrite (token_read Hh). cbn [pure mret R_ret].
  rewrite (hr_client Hh). cbn [pure mret R_ret]. rewrite (replay_reads fuel s Hh Hf).
  destruct (load_dataset repr text) as [dataset|e]; [|done]. cbn [pure mret R_ret].
  unfold build_config, mbind, result_bind. destruct (build_tests repr run_id dataset [] cases) as [tests|e] eqn:Et; [|done].
  intros [= <- <-]. apply build_tests_Ok in Et as (ids & asserts & Hids & Hnd & _ & Ha & Htests).
  pose proof (Forall2_length _ _ _ Hids) as Hl1. pose proof (Forall2_length _ _ _ Ha) as Hl2.
  exists tests, ids. split_and!; [done| |done|].
  { rewrite Htests, length_zip_with, length_zip. lia. }
  intros i test result Hi Hr. rewrite Htests in Hi. apply lookup_zip_with_Some in Hi as ([id a] & r & -> & Hz & Hr').
  assert (r = result) as -> by congruence. apply lookup_zip_Some in Hz as [Hid _].
  exists id. eexists. split_and!; [done|reflexivity|done|]. intros s2 Hc.
  destruct (cached_cases_Ok fuel ids s2 Hh Hf Hids Hnd Hc) as (s3 & Hcc & Hc3 & Hsent).
  exists s3. split_and!; [|right; eauto|done].
  unfold call_api, answer, mbind, R_bind. cbn -[_cached_cases read_token_from_environment index_get].
  rewrite (token_read Hh). cbn [pure mret R_ret]. rewrite Hcc. destruct id as [case_id iteration]. cbn [fst snd].
  rewrite (index_get_zip ids cases i (case_id, iteration) result) by done. unfold replayed, pure.
  by destruct (replay_response repr run_id result) as [|[]].
Qed.
End EndToEnd.
(** ** The generator and the worker read the same dataset *)

(** The Promptfoo assertion for an assertion the worker has loaded. *)
Definition of_spec (a : AssertionSpec) : option dict :=
  if String.eqb (as_type a) "exact" then Some [("type", VStr "equals"); ("value", VStr (default "" (as_value a)))]
  else if String.eqb (as_type a) "contains" then Some [("type", VStr "contains"); ("value", VStr (default "" (as_value a)))]
  else if String.eqb (as_type a) "regex" then Some [("type", VStr "regex"); ("value", VStr (default "" (as_pattern a)))]
  else if String.eqb (as_type a) "json_schema" then Some [("type", VStr "is-json"); ("value", as_schema a)]
  else None.

Lemma eq_str_VStr v t s : v = VStr t -> eq_str v s = String.eqb t s.
Proof. intros ->. simpl. apply String.eqb_sym. Qed.

Lemma assertion_spec_mapped raw t loc spec :
  get_none raw "type" = VStr t -> Config._assertion_spec raw t loc = Ok spec ->
  promptfoo_assertion raw = of_spec spec.
Proof.
  intros Ht H. unfold promptfoo_assertion. rewrite !(eq_str_VStr _ _ _ Ht).
  unfold Config._assertion_spec, mbind, result_bind in H.
  destruct (String.eqb_spec t "exact") as [->|]; [|destruct (String.eqb_spec t "contains") as [->|];
    [|destruct (String.eqb_spec t "regex") as [->|]; [|destruct (String.eqb_spec t "json_schema") as [->|]]]];
    simpl orb in H; cbv iota in H.
  1-4: (match type of H with match ?v with _ => _ end = _ => destruct v eqn:Ev end; try done); injection H as <-; try done;
    rewrite ?Ev; done.
  assert (as_type spec = t) as Hs.
  { peel; try done; by injection H as <-. }
  unfold of_spec. rewrite Hs. by rewrite !(proj2 (String.eqb_neq _ _)) by done.
Qed.

Lemma parse_assertions_mapped line index items specs :
  Config.parse_assertions line index items = Ok specs ->
  exists ds, all_dicts items = Some ds /\ omap promptfoo_assertion ds = omap of_spec specs.
Proof.
  revert index specs. induction items as [|item items IH]; intros index specs H.
  - injection H as <-. by exists [].
  - cbn [Config.parse_assertions] in H. cbv zeta in H. destruct item as [| | | | | |raw|]; try done.
    unfold mbind, result_bind, guard in H. destruct (in_str_set (get_none raw "type") _) as [known|]; [|done].
    destruct (get_none raw "type") as [| | | |t| | |] eqn:Et; try done. destruct known; [|done].
    destruct (forallb _ _); [|done]. destruct (Config._assertion_spec raw t _) as [spec|] eqn:Es; [|done].
    destruct (Config.parse_assertions line (index + 1) items) as [specs'|] eqn:Ep; [|done]. injection H as <-.
    destruct (IH _ _ Ep) as (ds & Hd & Hm). exists (raw :: ds). cbn [all_dicts]. rewrite Hd. split; [done|].
    csimpl. rewrite (assertion_spec_mapped _ _ _ _ Et Es), Hm. done.
Qed.

(** The Promptfoo assertions for a case the worker has loaded. *)
Definition of_case (case : TestCase) : list val := VDict <$> omap of_spec (Models.effective_assertions case).

(** A line the generator can turn into assertions: the worker also takes a
    value that is no text for no expected text, and a null for no assertions. *)
Definition readable (d : dict) : Prop :=
  (get_none d "expected_contains" = VNone \/ exists s, get_none d "expected_contains" = VStr s) /\
  dict_get d "assertions" <> Some VNone.

(** The assertions of the line [d] of the loaded case: the worker's, after one
    for an expected text that is empty, which the worker drops. *)
Definition line_assertions (d : dict) (case : TestCase) : result api_exn (list val) :=
  let declared := match dict_get d "assertions" with
                  | Some VNone => Err (ResultAPIError "assertions must be an array of objects")
                  | _ => Ok (of_case case)
                  end in
  match get_none d "expected_contains" with
  | VNone => declared
  | VStr s =>
      asserts ← declared;
      Ok ((if String.eqb s "" then [VDict [("type", VStr "contains"); ("value", VStr "")]] else []) ++ asserts)
  | _ => Err (ResultAPIError "expected_contains must be a string")
  end.

Lemma line_readable d case : is_ok (line_assertions d case) = true <-> readable d.
Proof.
  unfold line_assertions, readable.
  assert (is_ok (match dict_get d "assertions" with
    | Some VNone => Err (ResultAPIError "assertions must be an array of objects") | _ => Ok (of_case case) end) = true
    <-> dict_get d "assertions" <> Some VNone) as Hd.
  { by destruct (dict_get d "assertions") as [[]|]. }
  destruct (get_none d "expected_contains") as [| | | |s| | |]; try (split; [done|intros [[|[? ?]] _]; done]).
  - rewrite Hd. split; [by split; [left|]|by intros [_ ?]].
  - rewrite <- Hd. unfold mbind, result_bind. destruct (match dict_get d "assertions" with Some VNone => _ | _ => _ end); cbn.
    + split; [|done]. intros _. split; [by right; exists s|done].
    + split; [done|]. by intros [_ ?].
Qed.

Lemma parse_case_agrees repr line ids raw case :
  Config.parse_case repr line ids raw = Ok case ->
  exists d, raw = VDict d /\
    tc_case_id case = py_str repr (py_or (get_none d "id") (VStr ("case-" +:+ str_of_Z line))) /\
    existsb (String.eqb (tc_case_id case)) ids = false /\
    promptfoo_assertions d = line_assertions d case.
Proof.
  unfold Config.parse_case, as_dict, mbind, result_bind, guard. destruct raw as [| | | | | |d|]; try done. intros H.
  destruct (get_none d "input"); try done. destruct (negb (blank _)); [|done]. cbv zeta in H.
  destruct (existsb _ ids) eqn:Ei; [done|]. cbn [negb] in H.
  destruct (Config._assertions (get_none d "assertions") line) as [specs|] eqn:Ea; [|done]. injection H as <-.
  exists d. split_and!; [done..|].
  assert (match get_or d "assertions" (VList []) with
          | VList items => match all_dicts items with Some ds => Ok ds | None =>
              Err (ResultAPIError "assertions must be an array of objects") end
          | _ => Err (ResultAPIError "assertions must be an array of objects") end
    = match dict_get d "assertions" with Some VNone => Err (ResultAPIError "assertions must be an array of objects")
      | Some (VList items) => Ok (default [] (all_dicts items)) | _ => Ok [] end /\
    (dict_get d "assertions" <> Some VNone ->
       omap promptfoo_assertion match dict_get d "assertions" with Some (VList items) => default [] (all_dicts items) | _ => [] end
       = omap of_spec specs)) as [Hds Hm].
  { unfold Config._assertions, get_none in Ea. unfold get_or. destruct (dict_get d "assertions") as [v|]; cbn in *.
    - destruct v; try done. apply parse_assertions_mapped in Ea as (ds & -> & Hm). done.
    - by injection Ea as <-. }
  unfold promptfoo_assertions, effective_assertions, line_assertions, mbind, result_bind. cbv zeta. rewrite Hds.
  unfold of_case, Models.effective_assertions, mapped. cbn [tc_expected_contains tc_assertions].
  destruct (get_none d "expected_contains") as [| | | |e| | |]; try done; cbn [Config._optional_string];
    destruct (dict_get d "assertions") as [[]|]; try (destruct (String.eqb_spec e "") as [->|]);
    try done; cbn; rewrite <- Hm by done; done.
Qed.

Lemma dataset_get_app ds1 ds2 k :
  dataset_get (ds1 ++ ds2) k = match dataset_get ds1 k with Some d => Some d | None => dataset_get ds2 k end.
Proof. induction ds1 as [|[k' d] ds1 IH]; simpl; [done|]. by destruct (String.eqb k k'). Qed.

Lemma dataset_get_absent ds k : k ∉ ds.*1 -> dataset_get ds k = None.
Proof.
  induction ds as [|[k' d] ds IH]; csimpl; [done|]. intros Hn. apply not_elem_of_cons in Hn as [Hk Hn].
  rewrite (proj2 (String.eqb_neq _ _) Hk). auto.
Qed.

(** The loaders agree on the lines that are left, from any line on. *)
Lemma loops_agree repr line acc lines cases :
  Config.parse_lines repr line acc.*1 lines = Ok cases ->
  exists ds, dataset_loop repr line acc lines = Ok (acc ++ ds) /\
    Forall2 (fun case kd => kd.1 = tc_case_id case /\ promptfoo_assertions kd.2 = line_assertions kd.2 case)
      cases ds.
Proof.
  revert line acc cases. induction lines as [|l lines IH]; intros line acc cases H.
  - injection H as <-. exists []. rewrite app_nil_r. by split.
  - cbn [Config.parse_lines dataset_loop] in *. destruct (blank l); [by apply IH|].
    destruct (loads l) as [raw|]; [|done]. unfold mbind, result_bind in H.
    destruct (Config.parse_case repr line acc.*1 raw) as [case|] eqn:Ec; [|done].
    destruct (Config.parse_lines _ _ _ lines) as [rest|] eqn:Er; [|done]. injection H as <-.
    apply parse_case_agrees in Ec as (d & -> & Hid & Hnew & Hpl). cbv zeta. rewrite <- Hid, Hnew.
    assert (acc.*1 ++ [tc_case_id case] = (acc ++ [(tc_case_id case, d)]).*1) as E by (by rewrite fmap_app).
    rewrite E in Er. apply IH in Er as (ds & -> & Hds). exists ((tc_case_id case, d) :: ds).
    rewrite <- app_assoc. split; [done|]. by constructor.
Qed.

Lemma lines_found cases ds :
  Forall2 (fun case kd => kd.1 = tc_case_id case /\ promptfoo_assertions kd.2 = line_assertions kd.2 case) cases ds ->
  NoDup (tc_case_id <$> cases) ->
  ds.*1 = tc_case_id <$> cases /\
  forall case, case ∈ cases -> exists d, dataset_get ds (tc_case_id case) = Some d /\
    promptfoo_assertions d = line_assertions d case.
Proof.
  induction 1 as [|case [k d] cases ds [Hk Hp] Hds IH]; csimpl in *; intros Hnd; [split; [done|by intros ? ?%not_elem_of_nil]|].
  apply NoDup_cons in Hnd as [Hn Hnd]. subst k. destruct (IH Hnd) as [Hids Hall]. split; [by rewrite Hids|].
  intros c Hc. apply elem_of_cons in Hc as [->|Hc].
  - exists d. by rewrite String.eqb_refl.
  - destruct (Hall c Hc) as (d' & Hg & Hp'). exists d'. split; [|done].
    destruct (String.eqb_spec (tc_case_id c) (tc_case_id case)) as [E|]; [|done].
    destruct Hn. rewrite <- E. by apply list_elem_of_fmap_2.
Qed.

(** Results with distinct identities of known cases: the tests are built
    exactly when every line that is referred to gives assertions. *)
Lemma build_tests_iff repr run_id dataset seen results ids :
  Forall2 identified results ids -> NoDup ids -> (forall id, id ∈ ids -> id ∉ seen) ->
  is_ok (build_tests repr run_id dataset seen results) = true <->
  Forall (fun id => exists d, dataset_get dataset id.1 = Some d /\ is_ok (promptfoo_assertions d) = true) ids.
Proof.
  intros Hf. revert seen. induction Hf as [|r id results ids Hid _ IH]; intros seen Hnd Hs; [by split|].
  apply NoDup_cons in Hnd as [Hn Hnd]. cbn [build_tests]. rewrite Hid, Forall_cons.
  assert (existsb (identity_eqb id) seen = false) as ->.
  { apply not_true_is_false. intros (id' & Hin & He)%existsb_exists. destruct (identity_eqb_spec id id') as [->|]; [|done].
    apply (Hs id'); [by left|by apply list_elem_of_In]. }
  rewrite <- (IH (id :: seen) Hnd).
  2: { intros id' Hin. apply not_elem_of_cons. split; [by intros ->|]. apply Hs. by right. }
  destruct (dataset_get dataset id.1) as [d|]; [|split; [done|by intros [(d & [=] & _) _]]].
  unfold mbind, result_bind. destruct (promptfoo_assertions d) as [a|e] eqn:Ea.
  - destruct (build_tests repr run_id dataset (id :: seen) results); cbn; [|by split; [|intros [_ ?]]].
    split; [|done]. intros _. split; [|done]. exists d. by rewrite Ea.
  - split; [done|]. intros [(d' & [= <-] & Hok) _]. by rewrite Ea in Hok.
Qed.

Lemma build_config_ok repr provider_path url run_id dataset results :
  is_ok (build_config repr provider_path url run_id dataset results) = is_ok (build_tests repr run_id dataset [] results).
Proof. unfold build_config, mbind, result_bind. by destruct (build_tests repr run_id dataset [] results). Qed.

(** C18.  How the generator reads a dataset the worker accepts.  Its
    [load_dataset] accepts it too, with the same case ids in the same order.
    The Promptfoo assertions of a line are the worker's effective assertions
    of the four types Promptfoo can evaluate, translated one by one, preceded
    by a [contains] for an expected text that is empty (the worker drops it);
    a line whose expected text is neither null nor a string or whose assertions
    are null, which the worker accepts, is refused with its message.  So for
    results of distinct identities of these cases the configuration is built
    exactly when no such line is referred to. *)
Theorem datasets_agree repr text cases :
  Config.load_dataset repr text = Ok cases ->
  exists ds, load_dataset repr text = Ok ds /\ ds.*1 = tc_case_id <$> cases /\
    (forall case, case ∈ cases -> exists d, dataset_get ds (tc_case_id case) = Some d /\
       promptfoo_assertions d = line_assertions d case) /\
    forall provider_path url run_id results ids,
      Forall2 identified results ids -> NoDup ids -> Forall (fun id => id.1 ∈ tc_case_id <$> cases) ids ->
      is_ok (build_config repr provider_path url run_id ds results) = true <->
      Forall (fun id => exists d, dataset_get ds id.1 = Some d /\ readable d) ids.
Proof.
  unfold Config.load_dataset, mbind, result_bind. intros H.
  destruct (Config.parse_lines repr 1 [] (Config.splitlines text)) as [cs|] eqn:Ep; [|done].
  destruct (Config.parse_lines_valid _ _ _ _ _ Ep) as (_ & Hnd & _).
  apply (loops_agree repr 1 [] _ _) in Ep as (ds & Hl & Hds). destruct cs as [|c0 cs]; [done|]. injection H as <-.
  exists ds. unfold load_dataset, mbind, result_bind. rewrite Hl. cbn [app].
  destruct (lines_found (c0 :: cs) ds Hds Hnd) as [Hk Hall].
  split_and!; [by inversion Hds|done|done|]. clear Hl. intros provider_path url run_id results ids Hf Hni Hin.
  rewrite build_config_ok, (build_tests_iff _ _ _ _ _ ids); [|done..|by intros ? _ ?%not_elem_of_nil].
  rewrite !Forall_forall in *. split; intros H id Hid; destruct (H id Hid) as (d & Hd & Hr); exists d; (split; [done|]);
    destruct (proj1 (list_elem_of_fmap _ _ _) (Hin id Hid)) as (case & Hc & Hcase);
    destruct (Hall case Hcase) as (d' & Hd' & Hp); rewrite <- Hc, Hd in Hd'; injection Hd' as <-.
  - rewrite Hp in Hr. by apply line_readable in Hr.
  - rewrite Hp. by apply line_readable.
Qed.
(** ** Concrete replays *)

Definition nl : string := String (ascii_of_nat 10) "".
Definition sample_case (fields : dict) : string := json_text (VDict fields).

Definition sample_text : string :=
  sample_case [("id", VStr "a"); ("input", VStr "hi"); ("expected_contains", VStr "n")] +:+ nl +:+
  sample_case [("id", VStr "b"); ("input", VStr "yo");
               ("assertions", VList [VDict [("type", VStr "regex"); ("pattern", VStr "t.")];
                                     VDict [("type", VStr "latency"); ("max_ms", VInt 5)]])].

Definition no_repr (_ : val) : string := "".
Definition yes (_ : string) : bool := true.

Lemma sample_holds : holds_run yes yes sample_server "http://api" "r1" "t" sample_client sample_run ["c/2"] sample_results.
Proof.
  split.
  - vm_compute. reflexivity.
  - done.
  - intros h. exists (json_text (VDict sample_run)). split; vm_compute; reflexivity.
  - done.
  - exact sample_serves.
  - apply NoDup_singleton.
  - done.
  - repeat constructor.
Qed.

Lemma replay_end_to_end_witness :
  exists s3, (call_api no_repr yes yes sample_server 5 (Some "t") (options "http://api" "r1")
                [("vars", VDict (vars_of ("a", 1)))] (mkSession [] [])) =
             (replayed no_repr "r1" (sample_result "a" 1 "three"), s3) /\
    exists response, replayed no_repr "r1" (sample_result "a" 1 "three") = Done response /\
      get_none response "output" = VStr "three".
Proof.
  assert (exists config s1, generated_config no_repr yes yes sample_server 5 (Some "t") "provider.py" "http://api" "r1" (Ok sample_text)
            (mkSession [] []) = (Done config, s1)) as (config & s1 & Hg).
  { eexists _, _. vm_compute. reflexivity. }
  destruct (replay_end_to_end no_repr yes yes sample_server "http://api" "r1" "t" sample_client sample_run ["c/2"] sample_results
              5 "provider.py" sample_text _ config s1 sample_holds ltac:(simpl; lia) Hg)
    as (tests & ids & Ht & Hlen & _ & Hall).
  destruct (tests !! 2%nat) as [test|] eqn:Et.
  2: { apply lookup_ge_None in Et. rewrite Hlen in Et. simpl in Et. lia. }
  destruct (Hall 2%nat test _ Et eq_refl) as (id & fields & Hid & -> & Hv & Hcall).
  assert (id = ("a", 1)) as ->.
  { clear Hall Hid Hlen. destruct id as [x z]. revert Hg Ht Et Hv. vm_compute. intros [= <- _]. intros [= <-]. intros [= <-]. intros [= <- <-]. reflexivity. }
  destruct (Hcall (mkSession [] []) ltac:(by left)) as (s3 & Hc & _).
  exists s3. split; [exact Hc|]. eexists. split; [vm_compute; reflexivity|reflexivity].
Defined.
Lemma datasets_agree_witness :
  exists cases ds, Config.load_dataset no_repr sample_text = Ok cases /\ load_dataset no_repr sample_text = Ok ds /\
    ds.*1 = ["a"; "b"] /\ is_ok (build_config no_repr "p" "u" "r1" ds [sample_result "a" 0 "one"]) = true.
Proof.
  assert (exists cases, Config.load_dataset no_repr sample_text = Ok cases /\ tc_case_id <$> cases = ["a"; "b"])
    as (cases & Hl & Hi).
  { eexists. split; [vm_compute; reflexivity|reflexivity]. }
  destruct (datasets_agree no_repr sample_text cases Hl) as (ds & Hd & Hk & _ & Hb).
  exists cases, ds. split; [exact Hl|]. split; [exact Hd|]. split; [rewrite Hk; exact Hi|].
  apply (Hb "p" "u" "r1" _ [("a", 0)]).
  - repeat constructor.
  - apply NoDup_singleton.
  - constructor; [rewrite Hi; by left|constructor].
  - constructor; [|constructor]. vm_compute in Hd. injection Hd as <-. eexists. split; [reflexivity|].
    split; [right; eexists; reflexivity|done].
Defined.

(** The worker accepts a null instead of the assertions and any JSON value as
    the expected text; the generator refuses both. *)
Example null_assertions_refused :
  let text := sample_case [("id", VStr "a"); ("input", VStr "hi"); ("assertions", VNone)] in
  is_ok (Config.load_dataset no_repr text) = true /\
  (ds ← load_dataset no_repr text; build_config no_repr "p" "u" "r1" ds [sample_result "a" 0 "one"]) =
  Err (ResultAPIError "assertions must be an array of objects").
Proof. split; vm_compute; reflexivity. Qed.

Example number_expected_refused :
  let text := sample_case [("id", VStr "a"); ("input", VStr "hi"); ("expected_contains", VInt 5)] in
  is_ok (Config.load_dataset no_repr text) = true /\
  (ds ← load_dataset no_repr text; build_config no_repr "p" "u" "r1" ds [sample_result "a" 0 "one"]) =
  Err (ResultAPIError "expected_contains must be a string").
Proof. split; vm_compute; reflexivity. Qed.

(** A latency that is not a finite number leaves the provider as ValueError. *)
Example nan_latency_escapes :
  replay_response no_repr "r1" (dict_set (sample_result "a" 0 "one") "latency_ms" (VFloat NaN)) =
  Err (PyError (ValueError "cannot convert float NaN to integer")).
Proof. vm_compute. reflexivity. Qed.

(** Costs travel as decimal text. *)
Example cost_read :
  cost_field no_repr (VStr "0.25") = Ok [("cost", VFloat (of_ratio 1 4))] /\
  cost_field no_repr (VStr "-1") = Err bad_cost /\ cost_field no_repr (VStr "inf") = Err bad_cost.
Proof. split_and!; vm_compute; reflexivity. Qed.
End Promptfoo.
