(* ===== verification/Generate.v ===== *)
(** * Writing the Promptfoo configuration ([integrations/promptfoo/generate.py])

    [generate] writes the configuration next to its final place and then moves
    it there.  The files are a map from directory and name to text; whether a
    call of the operating system succeeds, and what a failed write leaves
    behind, are parameters. *)
From S2P Require Import Prelude PyFloat PyStr PyVal PyJson JsonParse PyDecimal JsonCodec JsonLines JsonAscii.
From S2P Require Import Models Sha256 OpenAIValidate Config Results Payloads Replay Promptfoo.
Import PyFloat PyStr PyVal PyJson JsonParse JsonCodec JsonLines JsonAscii Payloads Replay Promptfoo.

Module Generate.

(** A path: its parent directory and its name. *)
Abbreviation path := (string * string)%type.
Abbreviation files := (gmap path string).

(** What the operating system does with the three calls. *)
Record os := mkOS {
  os_mkdir : bool;                       (* [parent.mkdir(parents=True, exist_ok=True)] succeeds *)
  os_write_fails : option (option string); (* the write fails, leaving this text or no file *)
  os_replace : bool                      (* [temporary.replace(output_path)] succeeds *)
}.

(** [path.read_text(encoding="utf-8")]: bytes that are not UTF-8 raise
    [UnicodeDecodeError], which is a [ValueError]. *)
Definition read_text (fs : files) (p : path) : result api_exn string :=
  match fs !! p with
  | Some bytes =>
      if String.eqb (decode_ignore bytes) bytes then Ok bytes
      else Err (PyError (ValueError "'utf-8' codec can't decode the file"))
  | None => Err OSError
  end.

(** [output_path.with_name(f".{output_path.name}.tmp")] *)
Definition temporary_of (output : path) : path := (output.1, "." +:+ output.2 +:+ ".tmp").

(** [json.dumps(config, indent=2) + "\n"] *)
Definition config_text (config : dict) : pyres string :=
  text ← dumps_indent 0%nat (VDict config); Ok (ensure_ascii text +:+ nl).

(** The lines of [generate] after [build_config]. *)
Definition write_config (o : os) (output : path) (config : dict) (fs : files) : result api_exn unit * files :=
  if negb (os_mkdir o) then (Err OSError, fs)
  else if String.eqb output.2 "" then (Err (PyError (ValueError "path has an empty name")), fs)
  else
    let temporary := temporary_of output in
    match config_text config with
    | Err e => (Err (PyError e), fs)
    | Ok text =>
        match os_write_fails o with
        | Some remains => (Err OSError, match remains with Some t => <[temporary := t]> fs | None => fs end)
        | None =>
            let fs := <[temporary := text]> fs in
            if os_replace o then (Ok tt, <[output := text]> (delete temporary fs)) else (Err OSError, fs)
        end
    end.

(** [Path(text)]: the components without empty ones and dots, split into the
    parent and the name. *)
Fixpoint split_slash (s : string) : list string :=
  match s with
  | "" => [""]
  | String c s' =>
      if Ascii.eqb c "/" then "" :: split_slash s'
      else match split_slash s' with l :: ls => String c l :: ls | [] => [] end
  end.

Definition path_root (text : string) : string :=
  if startswith "///" text then "/" else if startswith "//" text then "//" else if startswith "/" text then "/" else "".

Definition to_path (text : string) : path :=
  let parts := List.filter (fun p => negb (String.eqb p "" || String.eqb p ".")) (split_slash text) in
  (path_root text +:+ join "/" (removelast parts), default "" (last parts)).

Record Namespace := mkNamespace {
  ns_result_api_url : string;
  ns_run_id : string;
  ns_dataset : path;
  ns_output : path
}.

(** [parse_args]: the value the command line gives each option; argparse
    leaves the process with status 2 when a required one is missing. *)
Definition parse_args (options : string -> option string) : option Namespace :=
  url ← options "--result-api-url";
  run_id ← options "--run-id";
  dataset ← options "--dataset";
  output ← options "--output";
  Some (mkNamespace url run_id (to_path dataset) (to_path output)).

Section Program.
Context (repr : val -> string) (netloc_nfkc_ok bracketed_host_ok : string -> bool).
Context (server : list http_get -> http_get -> get_reply).

Definition generate (o : os) (fuel : nat) (token_env : option string) (provider_path result_api_url run_id : string)
    (dataset_path output_path : path) (s : session) (fs : files) : ending unit * session * files :=
  match generated_config repr netloc_nfkc_ok bracketed_host_ok server fuel token_env provider_path result_api_url run_id
          (read_text fs dataset_path) s with
  | (Done config, s') =>
      match write_config o output_path config fs with
      | (Ok _, fs') => (Done tt, s', fs')
      | (Err e, fs') => (Failed e, s', fs')
      end
  | (Failed e, s') => (Failed e, s', fs)
  | (OutOfFuel, s') => (OutOfFuel, s', fs)
  end.

(** [main]: the exit code; only [ResultAPIError] and [OSError] are caught. *)
Definition main (o : os) (fuel : nat) (token_env : option string) (provider_path : string) (args : Namespace)
    (s : session) (fs : files) : ending Z * session * files :=
  match generate o fuel token_env provider_path (ns_result_api_url args) (ns_run_id args) (ns_dataset args)
          (ns_output args) s fs with
  | (Done _, s', fs') => (Done 0, s', fs')
  | (Failed (ResultAPIError _), s', fs') | (Failed OSError, s', fs') => (Done 1, s', fs')
  | (Failed e, s', fs') => (Failed e, s', fs')
  | (OutOfFuel, s', fs') => (OutOfFuel, s', fs')
  end.
End Program.

(** ** The file is replaced as a whole *)

Lemma length_name (s : string) : String.length ("." +:+ s +:+ ".tmp") = (String.length s + 5)%nat.
Proof. rewrite !length_app_str. cbn [String.length]. lia. Qed.

Lemma temporary_other output : temporary_of output <> output.
Proof.
  destruct output as [dir name]. unfold temporary_of. cbn [fst snd]. intros [= E].
  apply (f_equal String.length) in E. pose proof (length_name name) as L. cbn in E, L. lia.
Qed.

(** Whatever the calls do: the file at the output path is the old one, or the
    write succeeded and it is the whole text; a file that is neither the output
    nor the temporary stays. *)
Lemma write_config_atomic o output config fs r fs' :
  write_config o output config fs = (r, fs') ->
  (forall p, p <> output -> p <> temporary_of output -> fs' !! p = fs !! p) /\
  match r with
  | Ok _ => exists text, config_text config = Ok text /\ fs' !! output = Some text /\ fs' !! temporary_of output = None
  | Err _ => fs' !! output = fs !! output
  end.
Proof.
  pose proof (temporary_other output) as Ht. unfold write_config. cbv zeta.
  destruct (negb _); [by intros [= <- <-]|]. destruct (String.eqb _ _); [by intros [= <- <-]|].
  destruct (config_text config) as [text|e]; [|by intros [= <- <-]].
  destruct (os_write_fails o) as [[t|]|]; [|by intros [= <- <-]|destruct (os_replace o)]; intros [= <- <-].
  - split; [intros; by simplify_map_eq|by simplify_map_eq].
  - split; [intros; by simplify_map_eq|]. exists text. by simplify_map_eq.
  - split; [intros; by simplify_map_eq|by simplify_map_eq].
Qed.

(** ** The configuration is a JSON document *)

Abbreviation json_dicts ds := (Forall (fun d => json_val (VDict d)) ds).

Lemma json_get d k v : json_val (VDict d) -> dict_get d k = Some v -> json_val v.
Proof.
  inversion_clear 1 as [| | | | | |? _ Hd]. induction Hd as [|[k' v'] d Hv _ IH]; [done|]. cbn [dict_get].
  destruct (String.eqb k k'); [by intros [= <-]|done].
Qed.

Lemma json_get_or d k dflt : json_val (VDict d) -> json_val dflt -> json_val (get_or d k dflt).
Proof. intros Hd Hv. unfold get_or. destruct (dict_get d k) eqn:E; [by eapply json_get|done]. Qed.

Lemma json_get_none d k : json_val (VDict d) -> json_val (get_none d k).
Proof. intros Hd. apply (json_get_or d k VNone Hd). constructor. Qed.
#[local] Hint Resolve json_get_or json_get_none : payload.

Lemma json_all_dicts l ds : json_val (VList l) -> all_dicts l = Some ds -> json_dicts ds.
Proof.
  inversion_clear 1 as [| | | | |? Hl|]. revert ds. induction Hl as [|v l Hv _ IH]; intros ds; cbn [all_dicts].
  - by intros [= <-].
  - destruct v; try done. destruct (all_dicts l) as [ds'|]; [|done]. intros [= <-]. constructor; auto.
Qed.

Lemma page_json reply d seen raw next : read_reply reply = Ok d -> read_page d seen = Ok (raw, next) -> json_dicts raw.
Proof.
  intros Hr. assert (json_val (VDict d)) as Hd.
  { destruct reply as [text| | |]; try done. unfold read_reply in Hr.
    destruct (loads text) as [[| | | | | |page|]|] eqn:El; try done. injection Hr as ->. by eapply loads_json. }
  apply (json_get_none _ "cases") in Hd. unfold read_page, mbind, result_bind.
  destruct (get_none d "cases") as [| | | | |l| |]; try done. destruct (all_dicts l) as [ds|] eqn:Ea; [|done].
  apply (json_all_dicts _ _ Hd) in Ea. intros H. by destruct (get_none d "next_cursor"); repeat case_match; simplify_eq.
Qed.

Lemma page_loop_json server c run_id fuel cases cursor seen s all s' :
  json_dicts cases -> page_loop server fuel c run_id cases cursor seen s = (Done all, s') -> json_dicts all.
Proof.
  revert cases cursor seen s. induction fuel as [|fuel IH]; intros cases cursor seen s Hc; [done|].
  cbn [page_loop]. unfold mbind, R_bind, pure, _get, urlopen, mret, R_ret, mbind, R_bind, fail, pure, mret, R_ret, fail.
  destruct (quote_run_id run_id) as [q|]; [|done]. destruct (read_reply _) as [d|] eqn:Er; [|done].
  destruct (read_page d seen) as [[raw [next|]]|] eqn:Ep; try done;
    pose proof (page_json _ _ _ _ _ Er Ep) as Hraw.
  - apply IH. by apply Forall_app.
  - intros [= <- _]. by apply Forall_app.
Qed.

Lemma dataset_json repr line acc lines ds :
  json_dicts acc.*2 -> dataset_loop repr line acc lines = Ok ds -> json_dicts ds.*2.
Proof.
  revert line acc. induction lines as [|l lines IH]; intros line acc Hacc; cbn [dataset_loop]; [by intros [= <-]|].
  destruct (blank l); [by apply IH|]. destruct (loads l) as [[]|] eqn:El; try done. cbv zeta. case_match; [done|].
  apply IH. rewrite fmap_app. apply Forall_app. split; [done|]. apply Forall_singleton. by eapply loads_json.
Qed.

Lemma promptfoo_assertion_json a d : json_val (VDict a) -> promptfoo_assertion a = Some d -> json_val (VDict d).
Proof.
  intros Ha. unfold promptfoo_assertion. repeat case_match; try done; intros [= <-];
    (eapply fields_json; [eauto 10 with payload|reflexivity]).
Qed.

Lemma promptfoo_assertions_json d asserts :
  json_val (VDict d) -> promptfoo_assertions d = Ok asserts -> json_val (VList asserts).
Proof.
  intros Hd. unfold promptfoo_assertions, effective_assertions, mbind, result_bind. cbv zeta.
  assert (forall l, json_dicts l -> json_val (VList (mapped l))) as Hm.
  { intros l Hl. constructor. unfold mapped. apply Forall_fmap. induction Hl as [|a l Ha _ IH]; [constructor|]. csimpl.
    destruct (promptfoo_assertion a) eqn:E; [|done]. constructor; [by eapply promptfoo_assertion_json|done]. }
  pose proof (json_get_or d "assertions" (VList []) Hd ltac:(by repeat constructor)) as Ha.
  assert (json_dicts [[("type", VStr "contains"); ("value", get_none d "expected_contains")]]) as Hl.
  { repeat constructor; [set_solver|set_solver|]. by apply json_get_none. }
  destruct (get_none d "expected_contains") as [| | | |e| | |]; try done;
    destruct (get_or d "assertions" (VList [])) as [| | | | |items| |]; try done;
    destruct (all_dicts items) as [ds|] eqn:Ed; try done; apply (json_all_dicts _ _ Ha) in Ed;
    intros [= <-]; apply Hm; [done|]. exact (Forall_app_2 _ _ _ Hl Ed).
Qed.
Lemma dataset_get_json ds k d : json_dicts ds.*2 -> dataset_get ds k = Some d -> json_val (VDict d).
Proof.
  induction ds as [|[k' d'] ds IH]; [done|]. rewrite fmap_cons, Forall_cons. intros [Hd Hds]. cbn [dataset_get].
  destruct (String.eqb k k'); [by intros [= <-]|auto].
Qed.

Lemma safe_outcomes_json r : json_val (VDict r) -> json_val (VList (generate_safe_outcomes r)).
Proof.
  intros Hr. rewrite safe_outcomes_agree. unfold safe_outcomes.
  pose proof (json_get_or r "assertions" (VList []) Hr ltac:(by repeat constructor)) as Ha.
  destruct (get_or r _ _) as [| | | | |l| |]; try by repeat constructor.
  inversion_clear Ha as [| | | | |? Hl|]. constructor. apply Forall_fmap.
  induction Hl as [|v l Hv _ IH]; [constructor|]. unfold dicts_of in *. csimpl. destruct v; try done. constructor; [|done].
  eapply fields_json; [unfold safe_fields; eauto 10 with payload|reflexivity].
Qed.

Lemma test_of_json run_id id asserts r : json_val (VList asserts) -> json_val (VDict r) -> json_val (test_of run_id id asserts r).
Proof.
  intros Ha Hr. pose proof (safe_outcomes_json r Hr) as Hs.
  pose proof (json_get_or r "tool_path" (VList []) Hr ltac:(by repeat constructor)) as Ht. unfold test_of.
  set (meta := [("run_id", _); _; _; _; _; _]).
  assert (json_val (VDict meta)) as Hm by (eapply fields_json; [unfold meta; eauto 20 with payload|reflexivity]).
  assert (json_val (VDict [("agentstorm", VDict meta)])) as Hm2 by (eapply fields_json; [eauto with payload|reflexivity]).
  assert (json_val (VDict [("agentstorm_case_id", VStr id.1); ("agentstorm_iteration", VInt id.2)])) as Hv
    by (eapply fields_json; [eauto 10 with payload|reflexivity]).
  eapply fields_json; [eauto 10 with payload|reflexivity].
Qed.

Lemma build_tests_json repr run_id ds seen results tests :
  json_dicts ds.*2 -> json_dicts results -> build_tests repr run_id ds seen results = Ok tests -> json_val (VList tests).
Proof.
  intros Hds Hr. revert seen tests. induction Hr as [|r results Hr _ IH]; intros seen tests; cbn [build_tests].
  - intros [= <-]. by repeat constructor.
  - destruct (identity r) as [id|]; [|done]. destruct (existsb _ seen); [done|].
    destruct (dataset_get ds id.1) as [source|] eqn:Es; [|done]. apply (dataset_get_json _ _ _ Hds) in Es.
    unfold mbind, result_bind. destruct (promptfoo_assertions source) as [asserts|] eqn:Ea; [|done].
    apply (promptfoo_assertions_json _ _ Es) in Ea. destruct (build_tests _ _ _ _ results) as [tests'|] eqn:Et; [|done].
    apply IH in Et. intros [= <-]. inversion_clear Et as [| | | | |? Ht|]. constructor. constructor; [by apply test_of_json|done].
Qed.

Lemma build_config_json repr provider_path url run_id ds results config :
  json_dicts ds.*2 -> json_dicts results ->
  build_config repr provider_path url run_id ds results = Ok config -> json_val (VDict config).
Proof.
  intros Hds Hr. unfold build_config, mbind, result_bind. destruct (build_tests _ _ _ _ _) as [tests|] eqn:Et; [|done].
  apply (build_tests_json _ _ _ _ _ _ Hds Hr) in Et. intros [= <-].
  assert (json_val (VDict [("resultApiUrl", VStr url); ("runId", VStr run_id)])) as Hc
    by (eapply fields_json; [eauto 10 with payload|reflexivity]).
  assert (json_val (VDict [("id", VStr provider_path); ("label", VStr "AgentStorm replay");
     ("config", VDict [("resultApiUrl", VStr url); ("runId", VStr run_id)])])) as Hp
    by (eapply fields_json; [eauto 10 with payload|reflexivity]).
  eapply fields_json; [eauto 20 with payload|reflexivity].
Qed.

Section Program.
Context (repr : val -> string) (netloc_nfkc_ok bracketed_host_ok : string -> bool).
Context (server : list http_get -> http_get -> get_reply).

(** Whatever the server sent, what [generate] writes is a JSON document. *)
Lemma generated_config_json fuel token_env provider_path url run_id text s config s' :
  generated_config repr netloc_nfkc_ok bracketed_host_ok server fuel token_env provider_path url run_id text s = (Done config, s') ->
  json_val (VDict config).
Proof.
  unfold generated_config, mbind, R_bind, pure, mret, R_ret, fail.
  destruct (read_token_from_environment _); [|done]. destruct (new_client _ _ _ _); [|done].
  destruct (completed_replay _ _ _ _ _ s) as [[[run cases]| |] s1] eqn:Ec; try done.
  apply completed_replay_sound in Ec as (_ & _ & _ & s2 & Hl).
  apply page_loop_json in Hl; [|constructor].
  destruct text as [t|]; [|done]. unfold load_dataset, mbind, result_bind.
  destruct (dataset_loop _ _ _ _) as [ds|] eqn:Ed; [|done]. apply dataset_json in Ed; [|constructor].
  destruct ds as [|kd ds]; [done|]. destruct (build_config _ _ _ _ _ _) as [config'|] eqn:Eb; [|done].
  intros [= <- _]. exact (build_config_json _ _ _ _ _ _ _ Ed Hl Eb).
Qed.

Lemma config_text_reads config : json_val (VDict config) -> exists text, config_text config = Ok text /\
  (utf8_val (VDict config) -> loads text = Some (VDict config)).
Proof.
  intros Hj. destruct (loads_dumps_indent _ nl Hj eq_refl) as (s & Hs & _). unfold config_text. rewrite Hs.
  eexists. split; [reflexivity|]. intros Hu. destruct (loads_ascii_indent _ nl Hj Hu eq_refl) as (s' & Hs' & Hl).
  rewrite Hs in Hs'. by injection Hs' as <-.
Qed.

(** C19.  The generator replaces its output as a whole.  However the run, the
    dataset and the calls of the operating system turn out, [main] leaves the
    old file in place unless it exits with code 0; then the file is a JSON
    document that reads back as the generated configuration (when its strings
    have no lone surrogates), and the temporary file is gone.  No file but
    these two changes. *)
Theorem main_replaces_output o fuel token_env provider_path args s fs code s' fs' :
  main repr netloc_nfkc_ok bracketed_host_ok server o fuel token_env provider_path args s fs = (code, s', fs') ->
  (forall p, p <> ns_output args -> p <> temporary_of (ns_output args) -> fs' !! p = fs !! p) /\
  (code <> Done 0 -> fs' !! ns_output args = fs !! ns_output args) /\
  (code = Done 0 -> exists config text,
     generated_config repr netloc_nfkc_ok bracketed_host_ok server fuel token_env provider_path
       (ns_result_api_url args) (ns_run_id args) (read_text fs (ns_dataset args)) s = (Done config, s') /\
     fs' !! ns_output args = Some text /\ fs' !! temporary_of (ns_output args) = None /\
     (utf8_val (VDict config) -> loads text = Some (VDict config))).
Proof.
  unfold main, generate. destruct (generated_config _ _ _ _ _ _ _ _ _ _ s) as [[config|e|] s1] eqn:Eg.
  2: by destruct e; intros [= <- <- <-].
  2: by intros [= <- <- <-].
  apply generated_config_json in Eg as Hj. destruct (config_text_reads config Hj) as (text & Ht & Hl).
  destruct (write_config o (ns_output args) config fs) as [r fs1] eqn:Ew.
  apply write_config_atomic in Ew as [Hother Hr]. destruct r as [[]|e].
  - intros [= <- <- <-]. split; [done|]. split; [done|]. intros _. exists config, text.
    destruct Hr as (text' & Ht' & Ho & Htmp). rewrite Ht in Ht'. injection Ht' as <-. done.
  - by destruct e; intros [= <- <- <-].
Qed.
End Program.

Example paths : to_path "out//cfg/./promptfoo.json" = ("out/cfg", "promptfoo.json") /\ to_path "/" = ("/", "") /\
  to_path "/tmp/x/" = ("/tmp", "x") /\ to_path "a.json" = ("", "a.json").
Proof. by vm_compute. Qed.

(** ** A run of the program *)

Definition sample_args : Namespace := mkNamespace "http://api" "r1" ("data", "cases.jsonl") ("out", "promptfoo.json").
Definition sample_fs : files := {[("data", "cases.jsonl") := sample_text; ("out", "promptfoo.json") := "old"]}.

(** A dataset that is not UTF-8 ends the program with a traceback. *)
Example binary_dataset_escapes :
  read_text {[("data", "cases.jsonl") := bytes_str [255]%nat]} ("data", "cases.jsonl")
  = Err (PyError (ValueError "'utf-8' codec can't decode the file")) /\
  read_text sample_fs ("data", "cases.jsonl") = Ok sample_text.
Proof. split; vm_compute; reflexivity. Qed.

Lemma main_replaces_output_witness :
  (exists s' fs' text d, main no_repr yes yes sample_server (mkOS true None true) 5 (Some "t") "file:///p/provider.py" sample_args
     (mkSession [] []) sample_fs = (Done 0, s', fs') /\ fs' !! ("out", "promptfoo.json") = Some text /\
     generated_config no_repr yes yes sample_server 5 (Some "t") "file:///p/provider.py" "http://api" "r1" (Ok sample_text)
       (mkSession [] []) = (Done d, s') /\ (utf8_val (VDict d) -> loads text = Some (VDict d))) /\
  (exists s' fs', main no_repr yes yes sample_server (mkOS true (Some (Some "{")) true) 5 (Some "t") "file:///p/provider.py"
     sample_args (mkSession [] []) sample_fs = (Done 1, s', fs') /\ fs' !! ("out", "promptfoo.json") = Some "old").
Proof.
  split.
  - destruct (main no_repr yes yes sample_server (mkOS true None true) 5 (Some "t") "file:///p/provider.py" sample_args
      (mkSession [] []) sample_fs) as [[code s'] fs'] eqn:E.
    assert (code = Done 0) as -> by (transitivity ((code, s', fs').1.1); [reflexivity|rewrite <- E; vm_compute; reflexivity]).
    destruct (main_replaces_output no_repr yes yes sample_server (mkOS true None true) 5 (Some "t") "file:///p/provider.py"
      sample_args (mkSession [] []) sample_fs _ _ _ E) as (_ & _ & H).
    destruct (H eq_refl) as (config & text & Hg & Ho & _ & Hl).
    exists s', fs', text, config. split; [reflexivity|]. split; [exact Ho|]. split; [exact Hg|exact Hl].
  - destruct (main no_repr yes yes sample_server (mkOS true (Some (Some "{")) true) 5 (Some "t") "file:///p/provider.py" sample_args
      (mkSession [] []) sample_fs) as [[code s'] fs'] eqn:E.
    assert (code = Done 1) as -> by (transitivity ((code, s', fs').1.1); [reflexivity|rewrite <- E; vm_compute; reflexivity]).
    destruct (main_replaces_output no_repr yes yes sample_server (mkOS true (Some (Some "{")) true) 5 (Some "t") "file:///p/provider.py"
      sample_args (mkSession [] []) sample_fs _ _ _ E) as (_ & H & _).
    exists s', fs'. split; [reflexivity|]. transitivity (sample_fs !! ("out", "promptfoo.json")); [apply H; discriminate|reflexivity].
Defined.
End Generate.
