(* ===== verification/SREFixtures.v ===== *)
(** * Fixtures of the SRE benchmark ([benchmarks/sre_fixtures.json])

    The 32 synthetic incidents: four families of eight, which share everything
    but the incident id, the service and the window. *)
From S2P Require Import Prelude PyFloat PyStr PyVal.
Import PyFloat PyStr PyVal.

Module SREFixtures.

Record incident := mkIncident {
  in_incident_id : string;
  in_service : string;
  in_window : string;
  in_symptom : string;
  in_root_cause : string;
  in_severity : string;
  in_recommended_action : string;
  in_error_signature : string;
  in_runbook : string;
  in_summary : string;          (* the summary of the metrics *)
  in_measures : dict;           (* the other metrics *)
  in_log_entries : list string
}.

(** The error rates, as floats. *)
Definition rate_7 : float := Eval vm_compute in float_of_decimal 7 (-2).
Definition rate_18 : float := Eval vm_compute in float_of_decimal 18 (-2).
Definition rate_31 : float := Eval vm_compute in float_of_decimal 31 (-2).
Definition rate_44 : float := Eval vm_compute in float_of_decimal 44 (-2).

Definition db_pool (incident_id service window : string) : incident :=
  mkIncident incident_id service window
    "Requests time out while database-backed endpoints return intermittent 503 responses."
    "database_pool_exhaustion" "sev2" "increase_pool_and_restart" "DB_POOL_TIMEOUT" "RB-017"
    "db_pool_in_use_100_percent"
    [("latency_p95_ms", VInt 1850); ("error_rate", VFloat rate_18);
     ("memory_percent", VInt 61); ("connection_pool_in_use_percent", VInt 100)]
    ["connection acquisition timed out"; "pool has no idle connections"].

Definition memory_leak (incident_id service window : string) : incident :=
  mkIncident incident_id service window
    "Latency rises gradually and pods restart after sustained memory growth."
    "memory_leak" "sev2" "rollback_and_restart" "OOM_GROWTH_DETECTED" "RB-023"
    "memory_rss_monotonic_growth"
    [("latency_p95_ms", VInt 920); ("error_rate", VFloat rate_7);
     ("memory_percent", VInt 97); ("connection_pool_in_use_percent", VInt 42)]
    ["heap retained objects increasing"; "container terminated with OOMKilled"].

Definition upstream_timeout (incident_id service window : string) : incident :=
  mkIncident incident_id service window
    "User requests stall while calls to one downstream dependency exceed their deadline."
    "downstream_dependency_timeout" "sev1" "enable_failover_and_reduce_timeout" "UPSTREAM_DEADLINE_EXCEEDED" "RB-031"
    "upstream_latency_and_timeout_spike"
    [("latency_p95_ms", VInt 4200); ("error_rate", VFloat rate_31);
     ("memory_percent", VInt 48); ("connection_pool_in_use_percent", VInt 55)]
    ["upstream request deadline exceeded"; "retry budget exhausted"].

Definition bad_release (incident_id service window : string) : incident :=
  mkIncident incident_id service window
    "Error rate jumps immediately after a new version reaches production."
    "bad_release" "sev1" "rollback_release" "NEW_RELEASE_ERROR_SPIKE" "RB-042"
    "error_spike_correlated_with_deploy"
    [("latency_p95_ms", VInt 760); ("error_rate", VFloat rate_44);
     ("memory_percent", VInt 52); ("connection_pool_in_use_percent", VInt 37)]
    ["new version emitted unknown field error"; "errors began at deployment boundary"].

Definition _FIXTURES : list incident :=
  [db_pool "INC-001" "checkout-api" "2026-07-01T10:00:00Z/2026-07-01T10:15:00Z";
   db_pool "INC-002" "orders-api" "2026-07-02T10:00:00Z/2026-07-02T10:15:00Z";
   db_pool "INC-003" "payments-api" "2026-07-03T10:00:00Z/2026-07-03T10:15:00Z";
   db_pool "INC-004" "inventory-api" "2026-07-04T10:00:00Z/2026-07-04T10:15:00Z";
   db_pool "INC-005" "catalog-api" "2026-07-05T10:00:00Z/2026-07-05T10:15:00Z";
   db_pool "INC-006" "profile-api" "2026-07-06T10:00:00Z/2026-07-06T10:15:00Z";
   db_pool "INC-007" "session-api" "2026-07-07T10:00:00Z/2026-07-07T10:15:00Z";
   db_pool "INC-008" "notification-api" "2026-07-08T10:00:00Z/2026-07-08T10:15:00Z";
   memory_leak "INC-009" "image-worker" "2026-07-09T10:00:00Z/2026-07-09T10:15:00Z";
   memory_leak "INC-010" "report-worker" "2026-07-10T10:00:00Z/2026-07-10T10:15:00Z";
   memory_leak "INC-011" "recommendation-api" "2026-07-11T10:00:00Z/2026-07-11T10:15:00Z";
   memory_leak "INC-012" "analytics-api" "2026-07-12T10:00:00Z/2026-07-12T10:15:00Z";
   memory_leak "INC-013" "search-indexer" "2026-07-13T10:00:00Z/2026-07-13T10:15:00Z";
   memory_leak "INC-014" "event-consumer" "2026-07-14T10:00:00Z/2026-07-14T10:15:00Z";
   memory_leak "INC-015" "audit-worker" "2026-07-15T10:00:00Z/2026-07-15T10:15:00Z";
   memory_leak "INC-016" "pricing-api" "2026-07-16T10:00:00Z/2026-07-16T10:15:00Z";
   upstream_timeout "INC-017" "shipping-api" "2026-07-17T10:00:00Z/2026-07-17T10:15:00Z";
   upstream_timeout "INC-018" "tax-api" "2026-07-18T10:00:00Z/2026-07-18T10:15:00Z";
   upstream_timeout "INC-019" "fraud-api" "2026-07-19T10:00:00Z/2026-07-19T10:15:00Z";
   upstream_timeout "INC-020" "auth-gateway" "2026-07-20T10:00:00Z/2026-07-20T10:15:00Z";
   upstream_timeout "INC-021" "email-api" "2026-07-21T10:00:00Z/2026-07-21T10:15:00Z";
   upstream_timeout "INC-022" "sms-api" "2026-07-22T10:00:00Z/2026-07-22T10:15:00Z";
   upstream_timeout "INC-023" "warehouse-api" "2026-07-23T10:00:00Z/2026-07-23T10:15:00Z";
   upstream_timeout "INC-024" "loyalty-api" "2026-07-24T10:00:00Z/2026-07-24T10:15:00Z";
   bad_release "INC-025" "checkout-web" "2026-07-25T10:00:00Z/2026-07-25T10:15:00Z";
   bad_release "INC-026" "orders-web" "2026-07-26T10:00:00Z/2026-07-26T10:15:00Z";
   bad_release "INC-027" "admin-api" "2026-07-27T10:00:00Z/2026-07-27T10:15:00Z";
   bad_release "INC-028" "edge-router" "2026-07-28T10:00:00Z/2026-07-28T10:15:00Z";
   bad_release "INC-029" "config-api" "2026-07-29T10:00:00Z/2026-07-29T10:15:00Z";
   bad_release "INC-030" "billing-api" "2026-07-30T10:00:00Z/2026-07-30T10:15:00Z";
   bad_release "INC-031" "fulfillment-api" "2026-07-31T10:00:00Z/2026-07-31T10:15:00Z";
   bad_release "INC-032" "support-api" "2026-08-01T10:00:00Z/2026-08-01T10:15:00Z"].

End SREFixtures.
