(* ===== verification/SRE.v ===== *)
(** * The SRE benchmark pack ([benchmarks/sre.py])

    Four read-only tools over synthetic incidents, a deterministic adapter that
    walks through them, a wrapper that records the tool calls of a real
    adapter, the factory, and the assertion that judges the recorded calls.
    The context variable of the recorded calls is [w_calls]; the Agents SDK is
    a parameter. *)
From S2P Require Import Prelude PyFloat PyStr PyVal PyJson JsonParse PyDecimal Models Sha256 Retry Circuit Effects.
From S2P Require Import JsonAscii OpenAIValidate Config OpenAICompat Adapters SREFixtures.
Import PyFloat PyStr PyVal PyJson PyDecimal JsonAscii OpenAIValidate OpenAICompat Adapters SREFixtures.

Module SRE.

(** The fixtures by incident id, in the order of the file. *)
Definition _INCIDENTS : list (string * incident) := (fun i => (in_incident_id i, i)) <$> _FIXTURES.

Definition incident_metrics (i : incident) : dict := ("summary", VStr (in_summary i)) :: in_measures i.

(** [_INCIDENTS.get(key)]: a list or a dictionary is unhashable. *)
Definition incident_get (key : val) : pyres (option incident) :=
  match key with
  | VStr s => Ok (snd <$> List.find (fun kv => String.eqb kv.1 s) _INCIDENTS)
  | VList _ => Err (TypeError "unhashable type: 'list'")
  | VDict _ => Err (TypeError "unhashable type: 'dict'")
  | _ => Ok None
  end.

Definition sorted_json (v : val) : pyres string := ensure_ascii <$> dumps tool_json v.

(** ** Tools *)

Definition recorded_call (name : string) (arguments : dict) : val :=
  VDict [("name", VStr name); ("arguments", VDict arguments)].

Definition _record (name : string) (arguments : dict) : M unit :=
  modify (fun w => match w_calls w with
                   | Some calls => set_calls (Some (calls ++ [recorded_call name arguments])) w
                   | None => w
                   end).

Definition _evidence (i : incident) : list string :=
  ["metrics:" +:+ in_summary i; "logs:" +:+ in_error_signature i].

Definition incident_view (incident_id : val) : pyres val :=
  found ← incident_get incident_id;
  match found with
  | None => Err (ValueError "unknown synthetic incident")
  | Some i => Ok (VDict [("incident_id", incident_id); ("service", VStr (in_service i)); ("window", VStr (in_window i));
                         ("symptom", VStr (in_symptom i))])
  end.

Definition _incident_for_service (service window : val) : pyres incident :=
  match List.find (fun kv => eq_str service (in_service kv.2) && eq_str window (in_window kv.2)) _INCIDENTS with
  | Some (_, i) => Ok i
  | None => Err (ValueError "unknown synthetic service window")
  end.

Definition metrics_view (service window : val) : pyres val :=
  i ← _incident_for_service service window;
  Ok (VDict (dict_update [("service", service); ("window", window)] (incident_metrics i))).

Definition logs_view (service window : val) : pyres val :=
  i ← _incident_for_service service window;
  Ok (VDict [("service", service); ("window", window); ("error_signature", VStr (in_error_signature i));
             ("entries", VList (VStr <$> in_log_entries i))]).

Definition runbook_fields (i : incident) : dict :=
  [("root_cause", VStr (in_root_cause i)); ("severity", VStr (in_severity i));
   ("recommended_action", VStr (in_recommended_action i)); ("evidence", VList (VStr <$> _evidence i));
   ("runbook", VStr (in_runbook i))].

Definition runbook_view (error_signature : val) : pyres val :=
  match List.find (fun kv => eq_str error_signature (in_error_signature kv.2)) _INCIDENTS with
  | Some (_, i) => Ok (VDict (("error_signature", error_signature) :: runbook_fields i))
  | None => Err (ValueError "unknown synthetic error signature")
  end.

Definition _diagnosis (i : incident) : val := VDict (("incident_id", VStr (in_incident_id i)) :: runbook_fields i).

Section Tools.
Context {env : Env} (repr : val -> string).

Definition _deterministic_delay (key : val) (tool_name : string) : M unit :=
  let digest := Sha256.digest (nul_join [py_str repr key; tool_name]) in
  sleep (of_ratio (1 + hd 0 digest mod 3) 1000).

Definition get_incident (incident_id : val) : M val :=
  _record "get_incident" [("incident_id", incident_id)];;
  _deterministic_delay incident_id "get_incident";;
  lift (incident_view incident_id).

Definition query_metrics (service window : val) : M val :=
  _record "query_metrics" [("service", service); ("window", window)];;
  _deterministic_delay service "query_metrics";;
  lift (metrics_view service window).

Definition search_logs (service window : val) : M val :=
  _record "search_logs" [("service", service); ("window", window)];;
  _deterministic_delay service "search_logs";;
  lift (logs_view service window).

Definition lookup_runbook (error_signature : val) : M val :=
  _record "lookup_runbook" [("error_signature", error_signature)];;
  _deterministic_delay error_signature "lookup_runbook";;
  lift (runbook_view error_signature).

(** [function( **arguments)]: a missing or an unexpected argument is a
    TypeError before the body runs. *)
Definition bad_call {A} : M A := raise (EPy (TypeError "unexpected arguments")).

Definition keyword1 (k : string) (f : val -> M val) (arguments : dict) : M val :=
  match dict_get arguments k, length arguments with
  | Some v, 1%nat => f v
  | _, _ => bad_call
  end.

Definition keyword2 (k1 k2 : string) (f : val -> val -> M val) (arguments : dict) : M val :=
  match dict_get arguments k1, dict_get arguments k2, length arguments with
  | Some v1, Some v2, 2%nat => f v1 v2
  | _, _, _ => bad_call
  end.

Definition call_get_incident := keyword1 "incident_id" get_incident.
Definition call_query_metrics := keyword2 "service" "window" query_metrics.
Definition call_search_logs := keyword2 "service" "window" search_logs.
Definition call_lookup_runbook := keyword1 "error_signature" lookup_runbook.

(** ** [SREFakeAdapter] *)

Definition _invoke (lifecycle : option AgentLifecycle) (case_id : string) (index : Z) (name : string)
    (function : dict -> M val) (arguments : dict) : M val :=
  let event := mkToolEvent (case_id +:+ "-" +:+ str_of_Z index) name "function" None (Some "sre-diagnostic-agent")
                 (VDict arguments) VNone in
  notify lifecycle (fun lc => tool_started lc event);;
  result ← function arguments;
  notify lifecycle (fun lc => tool_finished lc (with_result event result) "");;
  mret result.

(** [_TOOL_CALLS.set(calls)], the body, and [_TOOL_CALLS.reset(token)] on
    every way out; [calls] is the list the body has appended to. *)
Definition recording {A} (body : M A) : M (A * list val) := fun w =>
  match body (set_calls (Some []) w) with
  | (Ret a, w') => (Ret (a, default [] (w_calls w')), set_calls (w_calls w) w')
  | (Raise e, w') => (Raise e, set_calls (w_calls w) w')
  | (Diverge, w') => (Diverge, w')
  end.

(** [str(result[key])] *)
Definition str_field (result : val) (key : string) : pyres string :=
  match result with
  | VDict d => match dict_get d key with Some v => Ok (py_str repr v) | None => Err (KeyError key) end
  | _ => Err (TypeError "not subscriptable")
  end.

Definition four_tools (lifecycle : option AgentLifecycle) (case_id incident_id : string) : M unit :=
  incident_result ← _invoke lifecycle case_id 1 "get_incident" call_get_incident [("incident_id", VStr incident_id)];
  service ← lift (str_field incident_result "service");
  window ← lift (str_field incident_result "window");
  let service_window := [("service", VStr service); ("window", VStr window)] in
  _invoke lifecycle case_id 2 "query_metrics" call_query_metrics service_window;;
  logs ← _invoke lifecycle case_id 3 "search_logs" call_search_logs service_window;
  error_signature ← lift (str_field logs "error_signature");
  _invoke lifecycle case_id 4 "lookup_runbook" call_lookup_runbook [("error_signature", VStr error_signature)];;
  mret tt.

Definition incident_id_of (case : TestCase) : string :=
  py_str repr (py_or (get_none (tc_metadata case) "incident_id") (VStr (tc_case_id case))).

Definition TOOL_CALLS_KEY : string := "agentstorm.sre.tool_calls".

Definition fake_run (case : TestCase) (lifecycle : option AgentLifecycle) : M AdapterResponse :=
  let incident_id := incident_id_of case in
  found ← lift (incident_get (VStr incident_id));
  match found with
  | None => raise (EPy (ValueError "unknown synthetic incident"))
  | Some incident =>
      '(_, calls) ← recording (four_tools lifecycle (tc_case_id case) incident_id);
      output ← lift (sorted_json (_diagnosis incident));
      mret (mkResponse output (Some 240) (Some 96) (Some 5) (Some 4) [(TOOL_CALLS_KEY, VList calls)])
  end.

(** ** [_SRERecordingAdapter] *)

Definition fence : string := "```".

Definition _unwrap_json_fence (output : string) : string :=
  let stripped := strip output in
  if negb (startswith fence stripped) then output
  else
    let lines := Config.splitlines stripped in
    if (length lines <? 3)%nat || negb (String.eqb (strip (List.last lines "")) fence) then output
    else strip (join (String (ascii_of_nat 10) "") (removelast (tail lines))).

Definition recording_run (adapter : TestCase -> option AgentLifecycle -> M AdapterResponse) (case : TestCase)
    (lifecycle : option AgentLifecycle) : M AdapterResponse :=
  '(response, calls) ← recording (adapter case lifecycle);
  mret (mkResponse (_unwrap_json_fence (ar_output response)) (ar_input_tokens response) (ar_output_tokens response)
          (ar_model_call_count response) (Some (Z.of_nat (length calls)))
          (dict_set (ar_metadata response) TOOL_CALLS_KEY (VList calls))).
End Tools.
(** ** The compatible factory *)

Definition SRE_COMPATIBLE_TEMPERATURE : Z := 0.
Definition SRE_COMPATIBLE_MAX_OUTPUT_TOKENS : Z := 512.
Definition SRE_COMPATIBLE_MAX_MODEL_CALLS : Z := 8.
Definition SRE_COMPATIBLE_REQUEST_TIMEOUT_SECONDS : Z := 120.
Definition SRE_COMPATIBLE_INPUT_TOKEN_ALLOWANCE : Z := UNKNOWN_CALL_INPUT_TOKENS.

Definition _DIAGNOSIS_CONTRACT : string :=
  "Return only a JSON object with keys incident_id, root_cause, severity, " +:+
  "recommended_action, evidence, and runbook. Copy incident_id from the user message. " +:+
  "Copy root_cause, severity, recommended_action, evidence, and runbook verbatim from " +:+
  "the lookup_runbook result. evidence is a JSON array of strings. Do not paraphrase " +:+
  "those fields and do not use Markdown.".

Definition _COMPATIBLE_INSTRUCTIONS : string :=
  "Diagnose the supplied synthetic incident. Call get_incident first. Use its service " +:+
  "and window for both query_metrics and search_logs; those two calls may be made in " +:+
  "either order or together. Call lookup_runbook with the exact error_signature returned " +:+
  "by search_logs. Do not repeat tools or call any other tool. " +:+ _DIAGNOSIS_CONTRACT.

Definition _AGENTS_INSTRUCTIONS : string :=
  "Diagnose the supplied synthetic incident. Call get_incident first. Use its service " +:+
  "and window for both query_metrics and search_logs; those two calls may be made in " +:+
  "either order. Call lookup_runbook with the exact error_signature returned by logs. " +:+
  "Do not repeat tools or call any other tool. " +:+ _DIAGNOSIS_CONTRACT.

Definition _OBJECT_SCHEMA : dict := [("type", VStr "object"); ("additionalProperties", VBool false)].

Definition _tool_schema (properties : dict) (required : list string) : dict :=
  dict_update _OBJECT_SCHEMA [("properties", VDict properties); ("required", VList (VStr <$> required))].

Section Compatible.
Context {env : Env} (repr : val -> string).

Definition _compatible_tools : list ChatTool :=
  let string_type := VDict [("type", VStr "string")] in
  [mkTool "get_incident" "Read one synthetic incident by id."
     (_tool_schema [("incident_id", string_type)] ["incident_id"]) (call_get_incident repr);
   mkTool "query_metrics" "Read synthetic service metrics for a window."
     (_tool_schema [("service", string_type); ("window", string_type)] ["service"; "window"]) (call_query_metrics repr);
   mkTool "search_logs" "Read synthetic service logs for a window."
     (_tool_schema [("service", string_type); ("window", string_type)] ["service"; "window"]) (call_search_logs repr);
   mkTool "lookup_runbook" "Read the synthetic runbook for an error signature."
     (_tool_schema [("error_signature", string_type)] ["error_signature"]) (call_lookup_runbook repr)].

Definition _compatible_tool_schemas : list val := schema <$> _compatible_tools.

Definition approximate_token_count (text : string) : Z := Z.max 1 ((pylen text + 3) / 4).

(** [result[key]] *)
Definition subscript (result : val) (key : string) : pyres val :=
  match result with
  | VDict d => match dict_get d key with Some v => Ok v | None => Err (KeyError key) end
  | _ => Err (TypeError "not subscriptable")
  end.

Definition assistant_call_item (call : string * string * dict) : pyres val :=
  let '(call_id, name, arguments) := call in
  text ← sorted_json (VDict arguments);
  Ok (VDict [("id", VStr call_id); ("type", VStr "function");
             ("function", VDict [("name", VStr name); ("arguments", VStr text)])]).

Definition _assistant_calls (calls : list (string * string * dict)) : pyres val :=
  items ← mapM_result assistant_call_item calls;
  Ok (VDict [("role", VStr "assistant"); ("content", VNone); ("tool_calls", VList items)]).

Definition _assistant_call (call_id name : string) (arguments : dict) : pyres val :=
  _assistant_calls [(call_id, name, arguments)].

Definition _tool_message (call_id : string) (payload : val) : pyres val :=
  text ← sorted_json payload;
  Ok (VDict [("role", VStr "tool"); ("tool_call_id", VStr call_id); ("content", VStr text)]).

Definition _scripted_history (incident_id : string) (fetched metrics logs runbook : val) : pyres (list val) :=
  service ← subscript fetched "service";
  window ← subscript fetched "window";
  let service_window := [("service", service); ("window", window)] in
  error_signature ← subscript logs "error_signature";
  c1 ← _assistant_call "c1" "get_incident" [("incident_id", VStr incident_id)];
  t1 ← _tool_message "c1" fetched;
  c23 ← _assistant_calls [("c2", "query_metrics", service_window); ("c3", "search_logs", service_window)];
  t2 ← _tool_message "c2" metrics;
  t3 ← _tool_message "c3" logs;
  c4 ← _assistant_call "c4" "lookup_runbook" [("error_signature", error_signature)];
  t4 ← _tool_message "c4" runbook;
  Ok [VDict [("role", VStr "system"); ("content", VStr _COMPATIBLE_INSTRUCTIONS)];
      VDict [("role", VStr "user");
             ("content", VStr ("Investigate incident " +:+ incident_id +:+ ". Use the available read-only tools " +:+
                               "and return the required diagnosis."))];
      c1; t1; c23; t2; t3; c4; t4].

Definition scripted_payload (messages : list val) : val :=
  VDict [("model", VStr "pinned-model-id"); ("messages", VList messages); ("stream", VBool false);
         ("tools", VList _compatible_tool_schemas); ("tool_choice", VStr "auto");
         ("temperature", VInt SRE_COMPATIBLE_TEMPERATURE); ("max_tokens", VInt SRE_COMPATIBLE_MAX_OUTPUT_TOKENS)].

(** The loop of [largest_scripted_request_tokens]. *)
Fixpoint measure (worst : Z) (incident_ids : list string) : M Z :=
  match incident_ids with
  | [] => mret worst
  | incident_id :: rest =>
      fetched ← get_incident repr (VStr incident_id);
      service ← lift (subscript fetched "service");
      window ← lift (subscript fetched "window");
      metrics ← query_metrics repr service window;
      logs ← search_logs repr service window;
      error_signature ← lift (str_field repr logs "error_signature");
      runbook ← lookup_runbook repr (VStr error_signature);
      messages ← lift (_scripted_history incident_id fetched metrics logs runbook);
      text ← lift (dumps spaced (scripted_payload messages));
      measure (Z.max worst (approximate_token_count text)) rest
  end.

Definition largest_scripted_request_tokens : M Z := measure 0 _INCIDENTS.*1.

(** [AdapterFactoryContext] of [adapters/base.py]. *)
Record AdapterFactoryContext := mkFactoryContext {
  fc_provider : string;
  fc_model : string;
  fc_base_url : string;
  fc_max_output_tokens : option Z;
  fc_request_fields : dict;
  fc_http_retry_attempts : option Z;
  fc_http_retry_max_wait_seconds : option Z
}.

Definition compatible_request_fields (context : AdapterFactoryContext) : pyres dict :=
  max_tokens ← match fc_max_output_tokens context with
               | Some n => validate_max_output_tokens (VInt n)
               | None => Ok SRE_COMPATIBLE_MAX_OUTPUT_TOKENS
               end;
  extra ← validate_request_fields (VDict (fc_request_fields context)) ["temperature"; "max_tokens"];
  Ok (dict_update [("temperature", VInt SRE_COMPATIBLE_TEMPERATURE); ("max_tokens", VInt max_tokens)] extra).

Context (netloc_nfkc_ok bracketed_host_ok : string -> bool).

(** The adapter inside the recording wrapper. *)
Definition _create_openai_compatible_adapter (context : AdapterFactoryContext) : pyres OpenAICompatibleAdapter :=
  request_fields ← compatible_request_fields context;
  kwargs ← http_retry_adapter_kwargs (fc_http_retry_attempts context) (fc_http_retry_max_wait_seconds context);
  new_adapter netloc_nfkc_ok bracketed_host_ok (fc_model context) (fc_base_url context) _COMPATIBLE_INSTRUCTIONS
    _compatible_tools None SRE_COMPATIBLE_MAX_MODEL_CALLS (of_Z SRE_COMPATIBLE_REQUEST_TIMEOUT_SECONDS)
    (VDict request_fields) "sre-diagnostic-agent" (VInt UNKNOWN_CALL_INPUT_TOKENS) kwargs.1
    (VFloat DEFAULT_HTTP_RETRY_INITIAL_SECONDS) kwargs.2.

(** The recorded adapter behind each provider; of an Agents adapter, what the
    factory passes to it. *)
Inductive sre_adapter :=
| SREFake
| SREAgents (model base_url name instructions : string) (tools : list string)
| SRECompatible (a : OpenAICompatibleAdapter).

(** Whether the Agents SDK can be imported is a parameter. *)
Definition _create_openai_adapter (agents_installed : bool) (context : AdapterFactoryContext) : pyres sre_adapter :=
  guard agents_installed (ImportError "agents");;
  guard (negb (String.eqb (fc_model context) "")) (ValueError "target.model is required for provider openai-agents");;
  Ok (SREAgents (fc_model context) (fc_base_url context) "AgentStorm SRE diagnostic agent" _AGENTS_INSTRUCTIONS
        ["get_incident"; "query_metrics"; "search_logs"; "lookup_runbook"]).

Definition create_adapter (agents_installed : bool) (context : AdapterFactoryContext) : pyres sre_adapter :=
  if String.eqb (fc_provider context) "fake" then Ok SREFake
  else if String.eqb (fc_provider context) "openai-agents" then
    _create_openai_adapter agents_installed context
  else if String.eqb (fc_provider context) "openai-compatible" then
    a ← _create_openai_compatible_adapter context; Ok (SRECompatible a)
  else Err (ValueError "SRE benchmark supports fake, openai-agents, or openai-compatible providers").
End Compatible.

(** ** [validate_tool_usage] *)

Definition call_name (call : val) : option val :=
  match call with VDict d => Some (get_none d "name") | _ => None end.

(** [set(names)] raises on a list or a dictionary. *)
Definition hashable (v : val) : bool := match v with VList _ | VDict _ => false | _ => true end.

Definition str_of (v : val) : option string := match v with VStr s => Some s | _ => None end.

(** [set(names) == {a, b}] *)
Definition set_is_pair (names : list val) (a b : string) : bool :=
  forallb (fun v => eq_str v a || eq_str v b) names && existsb (fun v => eq_str v a) names && existsb (fun v => eq_str v b) names.

(** [names == [s]] *)
Definition is_single (names : list val) (s : string) : bool :=
  match names with [v] => eq_str v s | _ => false end.

Definition last_one {A} (l : list A) : list A := drop (length l - 1) l.

(** [v == {k1: s1, ...}], without regard to the order of the keys. *)
Definition equals_strings (v : val) (expected : list (string * string)) : bool :=
  match v with
  | VDict d => (length d =? length expected)%nat && forallb (fun ks => eq_str (get_none d ks.1) ks.2) expected
  | _ => false
  end.

(** [{call["name"]: call.get("arguments") for call in calls}[name]]: the last
    call of that name counts. *)
Definition arguments_of (calls : list val) (name : string) : val :=
  match List.find (fun call => match call_name call with Some v => eq_str v name | None => false end) (rev calls) with
  | Some (VDict d) => get_none d "arguments"
  | _ => VNone
  end.

Definition verdict (passed : bool) (message : string) : val :=
  VDict [("passed", VBool passed); ("message", VStr message)].

(** The judgement of the recorded calls of a known incident. *)
Definition judge_calls (incident : incident) (case_id : string) (calls : list val) : pyres val :=
  let names := omap call_name calls in
  if negb (length calls =? 4)%nat || negb (is_single (take 1 names) "get_incident") ||
     negb (is_single (last_one names) "lookup_runbook")
  then Ok (verdict false "tool count or boundary order is invalid")
  else if negb (forallb hashable (take 2 (drop 1 names))) then Err (TypeError "unhashable type")
  else if negb (set_is_pair (take 2 (drop 1 names)) "query_metrics" "search_logs") ||
          (* every name is a string once the first test has failed *)
          negb (length (remove_dups (omap str_of names)) =? 4)%nat
  then Ok (verdict false "metrics/log order or duplicate tools are invalid")
  else
    let expected_service_window := [("service", in_service incident); ("window", in_window incident)] in
    let passed :=
      equals_strings (arguments_of calls "get_incident") [("incident_id", case_id)] &&
      equals_strings (arguments_of calls "query_metrics") expected_service_window &&
      equals_strings (arguments_of calls "search_logs") expected_service_window &&
      equals_strings (arguments_of calls "lookup_runbook") [("error_signature", in_error_signature incident)] in
    Ok (verdict passed (if passed then "" else "tool arguments do not follow prior tool evidence")).

Definition validate_tool_usage (repr : val -> string) (context : dict) : pyres val :=
  let case_id := py_str repr (py_or (get_none context "case_id") (VStr "")) in
  found ← incident_get (VStr case_id);
  let calls := match get_none context "metadata" with
               | VDict metadata => get_none metadata TOOL_CALLS_KEY
               | _ => VNone
               end in
  match found, calls with
  | Some incident, VList calls => judge_calls incident case_id calls
  | _, _ => Ok (verdict false "SRE tool evidence is missing")
  end.

(** ** Facts about the fixtures *)

(** Incident ids and service windows identify an incident, and every error
    signature has a runbook. *)
Definition reachable_incident (i : incident) : Prop :=
  incident_get (VStr (in_incident_id i)) = Ok (Some i) /\
  _incident_for_service (VStr (in_service i)) (VStr (in_window i)) = Ok i /\
  is_ok (runbook_view (VStr (in_error_signature i))) = true.

Lemma fixtures_reachable : Forall reachable_incident _FIXTURES.
Proof. unfold _FIXTURES. repeat (apply Forall_cons_2; [by split_and!; vm_compute|]). apply Forall_nil_2. Qed.

Lemma incident_get_found s i : incident_get (VStr s) = Ok (Some i) -> i ∈ _FIXTURES /\ in_incident_id i = s.
Proof.
  unfold incident_get. destruct (List.find _ _INCIDENTS) as [[k j]|] eqn:E; [|done]. cbn [fmap option_fmap option_map snd].
  intros [= ->].
  apply find_some in E as [Hin Hk]. apply String.eqb_eq in Hk. simpl in Hk. subst k.
  apply list_elem_of_In in Hin. unfold _INCIDENTS in Hin. apply list_elem_of_fmap in Hin as (j & [= -> ->] & Hj). done.
Qed.

Lemma incident_reachable i : i ∈ _FIXTURES -> reachable_incident i.
Proof. apply Forall_forall, fixtures_reachable. Qed.

(** ** Tool calls and what they record

    [logs m new Q E]: from a state that records calls, [m] ends; when it
    returns, its value satisfies [Q] and it has recorded [new]; an exception
    satisfies [E]. *)
Definition logs {A} (m : M A) (new : list val) (Q : A -> Prop) (E : exn -> Prop) : Prop :=
  forall w cs, w_calls w = Some cs ->
  match m w with
  | (Ret a, w') => Q a /\ w_calls w' = Some (cs ++ new)
  | (Raise e, _) => E e
  | (Diverge, _) => False
  end.

Section Logs.
Context {env : Env} (E : exn -> Prop).

Lemma logs_ret {A} (a : A) (Q : A -> Prop) : Q a -> logs (mret a) [] Q E.
Proof. intros H w cs Hw. simpl. by rewrite app_nil_r. Qed.

Lemma logs_bind {A B} (m : M A) (k : A -> M B) n1 n2 (P : A -> Prop) (Q : B -> Prop) :
  logs m n1 P E -> (forall a, P a -> logs (k a) n2 Q E) -> logs (m ≫= k) (n1 ++ n2) Q E.
Proof.
  intros Hm Hk w cs Hw. unfold mbind, M_bind. specialize (Hm w cs Hw). destruct (m w) as [[a|e|] w1]; [|done..].
  destruct Hm as [Ha Hw1]. specialize (Hk a Ha w1 _ Hw1). rewrite app_assoc. done.
Qed.

Lemma logs_lift {A} (r : pyres A) (a : A) : r = Ok a -> logs (lift r) [] (fun x => x = a) E.
Proof. intros -> w cs Hw. simpl. by rewrite app_nil_r. Qed.

Lemma logs_mono {A} (m : M A) n (P Q : A -> Prop) : (forall a, P a -> Q a) -> logs m n P E -> logs m n Q E.
Proof. intros HPQ Hm w cs Hw. specialize (Hm w cs Hw). destruct (m w) as [[a|e|] w1]; naive_solver. Qed.

Lemma logs_record name arguments : logs (_record name arguments) [recorded_call name arguments] (fun _ => True) E.
Proof. intros w cs Hw. unfold _record, modify. rewrite Hw. done. Qed.

Hypothesis cancelled_allowed : E ECancelled.

Lemma logs_await : logs await_point [] (fun _ => True) E.
Proof. intros w cs Hw. unfold await_point. rewrite app_nil_r. repeat case_match; simplify_eq; done. Qed.

(** A tool records its call, waits and answers. *)
Lemma logs_tool name arguments d (r : pyres val) a :
  r = Ok a ->
  logs (_record name arguments;; sleep d;; lift r) [recorded_call name arguments] (fun x => x = a) E.
Proof.
  intros Hr. eapply (logs_bind _ _ [recorded_call name arguments] []); [apply logs_record|intros [] _].
  eapply (logs_bind _ _ [] []); [apply logs_await|intros [] _]. by apply logs_lift.
Qed.
End Logs.

(** ** The deterministic adapter *)

(** The calls of an undisturbed diagnosis. *)
Definition expected_calls (i : incident) : list val :=
  let service_window := [("service", VStr (in_service i)); ("window", VStr (in_window i))] in
  [recorded_call "get_incident" [("incident_id", VStr (in_incident_id i))];
   recorded_call "query_metrics" service_window;
   recorded_call "search_logs" service_window;
   recorded_call "lookup_runbook" [("error_signature", VStr (in_error_signature i))]].

(** Callbacks that end and leave the recorded calls alone, as those of the
    runner do. *)
Definition keeps_calls (m : M unit) : Prop :=
  total m /\ forall w, w_calls (m w).2 = w_calls w.

Definition polite (lifecycle : option AgentLifecycle) : Prop :=
  forall lc, lifecycle = Some lc ->
    (forall e, keeps_calls (tool_started lc e)) /\ (forall e t, keeps_calls (tool_finished lc e t)).

Section FakeRun.
Context {env : Env} (repr : val -> string) (lifecycle : option AgentLifecycle).
Hypothesis lifecycle_polite : polite lifecycle.

(** Without callbacks only a cancellation can interrupt the adapter. *)
Definition interruption (e : exn) : Prop := lifecycle = None -> e = ECancelled.

Lemma logs_notify f : (forall lc, lifecycle = Some lc -> keeps_calls (f lc)) ->
  logs (notify lifecycle f) [] (fun _ => True) interruption.
Proof.
  intros Hf w cs Hw. unfold notify. destruct lifecycle as [lc|] eqn:El; [|simpl; by rewrite app_nil_r].
  destruct (Hf lc eq_refl) as [Ht Hk]. specialize (Ht w). specialize (Hk w).
  destruct (f lc w) as [[[]|e|] w1]; simpl in *; [|intros ?; congruence|done]. rewrite app_nil_r. split; [done|congruence].
Qed.

Lemma logs_invoke case_id index name function arguments new a :
  logs (function arguments) new (fun x => x = a) interruption ->
  logs (_invoke lifecycle case_id index name function arguments) new (fun x => x = a) interruption.
Proof.
  intros Hf. unfold _invoke. cbv zeta. rewrite <- (app_nil_l new), <- (app_nil_r new).
  eapply logs_bind; [apply logs_notify; intros lc Hl; apply (lifecycle_polite lc Hl)|intros [] _].
  eapply logs_bind; [exact Hf|intros x ->]. rewrite <- (app_nil_r []).
  eapply logs_bind; [apply logs_notify; intros lc Hl; apply (lifecycle_polite lc Hl)|intros [] _]. by apply logs_ret.
Qed.

Lemma interruption_cancelled : interruption ECancelled.
Proof. done. Qed.

Lemma four_tools_logs case_id i : i ∈ _FIXTURES ->
  logs (four_tools repr lifecycle case_id (in_incident_id i)) (expected_calls i) (fun _ => True) interruption.
Proof.
  intros Hi. apply incident_reachable in Hi as (Hid & Hsv & Hrb). unfold expected_calls. cbv zeta.
  destruct (runbook_view (VStr (in_error_signature i))) as [rb|] eqn:Erb; [|done].
  unfold four_tools. pose proof interruption_cancelled as Hc.
  eapply (logs_bind _ _ _ [_] [_; _; _]).
  { apply logs_invoke, logs_tool; [done|]. unfold incident_view, mbind, result_bind. by rewrite Hid. }
  intros r1 ->. cbn [str_field dict_get String.eqb Ascii.eqb Bool.eqb py_str].
  eapply (logs_bind _ _ _ [] [_; _; _]); [by apply logs_lift|intros ? ->].
  eapply (logs_bind _ _ _ [] [_; _; _]); [by apply logs_lift|intros ? ->]. cbv zeta.
  eapply (logs_bind _ _ _ [_] [_; _]).
  { apply logs_invoke, logs_tool; [done|]. unfold metrics_view, mbind, result_bind. by rewrite Hsv. }
  intros r2 _. eapply (logs_bind _ _ _ [_] [_]).
  { apply logs_invoke, logs_tool; [done|]. unfold logs_view, mbind, result_bind. by rewrite Hsv. }
  intros r3 ->. eapply (logs_bind _ _ _ [] [_]); [by apply logs_lift|intros ? ->].
  eapply (logs_bind _ _ _ [_] []); [apply logs_invoke, logs_tool; done|]. intros r4 _. by apply logs_ret.
Qed.
End FakeRun.
(** ** The judgement of recorded calls *)

Definition is_call (call : val) (name : string) (expected : list (string * string)) : bool :=
  match call with
  | VDict d => eq_str (get_none d "name") name && equals_strings (get_none d "arguments") expected
  | _ => false
  end.

(** The traces the benchmark accepts: the incident first, metrics and logs of
    its window in either order, the runbook of its signature last. *)
Definition valid_trace (i : incident) (calls : list val) : bool :=
  let service_window := [("service", in_service i); ("window", in_window i)] in
  match calls with
  | [a; b; c; d] =>
      is_call a "get_incident" [("incident_id", in_incident_id i)] &&
      ((is_call b "query_metrics" service_window && is_call c "search_logs" service_window) ||
       (is_call b "search_logs" service_window && is_call c "query_metrics" service_window)) &&
      is_call d "lookup_runbook" [("error_signature", in_error_signature i)]
  | _ => false
  end.

Lemma eq_str_true v s : eq_str v s = true <-> v = VStr s.
Proof. split; [|intros ->; apply String.eqb_refl]. destruct v; simpl; try done. intros ->%String.eqb_eq. done. Qed.

Lemma is_call_named call name name' expected :
  call_name call = Some (VStr name') -> name <> name' -> is_call call name expected = false.
Proof.
  destruct call; try done. cbn. intros [= ->] Hne. cbn. by rewrite (proj2 (String.eqb_neq _ _) Hne).
Qed.

Lemma is_call_same call name expected :
  call_name call = Some (VStr name) -> is_call call name expected =
  equals_strings (match call with VDict d => get_none d "arguments" | _ => VNone end) expected.
Proof. destruct call; try done. cbn. intros [= ->]. cbn. by rewrite String.eqb_refl. Qed.

Lemma set_is_pair_two v1 v2 a b : a <> b ->
  set_is_pair [v1; v2] a b = true <-> (v1 = VStr a /\ v2 = VStr b) \/ (v1 = VStr b /\ v2 = VStr a).
Proof.
  intros Hab. unfold set_is_pair. simpl. rewrite !andb_true_r, !orb_false_r.
  rewrite !andb_true_iff, !orb_true_iff, !eq_str_true. naive_solver congruence.
Qed.
(** The names the tests on the boundary and the middle of a trace let
    through. *)
Definition named_trace (a b c d : val) : Prop :=
  call_name a = Some (VStr "get_incident") /\ call_name d = Some (VStr "lookup_runbook") /\
  ((call_name b = Some (VStr "query_metrics") /\ call_name c = Some (VStr "search_logs")) \/
   (call_name b = Some (VStr "search_logs") /\ call_name c = Some (VStr "query_metrics"))).

Lemma tests_name_trace a b c d :
  let names := omap call_name [a; b; c; d] in
  is_single (take 1 names) "get_incident" = true -> is_single (last_one names) "lookup_runbook" = true ->
  set_is_pair (take 2 (drop 1 names)) "query_metrics" "search_logs" = true -> named_trace a b c d.
Proof.
  unfold named_trace. csimpl.
  destruct (call_name a) as [na|], (call_name b) as [nb|], (call_name c) as [nc|], (call_name d) as [nd|]; csimpl;
    unfold last_one; cbn [length Nat.sub drop take is_single]; try done; rewrite !eq_str_true; intros -> Hlast; try done.
  1: { subst nd. rewrite set_is_pair_two by done. naive_solver. }
  all: subst; try rewrite set_is_pair_two by done; naive_solver.
Qed.

Lemma arguments_of_named calls name call :
  List.find (fun c => match call_name c with Some v => eq_str v name | None => false end) (rev calls) = Some call ->
  arguments_of calls name = match call with VDict d => get_none d "arguments" | _ => VNone end.
Proof. unfold arguments_of. by intros ->. Qed.

(** On a trace with the right names the judgement is about the arguments. *)
Lemma judge_named i a b c d : named_trace a b c d ->
  judge_calls i (in_incident_id i) [a; b; c; d] =
  Ok (verdict (valid_trace i [a; b; c; d])
        (if valid_trace i [a; b; c; d] then "" else "tool arguments do not follow prior tool evidence")).
Proof.
  intros (Ha & Hd & Hbc). unfold judge_calls, valid_trace.
  rewrite (is_call_same _ _ _ Ha), (is_call_same _ _ _ Hd).
  destruct Hbc as [[Hb Hc]|[Hb Hc]];
    csimpl; rewrite Ha, Hb, Hc, Hd; csimpl;
    rewrite (arguments_of_named [a; b; c; d] "get_incident" a), (arguments_of_named [a; b; c; d] "lookup_runbook" d)
      by (simpl; rewrite ?Ha, ?Hb, ?Hc, ?Hd; done).
  - rewrite (arguments_of_named [a; b; c; d] "query_metrics" b), (arguments_of_named [a; b; c; d] "search_logs" c)
      by (simpl; rewrite ?Ha, ?Hb, ?Hc, ?Hd; done).
    rewrite (is_call_named b "search_logs" _ _ Hb), ?(is_call_same _ _ _ Hb), ?(is_call_same _ _ _ Hc) by done.
    by repeat match goal with |- context [equals_strings ?v ?e] => destruct (equals_strings v e) end.
  - rewrite (arguments_of_named [a; b; c; d] "query_metrics" c), (arguments_of_named [a; b; c; d] "search_logs" b)
      by (simpl; rewrite ?Ha, ?Hb, ?Hc, ?Hd; done).
    rewrite (is_call_named b "query_metrics" _ _ Hb), ?(is_call_same _ _ _ Hb), ?(is_call_same _ _ _ Hc) by done.
    by repeat match goal with |- context [equals_strings ?v ?e] => destruct (equals_strings v e) end.
Qed.
Lemma valid_trace_named i a b c d : valid_trace i [a; b; c; d] = true -> named_trace a b c d.
Proof.
  assert (forall v n e, is_call v n e = true -> call_name v = Some (VStr n)) as H.
  { intros v n e. destruct v; try done. cbn. rewrite andb_true_iff, eq_str_true. by intros [-> _]. }
  unfold valid_trace, named_trace. rewrite !andb_true_iff, orb_true_iff, !andb_true_iff. naive_solver.
Qed.

(** The judgement of a known incident passes exactly the valid traces. *)
Lemma judge_iff i calls :
  judge_calls i (in_incident_id i) calls = Ok (verdict true "") <-> valid_trace i calls = true.
Proof.
  destruct calls as [|a [|b [|c [|d [|e rest]]]]]; [by split..| |by split].
  split.
  - intros H. assert (named_trace a b c d) as Hn.
    { unfold judge_calls in H. cbn [length Nat.eqb negb orb] in H.
      destruct (is_single (take 1 _) _) eqn:E1; [|done]. destruct (is_single (last_one _) _) eqn:E2; [|done].
      cbn [negb orb] in H. destruct (forallb hashable _); [|done]. cbn [negb] in H.
      destruct (set_is_pair _ _ _) eqn:E3; [|done]. by apply tests_name_trace. }
    rewrite (judge_named i a b c d Hn) in H. by destruct (valid_trace i [a; b; c; d]).
  - intros H. rewrite (judge_named i a b c d (valid_trace_named i a b c d H)). by rewrite H.
Qed.

Lemma judged_context repr context metadata case_id i calls :
  incident_get (VStr case_id) = Ok (Some i) -> get_none context "case_id" = VStr case_id ->
  get_none context "metadata" = VDict metadata -> get_none metadata TOOL_CALLS_KEY = VList calls ->
  validate_tool_usage repr context = judge_calls i (in_incident_id i) calls.
Proof.
  intros Hi Hc Hm Hk. unfold validate_tool_usage. rewrite Hc, Hm, Hk. unfold mbind, result_bind.
  assert (py_str repr (py_or (VStr case_id) (VStr "")) = case_id) as ->.
  { unfold py_or. simpl. destruct (String.eqb_spec case_id ""); by subst. }
  rewrite Hi. by apply incident_get_found in Hi as [_ <-].
Qed.

(** C21.  The assertion of the benchmark passes exactly the traces of a
    correct diagnosis: the incident is read first, metrics and logs of its
    service window in either order, the runbook of its error signature last,
    each once and with these arguments only. *)
Theorem tool_usage_decides repr context metadata case_id i calls :
  incident_get (VStr case_id) = Ok (Some i) -> get_none context "case_id" = VStr case_id ->
  get_none context "metadata" = VDict metadata -> get_none metadata TOOL_CALLS_KEY = VList calls ->
  validate_tool_usage repr context = Ok (verdict true "") <-> valid_trace i calls = true.
Proof.
  intros Hi Hc Hm Hk. rewrite (judged_context _ _ _ _ _ _ Hi Hc Hm Hk). apply judge_iff.
Qed.

Lemma expected_valid i : valid_trace i (expected_calls i) = true.
Proof. unfold valid_trace. cbn. by rewrite !String.eqb_refl. Qed.

(** ** The deterministic adapter passes its own assertion *)

Lemma diagnosis_encodes i : i ∈ _FIXTURES -> exists text, sorted_json (_diagnosis i) = Ok text.
Proof. intros _. eexists. reflexivity. Qed.

Section FakeRunTheorem.
Context {env : Env} (repr : val -> string).

(** C20.  A run of the deterministic adapter on a known incident always ends.
    It can only be interrupted by a cancellation or a callback; otherwise it
    answers with the diagnosis of the incident and with the recorded calls of
    a correct diagnosis, which the benchmark's assertion passes when the case
    is named after its incident.  The enclosing recording is restored either
    way. *)
Theorem fake_run_diagnoses case lifecycle i w :
  incident_get (VStr (incident_id_of repr case)) = Ok (Some i) -> polite lifecycle ->
  match fake_run repr case lifecycle w with
  | (Ret r, w') =>
      w_calls w' = w_calls w /\ sorted_json (_diagnosis i) = Ok (ar_output r) /\
      ar_metadata r = [(TOOL_CALLS_KEY, VList (expected_calls i))] /\
      (tc_case_id case = in_incident_id i ->
       validate_tool_usage repr [("case_id", VStr (tc_case_id case)); ("metadata", VDict (ar_metadata r))] =
       Ok (verdict true ""))
  | (Raise e, w') => w_calls w' = w_calls w /\ (lifecycle = None -> e = ECancelled)
  | (Diverge, _) => False
  end.
Proof.
  intros Hi Hp. destruct (incident_get_found _ _ Hi) as [Hf Hid].
  pose proof (four_tools_logs repr lifecycle Hp (tc_case_id case) i Hf (set_calls (Some []) w) [] eq_refl) as Hl.
  unfold fake_run, mbind, M_bind. rewrite Hi. cbn [lift mret M_ret]. unfold recording. rewrite <- Hid.
  destruct (four_tools repr lifecycle (tc_case_id case) (in_incident_id i) (set_calls (Some []) w)) as [[[]|e|] w1]; [|by split|done].
  destruct Hl as [_ Hl]. destruct (diagnosis_encodes i Hf) as [text Ht]. rewrite Ht, Hl. cbn [lift mret M_ret default app].
  split_and!; [done..|]. intros Hc. cbn [ar_metadata]. rewrite Hc.
  rewrite (judged_context repr _ [(TOOL_CALLS_KEY, VList (expected_calls i))] (in_incident_id i) i (expected_calls i));
    [apply judge_iff, expected_valid|by rewrite Hid|done..].
Qed.
End FakeRunTheorem.
(** ** The size of a scripted request *)

(** [m] ends with a value that satisfies [Q], unless the task is cancelled. *)
Definition ends {A} (m : M A) (Q : A -> Prop) : Prop :=
  forall w, match (m w).1 with Ret a => Q a | Raise e => e = ECancelled | Diverge => False end.

Section Ends.
Context {env : Env}.

Lemma ends_ret {A} (a : A) (Q : A -> Prop) : Q a -> ends (mret a) Q.
Proof. by intros H w. Qed.

Lemma ends_bind {A B} (m : M A) (k : A -> M B) (P : A -> Prop) (Q : B -> Prop) :
  ends m P -> (forall a, P a -> ends (k a) Q) -> ends (m ≫= k) Q.
Proof.
  intros Hm Hk w. unfold mbind, M_bind. specialize (Hm w). destruct (m w) as [[a|e|] w1]; [|done..]. by apply Hk.
Qed.

Lemma ends_lift {A} (r : pyres A) (a : A) : r = Ok a -> ends (lift r) (fun x => x = a).
Proof. by intros -> w. Qed.

Lemma ends_await : ends await_point (fun _ => True).
Proof. intros w. unfold await_point. cbv zeta. destruct (sn_cancel (observe (w_pos w))); [done|]. by destruct (past_deadline _ _). Qed.

Lemma ends_tool name arguments d (r : pyres val) a :
  r = Ok a -> ends (_record name arguments;; sleep d;; lift r) (fun x => x = a).
Proof.
  intros Hr. eapply (ends_bind _ _ (fun _ => True)); [by intros w|intros [] _].
  eapply ends_bind; [apply ends_await|intros [] _]. by apply ends_lift.
Qed.
End Ends.

Section Measure.
Context {env : Env} (repr : val -> string).

(** The token estimate of one incident, without the delays. *)
Definition scripted_tokens (incident_id : string) : pyres Z :=
  fetched ← incident_view (VStr incident_id);
  service ← subscript fetched "service";
  window ← subscript fetched "window";
  metrics ← metrics_view service window;
  logs ← logs_view service window;
  error_signature ← str_field repr logs "error_signature";
  runbook ← runbook_view (VStr error_signature);
  messages ← _scripted_history incident_id fetched metrics logs runbook;
  text ← dumps spaced (scripted_payload repr messages);
  Ok (approximate_token_count text).

Lemma measure_ends ids ts worst :
  mapM_result scripted_tokens ids = Ok ts ->
  ends (measure repr worst ids) (fun z => z = foldl Z.max worst ts).
Proof.
  intros H%mapM_result_Ok. revert worst. induction H as [|id t ids ts Hid _ IH]; intros worst; [by apply ends_ret|].
  cbn [measure foldl]. unfold scripted_tokens, mbind, result_bind in Hid.
  destruct (incident_view (VStr id)) as [fetched|] eqn:E1; [|done].
  destruct (subscript fetched "service") as [service|] eqn:E2; [|done].
  destruct (subscript fetched "window") as [window|] eqn:E3; [|done].
  destruct (metrics_view service window) as [metrics|] eqn:E4; [|done].
  destruct (logs_view service window) as [logs0|] eqn:E5; [|done].
  destruct (str_field repr logs0 "error_signature") as [sig|] eqn:E6; [|done].
  destruct (runbook_view (VStr sig)) as [runbook|] eqn:E7; [|done].
  destruct (_scripted_history id fetched metrics logs0 runbook) as [messages|] eqn:E8; [|done].
  destruct (dumps spaced (scripted_payload repr messages)) as [text|] eqn:E9; [|done]. injection Hid as <-.
  eapply ends_bind; [by apply ends_tool|intros ? ->]. eapply ends_bind; [by apply ends_lift|intros ? ->].
  eapply ends_bind; [by apply ends_lift|intros ? ->]. eapply ends_bind; [by apply ends_tool|intros ? ->].
  eapply ends_bind; [by apply ends_tool|intros ? ->]. eapply ends_bind; [by apply ends_lift|intros ? ->].
  eapply ends_bind; [by apply ends_tool|intros ? ->]. eapply ends_bind; [by apply ends_lift|intros ? ->].
  eapply ends_bind; [by apply ends_lift|intros ? ->]. apply IH.
Qed.

(** The estimates of all incidents; none of them needs [repr]. *)
Definition measured_tokens : list Z := Eval vm_compute in
  match mapM_result (fun id => scripted_tokens id) _INCIDENTS.*1 with Ok ts => ts | Err _ => [] end.

Lemma all_measured : mapM_result scripted_tokens _INCIDENTS.*1 = Ok measured_tokens.
Proof. vm_compute. reflexivity. Qed.

(** Measuring the largest scripted request succeeds on every incident of the
    fixtures and gives 1023 tokens; the allowance the adapter charges for a
    call without usage covers that request together with the outputs of all
    earlier model calls at their token cap. *)
Theorem allowance_covers_scripted_requests :
  ends (largest_scripted_request_tokens repr) (fun measured =>
    measured = 1023 /\
    measured + (SRE_COMPATIBLE_MAX_MODEL_CALLS - 1) * SRE_COMPATIBLE_MAX_OUTPUT_TOKENS <
      SRE_COMPATIBLE_INPUT_TOKEN_ALLOWANCE).
Proof.
  intros w. pose proof (measure_ends _ _ 0 all_measured w) as H.
  unfold largest_scripted_request_tokens. destruct ((measure repr 0 _INCIDENTS.*1) w).1; [|done..].
  rewrite H. split; vm_compute; reflexivity.
Qed.
End Measure.
(** ** Recording another adapter *)

(** Whatever the adapter does, the enclosing recording is restored, and the
    number of tool calls of the answer is the number of recorded calls. *)
Lemma recording_run_isolated adapter case lifecycle w :
  match recording_run adapter case lifecycle w with
  | (Ret r, w') =>
      w_calls w' = w_calls w /\ exists calls, dict_get (ar_metadata r) TOOL_CALLS_KEY = Some (VList calls) /\
        ar_tool_call_count r = Some (Z.of_nat (length calls))
  | (Raise _, w') => w_calls w' = w_calls w
  | (Diverge, _) => (adapter case lifecycle (set_calls (Some []) w)).1 = Diverge
  end.
Proof.
  unfold recording_run, recording, mbind, M_bind. destruct (adapter case lifecycle _) as [[r|e|] w1]; [|done..].
  cbn. split; [done|]. eexists. by rewrite dict_get_set_eq.
Qed.

(** The recorded benchmark adapter satisfies the adapter interface whenever
    the adapter inside does. *)
Lemma recording_total adapter case lifecycle : total (adapter case lifecycle) -> total (recording_run adapter case lifecycle).
Proof.
  intros H w. unfold recording_run, recording, mbind, M_bind. specialize (H (set_calls (Some []) w)).
  by destruct (adapter case lifecycle _) as [[r|e|] w1].
Qed.

#[global] Instance recording_adapter (inner : AgentAdapter) : AgentAdapter := {|
  adapter_run := recording_run (@adapter_run inner);
  adapter_total := fun case lc H => recording_total _ case lc (@adapter_total inner case lc H)
|}.

(** ** Concrete runs *)

Definition plain_repr (_ : val) : string := "".
Definition sre_case : TestCase := mkTestCase "INC-009" "Investigate" None [] [("incident_id", VStr "INC-009")].

Lemma fake_run_diagnoses_witness :
  exists r w', @fake_run calm plain_repr sre_case None start_task = (Ret r, w') /\
    validate_tool_usage plain_repr [("case_id", VStr "INC-009"); ("metadata", VDict (ar_metadata r))] = Ok (verdict true "").
Proof.
  assert (exists i, incident_get (VStr (incident_id_of plain_repr sre_case)) = Ok (Some i) /\ in_incident_id i = "INC-009")
    as (i & Hi & Hid) by (eexists; split; [vm_compute; reflexivity|reflexivity]).
  pose proof (@fake_run_diagnoses calm plain_repr sre_case None i start_task Hi ltac:(intros lc H; discriminate H)) as H.
  assert (exists r w', @fake_run calm plain_repr sre_case None start_task = (Ret r, w')) as (r & w' & Hr).
  { eexists _, _. vm_compute. reflexivity. }
  rewrite Hr in H. destruct H as (_ & _ & _ & Hv). exists r, w'. split; [exact Hr|]. exact (Hv (eq_sym Hid)).
Defined.

Lemma tool_usage_decides_witness :
  exists i, incident_get (VStr "INC-009") = Ok (Some i) /\
  validate_tool_usage plain_repr [("case_id", VStr "INC-009");
    ("metadata", VDict [(TOOL_CALLS_KEY, VList (rev (expected_calls i)))])] <> Ok (verdict true "").
Proof.
  assert (exists i, incident_get (VStr "INC-009") = Ok (Some i) /\ valid_trace i (rev (expected_calls i)) = false)
    as (i & Hi & Hf) by (eexists; split; [vm_compute; reflexivity|vm_compute; reflexivity]).
  exists i. split; [exact Hi|]. intros H.
  apply (tool_usage_decides plain_repr
           [("case_id", VStr "INC-009"); ("metadata", VDict [(TOOL_CALLS_KEY, VList (rev (expected_calls i)))])] [(TOOL_CALLS_KEY, VList (rev (expected_calls i)))] "INC-009" i
           (rev (expected_calls i)) Hi eq_refl eq_refl eq_refl) in H.
  rewrite Hf in H. discriminate H.
Defined.

(** The wrapper takes a fenced answer out of its fence. *)
Example fence_unwrapped :
  let nl := String (ascii_of_nat 10) "" in
  _unwrap_json_fence (" ```json" +:+ nl +:+ "{}" +:+ nl +:+ "```" +:+ nl) = "{}" /\
  _unwrap_json_fence "```{}```" = "```{}```" /\ _unwrap_json_fence " {} " = " {} ".
Proof. split_and!; vm_compute; reflexivity. Qed.

(** The factory adds two request fields of its own: fifteen fields of the
    configuration, which the loader accepts, are one too many. *)
Definition sre_context (fields : dict) : AdapterFactoryContext :=
  mkFactoryContext "openai-compatible" "m-1" "https://llm.example/v1" None fields None None.

Example fifteen_fields_refused :
  is_ok (@_create_openai_compatible_adapter calm plain_repr yes yes (sre_context (take 14 sixteen_fields))) = true /\
  is_ok (load (take 15 sixteen_fields)) = true /\
  (@_create_openai_compatible_adapter calm plain_repr yes yes (sre_context (take 15 sixteen_fields))) =
  Err (ValueError "target.requestFields must contain at most 16 entries").
Proof. split_and!; vm_compute; reflexivity. Qed.
End SRE.
