(* ===== verification/Tracing.v ===== *)
(** * Telemetry clients ([telemetry.py])

    The no-op client, the OpenTelemetry client and the sanitising wrapper, down
    to the calls that reach the tracing SDK, and the choice of the client from
    the environment.  The SDK is a log of what it was told.  [Effects.v] gives
    the runner's view of a client, a trace of span events under a policy; the
    last section connects the two. *)
From S2P Require Import Prelude PyFloat PyStr PyVal PyJson Models Circuit Effects Telemetry.
Import PyFloat PyStr PyVal Telemetry.

Module Tracing.

Section Clients.
Context (re_sub : string -> string -> string).

(** What the tracing SDK is told. *)
Inductive sdk_event :=
| SdkStart (id : nat) (name : string) (attributes : dict)
| SdkAttribute (id : nat) (name : string) (v : val)
| SdkErrorStatus (id : nat)
| SdkEnd (id : nat).

(** The SDK's log, newest first, the next span identity, and the detached
    spans whose [_ended] flag is set. *)
Record exporter := mkExporter { xp_log : list sdk_event; xp_next : nat; xp_ended : list nat; xp_shutdown : bool }.

Definition tell (e : sdk_event) (x : exporter) : exporter :=
  mkExporter (e :: xp_log x) (xp_next x) (xp_ended x) (xp_shutdown x).

Definition ended (x : exporter) (id : nat) : bool := bool_decide (id ∈ xp_ended x).

Definition fresh (name : string) (attributes : dict) (x : exporter) : nat * exporter :=
  (xp_next x, mkExporter (SdkStart (xp_next x) name attributes :: xp_log x) (S (xp_next x)) (xp_ended x) (xp_shutdown x)).

(** The protocols [TraceSpan] and [DetachedTraceSpan]; [end] of a span that is
    not detached is the end of its [with] block. *)
Record TraceSpan := mkTraceSpan {
  set_attribute : string -> val -> exporter -> exporter;
  set_error : string -> exporter -> exporter;
  end_span : exporter -> exporter
}.

(** The protocol [TelemetryClient]; [start_span] enters the span's context. *)
Record TelemetryClient := mkTelemetryClient {
  start_span : string -> dict -> exporter -> TraceSpan * exporter;
  start_detached_span : string -> dict -> exporter -> TraceSpan * exporter;
  shutdown : exporter -> exporter
}.

Definition _NoopSpan : TraceSpan := mkTraceSpan (fun _ _ x => x) (fun _ x => x) (fun x => x).

Definition noop_telemetry : TelemetryClient :=
  mkTelemetryClient (fun _ _ x => (_NoopSpan, x)) (fun _ _ x => (_NoopSpan, x)) (fun x => x).

Definition error_events (id : nat) (error_type : string) (x : exporter) : exporter :=
  tell (SdkErrorStatus id) (tell (SdkAttribute id "error.type" (VStr error_type)) x).

(** An entered span: its [_span] is set. *)
Definition _OpenTelemetrySpan (id : nat) : TraceSpan :=
  mkTraceSpan (fun name v x => tell (SdkAttribute id name v) x) (error_events id) (tell (SdkEnd id)).

Definition _OpenTelemetryDetachedSpan (id : nat) : TraceSpan :=
  mkTraceSpan
    (fun name v x => if ended x id then x else tell (SdkAttribute id name v) x)
    (fun error_type x => if ended x id then x else error_events id error_type x)
    (fun x => if ended x id then x
              else mkExporter (SdkEnd id :: xp_log x) (xp_next x) (id :: xp_ended x) (xp_shutdown x)).

Definition open_telemetry_client : TelemetryClient :=
  mkTelemetryClient
    (fun name attributes x => let '(id, x') := fresh name attributes x in (_OpenTelemetrySpan id, x'))
    (fun name attributes x => let '(id, x') := fresh name attributes x in (_OpenTelemetryDetachedSpan id, x'))
    (fun x => mkExporter (xp_log x) (xp_next x) (xp_ended x) true).

(** [_SanitizedSpan] and [_SanitizedDetachedSpan] *)
Definition _SanitizedSpan (span : TraceSpan) (sanitizer : ContentSanitizer) : TraceSpan :=
  mkTraceSpan (fun name v => set_attribute span name (sanitize_attribute re_sub sanitizer v))
    (set_error span) (end_span span).

Definition sanitized (cs : ContentSanitizer) (attributes : dict) : dict :=
  (fun kv => (kv.1, sanitize_attribute re_sub cs kv.2)) <$> attributes.

Definition sanitizing_telemetry (inner : TelemetryClient) (cs : ContentSanitizer) : TelemetryClient :=
  mkTelemetryClient
    (fun name attributes x =>
       let '(s, x') := start_span inner name (sanitized cs attributes) x in (_SanitizedSpan s cs, x'))
    (fun name attributes x =>
       let '(s, x') := start_detached_span inner name (sanitized cs attributes) x in (_SanitizedSpan s cs, x'))
    (shutdown inner).

(** [NoopTelemetry], [OpenTelemetryClient] and [SanitizingTelemetry] objects,
    and their methods. *)
Inductive client :=
| NoopTelemetry
| OpenTelemetryClient
| SanitizingTelemetry (inner : client) (sanitizer : ContentSanitizer).

Fixpoint methods (c : client) : TelemetryClient :=
  match c with
  | NoopTelemetry => noop_telemetry
  | OpenTelemetryClient => open_telemetry_client
  | SanitizingTelemetry inner cs => sanitizing_telemetry (methods inner) cs
  end.

Definition is_sanitizing (c : client) : bool := match c with SanitizingTelemetry _ _ => true | _ => false end.

Definition telemetry_with_policy (c : client) (config : TelemetryConfig) : client :=
  if negb (String.eqb (tm_content_mode config) "redacted") || is_sanitizing c then c
  else SanitizingTelemetry c (mkSanitizer (td_patterns (tm_redaction config))).

(** [_boolean_environment], with the value of the variable. *)
Definition _boolean_environment (name : string) (value : option string) (fallback : bool) : pyres bool :=
  match value with
  | None => Ok fallback
  | Some v =>
      if String.eqb v "" then Ok fallback
      else
        let normalized := lower (strip v) in
        if String.eqb normalized "true" then Ok true
        else if String.eqb normalized "false" then Ok false
        else Err (ValueError (name +:+ " must be true or false"))
  end.

(** [_package_version] *)
Definition _package_version (installed : option string) : string := default "development" installed.

(** [telemetry_from_environment]: the client, and the resource of the tracer
    provider when there is one. *)
Definition telemetry_from_environment (otel_enabled service_name package : option string) (otel_installed : bool)
    (config : TelemetryConfig) : pyres (client * option dict) :=
  enabled ← _boolean_environment "AGENTSTORM_OTEL_ENABLED" otel_enabled false;
  if negb enabled then
    if String.eqb (tm_content_mode config) "redacted"
    then Err (RuntimeError "redacted telemetry requires OpenTelemetry to be enabled")
    else Ok (NoopTelemetry, None)
  else if negb otel_installed then
    Err (RuntimeError ("OpenTelemetry is enabled but telemetry dependencies are not installed; " +:+
                       "install agentstorm-worker[telemetry]"))
  else
    Ok (telemetry_with_policy OpenTelemetryClient config,
        Some [("service.name", VStr (default "agentstorm-worker" service_name));
              ("service.version", VStr (_package_version package))]).

(** ** Properties *)

(** In redacted mode the only client that is ever used sanitises. *)
Lemma redacted_needs_sanitizer otel_enabled service_name package installed config c resource :
  tm_content_mode config = "redacted" ->
  telemetry_from_environment otel_enabled service_name package installed config = Ok (c, resource) ->
  c = SanitizingTelemetry OpenTelemetryClient (mkSanitizer (td_patterns (tm_redaction config))).
Proof.
  intros Hm. unfold telemetry_from_environment, telemetry_with_policy, mbind, result_bind. rewrite Hm. cbn.
  destruct (_boolean_environment _ _ _) as [[]|]; cbn; [|done..]. destruct installed; cbn; by intros [= <- _].
Qed.

(** ** A detached span ends once *)

Inductive span_call := CAttribute (name : string) (v : val) | CError (error_type : string) | CEnd.

Definition apply_call (s : TraceSpan) (x : exporter) (c : span_call) : exporter :=
  match c with
  | CAttribute name v => set_attribute s name v x
  | CError error_type => set_error s error_type x
  | CEnd => end_span s x
  end.

(** The calls up to the first end, and whether there is one. *)
Fixpoint until_end (calls : list span_call) : list span_call * bool :=
  match calls with
  | [] => ([], false)
  | CEnd :: _ => ([], true)
  | c :: rest => let '(l, b) := until_end rest in (c :: l, b)
  end.

Definition call_events (id : nat) (c : span_call) : list sdk_event :=
  match c with
  | CAttribute name v => [SdkAttribute id name v]
  | CError t => [SdkAttribute id "error.type" (VStr t); SdkErrorStatus id]
  | CEnd => [SdkEnd id]
  end.

Lemma calls_after_end id x calls : ended x id = true ->
  foldl (apply_call (_OpenTelemetryDetachedSpan id)) x calls = x.
Proof.
  intros He. induction calls as [|c calls IH]; [done|]. cbn [foldl].
  destruct c; cbn; by rewrite He.
Qed.

(** Whatever is called on a detached span, the SDK sees the calls up to the
    first end and one end; later calls are dropped. *)
Theorem detached_span_exports id x calls : ended x id = false ->
  xp_log (foldl (apply_call (_OpenTelemetryDetachedSpan id)) x calls) =
  rev ((mjoin (call_events id <$> (until_end calls).1)) ++ if (until_end calls).2 then [SdkEnd id] else []) ++ xp_log x.
Proof.
  revert x. induction calls as [|c calls IH]; intros x He; [done|]. cbn [foldl until_end].
  destruct c as [name v|t|]; cbn [apply_call set_attribute set_error end_span _OpenTelemetryDetachedSpan]; rewrite ?He.
  - rewrite IH by done. destruct (until_end calls) as [l b]. csimpl. rewrite <- app_assoc. done.
  - unfold error_events. rewrite IH by done. destruct (until_end calls) as [l b]. csimpl. rewrite <- !app_assoc. done.
  - rewrite calls_after_end; [done|]. unfold ended. cbn. apply bool_decide_eq_true. set_solver.
Qed.

(** ** The sanitising wrapper as a policy *)

(** A call with its attribute under the sanitiser. *)
Definition sanitize_call (cs : ContentSanitizer) (c : span_call) : span_call :=
  match c with CAttribute name v => CAttribute name (sanitize_attribute re_sub cs v) | c => c end.

(** The wrapper does with a span what the client inside does with sanitised
    attributes, and nothing else. *)
Theorem sanitizing_is_policy cs c name attributes calls x :
  let '(s, x1) := start_detached_span (methods (SanitizingTelemetry c cs)) name attributes x in
  let '(t, x2) := start_detached_span (methods c) name (sanitized cs attributes) x in
  x1 = x2 /\ foldl (apply_call s) x1 calls = foldl (apply_call t) x2 (sanitize_call cs <$> calls).
Proof.
  cbn [methods sanitizing_telemetry start_detached_span].
  destruct (start_detached_span (methods c) name (sanitized cs attributes) x) as [t x2].
  split; [done|]. revert x2. induction calls as [|k calls IH]; intros x2; [done|]. csimpl. rewrite <- IH. by destruct k.
Qed.

(** A shutdown reaches the tracer provider through any number of wrappers. *)
Lemma shutdown_reaches c x : xp_shutdown x = false ->
  xp_shutdown (shutdown (methods c) x) = true <->
  (fix real c := match c with SanitizingTelemetry i _ => real i | OpenTelemetryClient => True | NoopTelemetry => False end) c.
Proof. intros Hx. induction c as [| |c IH cs]; cbn; [by rewrite Hx|done|exact IH]. Qed.

(** The attributes the runner hands to a client go through the policy of the
    configuration exactly as in [Effects.policy_attrs]. *)
Lemma policy_is_sanitizer config cs attributes : sanitizer_of config = Some cs ->
  policy_attrs (policy_of re_sub config) attributes = sanitized cs attributes.
Proof. intros H. unfold policy_of. by rewrite H. Qed.
End Clients.
End Tracing.
